(** * mp++ : small-value-optimised multiprecision integers

    A shallow embedding of [include/mp++.hpp] (class [mp_integer<SSize>],
    its storage union [integer_union<SSize>] and the static buffer
    [static_int<SSize>]) together with the properties of the library that
    are checked against it.

    Conventions of the embedding.
    - A limb ([::mp_limb_t]) is a [Z] in [0, 2^GMP_LIMB_BITS); every C++
      operation that can wrap is written with an explicit [limb_wrap].
    - Sizes ([mpz_size_t], [mpz_alloc_t], [std::size_t], [::mp_bitcnt_t])
      are [Z]; the places where the source guards against their overflow
      are kept as guards.
    - Integers live in an object store indexed by addresses ([loc]); the
      free functions of the library ([add], [div], ...) take addresses, so
      that [&q == &r] and overlapping operands mean what they mean in C++.
    - Code that throws, aborts or runs into undefined behaviour (a failed
      [assert], an out-of-range index) yields the corresponding [outcome].
    - The GMP entry points ([mpn_*], [mpz_*]) are not part of the
      repository; they are given here by their documented contracts. *)

From Stdlib Require Import ZArith Lia Ascii String Floats.SpecFloat.
From stdpp Require Import base gmap list strings.

Open Scope Z_scope.

(** ** Build configuration *)

(** The compile-time parameters the header depends on: the template
    argument [SSize], the limb geometry of the GMP build, and the feature
    macros that select between implementations. *)
Class build_config := BuildConfig {
  SSize : Z;
  GMP_LIMB_BITS : Z;
  GMP_NAIL_BITS : Z;
  MPPP_UINT128 : bool;
  MPPP_HAVE_THREAD_LOCAL : bool;
  SIZE_MAX : Z;
  BITCNT_MAX : Z
}.

Section Limbs.
Context {cfg : build_config}.

Definition GMP_NUMB_BITS : Z := GMP_LIMB_BITS - GMP_NAIL_BITS.
Definition GMP_NUMB_MASK : Z := 2 ^ GMP_NUMB_BITS - 1.
Definition GMP_NUMB_MAX : Z := GMP_NUMB_MASK.

(** Reduction of a mathematical value to the range of [::mp_limb_t]. *)
Definition limb_wrap (x : Z) : Z := x mod 2 ^ GMP_LIMB_BITS.

(** [limb_add_overflow(a, b, &res)]: [*res = a + b; return *res < a;]
    The pair is (stored sum, returned carry). *)
Definition limb_add_overflow (a b : Z) : Z * Z :=
  let res := limb_wrap (a + b) in
  (res, if res <? a then 1 else 0).

(** ** The backend's limb-level functions (GMP [mpn] layer)

    Natural numbers are little-endian limb vectors in base
    [2^GMP_NUMB_BITS]; only the numb part of a limb carries value. *)

Fixpoint mpn_value (l : list Z) : Z :=
  match l with
  | [] => 0
  | x :: l' => Z.land x GMP_NUMB_MASK + 2 ^ GMP_NUMB_BITS * mpn_value l'
  end.

Fixpoint mpn_of_Z (n : nat) (v : Z) : list Z :=
  match n with
  | O => []
  | S n' => v mod 2 ^ GMP_NUMB_BITS :: mpn_of_Z n' (v / 2 ^ GMP_NUMB_BITS)
  end.

(** Modelled from the spec: GMP's [mpn_add_n]/[mpn_add]/[mpn_add_1]
    ("add, write the [n] least significant limbs, return the carry").
    The result pair is (limbs written, value returned). *)
Definition mpn_add (s1 s2 : list Z) : list Z * Z :=
  let v := mpn_value s1 + mpn_value s2 in
  let n := length s1 in
  (mpn_of_Z n v, v / 2 ^ (GMP_NUMB_BITS * Z.of_nat n)).
Definition mpn_add_n (s1 s2 : list Z) : list Z * Z := mpn_add s1 s2.
Definition mpn_add_1 (s1 : list Z) (s2limb : Z) : list Z * Z := mpn_add s1 [s2limb].

(** Modelled from the spec: GMP's [mpn_sub_n]/[mpn_sub]/[mpn_sub_1]
    ("subtract, write the [n] least significant limbs, return the borrow"). *)
Definition mpn_sub (s1 s2 : list Z) : list Z * Z :=
  let v := mpn_value s1 - mpn_value s2 in
  let n := length s1 in
  (mpn_of_Z n v, if v <? 0 then 1 else 0).
Definition mpn_sub_n (s1 s2 : list Z) : list Z * Z := mpn_sub s1 s2.
Definition mpn_sub_1 (s1 : list Z) (s2limb : Z) : list Z * Z := mpn_sub s1 [s2limb].

(** Modelled from the spec: GMP's [mpn_cmp] (sign of the comparison). *)
Definition mpn_cmp (s1 s2 : list Z) : Z :=
  match mpn_value s1 ?= mpn_value s2 with
  | Lt => -1 | Eq => 0 | Gt => 1
  end.

(** Modelled from the spec: GMP's [mpn_divrem_1] with [qxn = 0]: the
    quotient of [{s2p, s2n}] by [s3limb] has [s2n] limbs, the remainder
    is returned. *)
Definition mpn_divrem_1 (s2 : list Z) (s3limb : Z) : list Z * Z :=
  let d := Z.land s3limb GMP_NUMB_MASK in
  (mpn_of_Z (length s2) (mpn_value s2 / d), mpn_value s2 mod d).

(** Modelled from the spec: GMP's [mpn_tdiv_qr] with [qxn = 0]: quotient
    in [nn - dn + 1] limbs, remainder in [dn] limbs. *)
Definition mpn_tdiv_qr (np dp : list Z) : list Z * list Z :=
  (mpn_of_Z (length np - length dp + 1) (mpn_value np / mpn_value dp),
   mpn_of_Z (length dp) (mpn_value np mod mpn_value dp)).

(** Modelled from the spec: GMP's [mpn_lshift]: the [n] low limbs of the
    shifted operand, and the bits shifted out at the top. *)
Definition mpn_lshift (sp : list Z) (count : Z) : list Z * Z :=
  let v := mpn_value sp * 2 ^ count in
  let n := length sp in
  (mpn_of_Z n v, v / 2 ^ (GMP_NUMB_BITS * Z.of_nat n)).

End Limbs.

(** ** Data model *)

(** [static_int<SSize>]: the inline buffer.  [m_limbs] is a
    [std::array<::mp_limb_t, SSize>]. *)
Record static_int := StaticInt {
  st_mp_alloc : Z;
  st_mp_size : Z;
  m_limbs : list Z
}.

(** [mpz_struct_t]: the backend's descriptor.  The descriptor owns the
    limbs [_mp_d] points to, so they are stored in place. *)
Record mpz_struct_t := MpzStruct {
  mp_alloc : Z;
  mp_size : Z;
  mp_d : list Z
}.

(** [union integer_union { s_storage m_st; d_storage m_dy; }] *)
Inductive integer_union :=
  | m_st (s : static_int)
  | m_dy (d : mpz_struct_t).

(** The exceptions thrown by the header. *)
Inductive exn := invalid_argument | zero_division_error | overflow_error.

(** The error taxonomy of the library's documentation;
    [zero_division_error] derives from [std::domain_error]. *)
Inductive error_category := domain_category | invalid_argument_category | overflow_category.

Definition exn_category (e : exn) : error_category :=
  match e with
  | invalid_argument => invalid_argument_category
  | zero_division_error => domain_category
  | overflow_error => overflow_category
  end.

Section StaticInt.
Context {cfg : build_config}.

Definition s_size : Z := SSize.
Definition s_alloc : Z := -1.
Definition opt_size : Z := 2.

(** [static_int() : _mp_alloc(s_alloc), _mp_size(0), m_limbs()] *)
Definition static_int_default : static_int :=
  StaticInt s_alloc 0 (replicate (Z.to_nat SSize) 0).

Definition abs_size (s : static_int) : Z :=
  if st_mp_size s >=? 0 then st_mp_size s else - st_mp_size s.

(** [m_limbs[i]] for an index the caller keeps in range. *)
Definition limb_at (l : list Z) (i : Z) : Z := nth (Z.to_nat i) l 0.

Definition dtor_checks (s : static_int) : bool :=
  let asize := abs_size s in
  if negb (st_mp_alloc s =? s_alloc) then false
  else if asize >? s_size then false
  else if (SSize <=? opt_size)
          && negb (forallb (λ x, x =? 0) (drop (Z.to_nat asize) (m_limbs s))) then false
  else if (asize >? 0) && (Z.land (limb_at (m_limbs s) (asize - 1)) GMP_NUMB_MASK =? 0) then false
  else true.

(** What the type [std::array<::mp_limb_t, SSize>] guarantees. *)
Definition limbs_typed (n : Z) (l : list Z) : Prop :=
  Z.of_nat (length l) = n ∧ Forall (λ x, 0 ≤ x < 2 ^ GMP_LIMB_BITS) l.

(** A static integer between two operations. *)
Definition static_int_valid (s : static_int) : Prop :=
  limbs_typed SSize (m_limbs s) ∧ dtor_checks s = true.

Definition zero_unused_limbs (s : static_int) : static_int :=
  if SSize <=? opt_size then
    StaticInt (st_mp_alloc s) (st_mp_size s)
      (take (Z.to_nat (abs_size s)) (m_limbs s)
         ++ replicate (length (m_limbs s) - Z.to_nat (abs_size s)) 0)
  else s.

(** [static_mpz_view(const static_int &n) : m_mpz{s_size, n._mp_size, n.m_limbs.data()}] *)
Definition get_mpz_view (s : static_int) : mpz_struct_t :=
  MpzStruct s_size (st_mp_size s) (m_limbs s).

(** ** The backend's integer functions (GMP [mpz] layer) *)

(** The integer denoted by a descriptor. *)
Definition mpz_value (d : mpz_struct_t) : Z :=
  Z.sgn (mp_size d) * mpn_value (take (Z.to_nat (Z.abs (mp_size d))) (mp_d d)).

(** Modelled from the spec: GMP's [mpz_sgn], [mpz_size], [mpz_cmp]. *)
Definition mpz_sgn (d : mpz_struct_t) : Z := Z.sgn (mp_size d).
Definition mpz_size (d : mpz_struct_t) : Z := Z.abs (mp_size d).
Definition mpz_cmp (a b : mpz_struct_t) : Z :=
  match mpz_value a ?= mpz_value b with
  | Lt => -1 | Eq => 0 | Gt => 1
  end.

(** Number of limbs of the magnitude of [v]. *)
Definition nlimbs_of (v : Z) : nat :=
  if v =? 0 then O else Z.to_nat (Z.log2 (Z.abs v) / GMP_NUMB_BITS + 1).

(** Modelled from the spec: what every [mpz] function does to its result
    operand: the descriptor is grown if needed and receives the
    normalised sign-magnitude form of the value. *)
Definition mpz_put (rop : mpz_struct_t) (v : Z) : mpz_struct_t :=
  let n := nlimbs_of v in
  MpzStruct (Z.max (mp_alloc rop) (Z.of_nat n))
            (Z.sgn v * Z.of_nat n)
            (mpn_of_Z n (Z.abs v) ++ drop n (mp_d rop)).

(** Modelled from the spec: GMP's [mpz_init], [mpz_init2], [mpz_set],
    [mpz_add], [mpz_sub]. *)
Definition mpz_init2 (nbits : Z) : mpz_struct_t :=
  let n := Z.max 1 ((nbits + GMP_NUMB_BITS - 1) / GMP_NUMB_BITS) in
  MpzStruct n 0 (replicate (Z.to_nat n) 0).
Definition mpz_init : mpz_struct_t := mpz_init2 0.
Definition mpz_set (rop op : mpz_struct_t) : mpz_struct_t := mpz_put rop (mpz_value op).
Definition mpz_add (rop a b : mpz_struct_t) : mpz_struct_t :=
  mpz_put rop (mpz_value a + mpz_value b).
Definition mpz_sub (rop a b : mpz_struct_t) : mpz_struct_t :=
  mpz_put rop (mpz_value a - mpz_value b).

(** A descriptor as the backend keeps it. *)
Definition mpz_valid (d : mpz_struct_t) : Prop :=
  0 ≤ mp_alloc d
  ∧ Z.abs (mp_size d) ≤ Z.of_nat (length (mp_d d))
  ∧ (mp_size d ≠ 0 →
     Z.land (limb_at (mp_d d) (Z.abs (mp_size d) - 1)) GMP_NUMB_MASK ≠ 0).

(** ** [integer_union]: tag test and projections *)

(** Both members start with [_mp_alloc]; [is_static] reads that word
    through [m_st] whichever member is active. *)
Definition alloc_word (u : integer_union) : Z :=
  match u with m_st s => st_mp_alloc s | m_dy d => mp_alloc d end.
Definition size_word (u : integer_union) : Z :=
  match u with m_st s => st_mp_size s | m_dy d => mp_size d end.

Definition is_static (u : integer_union) : bool := alloc_word u =? s_alloc.
Definition is_dynamic (u : integer_union) : bool := negb (alloc_word u =? s_alloc).

Definition integer_valid (u : integer_union) : Prop :=
  match u with
  | m_st s => static_int_valid s
  | m_dy d => mpz_valid d
  end.

(** The mathematical value of an integer. *)
Definition integer_value (u : integer_union) : Z :=
  match u with
  | m_st s => mpz_value (get_mpz_view s)
  | m_dy d => mpz_value d
  end.

End StaticInt.

(** ** Object store and the monad of effects *)

(** Addresses of [mp_integer] objects. *)
Definition loc := positive.

(** [struct mpz_cache]: per-thread pool of parked descriptors,
    [m_vec[k]] holding those with [_mp_alloc == k + 1]. *)
Record mpz_cache := MpzCache { m_vec : list (list mpz_struct_t) }.

Record state := State {
  objs : gmap loc integer_union;
  cache : mpz_cache
}.

Inductive outcome (A : Type) :=
  | Ret (a : A)            (* normal return *)
  | Throw (e : exn)        (* a C++ exception propagates *)
  | Abort                  (* std::abort() *)
  | Undefined.             (* failed assertion / undefined behaviour *)
Arguments Ret {A} a.
Arguments Throw {A} e.
Arguments Abort {A}.
Arguments Undefined {A}.

Definition M (A : Type) : Type := state → outcome A * state.

#[global] Instance M_ret : MRet M := λ A a σ, (Ret a, σ).
#[global] Instance M_bind : MBind M := λ A B f m σ,
  match m σ with
  | (Ret a, σ') => f a σ'
  | (Throw e, σ') => (Throw e, σ')
  | (Abort, σ') => (Abort, σ')
  | (Undefined, σ') => (Undefined, σ')
  end.

Definition throw {A} (e : exn) : M A := λ σ, (Throw e, σ).
Definition abort {A} : M A := λ σ, (Abort, σ).
Definition undefined {A} : M A := λ σ, (Undefined, σ).
(** [assert(b)] *)
Definition assert (b : bool) : M unit := if b then mret tt else undefined.
(** [if (b) { m }] *)
Definition when (b : bool) (m : M unit) : M unit := if b then m else mret tt.

Definition get_obj (l : loc) : M integer_union := λ σ,
  match objs σ !! l with
  | Some u => (Ret u, σ)
  | None => (Undefined, σ)
  end.
Definition put_obj (l : loc) (u : integer_union) : M unit := λ σ,
  (Ret tt, State (<[l := u]> (objs σ)) (cache σ)).
Definition get_cache : M mpz_cache := λ σ, (Ret (cache σ), σ).
Definition put_cache (c : mpz_cache) : M unit := λ σ, (Ret tt, State (objs σ) c).

Section Access.
Context {cfg : build_config}.

(** [g_st()]: [assert(is_static()); return m_st;] *)
Definition g_st (l : loc) : M static_int :=
  u ← get_obj l;
  match u with
  | m_st s => if is_static u then mret s else undefined
  | m_dy _ => undefined
  end.

(** [g_dy()]: [assert(is_dynamic()); return m_dy;] *)
Definition g_dy (l : loc) : M mpz_struct_t :=
  u ← get_obj l;
  match u with
  | m_dy d => if is_dynamic u then mret d else undefined
  | m_st _ => undefined
  end.

(** Reads and writes through a [static_int &]. *)
Definition load_size (l : loc) : M Z := s ← g_st l; mret (st_mp_size s).
Definition store_size (l : loc) (v : Z) : M unit :=
  s ← g_st l; put_obj l (m_st (StaticInt (st_mp_alloc s) v (m_limbs s))).

Definition load_limb (l : loc) (i : Z) : M Z :=
  s ← g_st l;
  if (0 <=? i) && (i <? Z.of_nat (length (m_limbs s)))
  then mret (limb_at (m_limbs s) i) else undefined.
Definition store_limb (l : loc) (i : Z) (v : Z) : M unit :=
  s ← g_st l;
  if (0 <=? i) && (i <? Z.of_nat (length (m_limbs s)))
  then put_obj l (m_st (StaticInt (st_mp_alloc s) (st_mp_size s)
                                  (<[Z.to_nat i := v]> (m_limbs s))))
  else undefined.

(** Reading the range [{p + off, n}] of a limb array in one go (the
    [mpn] functions read their sources before they write). *)
Definition load_limbs (l : loc) (off n : Z) : M (list Z) :=
  s ← g_st l;
  if (0 <=? off) && (0 <=? n) && (off + n <=? Z.of_nat (length (m_limbs s)))
  then mret (take (Z.to_nat n) (drop (Z.to_nat off) (m_limbs s))) else undefined.

(** Writing a list of limbs at [{p + off, length vs}]. *)
Definition store_limbs (l : loc) (off : Z) (vs : list Z) : M unit :=
  s ← g_st l;
  if (0 <=? off) && (off + Z.of_nat (length vs) <=? Z.of_nat (length (m_limbs s)))
  then put_obj l (m_st (StaticInt (st_mp_alloc s) (st_mp_size s)
         (take (Z.to_nat off) (m_limbs s) ++ vs
            ++ drop (Z.to_nat off + length vs) (m_limbs s))))
  else undefined.

(** [copy_limbs(begin, end, out)]: the loop
    [for (; begin != end; ++begin, ++out) *out = *begin;]
    between two (possibly overlapping) static buffers, ascending. *)
Fixpoint copy_limbs (n : nat) (src : loc) (soff : Z) (dst : loc) (doff : Z) : M unit :=
  match n with
  | O => mret tt
  | S n' =>
      x ← load_limb src soff;
      store_limb dst doff x;;
      copy_limbs n' src (soff + 1) dst (doff + 1)
  end.

(** [std::fill(first, first + n, 0)] on a static buffer. *)
Fixpoint fill_zero (n : nat) (dst : loc) (doff : Z) : M unit :=
  match n with
  | O => mret tt
  | S n' => store_limb dst doff 0;; fill_zero n' dst (doff + 1)
  end.

(** [rop.zero_unused_limbs()] through a reference. *)
Definition zero_unused_limbs_at (l : loc) : M unit :=
  s ← g_st l; put_obj l (m_st (zero_unused_limbs s)).

End Access.

(** ** The descriptor pool ([mpz_cache]) and promotion *)

Section Pool.
Context {cfg : build_config}.

Definition max_size : Z := 10.
Definition max_entries : Z := 100.

(** [mpz_cache() : m_vec(v_size_t(max_size))] *)
Definition mpz_cache_default : mpz_cache := MpzCache (replicate (Z.to_nat max_size) []).

(** [mpz_init_nlimbs(rop, nlimbs)] *)
Definition mpz_init_nlimbs (nlimbs : Z) : M mpz_struct_t :=
  if nlimbs >? SIZE_MAX / GMP_NUMB_BITS then abort
  else
    let nbits := GMP_NUMB_BITS * nlimbs in
    if nbits >? BITCNT_MAX then abort
    else
      let rop := mpz_init2 nbits in
      assert (mp_alloc rop >=? nlimbs);;
      mret rop.

(** [mpz_cache::push(m)]; [::mpz_clear] only gives memory back. *)
Definition mpz_cache_push (m : mpz_struct_t) : M unit :=
  assert (mp_alloc m >=? 0);;
  c ← get_cache;
  let size := mp_alloc m in
  if (size =? 0) || (size >? max_size) then mret tt
  else
    match m_vec c !! Z.to_nat (size - 1) with
    | None => undefined
    | Some bucket =>
        if Z.of_nat (length bucket) >=? max_entries then mret tt
        else put_cache (MpzCache (<[Z.to_nat (size - 1) := bucket ++ [m]]> (m_vec c)))
    end.

(** [mpz_cache::pop(retval, size)] *)
Definition mpz_cache_pop (size : Z) : M mpz_struct_t :=
  c ← get_cache;
  if (size =? 0) || (size >? max_size) then mpz_init_nlimbs size
  else
    match m_vec c !! Z.to_nat (size - 1) with
    | None => undefined
    | Some bucket =>
        match last bucket with
        | None => mpz_init_nlimbs size
        | Some m =>
            put_cache (MpzCache (<[Z.to_nat (size - 1) := removelast bucket]> (m_vec c)));;
            mret m
        end
    end.

Definition mpz_init_cache (nlimbs : Z) : M mpz_struct_t :=
  if MPPP_HAVE_THREAD_LOCAL then mpz_cache_pop nlimbs else mpz_init_nlimbs nlimbs.

Definition mpz_clear_cache (m : mpz_struct_t) : M unit :=
  if MPPP_HAVE_THREAD_LOCAL then mpz_cache_push m else mret tt.

(** [mpz_init_set_cache(m0, m1)] *)
Definition mpz_init_set_cache (m1 : mpz_struct_t) : M mpz_struct_t :=
  m0 ← mpz_init_cache (mpz_size m1);
  mret (mpz_set m0 m1).

(** [g_st().~s_storage()]: the destructor runs [assert(dtor_checks())]. *)
Definition destroy_static (l : loc) : M unit :=
  s ← g_st l; assert (dtor_checks s).

(** [integer_union::destroy_dynamic()] *)
Definition destroy_dynamic (l : loc) : M unit :=
  u ← get_obj l;
  assert (negb (is_static u));;
  d ← g_dy l;
  assert (mp_alloc d >=? 0);;
  mpz_clear_cache d.

(** [integer_union::promote(nlimbs)] *)
Definition promote (l : loc) (nlimbs : Z) : M unit :=
  u ← get_obj l;
  assert (is_static u);;
  s ← g_st l;
  let v := get_mpz_view s in
  tmp_mpz ← (if nlimbs =? 0 then mpz_init_set_cache v
             else (t ← mpz_init_cache nlimbs; mret (mpz_set t v)));
  destroy_static l;;
  put_obj l (m_dy tmp_mpz).

(** [mp_integer::get_mpz_view()]: the static view, or the dynamic
    descriptor itself. *)
Definition mpz_view (l : loc) : M mpz_struct_t :=
  u ← get_obj l;
  if is_static u then (s ← g_st l; mret (get_mpz_view s)) else g_dy l.

End Pool.

(** ** Addition and subtraction *)

Section AddSub.
Context {cfg : build_config}.

(** [static_add_algo<SInt>::value] *)
Definition static_add_algo : Z :=
  if (GMP_NAIL_BITS =? 0) && (s_size =? 1) then 1
  else if (GMP_NAIL_BITS =? 0) && (s_size =? 2) then 2 else 0.

(** The loop of [sub_compute_size]: [cur_idx] runs from [s - 1] down to
    the first limb with a nonzero numb part; the result is [cur_idx + 1]. *)
Fixpoint sub_compute_size_loop (rop : loc) (s : nat) : M Z :=
  match s with
  | O => mret 0
  | S s' =>
      x ← load_limb rop (Z.of_nat s');
      if negb (Z.land x GMP_NUMB_MASK =? 0) then mret (Z.of_nat s' + 1)
      else sub_compute_size_loop rop s'
  end.

(** [sub_compute_size(rdata, s)] *)
Definition sub_compute_size (rop : loc) (s : Z) : M Z :=
  assert (s >? 0);;
  sub_compute_size_loop rop (Z.to_nat s).

(** The [mpn] calls of the generic kernel: sources are read, the result
    is written at [rdata]. *)
Definition mpn_add_1_at (rop s1 : loc) (n : Z) (s2limb : Z) : M Z :=
  a ← load_limbs s1 0 n;
  let '(r, cy) := mpn_add_1 a s2limb in
  store_limbs rop 0 r;; mret cy.
Definition mpn_add_n_at (rop s1 s2 : loc) (n : Z) : M Z :=
  a ← load_limbs s1 0 n; b ← load_limbs s2 0 n;
  let '(r, cy) := mpn_add_n a b in
  store_limbs rop 0 r;; mret cy.
Definition mpn_add_at (rop s1 : loc) (n1 : Z) (s2 : loc) (n2 : Z) : M Z :=
  a ← load_limbs s1 0 n1; b ← load_limbs s2 0 n2;
  let '(r, cy) := mpn_add a b in
  store_limbs rop 0 r;; mret cy.
Definition mpn_sub_1_at (rop s1 : loc) (n : Z) (s2limb : Z) : M Z :=
  a ← load_limbs s1 0 n;
  let '(r, br) := mpn_sub_1 a s2limb in
  store_limbs rop 0 r;; mret br.
Definition mpn_sub_n_at (rop s1 s2 : loc) (n : Z) : M Z :=
  a ← load_limbs s1 0 n; b ← load_limbs s2 0 n;
  let '(r, br) := mpn_sub_n a b in
  store_limbs rop 0 r;; mret br.
Definition mpn_sub_at (rop s1 : loc) (n1 : Z) (s2 : loc) (n2 : Z) : M Z :=
  a ← load_limbs s1 0 n1; b ← load_limbs s2 0 n2;
  let '(r, br) := mpn_sub a b in
  store_limbs rop 0 r;; mret br.
Definition mpn_cmp_at (s1 s2 : loc) (n : Z) : M Z :=
  a ← load_limbs s1 0 n; b ← load_limbs s2 0 n;
  mret (mpn_cmp a b).

(** The overflow pre-check of the generic kernel:
    [asize == SSize && ((data[asize - 1] & GMP_NUMB_MASK) >> (GMP_NUMB_BITS - 1))] *)
Definition top_bit_set (op : loc) (asize : Z) : M bool :=
  if asize =? SSize then
    x ← load_limb op (asize - 1);
    mret (negb (Z.shiftr (Z.land x GMP_NUMB_MASK) (GMP_NUMB_BITS - 1) =? 0))
  else mret false.

(** [static_add_impl(..., std::integral_constant<int, 0>)]: via [mpn]. *)
Definition static_add_impl_0 (rop op1 op2 : loc) (asize1 asize2 sign1 sign2 : Z) : M bool :=
  size1 ← load_size op1;
  size2 ← load_size op2;
  if sign2 =? 0 then
    store_size rop size1;;
    copy_limbs (Z.to_nat asize1) op1 0 rop 0;;
    mret true
  else if sign1 =? 0 then
    store_size rop size2;;
    copy_limbs (Z.to_nat asize2) op2 0 rop 0;;
    mret true
  else
    c1 ← top_bit_set op1 asize1;
    c2 ← top_bit_set op2 asize2;
    if c1 || c2 then mret false
    else
      (if sign1 =? sign2 then
         if asize1 >=? asize2 then
           cy ← (if asize2 =? 1 then
                   d2 ← load_limb op2 0; mpn_add_1_at rop op1 asize1 d2
                 else if asize1 =? asize2 then mpn_add_n_at rop op1 op2 asize1
                 else mpn_add_at rop op1 asize1 op2 asize2);
           if negb (cy =? 0) then
             assert (asize1 <? s_size);;
             store_size rop (size1 + sign1);;
             store_limb rop asize1 1
           else store_size rop size1
         else
           cy ← (if asize1 =? 1 then
                   d1 ← load_limb op1 0; mpn_add_1_at rop op2 asize2 d1
                 else mpn_add_at rop op2 asize2 op1 asize1);
           if negb (cy =? 0) then
             assert (asize2 <? s_size);;
             store_size rop (size2 + sign2);;
             store_limb rop asize2 1
           else store_size rop size2
       else
         ge ← (if asize1 >? asize2 then mret true
               else if asize1 =? asize2 then
                 c ← mpn_cmp_at op1 op2 asize1; mret (c >=? 0)
               else mret false);
         if ge : bool then
           br ← (if asize2 =? 1 then
                   d2 ← load_limb op2 0; mpn_sub_1_at rop op1 asize1 d2
                 else if asize1 =? asize2 then mpn_sub_n_at rop op1 op2 asize1
                 else mpn_sub_at rop op1 asize1 op2 asize2);
           assert (br =? 0);;
           sz ← sub_compute_size rop asize1;
           store_size rop sz;;
           when (negb (sign1 =? 1)) (sz' ← load_size rop; store_size rop (- sz'))
         else
           br ← (if asize1 =? 1 then
                   d1 ← load_limb op1 0; mpn_sub_1_at rop op2 asize2 d1
                 else mpn_sub_at rop op2 asize2 op1 asize1);
           assert (br =? 0);;
           sz ← sub_compute_size rop asize2;
           store_size rop sz;;
           when (negb (sign2 =? 1)) (sz' ← load_size rop; store_size rop (- sz')));;
      mret true.

(** [static_add_impl(..., std::integral_constant<int, 1>)]: one limb,
    no nails. *)
Definition static_add_impl_1 (rop op1 op2 : loc) (asize1 asize2 sign1 sign2 : Z) : M bool :=
  d1 ← load_limb op1 0;
  d2 ← load_limb op2 0;
  assert (((asize1 =? 1) && negb (d1 =? 0)) || ((asize1 =? 0) && (d1 =? 0)));;
  assert (((asize2 =? 1) && negb (d2 =? 0)) || ((asize2 =? 0) && (d2 =? 0)));;
  if sign1 =? sign2 then
    let '(tmp, cy) := limb_add_overflow d1 d2 in
    if negb (cy =? 0) then mret false
    else
      store_size rop sign1;;
      store_limb rop 0 tmp;;
      mret true
  else
    if d1 >=? d2 then
      let tmp := limb_wrap (d1 - d2) in
      store_size rop sign1;;
      when (tmp =? 0) (store_size rop 0);;
      store_limb rop 0 tmp;;
      mret true
    else
      store_size rop sign2;;
      d2' ← load_limb op2 0;
      d1' ← load_limb op1 0;
      store_limb rop 0 (limb_wrap (d2' - d1'));;
      mret true.

(** [compare_limbs_2(data1, data2, asize)] *)
Definition compare_limbs_2 (op1 op2 : loc) (asize : Z) : M Z :=
  assert (GMP_NAIL_BITS =? 0);;
  assert ((asize =? 1) || (asize =? 2));;
  let cmp_idx := asize - 1 in
  a ← load_limb op1 cmp_idx;
  b ← load_limb op2 cmp_idx;
  if negb (a =? b) then mret (if a >? b then 1 else -1)
  else if cmp_idx =? 0 then mret 0
  else
    let cmp_idx := cmp_idx - 1 in
    a ← load_limb op1 cmp_idx;
    b ← load_limb op2 cmp_idx;
    if negb (a =? b) then mret (if a >? b then 1 else -1)
    else mret 0.

(** [static_add_impl(..., std::integral_constant<int, 2>)]: two limbs,
    no nails. *)
Definition static_add_impl_2 (rop op1 op2 : loc) (asize1 asize2 sign1 sign2 : Z) : M bool :=
  if sign1 =? sign2 then
    a ← load_limb op1 0;
    b ← load_limb op2 0;
    c ← load_limb op1 1;
    d ← load_limb op2 1;
    let '(lo, cy_lo) := limb_add_overflow a b in
    let '(hi1, cy_hi1) := limb_add_overflow c d in
    let '(hi2, cy_hi2) := limb_add_overflow hi1 cy_lo in
    if negb (cy_hi1 =? 0) || negb (cy_hi2 =? 0) then mret false
    else
      store_size rop sign1;;
      when (negb (hi2 =? 0)) (store_size rop (sign1 + sign1));;
      store_limb rop 0 lo;;
      store_limb rop 1 hi2;;
      mret true
  else
    ge ← (if asize1 >? asize2 then mret true
          else if asize1 =? asize2 then
            c ← compare_limbs_2 op1 op2 asize1; mret (c >=? 0)
          else mret false);
    if ge : bool then
      a0 ← load_limb op1 0;
      b0 ← load_limb op2 0;
      a1 ← load_limb op1 1;
      b1 ← load_limb op2 1;
      let lo := limb_wrap (a0 - b0) in
      assert ((a0 >=? b0) || (a1 >? b1));;
      let hi := limb_wrap (a1 - b1 - (if a0 <? b0 then 1 else 0)) in
      store_size rop 0;;
      (if negb (hi =? 0) then store_size rop (sign1 + sign1)
       else when (negb (lo =? 0)) (store_size rop sign1));;
      store_limb rop 0 lo;;
      store_limb rop 1 hi;;
      mret true
    else
      a0 ← load_limb op1 0;
      b0 ← load_limb op2 0;
      a1 ← load_limb op1 1;
      b1 ← load_limb op2 1;
      let lo := limb_wrap (b0 - a0) in
      assert ((b0 >=? a0) || (b1 >? a1));;
      let hi := limb_wrap (b1 - a1 - (if b0 <? a0 then 1 else 0)) in
      store_size rop sign2;;
      when (negb (hi =? 0)) (store_size rop (sign2 + sign2));;
      store_limb rop 0 lo;;
      store_limb rop 1 hi;;
      mret true.

(** Overload resolution on [static_add_algo<s_int>{}]. *)
Definition static_add_impl (rop op1 op2 : loc) (asize1 asize2 sign1 sign2 : Z) : M bool :=
  if static_add_algo =? 1 then static_add_impl_1 rop op1 op2 asize1 asize2 sign1 sign2
  else if static_add_algo =? 2 then static_add_impl_2 rop op1 op2 asize1 asize2 sign1 sign2
  else static_add_impl_0 rop op1 op2 asize1 asize2 sign1 sign2.

(** The sign/asize preamble shared by the static kernels:
    [int sign = asize != 0; if (asize < 0) { asize = -asize; sign = -1; }] *)
Definition asize_sign (size : Z) : Z * Z :=
  let sign := if size =? 0 then 0 else 1 in
  if size <? 0 then (- size, -1) else (size, sign).

(** [static_addsub<AddOrSub>(rop, op1, op2)] *)
Definition static_addsub (AddOrSub : bool) (rop op1 op2 : loc) : M bool :=
  size1 ← load_size op1;
  size2 ← load_size op2;
  let '(asize1, sign1) := asize_sign size1 in
  let '(asize2, sign2) := asize_sign (if AddOrSub then size2 else - size2) in
  retval ← static_add_impl rop op1 op2 asize1 asize2 sign1 sign2;
  when ((static_add_algo =? 0) && retval) (zero_unused_limbs_at rop);;
  mret retval.

(** The prologue of every arithmetic entry point: the storage class of
    an operand. *)
Definition is_static_at (l : loc) : M bool := u ← get_obj l; mret (is_static u).

(** [add(rop, op1, op2)] *)
Definition add (rop op1 op2 : loc) : M unit :=
  sr ← is_static_at rop;
  s1 ← is_static_at op1;
  s2 ← is_static_at op2;
  done ← (if sr && s1 && s2 then static_addsub true rop op1 op2 else mret false);
  if done : bool then mret tt
  else
    when sr (promote rop (SSize + 1));;
    d ← g_dy rop;
    v1 ← mpz_view op1;
    v2 ← mpz_view op2;
    put_obj rop (m_dy (mpz_add d v1 v2)).

(** [sub(rop, op1, op2)] *)
Definition sub (rop op1 op2 : loc) : M unit :=
  sr ← is_static_at rop;
  s1 ← is_static_at op1;
  s2 ← is_static_at op2;
  done ← (if sr && s1 && s2 then static_addsub false rop op1 op2 else mret false);
  if done : bool then mret tt
  else
    when sr (promote rop (SSize + 1));;
    d ← g_dy rop;
    v1 ← mpz_view op1;
    v2 ← mpz_view op2;
    put_obj rop (m_dy (mpz_sub d v1 v2)).

End AddSub.

(** ** Left shift ([mul_2exp]) *)

Section Shift.
Context {cfg : build_config}.

(** [static_mul_2exp_algo<SInt>::value] *)
Definition static_mul_2exp_algo : Z :=
  if s_size =? 1 then 1 else if s_size =? 2 then 2 else 0.

(** [static_cast<mpz_size_t>(ls)]: [mpz_size_t] is a 32-bit [int]. *)
Definition mpz_size_cast (x : Z) : Z := (x + 2 ^ 31) mod 2 ^ 32 - 2 ^ 31.

(** [std::size_t(x)]: the conversion to the unsigned type wraps. *)
Definition size_cast (x : Z) : Z := x mod (SIZE_MAX + 1).

(** [static_mul_2exp_impl(..., std::integral_constant<int, 0>)]: via [mpn].
    [new_asize] is an [mpz_size_t]; the two tests compare
    [std::size_t(new_asize)] with [SSize], so that a [new_asize] that
    went negative is huge and takes the failure exit.  In the branch
    that can overflow the shift goes to the local buffer [tmp] and
    reaches [rop] only when nothing was shifted out. *)
Definition static_mul_2exp_impl_0 (rop n : loc) (s : Z) : M bool :=
  size ← load_size n;
  if (s =? 0) || (size =? 0) then mret true
  else
    let '(asize, sign) := asize_sign size in
    let ls := s / GMP_NUMB_BITS in
    let rs := s mod GMP_NUMB_BITS in
    let new_asize := mpz_size_cast (asize + mpz_size_cast ls) in
    if size_cast new_asize <? SSize then
      ret ← (if negb (rs =? 0) then
               src ← load_limbs n 0 asize;
               let '(r, out) := mpn_lshift src rs in
               store_limbs rop ls r;;
               store_limb rop (size_cast new_asize) out;;
               mret out
             else
               copy_limbs (Z.to_nat asize) n 0 rop ls;;
               mret 0);
      fill_zero (Z.to_nat ls) rop 0;;
      store_size rop (new_asize + (if ret =? 0 then 0 else 1));;
      when (sign =? -1) (sz ← load_size rop; store_size rop (- sz));;
      mret true
    else if size_cast new_asize =? SSize then
      fits ← (if negb (rs =? 0) then
                src ← load_limbs n 0 asize;
                let '(tmp, out) := mpn_lshift src rs in
                if negb (out =? 0) then mret false
                else store_limbs rop ls tmp;; mret true
              else
                copy_limbs (Z.to_nat asize) n 0 rop ls;;
                mret true);
      if fits : bool then
        fill_zero (Z.to_nat ls) rop 0;;
        store_size rop new_asize;;
        when (sign =? -1) (sz ← load_size rop; store_size rop (- sz));;
        mret true
      else mret false
    else mret false.

(** [static_mul_2exp_impl(..., std::integral_constant<int, 1>)] *)
Definition static_mul_2exp_impl_1 (rop n : loc) (s : Z) : M bool :=
  x ← load_limb n 0;
  let l := Z.land x GMP_NUMB_MASK in
  if (s =? 0) || (l =? 0) then mret true
  else if (s >=? GMP_NUMB_BITS) || negb (Z.shiftr l (GMP_NUMB_BITS - s) =? 0) then mret false
  else
    store_limb rop 0 (limb_wrap (Z.shiftl l s));;
    size ← load_size n;
    store_size rop size;;
    mret true.

(** [static_mul_2exp_impl(..., std::integral_constant<int, 2>)] *)
Definition static_mul_2exp_impl_2 (rop n : loc) (s : Z) : M bool :=
  size ← load_size n;
  if (s =? 0) || (size =? 0) then mret true
  else
    let '(asize, sign) := asize_sign size in
    if s >=? 2 * GMP_NUMB_BITS then mret false
    else if s =? GMP_NUMB_BITS then
      if asize =? 2 then mret false
      else
        r0 ← load_limb rop 0;
        store_limb rop 1 r0;;
        store_limb rop 0 0;;
        store_size rop 2;;
        when (sign =? -1) (store_size rop (-2));;
        mret true
    else
      lo ← load_limb n 0;
      hi ← load_limb n 1;
      moved ← (if s >? GMP_NUMB_BITS then
                 if asize =? 2 then mret None
                 else
                   n0 ← load_limb n 0;
                   mret (Some (0, n0, s - GMP_NUMB_BITS))
               else mret (Some (lo, hi, s)));
      match moved with
      | None => mret false
      | Some (lo, hi, s) =>
          assert ((s >? 0) && (s <? GMP_NUMB_BITS));;
          if negb (Z.shiftr (Z.land hi GMP_NUMB_MASK) (GMP_NUMB_BITS - s) =? 0) then mret false
          else
            let hi' := limb_wrap (limb_wrap (Z.shiftl (Z.land hi GMP_NUMB_MASK) s)
                                  + Z.shiftr (Z.land lo GMP_NUMB_MASK) (GMP_NUMB_BITS - s)) in
            let lo' := Z.land (limb_wrap (Z.shiftl (Z.land lo GMP_NUMB_MASK) s)) GMP_NUMB_MASK in
            store_limb rop 0 lo';;
            store_limb rop 1 hi';;
            store_size rop (1 + (if hi' =? 0 then 0 else 1));;
            when (sign =? -1) (sz ← load_size rop; store_size rop (- sz));;
            mret true
      end.

Definition static_mul_2exp_impl (rop n : loc) (s : Z) : M bool :=
  if static_mul_2exp_algo =? 1 then static_mul_2exp_impl_1 rop n s
  else if static_mul_2exp_algo =? 2 then static_mul_2exp_impl_2 rop n s
  else static_mul_2exp_impl_0 rop n s.

(** [static_mul_2exp(rop, n, s)]: the kernel's verdict is dropped. *)
Definition static_mul_2exp (rop n : loc) (s : Z) : M unit :=
  static_mul_2exp_impl rop n s;;
  when (static_mul_2exp_algo =? 0) (zero_unused_limbs_at rop).

(** [friend void mul_2exp(mp_integer &rop, const mp_integer &n, ::mp_bitcnt_t s) { }]:
    the body of the public entry point is empty. *)
Definition mul_2exp (rop n : loc) (s : Z) : M unit := mret tt.

End Shift.

(** ** Division *)

Section Div.
Context {cfg : build_config}.

(** [have_dlimb_div::value] *)
Definition have_dlimb_div : bool :=
  if MPPP_UINT128 && (GMP_NUMB_BITS =? 64) then (GMP_NAIL_BITS =? 0) && (GMP_LIMB_BITS =? 64)
  else if GMP_NUMB_BITS =? 32 then (GMP_NAIL_BITS =? 0) && (GMP_LIMB_BITS =? 32)
  else false.

(** [static_div_algo<SInt>::value] *)
Definition static_div_algo : Z :=
  if s_size =? 1 then 1 else if (s_size =? 2) && have_dlimb_div then 2 else 0.

(** A [const ::mp_limb_t *] of the generic kernel: it points either at
    the limbs of an operand or at one of the local arrays [op1_alt],
    [op2_alt]. *)
Inductive limb_ptr :=
  | AtOperand (l : loc)
  | AtLocal (buf : list Z).

Definition read_ptr (p : limb_ptr) (n : Z) : M (list Z) :=
  match p with
  | AtOperand l => load_limbs l 0 n
  | AtLocal buf =>
      if (0 <=? n) && (n <=? Z.of_nat (length buf)) then mret (take (Z.to_nat n) buf)
      else undefined
  end.

(** The lambda [distinct_op]: the four limb pointers are pairwise
    different (a local array differs from everything else). *)
Definition distinct_op (q r : loc) (data1 data2 : limb_ptr) : bool :=
  negb (q =? r)%positive
  && match data1 with
     | AtOperand l1 =>
         negb (l1 =? q)%positive && negb (l1 =? r)%positive
         && match data2 with AtOperand l2 => negb (l1 =? l2)%positive | AtLocal _ => true end
     | AtLocal _ => true
     end
  && match data2 with
     | AtOperand l2 => negb (l2 =? q)%positive && negb (l2 =? r)%positive
     | AtLocal _ => true
     end.

(** [while (x._mp_size && !(x.m_limbs[x._mp_size - 1] & GMP_NUMB_MASK)) --x._mp_size;]
    with [n] the value of [x._mp_size] on entry of the loop. *)
Fixpoint strip_size (x : loc) (n : nat) : M unit :=
  match n with
  | O => mret tt
  | S n' =>
      top ← load_limb x (Z.of_nat n');
      if Z.land top GMP_NUMB_MASK =? 0 then
        store_size x (Z.of_nat n');;
        strip_size x n'
      else mret tt
  end.

(** [x._mp_size = -x._mp_size;] *)
Definition negate_size (x : loc) : M unit :=
  sz ← load_size x; store_size x (- sz).

(** [static_div_impl(..., std::integral_constant<int, 0>)]: via [mpn]. *)
Definition static_div_impl_0 (q r op1 op2 : loc) (asize1 asize2 sign1 sign2 : Z) : M unit :=
  if asize2 >? asize1 then
    s1 ← g_st op1;
    g_st r;;
    put_obj r (m_st s1);;
    store_size q 0
  else
    data1 ← (if (op1 =? q)%positive || (op1 =? r)%positive then
               op1_alt ← load_limbs op1 0 asize1; mret (AtLocal op1_alt)
             else mret (AtOperand op1));
    data2 ← (if (op2 =? q)%positive || (op2 =? r)%positive || (op1 =? op2)%positive then
               op2_alt ← load_limbs op2 0 asize2; mret (AtLocal op2_alt)
             else mret (AtOperand op2));
    assert (distinct_op q r data1 data2);;
    (if asize2 =? 1 then
       n ← read_ptr data1 asize1;
       d ← read_ptr data2 1;
       let '(qv, rem) := mpn_divrem_1 n (limb_at d 0) in
       store_limbs q 0 qv;;
       store_limb r 0 rem
     else
       n ← read_ptr data1 asize1;
       d ← read_ptr data2 asize2;
       let '(qv, rv) := mpn_tdiv_qr n d in
       store_limbs q 0 qv;;
       store_limbs r 0 rv);;
    store_size q (asize1 - asize2 + 1);;
    strip_size q (Z.to_nat (asize1 - asize2 + 1));;
    when (negb (sign1 =? sign2)) (negate_size q);;
    store_size r asize2;;
    strip_size r (Z.to_nat asize2);;
    when (sign1 =? -1) (negate_size r).

(** [static_div_impl(..., std::integral_constant<int, 1>)]. Unsigned [/]
    and [%] by zero are undefined. *)
Definition static_div_impl_1 (q r op1 op2 : loc) (asize1 asize2 sign1 sign2 : Z) : M unit :=
  l1 ← load_limb op1 0;
  l2 ← load_limb op2 0;
  let n := Z.land l1 GMP_NUMB_MASK in
  let d := Z.land l2 GMP_NUMB_MASK in
  if d =? 0 then undefined
  else
    let q_ := n / d in
    let r_ := n mod d in
    store_size q (if q_ =? 0 then 0 else 1);;
    when (negb (sign1 =? sign2)) (negate_size q);;
    store_limb q 0 q_;;
    store_size r (if r_ =? 0 then 0 else 1);;
    when (sign1 =? -1) (negate_size r);;
    store_limb r 0 r_.

(** [dlimb_div(op11, op12, op21, op22, &q1, &q2, &r1, &r2)]: division in
    the double-width unsigned type; the two preprocessor branches differ
    only in the limb width. *)
Definition dlimb_div (op11 op12 op21 op22 : Z) : Z * Z * Z * Z :=
  let w := GMP_LIMB_BITS in
  let op1 := (op11 + Z.shiftl op12 w) mod 2 ^ (2 * w) in
  let op2 := (op21 + Z.shiftl op22 w) mod 2 ^ (2 * w) in
  let q := op1 / op2 in
  let r := op1 mod op2 in
  (limb_wrap (Z.land q (2 ^ w - 1)), limb_wrap (Z.shiftr q w),
   limb_wrap (Z.land r (2 ^ w - 1)), limb_wrap (Z.shiftr r w)).

(** [static_div_impl(..., std::integral_constant<int, 2>)] *)
Definition static_div_impl_2 (q r op1 op2 : loc) (asize1 asize2 sign1 sign2 : Z) : M unit :=
  if (asize1 <? 2) && (asize2 <? 2) then
    l1 ← load_limb op1 0;
    l2 ← load_limb op2 0;
    if l2 =? 0 then undefined
    else
      let q_ := l1 / l2 in
      let r_ := l1 mod l2 in
      store_size q (if q_ =? 0 then 0 else 1);;
      when (negb (sign1 =? sign2)) (negate_size q);;
      store_limb q 0 q_;;
      store_limb q 1 0;;
      store_size r (if r_ =? 0 then 0 else 1);;
      when (sign1 =? -1) (negate_size r);;
      store_limb r 0 r_;;
      store_limb r 1 0
  else
    op11 ← load_limb op1 0;
    op12 ← load_limb op1 1;
    op21 ← load_limb op2 0;
    op22 ← load_limb op2 1;
    if (op21 =? 0) && (op22 =? 0) then undefined
    else
      let '(q1, q2, r1, r2) := dlimb_div op11 op12 op21 op22 in
      store_size q (if negb (q2 =? 0) then 2 else if negb (q1 =? 0) then 1 else 0);;
      when (negb (sign1 =? sign2)) (negate_size q);;
      store_limb q 0 q1;;
      store_limb q 1 q2;;
      store_size r (if negb (r2 =? 0) then 2 else if negb (r1 =? 0) then 1 else 0);;
      when (sign1 =? -1) (negate_size r);;
      store_limb r 0 r1;;
      store_limb r 1 r2.

Definition static_div_impl (q r op1 op2 : loc) (asize1 asize2 sign1 sign2 : Z) : M unit :=
  if static_div_algo =? 1 then static_div_impl_1 q r op1 op2 asize1 asize2 sign1 sign2
  else if static_div_algo =? 2 then static_div_impl_2 q r op1 op2 asize1 asize2 sign1 sign2
  else static_div_impl_0 q r op1 op2 asize1 asize2 sign1 sign2.

(** [static_div(q, r, op1, op2)] *)
Definition static_div (q r op1 op2 : loc) : M unit :=
  size1 ← load_size op1;
  size2 ← load_size op2;
  let '(asize1, sign1) := asize_sign size1 in
  let '(asize2, sign2) := asize_sign size2 in
  static_div_impl q r op1 op2 asize1 asize2 sign1 sign2;;
  when (static_div_algo =? 0) (zero_unused_limbs_at q;; zero_unused_limbs_at r).

(** [mp_integer::sign()]: reads [m_int.m_st._mp_size], the size word
    shared by both members of the union. *)
Definition sign (u : integer_union) : Z :=
  if negb (size_word u =? 0) then (if size_word u >? 0 then 1 else -1) else 0.

(** Modelled from the spec: GMP's [mpz_tdiv_qr] (quotient rounded
    towards zero, remainder with the sign of the dividend). *)
Definition mpz_tdiv_qr (q r n d : mpz_struct_t) : mpz_struct_t * mpz_struct_t :=
  (mpz_put q (Z.quot (mpz_value n) (mpz_value d)),
   mpz_put r (Z.rem (mpz_value n) (mpz_value d))).

(** [div(q, r, op1, op2)] *)
Definition div (q r op1 op2 : loc) : M unit :=
  if (q =? r)%positive then throw invalid_argument
  else
    u2 ← get_obj op2;
    if sign u2 =? 0 then throw zero_division_error
    else
      sq ← is_static_at q;
      sr ← is_static_at r;
      s1 ← is_static_at op1;
      s2 ← is_static_at op2;
      if sq && sr && s1 && s2 then static_div q r op1 op2
      else
        when sq (promote q 0);;
        when sr (promote r 0);;
        dq ← g_dy q;
        dr ← g_dy r;
        v1 ← mpz_view op1;
        v2 ← mpz_view op2;
        let '(q', r') := mpz_tdiv_qr dq dr v1 v2 in
        put_obj q (m_dy q');;
        put_obj r (m_dy r').

End Div.

(** ** Comparison, conversion to [bool], string output *)

Section Facade.
Context {cfg : build_config}.

(** [std::equal(first1, last1, first2, pred)] *)
Fixpoint std_equal (pred : Z → Z → bool) (l1 l2 : list Z) : bool :=
  match l1, l2 with
  | [], _ => true
  | x :: l1', y :: l2' => pred x y && std_equal pred l1' l2'
  | _ :: _, [] => false
  end.

(** The lambda passed to [std::equal] in [operator==]:
    [(l1 & GMP_NUMB_BITS) == (l2 & GMP_NUMB_BITS)] *)
Definition limb_eq_pred (l1 l2 : Z) : bool :=
  Z.land l1 GMP_NUMB_BITS =? Z.land l2 GMP_NUMB_BITS.

(** [operator==(a, b)] *)
Definition operator_eq (a b : loc) : M bool :=
  sa ← is_static_at a;
  sb ← is_static_at b;
  if sa && sb then
    x ← g_st a;
    y ← g_st b;
    mret ((st_mp_size x =? st_mp_size y)
          && std_equal limb_eq_pred (take (Z.to_nat (abs_size x)) (m_limbs x)) (m_limbs y))
  else
    va ← mpz_view a;
    vb ← mpz_view b;
    mret (mpz_cmp va vb =? 0).

(** [conversion_impl<bool>(const s_int &n)] *)
Definition conversion_impl_bool_static (n : static_int) : bool :=
  negb (st_mp_size n =? 0).

(** [conversion_impl<bool>(const mpz_struct_t &m)] *)
Definition conversion_impl_bool_dynamic (m : mpz_struct_t) : bool :=
  negb (mpz_sgn m =? 0).

(** [explicit operator T() const] at [T = bool] *)
Definition operator_bool (l : loc) : M bool :=
  st ← is_static_at l;
  if st : bool then s ← g_st l; mret (conversion_impl_bool_static s)
  else d ← g_dy l; mret (conversion_impl_bool_dynamic d).

(** Modelled from the spec: the digit alphabet of GMP's [mpz_get_str]:
    [0-9a-z] for bases up to 36, [0-9A-Za-z] above. *)
Definition digit_char (base d : Z) : ascii :=
  if d <? 10 then ascii_of_nat (Z.to_nat (48 + d))
  else if base <=? 36 then ascii_of_nat (Z.to_nat (97 + (d - 10)))
  else if d <? 36 then ascii_of_nat (Z.to_nat (65 + (d - 10)))
  else ascii_of_nat (Z.to_nat (97 + (d - 36))).

(** The digits of a positive [v], most significant first. *)
Fixpoint digits_of (fuel : nat) (base v : Z) (acc : string) : string :=
  match fuel with
  | O => acc
  | S fuel' =>
      if v =? 0 then acc
      else digits_of fuel' base (v / base) (String (digit_char base (v mod base)) acc)
  end.

(** Modelled from the spec: GMP's [mpz_get_str] and [mpz_sizeinbase]. *)
Definition mpz_get_str (base : Z) (m : mpz_struct_t) : string :=
  let v := mpz_value m in
  if v =? 0 then "0"%string
  else
    let ds := digits_of (Z.to_nat (Z.log2 (Z.abs v) + 1)) base (Z.abs v) EmptyString in
    if v <? 0 then String "-"%char ds else ds.
Definition mpz_sizeinbase (m : mpz_struct_t) (base : Z) : Z :=
  let v := mpz_value m in
  if v =? 0 then 1
  else Z.of_nat (String.length
         (digits_of (Z.to_nat (Z.log2 (Z.abs v) + 1)) base (Z.abs v) EmptyString)).

(** [mpz_to_str(mpz, base)]: both overloads; the character buffer is
    sized from [mpz_sizeinbase] and filled by [mpz_get_str]. *)
Definition mpz_to_str (mpz : mpz_struct_t) (base : Z) : outcome string :=
  if negb ((base >=? 2) && (base <=? 62)) then Undefined
  else
    let size_base := mpz_sizeinbase mpz base in
    if size_base >? SIZE_MAX - 2 then Throw overflow_error
    else Ret (mpz_get_str base mpz).

(** The default argument [int base = 10] of [mpz_to_str]. *)
Definition mpz_to_str_default_base : Z := 10.

(** [mp_integer::to_string(base)] *)
Definition to_string (u : integer_union) (base : Z) : outcome string :=
  if (base <? 2) || (base >? 62) then Throw invalid_argument
  else if is_static u then
    match u with
    | m_st s => mpz_to_str (get_mpz_view s) mpz_to_str_default_base
    | m_dy _ => Undefined
    end
  else
    match u with
    | m_dy d => mpz_to_str d mpz_to_str_default_base
    | m_st _ => Undefined
    end.

End Facade.

(** ** Move construction and move assignment of the storage union *)

Section Move.
Context {cfg : build_config}.

(** [integer_union(integer_union &&other) noexcept], constructing the
    object at [this]. *)
Definition integer_union_move_ctor (this other : loc) : M unit :=
  so ← is_static_at other;
  if so : bool then
    s ← g_st other;
    put_obj this (m_st s)
  else
    d ← g_dy other;
    put_obj this (m_dy d);;
    g_dy other;;
    put_obj other (m_st static_int_default).

(** [integer_union &operator=(integer_union &&other) noexcept] *)
Definition integer_union_move_assign (this other : loc) : M unit :=
  if (this =? other)%positive then mret tt
  else
    s1 ← is_static_at this;
    s2 ← is_static_at other;
    if s1 && s2 then
      so ← g_st other;
      g_st this;;
      put_obj this (m_st so)
    else if s1 && negb s2 then
      destroy_static this;;
      d ← g_dy other;
      put_obj this (m_dy d);;
      g_dy other;;
      put_obj other (m_st static_int_default)
    else if negb s1 && s2 then
      destroy_dynamic this;;
      so ← g_st other;
      put_obj this (m_st so)
    else
      dt ← g_dy this;
      do ← g_dy other;
      put_obj this (m_dy do);;
      put_obj other (m_dy dt).

End Move.

(** ** Construction from floating-point values *)

Section FromFloat.
Context {cfg : build_config}.

(** [struct mpz_raii]: a scratch descriptor with the failure flag of the
    static constructors. *)
Record mpz_raii := MpzRaii { m_mpz : mpz_struct_t; fail_flag : bool }.

(** [mpz_raii() : fail_flag(false) { ::mpz_init(&m_mpz); }] *)
Definition mpz_raii_default : mpz_raii := MpzRaii mpz_init false.

(** The floating-point types accepted by the generic constructor. *)
Inductive float_type := cpp_float | cpp_double | cpp_long_double.

(** [std::isfinite] *)
Definition isfinite (f : spec_float) : bool :=
  match f with
  | S754_zero _ | S754_finite _ _ _ => true
  | S754_infinity _ | S754_nan => false
  end.

(** The integer part of a finite value, rounded towards zero. *)
Definition float_trunc (f : spec_float) : Z :=
  match f with
  | S754_finite sg m e =>
      let mag := if e >=? 0 then Z.pos m * 2 ^ e else Z.pos m / 2 ^ (- e) in
      if sg then - mag else mag
  | _ => 0
  end.

(** Modelled from the spec: GMP's [mpz_set_d] and the MPFR pair
    [mpfr_set_ld]/[mpfr_get_z(MPFR_RNDZ)]: both truncate. *)
Definition mpz_set_d (rop : mpz_struct_t) (f : spec_float) : mpz_struct_t :=
  mpz_put rop (float_trunc f).
Definition mpfr_get_z_of_ld (rop : mpz_struct_t) (x : spec_float) : mpz_struct_t :=
  mpz_put rop (float_trunc x).

(** [static_int::ctor_from_mpz(m)] *)
Definition ctor_from_mpz (this : static_int) (m : mpz_raii) : static_int * mpz_raii :=
  if (mp_size (m_mpz m) >? s_size) || (mp_size (m_mpz m) <? - s_size) then
    (StaticInt (st_mp_alloc this) 0 (m_limbs this), MpzRaii (m_mpz m) true)
  else
    let n := Z.to_nat (Z.abs (mp_size (m_mpz m))) in
    (StaticInt (st_mp_alloc this) (mp_size (m_mpz m))
       (take n (mp_d (m_mpz m)) ++ drop n (m_limbs this)), m).

(** [explicit static_int(Float f, mpz_raii &mpz)] and
    [explicit static_int(long double x, mpz_raii &mpz)];
    the member initialisers are [_mp_alloc(s_alloc), m_limbs()]. *)
Definition static_int_from_float (ty : float_type) (f : spec_float) (mpz : mpz_raii)
  : outcome (static_int * mpz_raii) :=
  let this := StaticInt s_alloc 0 (replicate (Z.to_nat SSize) 0) in
  if negb (isfinite f) then Throw invalid_argument
  else
    let z := match ty with
             | cpp_float | cpp_double => mpz_set_d (m_mpz mpz) f
             | cpp_long_double => mpfr_get_z_of_ld (m_mpz mpz) f
             end in
    Ret (ctor_from_mpz this (MpzRaii z (fail_flag mpz))).

(** [explicit integer_union(T x)] at a floating-point [T], constructing
    the object at [this].  The scratch [mpz] is written before it is read
    and its flag is reset before returning, so it is taken fresh here. *)
Definition integer_union_from_float (this : loc) (ty : float_type) (x : spec_float) : M unit :=
  let mpz := mpz_raii_default in
  assert (negb (fail_flag mpz));;
  match static_int_from_float ty x mpz with
  | Throw e => throw e
  | Abort => abort
  | Undefined => undefined
  | Ret (s, mpz') =>
      put_obj this (m_st s);;
      if fail_flag mpz' then
        destroy_static this;;
        d ← mpz_init_set_cache (m_mpz mpz');
        put_obj this (m_dy d)
      else mret tt
  end.

End FromFloat.

(** ** Copies, promotion, demotion, negation and size queries *)

Section Storage.
Context {cfg : build_config}.

(** [integer_union(const integer_union &other)], constructing the
    object at [this]. *)
Definition integer_union_copy_ctor (this other : loc) : M unit :=
  so ← is_static_at other;
  if so : bool then
    s ← g_st other;
    put_obj this (m_st s)
  else
    o ← g_dy other;
    d ← mpz_init_set_cache o;
    put_obj this (m_dy d);;
    assert (mp_alloc d >=? 0).

(** [integer_union &operator=(const integer_union &other)] *)
Definition integer_union_copy_assign (this other : loc) : M unit :=
  if (this =? other)%positive then mret tt
  else
    s1 ← is_static_at this;
    s2 ← is_static_at other;
    if s1 && s2 then
      so ← g_st other;
      g_st this;;
      put_obj this (m_st so)
    else if s1 && negb s2 then
      destroy_static this;;
      o ← g_dy other;
      d ← mpz_init_set_cache o;
      put_obj this (m_dy d);;
      assert (mp_alloc d >=? 0)
    else if negb s1 && s2 then
      destroy_dynamic this;;
      so ← g_st other;
      put_obj this (m_st so)
    else
      dt ← g_dy this;
      do ← g_dy other;
      put_obj this (m_dy (mpz_set dt do)).

(** [~integer_union()] *)
Definition integer_union_dtor (this : loc) : M unit :=
  st ← is_static_at this;
  if st : bool then destroy_static this else destroy_dynamic this.

(** [integer_union::demote()]; the limbs are staged in the local array
    [tmp], reading [dyn_size] limbs from [_mp_d]. *)
Definition demote (l : loc) : M bool :=
  u ← get_obj l;
  assert (is_dynamic u);;
  d ← g_dy l;
  let dyn_size := mpz_size d in
  if dyn_size >? SSize then mret false
  else
    if negb (dyn_size <=? Z.of_nat (length (mp_d d))) then undefined
    else
      let tmp := take (Z.to_nat dyn_size) (mp_d d) in
      let signed_size := mp_size d in
      destroy_dynamic l;;
      put_obj l (m_st static_int_default);;
      store_size l signed_size;;
      store_limbs l 0 tmp;;
      mret true.

(** [mp_integer::promote()] *)
Definition mp_integer_promote (l : loc) : M unit :=
  u ← get_obj l;
  if is_dynamic u then throw invalid_argument else promote l 0.

(** Modelled from the spec: GMP's [mpz_neg]. *)
Definition mpz_neg (rop op : mpz_struct_t) : mpz_struct_t := mpz_put rop (- mpz_value op).

(** [mp_integer::negate()] *)
Definition negate (l : loc) : M unit :=
  st ← is_static_at l;
  if st : bool then negate_size l
  else d ← g_dy l; put_obj l (m_dy (mpz_neg d d)).

(** [mp_integer::size()] *)
Definition mp_integer_size (l : loc) : M Z :=
  st ← is_static_at l;
  if st : bool then s ← g_st l; mret (abs_size s)
  else d ← g_dy l; mret (mpz_size d).

(** [operator!=(a, b)] *)
Definition operator_ne (a b : loc) : M bool :=
  e ← operator_eq a b; mret (negb e).

End Storage.

(** ** Multiplication *)

Section Mul.
Context {cfg : build_config}.

(** Modelled from the spec: GMP's [mpn_mul] ("multiply, write the
    [s1n + s2n] limbs of the product, return its most significant
    limb"), [mpn_mul_n] (two operands of [n] limbs, [2 * n] limbs
    written) and [mpn_mul_1] ("multiply by one limb, write the [n] least
    significant limbs, return the most significant limb of the
    product"). *)
Definition mpn_mul (s1 s2 : list Z) : list Z * Z :=
  let n := (length s1 + length s2)%nat in
  let r := mpn_of_Z n (mpn_value s1 * mpn_value s2) in
  (r, limb_at r (Z.of_nat n - 1)).
Definition mpn_mul_n (s1 s2 : list Z) : list Z := (mpn_mul s1 s2).1.
Definition mpn_mul_1 (s1 : list Z) (s2limb : Z) : list Z * Z :=
  let v := mpn_value s1 * mpn_value [s2limb] in
  let n := length s1 in
  (mpn_of_Z n v, v / 2 ^ (GMP_NUMB_BITS * Z.of_nat n)).

(** Modelled from the spec: GMP's [mpz_mul]. *)
Definition mpz_mul (rop a b : mpz_struct_t) : mpz_struct_t :=
  mpz_put rop (mpz_value a * mpz_value b).

(** [have_dlimb_mul::value] *)
Definition have_dlimb_mul : bool :=
  if MPPP_UINT128 && (GMP_NUMB_BITS =? 64) then (GMP_NAIL_BITS =? 0) && (GMP_LIMB_BITS =? 64)
  else if GMP_NUMB_BITS =? 32 then (GMP_NAIL_BITS =? 0) && (GMP_LIMB_BITS =? 32)
  else false.

(** [static_mul_algo<SInt>::value] *)
Definition static_mul_algo : Z :=
  if (s_size =? 1) && have_dlimb_mul then 1
  else if (s_size =? 2) && have_dlimb_mul then 2 else 0.

(** [static_mul_impl(..., std::integral_constant<int, 0>)]: via [mpn].
    The product is written at [res_data], which is [rop]'s limbs when
    [rop] is neither operand and the largest possible result fits, and
    the local array [res] otherwise; [res] below is what the [mpn] call
    and the store of [hi] leave there.  The value returned is 0 on
    success and a size hint on failure. *)
Definition static_mul_impl_0 (rop op1 op2 : loc) (asize1 asize2 sign1 sign2 : Z) : M Z :=
  if (sign1 =? 0) || (sign2 =? 0) then
    store_size rop 0;;
    mret 0
  else
    let max_asize := asize1 + asize2 in
    let direct := negb (rop =? op1)%positive && negb (rop =? op2)%positive
                  && (max_asize <=? SSize) in
    '(res, hi) ← (if asize2 =? 1 then
                    a ← load_limbs op1 0 asize1;
                    d2 ← load_limb op2 0;
                    let '(r, hi) := mpn_mul_1 a d2 in
                    mret (r ++ [hi], hi)
                  else if asize1 =? 1 then
                    b ← load_limbs op2 0 asize2;
                    d1 ← load_limb op1 0;
                    let '(r, hi) := mpn_mul_1 b d1 in
                    mret (r ++ [hi], hi)
                  else if asize1 =? asize2 then
                    a ← load_limbs op1 0 asize1;
                    b ← load_limbs op2 0 asize1;
                    let r := mpn_mul_n a b in
                    mret (r, limb_at r (2 * asize1 - 1))
                  else if asize1 >=? asize2 then
                    a ← load_limbs op1 0 asize1;
                    b ← load_limbs op2 0 asize2;
                    mret (mpn_mul a b)
                  else
                    a ← load_limbs op1 0 asize1;
                    b ← load_limbs op2 0 asize2;
                    mret (mpn_mul b a));
    let asize := max_asize - (if hi =? 0 then 1 else 0) in
    if direct then
      store_limbs rop 0 res;;
      store_size rop asize;;
      when (negb (sign1 =? sign2)) (negate_size rop);;
      mret 0
    else if asize >? SSize then mret asize
    else
      store_size rop asize;;
      when (negb (sign1 =? sign2)) (negate_size rop);;
      store_limbs rop 0 (take (Z.to_nat asize) res);;
      mret 0.

(** [dlimb_mul(op1, op2, &hi)]: the product in the double-width unsigned
    type; the pair is (returned low limb, stored high limb). *)
Definition dlimb_mul (op1 op2 : Z) : Z * Z :=
  let w := GMP_LIMB_BITS in
  let res := (op1 * op2) mod 2 ^ (2 * w) in
  (limb_wrap res, limb_wrap (Z.shiftr res w)).

(** [static_mul_impl(..., std::integral_constant<int, 1>)] *)
Definition static_mul_impl_1 (rop op1 op2 : loc) (asize1 asize2 sign1 sign2 : Z) : M Z :=
  l1 ← load_limb op1 0;
  l2 ← load_limb op2 0;
  let '(lo, hi) := dlimb_mul l1 l2 in
  if negb (hi =? 0) then mret 2
  else
    store_size rop (if negb (lo =? 0) then 1 else 0);;
    when (negb (sign1 =? sign2)) (negate_size rop);;
    store_limb rop 0 lo;;
    mret 0.

(** [static_mul_impl(..., std::integral_constant<int, 2>)] *)
Definition static_mul_impl_2 (rop op1 op2 : loc) (asize1 asize2 sign1 sign2 : Z) : M Z :=
  if (asize1 =? 0) || (asize2 =? 0) then
    store_size rop 0;;
    store_limb rop 0 0;;
    store_limb rop 1 0;;
    mret 0
  else if (asize1 =? 1) && (asize2 =? 1) then
    l1 ← load_limb op1 0;
    l2 ← load_limb op2 0;
    let '(lo, hi) := dlimb_mul l1 l2 in
    store_limb rop 1 hi;;
    store_limb rop 0 lo;;
    h ← load_limb rop 1;
    store_size rop ((asize1 + asize2) - (if h =? 0 then 1 else 0));;
    when (negb (sign1 =? sign2)) (negate_size rop);;
    mret 0
  else if negb (asize1 =? asize2) then
    '(a, b, c) ← (if asize1 <? asize2 then
                    a ← load_limb op2 0;
                    b ← load_limb op2 1;
                    c ← load_limb op1 0;
                    mret (a, b, c)
                  else
                    a ← load_limb op1 0;
                    b ← load_limb op1 1;
                    c ← load_limb op2 0;
                    mret (a, b, c));
    let '(ca_lo, ca_hi) := dlimb_mul c a in
    let '(cb_lo, cb_hi) := dlimb_mul c b in
    let tmp0 := ca_lo in
    let '(tmp1, cy) := limb_add_overflow cb_lo ca_hi in
    let tmp2 := limb_wrap (cb_hi + cy) in
    let asize := 2 + (if negb (tmp2 =? 0) then 1 else 0) in
    if asize =? 2 then
      store_size rop asize;;
      when (negb (sign1 =? sign2)) (negate_size rop);;
      store_limb rop 0 tmp0;;
      store_limb rop 1 tmp1;;
      mret 0
    else mret 4
  else mret 4.

Definition static_mul_impl (rop op1 op2 : loc) (asize1 asize2 sign1 sign2 : Z) : M Z :=
  if static_mul_algo =? 1 then static_mul_impl_1 rop op1 op2 asize1 asize2 sign1 sign2
  else if static_mul_algo =? 2 then static_mul_impl_2 rop op1 op2 asize1 asize2 sign1 sign2
  else static_mul_impl_0 rop op1 op2 asize1 asize2 sign1 sign2.

(** [static_mul(rop, op1, op2)] *)
Definition static_mul (rop op1 op2 : loc) : M Z :=
  size1 ← load_size op1;
  size2 ← load_size op2;
  let '(asize1, sign1) := asize_sign size1 in
  let '(asize2, sign2) := asize_sign size2 in
  retval ← static_mul_impl rop op1 op2 asize1 asize2 sign1 sign2;
  when ((static_mul_algo =? 0) && (retval =? 0)) (zero_unused_limbs_at rop);;
  mret retval.

(** [mul(rop, op1, op2)] *)
Definition mul (rop op1 op2 : loc) : M unit :=
  sr ← is_static_at rop;
  s1 ← is_static_at op1;
  s2 ← is_static_at op2;
  size_hint ← (if sr && s1 && s2 then static_mul rop op1 op2 else mret 0);
  if sr && s1 && s2 && (size_hint =? 0) then mret tt
  else
    when sr (promote rop size_hint);;
    d ← g_dy rop;
    v1 ← mpz_view op1;
    v2 ← mpz_view op2;
    put_obj rop (m_dy (mpz_mul d v1 v2)).

End Mul.

(** ** Construction from and conversion to the integral types *)

(** The widths in bits of [long] and of [long long] (and of their
    unsigned versions) on the platform. *)
Class c_types := CTypes { LONG_BITS : Z; LLONG_BITS : Z }.

(** The integral types of [is_supported_integral]: [bool], or a signed
    or an unsigned type of a given width. *)
Inductive int_type := cpp_bool | cpp_signed (w : Z) | cpp_unsigned (w : Z).

Section Integral.
Context {cfg : build_config} {ct : c_types}.

(** [std::numeric_limits<T>::max()] and [min()] *)
Definition int_max (t : int_type) : Z :=
  match t with
  | cpp_bool => 1
  | cpp_signed w => 2 ^ (w - 1) - 1
  | cpp_unsigned w => 2 ^ w - 1
  end.
Definition int_min (t : int_type) : Z :=
  match t with
  | cpp_signed w => - 2 ^ (w - 1)
  | _ => 0
  end.

(** [static_cast<T>] of an integer value *)
Definition int_cast (t : int_type) (x : Z) : Z :=
  match t with
  | cpp_bool => if x =? 0 then 0 else 1
  | cpp_signed w => (x + 2 ^ (w - 1)) mod 2 ^ w - 2 ^ (w - 1)
  | cpp_unsigned w => x mod 2 ^ w
  end.

Definition cpp_long : int_type := cpp_signed LONG_BITS.
Definition cpp_ulong : int_type := cpp_unsigned LONG_BITS.
Definition cpp_llong : int_type := cpp_signed LLONG_BITS.
Definition cpp_ullong : int_type := cpp_unsigned LLONG_BITS.

(** Modelled from the spec: GMP's [mpz_set_ui], [mpz_set_si],
    [mpz_mul_2exp], [mpz_addmul], [mpz_addmul_ui], [mpz_tdiv_q_2exp]
    (the quotient is truncated), [mpz_fits_ulong_p], [mpz_fits_slong_p],
    [mpz_get_ui] (the least significant bits of the absolute value,
    as many as fit [unsigned long]) and [mpz_get_si] (the value when it
    fits [long], otherwise its least significant part with the sign of
    the operand). *)
Definition mpz_set_ui (rop : mpz_struct_t) (op : Z) : mpz_struct_t := mpz_put rop op.
Definition mpz_set_si (rop : mpz_struct_t) (op : Z) : mpz_struct_t := mpz_put rop op.
Definition mpz_mul_2exp (rop op1 : mpz_struct_t) (op2 : Z) : mpz_struct_t :=
  mpz_put rop (mpz_value op1 * 2 ^ op2).
Definition mpz_addmul (rop op1 op2 : mpz_struct_t) : mpz_struct_t :=
  mpz_put rop (mpz_value rop + mpz_value op1 * mpz_value op2).
Definition mpz_addmul_ui (rop op1 : mpz_struct_t) (op2 : Z) : mpz_struct_t :=
  mpz_put rop (mpz_value rop + mpz_value op1 * op2).
Definition mpz_tdiv_q_2exp (q n : mpz_struct_t) (b : Z) : mpz_struct_t :=
  mpz_put q (Z.quot (mpz_value n) (2 ^ b)).
Definition mpz_fits_ulong_p (op : mpz_struct_t) : bool :=
  (int_min cpp_ulong <=? mpz_value op) && (mpz_value op <=? int_max cpp_ulong).
Definition mpz_fits_slong_p (op : mpz_struct_t) : bool :=
  (int_min cpp_long <=? mpz_value op) && (mpz_value op <=? int_max cpp_long).
Definition mpz_get_ui (op : mpz_struct_t) : Z :=
  Z.abs (mpz_value op) mod 2 ^ LONG_BITS.
Definition mpz_get_si (op : mpz_struct_t) : Z :=
  if mpz_fits_slong_p op then mpz_value op
  else Z.sgn (mpz_value op) * (Z.abs (mpz_value op) mod 2 ^ (LONG_BITS - 1)).

(** [attempt_1limb_ctor(Int n)] for an unsigned [Int] ([bool]
    included); the pair is (returned flag, object afterwards). *)
Definition attempt_1limb_ctor_unsigned (this : static_int) (n : Z) : bool * static_int :=
  if n =? 0 then (true, StaticInt (st_mp_alloc this) 0 (m_limbs this))
  else if n <=? GMP_NUMB_MAX then
    (true, StaticInt (st_mp_alloc this) 1 (<[0%nat := limb_wrap n]> (m_limbs this)))
  else (false, this).

(** [attempt_1limb_ctor(Int n)] for a signed [Int] of [w] bits *)
Definition attempt_1limb_ctor_signed (w : Z) (this : static_int) (n : Z) : bool * static_int :=
  if n =? 0 then (true, StaticInt (st_mp_alloc this) 0 (m_limbs this))
  else if (n >? 0) && (int_cast (cpp_unsigned w) n <=? GMP_NUMB_MAX) then
    (true, StaticInt (st_mp_alloc this) 1 (<[0%nat := limb_wrap n]> (m_limbs this)))
  else
    let lln := int_cast cpp_llong n in
    if (lln <? 0) && (lln >=? -9223372036854775807)
       && (int_cast cpp_ullong (- lln) <=? GMP_NUMB_MAX) then
      (true, StaticInt (st_mp_alloc this) (-1)
               (<[0%nat := limb_wrap (- lln)]> (m_limbs this)))
    else (false, this).

(** The [while (n)] loop of the constructor from the unsigned types
    wider than [unsigned long].  [n] loses [LONG_BITS] bits in each
    round, so the loop is run for at most as many rounds as the type has
    bits. *)
Fixpoint uint_ctor_loop (rounds : nat) (n : Z) (shifter mpz : mpz_struct_t) : mpz_struct_t :=
  match rounds with
  | O => mpz
  | S rounds =>
      if n =? 0 then mpz
      else
        let shifter := mpz_mul_2exp shifter shifter LONG_BITS in
        let mpz := mpz_addmul_ui mpz shifter (int_cast cpp_ulong (Z.land n (int_max cpp_ulong))) in
        uint_ctor_loop rounds (Z.shiftr n LONG_BITS) shifter mpz
  end.

(** [explicit static_int(Uint n, mpz_raii &mpz)], [Uint] wider than
    [unsigned long], of [w] bits.  The scratch [shifter] is written
    before it is read, so it is taken fresh. *)
Definition static_int_from_uint_wide (w : Z) (n : Z) (mpz : mpz_raii) : static_int * mpz_raii :=
  let this := StaticInt s_alloc 0 (replicate (Z.to_nat SSize) 0) in
  let '(ok, this) := attempt_1limb_ctor_unsigned this n in
  if ok : bool then (this, mpz)
  else
    let ulmax := int_max cpp_ulong in
    let z := if n <=? ulmax then mpz_set_ui (m_mpz mpz) (int_cast cpp_ulong n)
             else
               let shifter := mpz_set_ui mpz_init 1 in
               let z := mpz_set_ui (m_mpz mpz) (int_cast cpp_ulong (Z.land n ulmax)) in
               uint_ctor_loop (Z.to_nat w) (Z.shiftr n LONG_BITS) shifter z in
    ctor_from_mpz this (MpzRaii z (fail_flag mpz)).

(** [explicit static_int(Uint n, mpz_raii &mpz)], [Uint] not wider than
    [unsigned long] *)
Definition static_int_from_uint (n : Z) (mpz : mpz_raii) : static_int * mpz_raii :=
  let this := StaticInt s_alloc 0 (replicate (Z.to_nat SSize) 0) in
  let '(ok, this) := attempt_1limb_ctor_unsigned this n in
  if ok : bool then (this, mpz)
  else ctor_from_mpz this (MpzRaii (mpz_set_ui (m_mpz mpz) (int_cast cpp_ulong n)) (fail_flag mpz)).

(** The [while (n)] loop of the constructor from the signed types wider
    than [long]: chunks of 30 bits, with the truncating [%] and [/]. *)
Fixpoint int_ctor_loop (rounds : nat) (n : Z) (shifter mpz tmp : mpz_struct_t) : mpz_struct_t :=
  match rounds with
  | O => mpz
  | S rounds =>
      if n =? 0 then mpz
      else
        let shifter := mpz_mul_2exp shifter shifter 30 in
        let tmp := mpz_set_si tmp (int_cast cpp_long (Z.rem n (2 ^ 30))) in
        let mpz := mpz_addmul mpz shifter tmp in
        int_ctor_loop rounds (Z.quot n (2 ^ 30)) shifter mpz tmp
  end.

(** [explicit static_int(Int n, mpz_raii &mpz)], signed [Int] wider than
    [long], of [w] bits.  The scratch [tmp] and [shifter] are written
    before they are read, so they are taken fresh. *)
Definition static_int_from_int_wide (w : Z) (n : Z) (mpz : mpz_raii) : static_int * mpz_raii :=
  let this := StaticInt s_alloc 0 (replicate (Z.to_nat SSize) 0) in
  let '(ok, this) := attempt_1limb_ctor_signed w this n in
  if ok : bool then (this, mpz)
  else
    let lmax := int_max cpp_long in
    let lmin := int_min cpp_long in
    let z := if (n <=? lmax) && (n >=? lmin) then mpz_set_si (m_mpz mpz) (int_cast cpp_long n)
             else
               let tmp := mpz_init in
               let shifter := mpz_set_ui mpz_init 1 in
               let z := mpz_set_si (m_mpz mpz) (int_cast cpp_long (Z.rem n (2 ^ 30))) in
               int_ctor_loop (Z.to_nat w) (Z.quot n (2 ^ 30)) shifter z tmp in
    ctor_from_mpz this (MpzRaii z (fail_flag mpz)).

(** [explicit static_int(Int n, mpz_raii &mpz)], signed [Int] not wider
    than [long], of [w] bits *)
Definition static_int_from_int (w : Z) (n : Z) (mpz : mpz_raii) : static_int * mpz_raii :=
  let this := StaticInt s_alloc 0 (replicate (Z.to_nat SSize) 0) in
  let '(ok, this) := attempt_1limb_ctor_signed w this n in
  if ok : bool then (this, mpz)
  else ctor_from_mpz this (MpzRaii (mpz_set_si (m_mpz mpz) (int_cast cpp_long n)) (fail_flag mpz)).

(** The constructor [static_int(T n, mpz_raii &mpz)] that overload
    resolution selects for the integral type [T]. *)
Definition static_int_from_integral (t : int_type) (n : Z) (mpz : mpz_raii)
  : static_int * mpz_raii :=
  match t with
  | cpp_signed w =>
      if (int_max t >? int_max cpp_long) || (int_min t <? int_min cpp_long)
      then static_int_from_int_wide w n mpz
      else static_int_from_int w n mpz
  | cpp_unsigned w =>
      if int_max t >? int_max cpp_ulong then static_int_from_uint_wide w n mpz
      else static_int_from_uint n mpz
  | cpp_bool =>
      if int_max t >? int_max cpp_ulong then static_int_from_uint_wide 1 n mpz
      else static_int_from_uint n mpz
  end.

(** [explicit integer_union(T x)] at an integral [T], constructing the
    object at [this].  The scratch [mpz] is written before it is read
    and its flag is reset before returning, so it is taken fresh here. *)
Definition integer_union_from_integral (this : loc) (t : int_type) (x : Z) : M unit :=
  let mpz := mpz_raii_default in
  assert (negb (fail_flag mpz));;
  let '(s, mpz') := static_int_from_integral t x mpz in
  put_obj this (m_st s);;
  if fail_flag mpz' then
    destroy_static this;;
    d ← mpz_init_set_cache (m_mpz mpz');
    put_obj this (m_dy d)
  else mret tt.

(** The [while (true)] loop of the dynamic conversion to unsigned
    types: 32-bit chunks accumulated in [unsigned long long].  [q] loses
    32 bits in each round; [rounds] bounds the number of rounds. *)
Fixpoint conversion_uint_loop (rounds : nat) (q : mpz_struct_t) (retval multiplier : Z) : M Z :=
  match rounds with
  | O => undefined
  | S rounds =>
      let ull_max := int_max cpp_ullong in
      let ull := Z.land (int_cast cpp_ullong (mpz_get_ui q)) (2 ^ 32 - 1) in
      if ull >? ull_max / multiplier then throw overflow_error
      else
        let ull := int_cast cpp_ullong (ull * multiplier) in
        if retval >? ull_max - ull then throw overflow_error
        else
          let retval := int_cast cpp_ullong (retval + ull) in
          let q := mpz_tdiv_q_2exp q q 32 in
          if mpz_sgn q =? 0 then mret retval
          else if multiplier >? ull_max / 2 ^ 32 then throw overflow_error
          else conversion_uint_loop rounds q retval (int_cast cpp_ullong (multiplier * 2 ^ 32))
  end.

(** The number of rounds after which a descriptor shifted down by 32
    bits per round is certainly zero. *)
Definition conversion_rounds (m : mpz_struct_t) : nat :=
  S (Z.to_nat (Z.log2 (Z.abs (mpz_value m)))).

(** [conversion_impl<T>(const mpz_struct_t &m)], unsigned [T] other than
    [bool].  The scratch [q] is written before it is read. *)
Definition conversion_impl_uint_dynamic (t : int_type) (m : mpz_struct_t) : M Z :=
  if mpz_sgn m <? 0 then throw overflow_error
  else if mpz_fits_ulong_p m then
    let ul := mpz_get_ui m in
    if ul <=? int_max t then mret (int_cast t ul) else throw overflow_error
  else
    let q := mpz_set mpz_init m in
    retval ← conversion_uint_loop (conversion_rounds m) q 0 1;
    if retval >? int_max t then throw overflow_error
    else mret (int_cast t retval).

(** [conversion_impl<T>(const s_int &n)], unsigned [T] other than
    [bool] *)
Definition conversion_impl_uint_static (t : int_type) (n : static_int) : M Z :=
  if st_mp_size n =? 0 then mret (int_cast t 0)
  else if st_mp_size n =? 1 then
    let l := Z.land (limb_at (m_limbs n) 0) GMP_NUMB_MASK in
    if l >? int_max t then throw overflow_error
    else mret (int_cast t l)
  else if st_mp_size n <? 0 then throw overflow_error
  else conversion_impl_uint_dynamic t (get_mpz_view n).

(** Arithmetic in [long long]: a result out of range is undefined
    behaviour. *)
Definition llong_arith (x : Z) : M Z :=
  if (int_min cpp_llong <=? x) && (x <=? int_max cpp_llong) then mret x else undefined.

(** The [while (true)] loop of the dynamic conversion to signed types *)
Fixpoint conversion_int_loop (rounds : nat) (sign : bool) (q : mpz_struct_t)
    (retval multiplier : Z) : M Z :=
  match rounds with
  | O => undefined
  | S rounds =>
      let ll_max := int_max cpp_llong in
      let ll_min := int_min cpp_llong in
      let ll := int_cast cpp_llong (Z.land (int_cast cpp_ullong (mpz_get_ui q)) (2 ^ 32 - 1)) in
      if (sign && negb (ll =? 0) && (multiplier >? Z.quot ll_max ll))
         || (negb sign && negb (ll =? 0) && (multiplier <? Z.quot ll_min ll))
      then throw overflow_error
      else
        ll ← llong_arith (ll * multiplier);
        over ← (if sign then d ← llong_arith (ll_max - ll); mret (retval >? d)
                else d ← llong_arith (ll_min - ll); mret (retval <? d));
        if over : bool then throw overflow_error
        else
          retval ← llong_arith (retval + ll);
          let q := mpz_tdiv_q_2exp q q 32 in
          if mpz_sgn q =? 0 then mret retval
          else if (sign && (multiplier >? Z.quot ll_max (2 ^ 32)))
                  || (negb sign && (multiplier <? Z.quot ll_min (2 ^ 32)))
          then throw overflow_error
          else
            multiplier ← llong_arith (multiplier * 2 ^ 32);
            conversion_int_loop rounds sign q retval multiplier
  end.

(** [conversion_impl<T>(const mpz_struct_t &m)], signed [T] *)
Definition conversion_impl_int_dynamic (t : int_type) (m : mpz_struct_t) : M Z :=
  if mpz_fits_slong_p m then
    let sl := mpz_get_si m in
    if (sl >=? int_min t) && (sl <=? int_max t) then mret (int_cast t sl)
    else throw overflow_error
  else
    let q := mpz_set mpz_init m in
    let sign := mpz_sgn q >? 0 in
    retval ← conversion_int_loop (conversion_rounds m) sign q 0 (if sign then 1 else -1);
    if (retval >? int_max t) || (retval <? int_min t) then throw overflow_error
    else mret (int_cast t retval).

(** [conversion_impl<T>(const s_int &n)], signed [T] *)
Definition conversion_impl_int_static (t : int_type) (n : static_int) : M Z :=
  let l := Z.land (limb_at (m_limbs n) 0) GMP_NUMB_MASK in
  if st_mp_size n =? 0 then mret (int_cast t 0)
  else if st_mp_size n =? 1 then
    if l >? int_max t then throw overflow_error
    else mret (int_cast t l)
  else if (st_mp_size n =? -1) && (l <=? 9223372036854775807) then
    let candidate := - int_cast cpp_llong l in
    if candidate <? int_min t then throw overflow_error
    else mret (int_cast t candidate)
  else conversion_impl_int_dynamic t (get_mpz_view n).

(** [explicit operator T() const] at an integral [T]; [true] is 1 and
    [false] is 0. *)
Definition operator_integral (t : int_type) (l : loc) : M Z :=
  st ← is_static_at l;
  if st : bool then
    s ← g_st l;
    match t with
    | cpp_bool => mret (Z.b2z (conversion_impl_bool_static s))
    | cpp_signed _ => conversion_impl_int_static t s
    | cpp_unsigned _ => conversion_impl_uint_static t s
    end
  else
    d ← g_dy l;
    match t with
    | cpp_bool => mret (Z.b2z (conversion_impl_bool_dynamic d))
    | cpp_signed _ => conversion_impl_int_dynamic t d
    | cpp_unsigned _ => conversion_impl_uint_dynamic t d
    end.

End Integral.

(** * Vocabulary of the statements *)

(** ** Well-formed build configurations *)

(** The constraints the header states with [static_assert] ([SSize]) and
    those every GMP build satisfies (limb geometry, range of [size_t]
    and of [mp_bitcnt_t]). *)
Record config_ok (cfg : build_config) : Prop := ConfigOk {
  SSize_range : 0 < SSize ≤ 64;
  nail_range : 0 ≤ GMP_NAIL_BITS < GMP_LIMB_BITS;
  limb_range : GMP_LIMB_BITS ≤ 64;
  size_max_range : 65535 ≤ SIZE_MAX;
  bitcnt_max_range : 65535 ≤ BITCNT_MAX
}.

(** The usual 64-bit build without nails, for a given static size. *)
Definition config64 (ssize : Z) : build_config :=
  BuildConfig ssize 64 0 true true (2 ^ 64 - 1) (2 ^ 64 - 1).

(** The store after the object at [l] was replaced by [u]. *)
Definition upd (σ : state) (l : loc) (u : integer_union) : state :=
  State (<[l := u]> (objs σ)) (cache σ).

Definition set_size (s : static_int) (v : Z) : static_int :=
  StaticInt (st_mp_alloc s) v (m_limbs s).
Definition set_limb (s : static_int) (i : Z) (v : Z) : static_int :=
  StaticInt (st_mp_alloc s) (st_mp_size s) (<[Z.to_nat i := v]> (m_limbs s)).
Definition set_limbs (s : static_int) (off : Z) (vs : list Z) : static_int :=
  StaticInt (st_mp_alloc s) (st_mp_size s)
    (take (Z.to_nat off) (m_limbs s) ++ vs ++ drop (Z.to_nat off + length vs) (m_limbs s)).

(** A sign-magnitude pair without a leading zero limb. *)
Definition normalized {cfg : build_config} (size : Z) (l : list Z) : Prop :=
  Z.abs size ≤ Z.of_nat (length l)
  ∧ (size ≠ 0 → Z.land (limb_at l (Z.abs size - 1)) GMP_NUMB_MASK ≠ 0).

(** The pool as its constructor leaves it: one bucket per size. *)
Definition cache_valid {cfg : build_config} (c : mpz_cache) : Prop :=
  length (m_vec c) = Z.to_nat max_size.

(** A computation that only reads the store. *)
Definition readonly {A} (m : M A) : Prop := ∀ σ, (m σ).2 = σ.

(** A kernel with the [bool] convention that never reports failure
    once it has started to write. *)
Definition never_false (m : M bool) : Prop := ∀ σ σ', m σ ≠ (Ret false, σ').

(** A kernel whose failure leaves the store as it found it. *)
Definition untouched_on_failure (m : M bool) : Prop :=
  ∀ σ σ', m σ = (Ret false, σ') → σ' = σ.

(** What [div(q, r, op1, op2)] establishes for a dividend [a] and a
    divisor [b]: valid integers at [q] and [r] that denote the quotient
    rounded towards zero and its remainder. *)
Definition div_post {cfg : build_config} (σ' : state) (q r : loc) (a b : Z) : Prop :=
  ∃ uq ur, objs σ' !! q = Some uq ∧ objs σ' !! r = Some ur
    ∧ integer_valid uq ∧ integer_valid ur
    ∧ integer_value uq = Z.quot a b ∧ integer_value ur = Z.rem a b.

(** A static buffer that is valid up to the clearing of its unused
    limbs, and the integer it denotes. *)
Definition pre_valid {cfg : build_config} (s : static_int) (v : Z) : Prop :=
  limbs_typed SSize (m_limbs s)
  ∧ st_mp_alloc s = s_alloc
  ∧ Z.abs (st_mp_size s) ≤ SSize
  ∧ (st_mp_size s ≠ 0 →
     Z.land (limb_at (m_limbs s) (Z.abs (st_mp_size s) - 1)) GMP_NUMB_MASK ≠ 0)
  ∧ mpz_value (get_mpz_view s) = v.

(** ** The invariant of the descriptor pool *)

(** Bucket [k] holds at most [max_entries] descriptors, each with
    [k + 1] limbs allocated. *)
Definition bucket_ok {cfg : build_config} (k : nat) (b : list mpz_struct_t) : Prop :=
  Z.of_nat (length b) ≤ max_entries ∧ Forall (λ m, mp_alloc m = Z.of_nat k + 1) b.

Definition pool_inv {cfg : build_config} (c : mpz_cache) : Prop :=
  cache_valid c ∧ ∀ k b, m_vec c !! k = Some b → bucket_ok k b.

(** The limbs a descriptor uses are machine words. *)
Definition mpz_limbs_typed {cfg : build_config} (d : mpz_struct_t) : Prop :=
  Forall (λ x, 0 ≤ x < 2 ^ GMP_LIMB_BITS) (take (Z.to_nat (mpz_size d)) (mp_d d)).

(** A limb count [mpz_init_nlimbs] accepts: the bit count overflows
    neither [std::size_t] nor [::mp_bitcnt_t]. *)
Definition allocatable {cfg : build_config} (n : Z) : Prop :=
  0 ≤ n ∧ n ≤ SIZE_MAX / GMP_NUMB_BITS ∧ GMP_NUMB_BITS * n ≤ BITCNT_MAX.

(** What an arithmetic entry point leaves behind: the object at [rop]
    is replaced by a valid integer of value [v]; no other object
    changes and the pool stays well formed. *)
Definition arith_post {cfg : build_config} (σ σ' : state) (rop : loc) (v : Z) : Prop :=
  ∃ ur', objs σ' = <[rop := ur']> (objs σ) ∧ cache_valid (cache σ')
    ∧ integer_valid ur' ∧ integer_value ur' = v.

(** What a static kernel leaves behind when it reports success. *)
Definition kernel_post {cfg : build_config} (σ σ' : state) (rop : loc) (v : Z) : Prop :=
  ∃ R, σ' = upd σ rop (m_st R) ∧ static_int_valid R ∧ mpz_value (get_mpz_view R) = v.

(** What the language guarantees about the platform's widths: [long]
    has at least 32 bits and [long long] at least 64 and is not narrower
    than [long].  No [long long] of more than 128 bits is considered. *)
Definition c_types_ok (ct : c_types) : Prop :=
  32 ≤ LONG_BITS ≤ LLONG_BITS ∧ 64 ≤ LLONG_BITS ≤ 128.

(** An integral type of the platform is not wider than [long long]. *)
Definition int_type_ok {ct : c_types} (t : int_type) : Prop :=
  match t with
  | cpp_bool => True
  | cpp_signed w | cpp_unsigned w => 1 ≤ w ≤ LLONG_BITS
  end.

(** The two common data models: 64-bit [long] (LP64) and 32-bit [long]
    (LLP64), both with a 64-bit [long long]. *)
Definition lp64 : c_types := CTypes 64 64.
Definition llp64 : c_types := CTypes 32 64.

(** The overflow pre-check of the generic addition kernel, read on a
    static integer: it fills the buffer and the top bit of its top limb
    is set. *)
Definition full_top_bit {cfg : build_config} (s : static_int) : bool :=
  (Z.abs (st_mp_size s) =? SSize)
  && negb (Z.shiftr (Z.land (limb_at (m_limbs s) (Z.abs (st_mp_size s) - 1)) GMP_NUMB_MASK)
             (GMP_NUMB_BITS - 1) =? 0).

(** * Properties *)

(** ** Well-formed build configurations *)


Lemma config64_ok ssize : 0 < ssize ≤ 64 → config_ok (config64 ssize).
Proof. intros H. split; simpl; lia. Qed.

Section LimbFacts.
Context {cfg : build_config} (Hcfg : config_ok cfg).

Lemma numb_bits_pos : 0 < GMP_NUMB_BITS.
Proof. unfold GMP_NUMB_BITS. destruct Hcfg. lia. Qed.

Lemma base_pos : 0 < 2 ^ GMP_NUMB_BITS.
Proof. apply Z.pow_pos_nonneg; [lia | pose proof numb_bits_pos; lia]. Qed.

Lemma base_ge_2 : 2 ≤ 2 ^ GMP_NUMB_BITS.
Proof.
  pose proof numb_bits_pos.
  replace GMP_NUMB_BITS with (1 + (GMP_NUMB_BITS - 1)) by lia.
  rewrite Z.pow_add_r by lia.
  assert (0 < 2 ^ (GMP_NUMB_BITS - 1)) by (apply Z.pow_pos_nonneg; lia). lia.
Qed.

Lemma land_mask x : Z.land x GMP_NUMB_MASK = x mod 2 ^ GMP_NUMB_BITS.
Proof.
  unfold GMP_NUMB_MASK. replace (2 ^ GMP_NUMB_BITS - 1) with (Z.ones GMP_NUMB_BITS).
  - apply Z.land_ones. pose proof numb_bits_pos; lia.
  - rewrite Z.ones_equiv. lia.
Qed.

Lemma land_mask_range x : 0 ≤ Z.land x GMP_NUMB_MASK < 2 ^ GMP_NUMB_BITS.
Proof. rewrite land_mask. apply Z.mod_pos_bound, base_pos. Qed.

Lemma mpn_value_nonneg l : 0 ≤ mpn_value l.
Proof.
  induction l as [|x l IH]; simpl; [lia|].
  pose proof (land_mask_range x). pose proof base_pos. nia.
Qed.

Lemma pow_base_pos (n : nat) : 0 < 2 ^ (GMP_NUMB_BITS * Z.of_nat n).
Proof. apply Z.pow_pos_nonneg; [lia|]. pose proof numb_bits_pos. nia. Qed.

Lemma pow_base_succ (n : nat) :
  2 ^ (GMP_NUMB_BITS * Z.of_nat (S n)) = 2 ^ GMP_NUMB_BITS * 2 ^ (GMP_NUMB_BITS * Z.of_nat n).
Proof.
  pose proof numb_bits_pos.
  rewrite <- Z.pow_add_r by nia. f_equal. lia.
Qed.

Lemma mpn_value_bound l : mpn_value l < 2 ^ (GMP_NUMB_BITS * Z.of_nat (length l)).
Proof.
  induction l as [|x l IH].
  - simpl. rewrite Z.mul_0_r. simpl. lia.
  - cbn [mpn_value length]. rewrite pow_base_succ.
    pose proof (land_mask_range x). pose proof base_pos.
    pose proof (mpn_value_nonneg l). nia.
Qed.

Lemma mpn_value_app l1 l2 :
  mpn_value (l1 ++ l2)
  = mpn_value l1 + 2 ^ (GMP_NUMB_BITS * Z.of_nat (length l1)) * mpn_value l2.
Proof.
  induction l1 as [|x l1 IH].
  - simpl. rewrite Z.mul_0_r. simpl. destruct (mpn_value l2); reflexivity.
  - cbn [app mpn_value length]. rewrite IH, pow_base_succ. ring.
Qed.

Lemma mpn_value_zeros n : mpn_value (replicate n 0) = 0.
Proof.
  induction n as [|n IH]; simpl; [reflexivity|].
  rewrite IH, Z.land_0_l. lia.
Qed.

(** A vector whose top limb has a nonzero numb part denotes a value of
    exactly that many limbs. *)
Lemma mpn_value_top l x :
  Z.land x GMP_NUMB_MASK ≠ 0 →
  2 ^ (GMP_NUMB_BITS * Z.of_nat (length l)) ≤ mpn_value (l ++ [x]).
Proof.
  intros Hx. rewrite mpn_value_app. cbn [mpn_value].
  pose proof (land_mask_range x). pose proof (mpn_value_nonneg l).
  pose proof (pow_base_pos (length l)). nia.
Qed.

Lemma mpn_of_Z_length n v : length (mpn_of_Z n v) = n.
Proof. revert v. induction n as [|n IH]; intros v; simpl; [reflexivity|]. by rewrite IH. Qed.

Lemma mpn_value_of_Z n v :
  mpn_value (mpn_of_Z n v) = v mod 2 ^ (GMP_NUMB_BITS * Z.of_nat n).
Proof.
  revert v. induction n as [|n IH]; intros v.
  - simpl. rewrite Z.mul_0_r. simpl. by rewrite Z.mod_1_r.
  - cbn [mpn_of_Z mpn_value]. rewrite IH, pow_base_succ, land_mask.
    pose proof base_pos. pose proof (pow_base_pos n).
    rewrite Z.mod_mod by lia.
    rewrite Z.rem_mul_r by lia. reflexivity.
Qed.

Lemma mpn_value_of_Z_small n v :
  0 ≤ v < 2 ^ (GMP_NUMB_BITS * Z.of_nat n) → mpn_value (mpn_of_Z n v) = v.
Proof. intros H. rewrite mpn_value_of_Z. by apply Z.mod_small. Qed.

Lemma mpn_of_Z_range n v :
  Forall (λ x, 0 ≤ x < 2 ^ GMP_LIMB_BITS) (mpn_of_Z n v).
Proof.
  revert v. induction n as [|n IH]; intros v; simpl; constructor; [|apply IH].
  pose proof (Z.mod_pos_bound v _ base_pos).
  assert (2 ^ GMP_NUMB_BITS ≤ 2 ^ GMP_LIMB_BITS).
  { apply Z.pow_le_mono_r; [lia|]. unfold GMP_NUMB_BITS. destruct Hcfg. lia. }
  lia.
Qed.

End LimbFacts.

(** ** Running the primitives *)

Section Run.
Context {cfg : build_config}.

Lemma run_bind {A B} (m : M A) (f : A → M B) σ :
  (m ≫= f) σ =
  match m σ with
  | (Ret a, σ') => f a σ'
  | (Throw e, σ') => (Throw e, σ')
  | (Abort, σ') => (Abort, σ')
  | (Undefined, σ') => (Undefined, σ')
  end.
Proof. reflexivity. Qed.

Lemma run_bind_ret {A B} (m : M A) (f : A → M B) σ a σ' :
  m σ = (Ret a, σ') → (m ≫= f) σ = f a σ'.
Proof. intros H. rewrite run_bind, H. reflexivity. Qed.

Lemma run_mret {A} (a : A) σ : (mret a : M A) σ = (Ret a, σ).
Proof. reflexivity. Qed.

Lemma lookup_upd_eq σ l u : objs (upd σ l u) !! l = Some u.
Proof. apply lookup_insert_eq. Qed.

Lemma lookup_upd_ne σ l l' u : l ≠ l' → objs (upd σ l u) !! l' = objs σ !! l'.
Proof. intros H. by apply lookup_insert_ne. Qed.

Lemma upd_upd σ l u u' : upd (upd σ l u) l u' = upd σ l u'.
Proof. unfold upd. simpl. by rewrite insert_insert_eq. Qed.

Lemma upd_id σ l u : objs σ !! l = Some u → upd σ l u = σ.
Proof. intros H. destruct σ as [o c]. unfold upd. simpl in *. by rewrite insert_id. Qed.

Lemma run_get_obj σ l u : objs σ !! l = Some u → get_obj l σ = (Ret u, σ).
Proof. intros H. unfold get_obj. by rewrite H. Qed.

Lemma run_put_obj σ l u : put_obj l u σ = (Ret tt, upd σ l u).
Proof. reflexivity. Qed.

Lemma run_is_static_at σ l u :
  objs σ !! l = Some u → is_static_at l σ = (Ret (is_static u), σ).
Proof. intros H. unfold is_static_at. by rewrite (run_bind_ret _ _ _ _ _ (run_get_obj _ _ _ H)). Qed.

Lemma run_g_st σ l s :
  objs σ !! l = Some (m_st s) → st_mp_alloc s = s_alloc → g_st l σ = (Ret s, σ).
Proof.
  intros H Ha. unfold g_st. rewrite (run_bind_ret _ _ _ _ _ (run_get_obj _ _ _ H)).
  unfold is_static. simpl. rewrite Ha. reflexivity.
Qed.

Lemma run_g_dy σ l d :
  objs σ !! l = Some (m_dy d) → mp_alloc d ≠ s_alloc → g_dy l σ = (Ret d, σ).
Proof.
  intros H Ha. unfold g_dy. rewrite (run_bind_ret _ _ _ _ _ (run_get_obj _ _ _ H)).
  unfold is_dynamic. simpl. destruct (Z.eqb_spec (mp_alloc d) s_alloc); [done|reflexivity].
Qed.

Lemma run_load_size σ l s :
  objs σ !! l = Some (m_st s) → st_mp_alloc s = s_alloc →
  load_size l σ = (Ret (st_mp_size s), σ).
Proof. intros H Ha. unfold load_size. by rewrite (run_bind_ret _ _ _ _ _ (run_g_st _ _ _ H Ha)). Qed.

Lemma run_store_size σ l s v :
  objs σ !! l = Some (m_st s) → st_mp_alloc s = s_alloc →
  store_size l v σ = (Ret tt, upd σ l (m_st (set_size s v))).
Proof. intros H Ha. unfold store_size. by rewrite (run_bind_ret _ _ _ _ _ (run_g_st _ _ _ H Ha)). Qed.

Lemma run_load_limb σ l s i :
  objs σ !! l = Some (m_st s) → st_mp_alloc s = s_alloc →
  0 ≤ i < Z.of_nat (length (m_limbs s)) →
  load_limb l i σ = (Ret (limb_at (m_limbs s) i), σ).
Proof.
  intros H Ha Hi. unfold load_limb. rewrite (run_bind_ret _ _ _ _ _ (run_g_st _ _ _ H Ha)).
  destruct (Z.leb_spec 0 i); [|lia]. destruct (Z.ltb_spec i (Z.of_nat (length (m_limbs s)))); [|lia].
  reflexivity.
Qed.

Lemma run_store_limb σ l s i v :
  objs σ !! l = Some (m_st s) → st_mp_alloc s = s_alloc →
  0 ≤ i < Z.of_nat (length (m_limbs s)) →
  store_limb l i v σ = (Ret tt, upd σ l (m_st (set_limb s i v))).
Proof.
  intros H Ha Hi. unfold store_limb. rewrite (run_bind_ret _ _ _ _ _ (run_g_st _ _ _ H Ha)).
  destruct (Z.leb_spec 0 i); [|lia]. destruct (Z.ltb_spec i (Z.of_nat (length (m_limbs s)))); [|lia].
  reflexivity.
Qed.

Lemma run_load_limbs σ l s off n :
  objs σ !! l = Some (m_st s) → st_mp_alloc s = s_alloc →
  0 ≤ off → 0 ≤ n → off + n ≤ Z.of_nat (length (m_limbs s)) →
  load_limbs l off n σ = (Ret (take (Z.to_nat n) (drop (Z.to_nat off) (m_limbs s))), σ).
Proof.
  intros H Ha H1 H2 H3. unfold load_limbs. rewrite (run_bind_ret _ _ _ _ _ (run_g_st _ _ _ H Ha)).
  destruct (Z.leb_spec 0 off); [|lia]. destruct (Z.leb_spec 0 n); [|lia].
  destruct (Z.leb_spec (off + n) (Z.of_nat (length (m_limbs s)))); [|lia].
  reflexivity.
Qed.

Lemma run_store_limbs σ l s off vs :
  objs σ !! l = Some (m_st s) → st_mp_alloc s = s_alloc →
  0 ≤ off → off + Z.of_nat (length vs) ≤ Z.of_nat (length (m_limbs s)) →
  store_limbs l off vs σ = (Ret tt, upd σ l (m_st (set_limbs s off vs))).
Proof.
  intros H Ha H1 H2. unfold store_limbs. rewrite (run_bind_ret _ _ _ _ _ (run_g_st _ _ _ H Ha)).
  destruct (Z.leb_spec 0 off); [|lia].
  destruct (Z.leb_spec (off + Z.of_nat (length vs)) (Z.of_nat (length (m_limbs s)))); [|lia].
  reflexivity.
Qed.

Lemma run_assert_true σ b : b = true → assert b σ = (Ret tt, σ).
Proof. intros ->. reflexivity. Qed.

End Run.

(** ** Values of valid integers *)

Section Values.
Context {cfg : build_config} (Hcfg : config_ok cfg).

Lemma abs_size_abs s : abs_size s = Z.abs (st_mp_size s).
Proof. unfold abs_size. destruct (Z.geb_spec (st_mp_size s) 0); lia. Qed.

Lemma forallb_zero (l : list Z) :
  forallb (λ x, x =? 0) l = true → Forall (λ x, x = 0) l.
Proof.
  induction l as [|x l IH]; simpl; [constructor|].
  intros [Hx Hl]%andb_prop. constructor; [by apply Z.eqb_eq | by apply IH].
Qed.

Lemma dtor_checks_inv s :
  dtor_checks s = true →
  st_mp_alloc s = s_alloc
  ∧ Z.abs (st_mp_size s) ≤ SSize
  ∧ (SSize ≤ 2 → Forall (λ x, x = 0) (drop (Z.to_nat (Z.abs (st_mp_size s))) (m_limbs s)))
  ∧ (st_mp_size s ≠ 0 →
     Z.land (limb_at (m_limbs s) (Z.abs (st_mp_size s) - 1)) GMP_NUMB_MASK ≠ 0).
Proof.
  unfold dtor_checks. rewrite abs_size_abs. unfold s_size, opt_size.
  destruct (Z.eqb_spec (st_mp_alloc s) s_alloc) as [Ha|]; simpl; [|done].
  destruct (Z.gtb_spec (Z.abs (st_mp_size s)) SSize) as [|Hsz]; [done|].
  intros H. split; [done|]. split; [lia|]. split.
  - intros Hle. destruct (Z.leb_spec SSize 2); [|lia]. simpl in H.
    destruct (forallb _ _) eqn:Hall; simpl in H; [|done].
    by apply forallb_zero.
  - intros Hnz.
    destruct ((SSize <=? 2) && negb (forallb _ _)); [done|].
    destruct (Z.gtb_spec (Z.abs (st_mp_size s)) 0); [|lia]. simpl in H.
    destruct (Z.eqb_spec (Z.land (limb_at (m_limbs s) (Z.abs (st_mp_size s) - 1)) GMP_NUMB_MASK) 0);
      done.
Qed.

Lemma static_valid_normalized s :
  static_int_valid s → normalized (st_mp_size s) (m_limbs s).
Proof.
  intros [[Hlen _] Hd]. apply dtor_checks_inv in Hd as (_ & Hsz & _ & Htop).
  split; [lia | done].
Qed.

Lemma mpz_valid_normalized d : mpz_valid d → normalized (mp_size d) (mp_d d).
Proof. intros (_ & H1 & H2). by split. Qed.

Lemma take_top (l : list Z) (n : Z) :
  0 < n ≤ Z.of_nat (length l) →
  take (Z.to_nat n) l = take (Z.to_nat (n - 1)) l ++ [limb_at l (n - 1)].
Proof.
  intros Hn. replace (Z.to_nat n) with (S (Z.to_nat (n - 1))) by lia.
  unfold limb_at. destruct (lookup_lt_is_Some_2 l (Z.to_nat (n - 1))) as [x Hx]; [lia|].
  rewrite (take_S_r _ _ _ Hx). f_equal. f_equal.
  by rewrite (nth_lookup_Some _ _ _ _ Hx).
Qed.

(** The magnitude of a normalised sign-magnitude pair fills exactly
    [|size|] limbs. *)
Lemma normalized_magnitude size l :
  normalized size l → size ≠ 0 →
  2 ^ (GMP_NUMB_BITS * (Z.abs size - 1)) ≤ mpn_value (take (Z.to_nat (Z.abs size)) l)
  ∧ mpn_value (take (Z.to_nat (Z.abs size)) l) < 2 ^ (GMP_NUMB_BITS * Z.abs size).
Proof.
  intros [Hlen Htop] Hnz. split.
  - rewrite take_top by lia.
    pose proof (mpn_value_top Hcfg (take (Z.to_nat (Z.abs size - 1)) l) _ (Htop Hnz)) as H.
    rewrite length_take in H.
    replace (Z.of_nat (Z.to_nat (Z.abs size - 1) `min` length l)) with (Z.abs size - 1) in H by lia.
    exact H.
  - pose proof (mpn_value_bound Hcfg (take (Z.to_nat (Z.abs size)) l)) as H.
    rewrite length_take in H.
    replace (Z.of_nat (Z.to_nat (Z.abs size) `min` length l)) with (Z.abs size) in H by lia.
    exact H.
Qed.

Lemma normalized_sgn size l :
  normalized size l →
  Z.sgn (Z.sgn size * mpn_value (take (Z.to_nat (Z.abs size)) l)) = Z.sgn size.
Proof.
  intros Hn. destruct (Z.eq_dec size 0) as [->|Hnz]; [reflexivity|].
  destruct (normalized_magnitude _ _ Hn Hnz) as [Hlo _].
  assert (0 < 2 ^ (GMP_NUMB_BITS * (Z.abs size - 1))).
  { apply Z.pow_pos_nonneg; [lia|]. pose proof (numb_bits_pos Hcfg). nia. }
  rewrite Z.sgn_mul, Z.sgn_sgn.
  rewrite (Z.sgn_pos (mpn_value _)) by lia. lia.
Qed.

Lemma mpz_value_sgn d : mpz_valid d → Z.sgn (mpz_value d) = Z.sgn (mp_size d).
Proof. intros H. apply normalized_sgn, mpz_valid_normalized, H. Qed.

Lemma static_value_sgn s :
  static_int_valid s → Z.sgn (mpz_value (get_mpz_view s)) = Z.sgn (st_mp_size s).
Proof. intros H. apply (normalized_sgn _ _ (static_valid_normalized _ H)). Qed.

Lemma integer_value_sgn u :
  integer_valid u → Z.sgn (integer_value u) = Z.sgn (size_word u).
Proof. destruct u; simpl; [apply static_value_sgn | apply mpz_value_sgn]. Qed.

Lemma integer_value_zero u :
  integer_valid u → (integer_value u = 0 ↔ size_word u = 0).
Proof.
  intros H. rewrite <- Z.sgn_null_iff, (integer_value_sgn _ H). apply Z.sgn_null_iff.
Qed.

Lemma valid_is_static u : integer_valid u → is_static u = match u with m_st _ => true | m_dy _ => false end.
Proof.
  destruct u as [s|d]; simpl; unfold is_static; simpl.
  - intros [_ Hd]. apply dtor_checks_inv in Hd as (-> & _). reflexivity.
  - intros (Ha & _). unfold s_alloc. destruct (Z.eqb_spec (mp_alloc d) (-1)); [lia|done].
Qed.

End Values.

(** ** Conversion to [bool] *)

(** C10. For every valid integer, static or dynamic, of any sign and any
    number of limbs, the explicit conversion to [bool] returns normally
    (no exception, in particular no overflow error), leaves the store
    as it was, and yields [true] exactly when the value is nonzero. *)
Theorem operator_bool_nonzero (cfg : build_config) (Hcfg : config_ok cfg)
    (σ : state) (l : loc) (u : integer_union) :
  objs σ !! l = Some u →
  integer_valid u →
  operator_bool l σ = (Ret (negb (integer_value u =? 0)), σ).
Proof.
  intros Hl Hv. unfold operator_bool.
  rewrite (run_bind_ret _ _ _ _ _ (run_is_static_at _ _ _ Hl)).
  rewrite (valid_is_static _ Hv).
  assert (Hz : (integer_value u =? 0) = (size_word u =? 0)).
  { pose proof (integer_value_zero Hcfg _ Hv).
    destruct (Z.eqb_spec (integer_value u) 0), (Z.eqb_spec (size_word u) 0); tauto. }
  rewrite Hz. destruct u as [s|d]; simpl in *.
  - destruct Hv as [_ Hd]. apply dtor_checks_inv in Hd as (Ha & _).
    rewrite (run_bind_ret _ _ _ _ _ (run_g_st _ _ _ Hl Ha)). reflexivity.
  - assert (mp_alloc d ≠ s_alloc) by (destruct Hv; unfold s_alloc; lia).
    rewrite (run_bind_ret _ _ _ _ _ (run_g_dy _ _ _ Hl H)).
    unfold conversion_impl_bool_dynamic, mpz_sgn. rewrite run_mret. do 3 f_equal.
    destruct (Z.eqb_spec (Z.sgn (mp_size d)) 0), (Z.eqb_spec (mp_size d) 0); lia.
Qed.

Lemma operator_bool_nonzero_witness :
  let u := m_st (StaticInt (-1) (-2) [0; 5]) in
  let σ := State {[1%positive := u]} mpz_cache_default in
  operator_bool 1%positive σ
  = (Ret (negb (integer_value (cfg := config64 2) u =? 0)), σ).
Proof.
  intros u σ.
  apply (operator_bool_nonzero (config64 2) (config64_ok 2 ltac:(lia)) σ 1%positive u).
  - reflexivity.
  - split; [split; [reflexivity | repeat constructor; simpl; lia] | reflexivity].
Defined.

(** ** The public [mul_2exp] *)

(** C2 (evaluation of the code). The public [mul_2exp] has an empty
    body: whatever the operands and the shift, it returns without
    touching the store.  On the scenario [mul_2exp(r, -5, 130)] with
    [SSize == 2] and [r] initially zero, [r] still denotes [0] afterwards,
    not [-5 * 2^130], and it is still in static storage. *)
Theorem mul_2exp_does_nothing :
  (∀ (cfg : build_config) (rop n : loc) (s : Z) (σ : state),
      mul_2exp rop n s σ = (Ret tt, σ))
  ∧ let cfg := config64 2 in
    let r := m_st (StaticInt (-1) 0 [0; 0]) in
    let a := m_st (StaticInt (-1) (-1) [5; 0]) in
    let σ := State (<[1%positive := r]> {[2%positive := a]}) mpz_cache_default in
    integer_valid a ∧ integer_value a = -5
    ∧ ∃ σ' r', mul_2exp 1%positive 2%positive 130 σ = (Ret tt, σ')
        ∧ objs σ' !! 1%positive = Some r'
        ∧ integer_value r' = 0
        ∧ integer_value r' ≠ integer_value a * 2 ^ 130
        ∧ is_static r' = true.
Proof.
  split; [reflexivity|].
  intros cfg r a σ. split; [|split; [reflexivity|]].
  - split; [split; [reflexivity | repeat constructor; simpl; lia] | reflexivity].
  - exists σ, r. repeat split; try reflexivity. vm_compute. discriminate.
Qed.

(** ** Equality *)

(** C3 (evaluation of the code). With two static operands [operator==]
    compares limbs through [& GMP_NUMB_BITS], that is through bit 6 on a
    64-bit build: the static integers [1] and [2] are valid, denote
    different values, and compare equal. *)
Theorem operator_eq_static_one_two :
  let cfg := config64 2 in
  let a := m_st (StaticInt (-1) 1 [1; 0]) in
  let b := m_st (StaticInt (-1) 1 [2; 0]) in
  let σ := State (<[1%positive := a]> {[2%positive := b]}) mpz_cache_default in
  integer_valid a ∧ integer_valid b
  ∧ integer_value a = 1 ∧ integer_value b = 2
  ∧ operator_eq 1%positive 2%positive σ = (Ret true, σ).
Proof.
  intros cfg a b σ. repeat split; try reflexivity; repeat constructor; simpl; lia.
Qed.

(** ** String output *)

(** C4 (evaluation of the code). [to_string(base)] validates [base] and
    then calls [mpz_to_str] without it, so the digits are always those
    of base 10: for every admissible base the result is the base-10
    string, and the static integer [2] is printed in base 2 as ["2"]
    although its base-2 representation is ["10"]. *)
Theorem to_string_ignores_base :
  (∀ (cfg : build_config) (u : integer_union) (base : Z),
      2 ≤ base ≤ 62 → to_string u base = to_string u 10)
  ∧ let cfg := config64 2 in
    let two := StaticInt (-1) 1 [2; 0] in
    integer_valid (m_st two)
    ∧ integer_value (m_st two) = 2
    ∧ to_string (m_st two) 2 = Ret "2"%string
    ∧ mpz_to_str (get_mpz_view two) 2 = Ret "10"%string.
Proof.
  split.
  - intros cfg u base Hb. unfold to_string.
    destruct (Z.ltb_spec base 2); [lia|]. destruct (Z.gtb_spec base 62); [lia|].
    reflexivity.
  - intros cfg two. repeat split; try reflexivity; repeat constructor; simpl; lia.
Qed.

Lemma to_string_ignores_base_witness :
  to_string (cfg := config64 2) (m_st (StaticInt (-1) 1 [2; 0])) 16
  = to_string (cfg := config64 2) (m_st (StaticInt (-1) 1 [2; 0])) 10.
Proof.
  apply (proj1 to_string_ignores_base (config64 2) (m_st (StaticInt (-1) 1 [2; 0])) 16).
  lia.
Defined.

(** ** Construction from floating-point values *)

(** C9 (as stated, refuted). Constructing from a NaN throws
    [std::invalid_argument], whose category is not the domain category. *)
Lemma from_float_nan_not_domain :
  let cfg := config64 2 in
  let σ := State ∅ mpz_cache_default in
  ¬ (∃ e, integer_union_from_float 1%positive cpp_double S754_nan σ = (Throw e, σ)
          ∧ exn_category e = domain_category).
Proof.
  intros cfg σ [e [Hrun Hcat]]. vm_compute in Hrun.
  injection Hrun as <-. discriminate Hcat.
Qed.

(** C9 (amended). Constructing an integer from any non-finite value
    (NaN or an infinity) of type [float], [double] or [long double]
    throws [std::invalid_argument]; the exception leaves the store as it
    was, so no integer exists at the address under construction. *)
Theorem from_float_non_finite (cfg : build_config) (this : loc) (ty : float_type)
    (x : spec_float) (σ : state) :
  isfinite x = false →
  integer_union_from_float this ty x σ = (Throw invalid_argument, σ)
  ∧ exn_category invalid_argument = invalid_argument_category.
Proof.
  intros Hx. split; [|reflexivity].
  unfold integer_union_from_float, static_int_from_float. rewrite Hx. reflexivity.
Qed.

Lemma from_float_non_finite_witness :
  let σ := State ∅ mpz_cache_default in
  integer_union_from_float (cfg := config64 2) 1%positive cpp_long_double (S754_infinity true) σ
  = (Throw invalid_argument, σ)
  ∧ exn_category invalid_argument = invalid_argument_category.
Proof.
  intros σ.
  apply (from_float_non_finite (config64 2) 1%positive cpp_long_double (S754_infinity true) σ).
  reflexivity.
Defined.

(** ** The backend's result operands *)

Section Backend.
Context {cfg : build_config} (Hcfg : config_ok cfg).

Lemma nlimbs_of_zero : nlimbs_of 0 = O.
Proof. reflexivity. Qed.

Lemma nlimbs_of_spec v :
  v ≠ 0 →
  0 < Z.of_nat (nlimbs_of v)
  ∧ 2 ^ (GMP_NUMB_BITS * (Z.of_nat (nlimbs_of v) - 1)) ≤ Z.abs v
  ∧ Z.abs v < 2 ^ (GMP_NUMB_BITS * Z.of_nat (nlimbs_of v)).
Proof.
  intros Hv. unfold nlimbs_of. destruct (Z.eqb_spec v 0); [done|].
  pose proof (numb_bits_pos Hcfg) as Hnb.
  assert (Habs : 0 < Z.abs v) by lia.
  pose proof (Z.log2_spec _ Habs) as [Hlo Hhi].
  pose proof (Z.log2_nonneg (Z.abs v)) as Hk.
  set (k := Z.log2 (Z.abs v)) in *.
  pose proof (Z.div_pos k GMP_NUMB_BITS Hk Hnb) as Hq.
  pose proof (Z.mul_div_le k GMP_NUMB_BITS Hnb) as Hle.
  pose proof (Z.mod_pos_bound k GMP_NUMB_BITS Hnb) as Hmod.
  assert (Hnz : GMP_NUMB_BITS ≠ 0) by lia.
  pose proof (Z.div_mod k GMP_NUMB_BITS Hnz) as Hdm.
  rewrite Z2Nat.id by lia. split; [lia|]. split.
  - eapply Z.le_trans; [|exact Hlo]. apply Z.pow_le_mono_r; lia.
  - eapply Z.lt_le_trans; [exact Hhi|]. apply Z.pow_le_mono_r; lia.
Qed.

Lemma mpz_put_value rop v : mpz_value (mpz_put rop v) = v.
Proof.
  unfold mpz_value, mpz_put. cbn [mp_size mp_d].
  destruct (Z.eq_dec v 0) as [->|Hv]; [reflexivity|].
  destruct (nlimbs_of_spec v Hv) as (Hn & Hlo & Hhi).
  assert (Hs : Z.abs (Z.sgn v * Z.of_nat (nlimbs_of v)) = Z.of_nat (nlimbs_of v)) by lia.
  rewrite Hs, Nat2Z.id.
  rewrite take_app_length' by (by rewrite mpn_of_Z_length).
  rewrite (mpn_value_of_Z_small Hcfg) by lia.
  rewrite Z.sgn_mul, Z.sgn_sgn, (Z.sgn_pos (Z.of_nat _)) by lia. lia.
Qed.

Lemma mpn_value_top_zero l x :
  Z.land x GMP_NUMB_MASK = 0 → mpn_value (l ++ [x]) = mpn_value l.
Proof.
  intros Hx. rewrite (mpn_value_app Hcfg). cbn [mpn_value]. rewrite Hx. lia.
Qed.

Lemma mpz_put_valid rop v : mpz_valid (mpz_put rop v).
Proof.
  pose proof (mpz_put_value rop v) as Hval. revert Hval.
  unfold mpz_valid, mpz_value, mpz_put. cbn [mp_alloc mp_size mp_d]. intros Hval.
  split; [lia|]. split.
  { rewrite length_app, mpn_of_Z_length. lia. }
  intros Hnz Htop.
  assert (Hv : v ≠ 0) by (intros ->; simpl in Hnz; lia).
  destruct (nlimbs_of_spec v Hv) as (Hn & Hlo & Hhi).
  assert (Hs : Z.abs (Z.sgn v * Z.of_nat (nlimbs_of v)) = Z.of_nat (nlimbs_of v)) by lia.
  rewrite Hs in Hval, Htop.
  set (l := mpn_of_Z (nlimbs_of v) (Z.abs v) ++ drop (nlimbs_of v) (mp_d rop)) in *.
  assert (Hlen : Z.of_nat (nlimbs_of v) ≤ Z.of_nat (length l)).
  { unfold l. rewrite length_app, mpn_of_Z_length. lia. }
  rewrite (take_top l (Z.of_nat (nlimbs_of v))) in Hval by lia.
  rewrite (mpn_value_top_zero _ _ Htop) in Hval.
  pose proof (mpn_value_bound Hcfg (take (Z.to_nat (Z.of_nat (nlimbs_of v) - 1)) l)) as Hb.
  rewrite length_take in Hb.
  replace (Z.of_nat (Z.to_nat (Z.of_nat (nlimbs_of v) - 1) `min` length l))
    with (Z.of_nat (nlimbs_of v) - 1) in Hb by lia.
  pose proof (mpn_value_nonneg Hcfg (take (Z.to_nat (Z.of_nat (nlimbs_of v) - 1)) l)).
  assert (Z.abs v = mpn_value (take (Z.to_nat (Z.of_nat (nlimbs_of v) - 1)) l)).
  { assert (Hsg : Z.sgn (Z.sgn v * Z.of_nat (nlimbs_of v)) = Z.sgn v).
    { rewrite Z.sgn_mul, Z.sgn_sgn, (Z.sgn_pos (Z.of_nat _)) by lia. lia. }
    rewrite Hsg in Hval.
    destruct (Z.sgn_spec v) as [[? Hs']|[[? Hs']|[? Hs']]]; rewrite Hs' in Hval; lia. }
  lia.
Qed.

Lemma mpz_put_alloc rop v : mp_alloc (mpz_put rop v) ≠ s_alloc.
Proof. unfold mpz_put, s_alloc. cbn. lia. Qed.

End Backend.

(** ** The pool, promotion and destruction *)

Section PoolFacts.
Context {cfg : build_config} (Hcfg : config_ok cfg).

Lemma run_mpz_init_nlimbs n σ :
  0 ≤ n ≤ 65 →
  mpz_init_nlimbs n σ = (Ret (mpz_init2 (GMP_NUMB_BITS * n)), σ).
Proof.
  intros Hn. unfold mpz_init_nlimbs.
  pose proof (numb_bits_pos Hcfg) as Hnb.
  assert (Hle : GMP_NUMB_BITS ≤ 64).
  { unfold GMP_NUMB_BITS. destruct Hcfg. lia. }
  assert (65535 ≤ SIZE_MAX ∧ 65535 ≤ BITCNT_MAX) as [Hsm Hbm] by (destruct Hcfg; lia).
  assert (1023 ≤ SIZE_MAX / GMP_NUMB_BITS).
  { apply Z.div_le_lower_bound; lia. }
  destruct (Z.gtb_spec n (SIZE_MAX / GMP_NUMB_BITS)); [lia|].
  destruct (Z.gtb_spec (GMP_NUMB_BITS * n) BITCNT_MAX); [nia|].
  rewrite run_bind. unfold mpz_init2. cbn [mp_alloc].
  replace ((GMP_NUMB_BITS * n + GMP_NUMB_BITS - 1) / GMP_NUMB_BITS) with n.
  - destruct (Z.geb_spec (Z.max 1 n) n); [reflexivity | lia].
  - apply Z.div_unique with (r := GMP_NUMB_BITS - 1); lia.
Qed.

Lemma run_mpz_init_cache n σ :
  cache_valid (cache σ) → 0 ≤ n ≤ 65 →
  ∃ m c', mpz_init_cache n σ = (Ret m, State (objs σ) c') ∧ cache_valid c'.
Proof.
  intros Hc Hn. destruct σ as [o c]. simpl in *.
  unfold mpz_init_cache. destruct MPPP_HAVE_THREAD_LOCAL.
  - unfold mpz_cache_pop. rewrite run_bind. cbn [get_cache cache objs].
    destruct (Z.eqb_spec n 0); cbn [orb].
    { rewrite run_mpz_init_nlimbs by done. eauto. }
    destruct (Z.gtb_spec n max_size).
    { rewrite run_mpz_init_nlimbs by done. eauto. }
    destruct (m_vec c !! Z.to_nat (n - 1)) as [bucket|] eqn:Hb.
    + destruct (last bucket) as [m|].
      * rewrite run_bind. cbn. eexists _, _. split; [reflexivity|].
        unfold cache_valid in *. cbn. by rewrite length_insert.
      * rewrite run_mpz_init_nlimbs by done. eauto.
    + apply lookup_ge_None in Hb. unfold cache_valid, max_size in *. lia.
  - rewrite run_mpz_init_nlimbs by done. eauto.
Qed.

Lemma run_mpz_clear_cache m σ :
  cache_valid (cache σ) → 0 ≤ mp_alloc m →
  ∃ c', mpz_clear_cache m σ = (Ret tt, State (objs σ) c') ∧ cache_valid c'.
Proof.
  intros Hc Ha. destruct σ as [o c]. simpl in *.
  unfold mpz_clear_cache. destruct MPPP_HAVE_THREAD_LOCAL; [|eauto].
  unfold mpz_cache_push. rewrite run_bind.
  destruct (Z.geb_spec (mp_alloc m) 0); [|lia]. cbn [assert].
  rewrite run_mret, run_bind. cbn [get_cache cache objs].
  destruct (Z.eqb_spec (mp_alloc m) 0); [eauto|].
  destruct (Z.gtb_spec (mp_alloc m) max_size); [eauto|]. cbn [orb].
  destruct (m_vec c !! Z.to_nat (mp_alloc m - 1)) as [bucket|] eqn:Hb.
  - destruct (Z.of_nat (length bucket) >=? max_entries); [eauto|].
    eexists. split; [reflexivity|]. unfold cache_valid in *. cbn. by rewrite length_insert.
  - apply lookup_ge_None in Hb. unfold cache_valid, max_size in *. lia.
Qed.

Lemma run_destroy_static σ l s :
  objs σ !! l = Some (m_st s) → static_int_valid s →
  destroy_static l σ = (Ret tt, σ).
Proof.
  intros Hl [Ht Hd]. unfold destroy_static.
  destruct (dtor_checks_inv _ Hd) as (Ha & _).
  rewrite (run_bind_ret _ _ _ _ _ (run_g_st _ _ _ Hl Ha)). by rewrite Hd.
Qed.

Lemma run_destroy_dynamic σ l d :
  objs σ !! l = Some (m_dy d) → mpz_valid d → cache_valid (cache σ) →
  ∃ c', destroy_dynamic l σ = (Ret tt, State (objs σ) c') ∧ cache_valid c'.
Proof.
  intros Hl Hv Hc. unfold destroy_dynamic.
  assert (Ha : mp_alloc d ≠ s_alloc) by (destruct Hv; unfold s_alloc; lia).
  rewrite (run_bind_ret _ _ _ _ _ (run_get_obj _ _ _ Hl)).
  rewrite (valid_is_static (m_dy d) Hv). cbn [negb assert].
  rewrite run_bind, run_mret.
  rewrite (run_bind_ret _ _ _ _ _ (run_g_dy _ _ _ Hl Ha)).
  destruct Hv as (Hge & _).
  destruct (Z.geb_spec (mp_alloc d) 0); [|lia]. cbn [assert].
  rewrite run_bind, run_mret.
  by apply run_mpz_clear_cache.
Qed.

Lemma static_view_size_bound s :
  static_int_valid s → 0 ≤ mpz_size (get_mpz_view s) ≤ 64.
Proof.
  intros [_ Hd]. apply dtor_checks_inv in Hd as (_ & Hs & _).
  unfold mpz_size, get_mpz_view. cbn. destruct Hcfg. lia.
Qed.

Lemma run_promote σ l s n :
  objs σ !! l = Some (m_st s) → static_int_valid s → cache_valid (cache σ) →
  0 ≤ n ≤ 65 →
  ∃ d c', promote l n σ = (Ret tt, State (<[l := m_dy d]> (objs σ)) c')
    ∧ cache_valid c' ∧ mpz_valid d ∧ mp_alloc d ≠ s_alloc
    ∧ mpz_value d = mpz_value (get_mpz_view s).
Proof.
  intros Hl Hv Hc Hn. unfold promote.
  destruct (dtor_checks_inv _ (proj2 Hv)) as (Ha & _).
  rewrite (run_bind_ret _ _ _ _ _ (run_get_obj _ _ _ Hl)).
  rewrite (valid_is_static (m_st s) Hv). cbn [assert].
  rewrite run_bind, run_mret.
  rewrite (run_bind_ret _ _ _ _ _ (run_g_st _ _ _ Hl Ha)).
  pose proof (static_view_size_bound s Hv) as Hsz.
  assert (∃ m c', (if n =? 0 then mpz_init_set_cache (get_mpz_view s)
                   else t ← mpz_init_cache n; mret (mpz_set t (get_mpz_view s))) σ
                  = (Ret (mpz_set m (get_mpz_view s)), State (objs σ) c') ∧ cache_valid c')
    as (m & c' & Hrun & Hc').
  { destruct (n =? 0).
    - unfold mpz_init_set_cache.
      assert (Hsz' : 0 ≤ mpz_size (get_mpz_view s) ≤ 65) by lia.
      destruct (run_mpz_init_cache (mpz_size (get_mpz_view s)) σ Hc Hsz')
        as (m & c' & Hrun & Hc').
      exists m, c'. split; [|done]. by rewrite (run_bind_ret _ _ _ _ _ Hrun).
    - destruct (run_mpz_init_cache n σ Hc Hn) as (m & c' & Hrun & Hc').
      exists m, c'. split; [|done]. by rewrite (run_bind_ret _ _ _ _ _ Hrun). }
  rewrite (run_bind_ret _ _ _ _ _ Hrun).
  rewrite (run_bind_ret _ _ _ _ _ (run_destroy_static (State (objs σ) c') l s Hl Hv)).
  rewrite run_put_obj. unfold upd. cbn [objs cache].
  eexists _, _. split; [reflexivity|]. split; [done|].
  unfold mpz_set. split; [apply (mpz_put_valid Hcfg)|]. split; [apply mpz_put_alloc|].
  apply (mpz_put_value Hcfg).
Qed.

End PoolFacts.

(** ** Move construction and move assignment *)

Section MoveFacts.
Context {cfg : build_config} (Hcfg : config_ok cfg).

Lemma static_int_default_valid : static_int_valid static_int_default.
Proof.
  destruct Hcfg as [HS _ _ _ _].
  split.
  - split; cbn; [rewrite length_replicate; lia|].
    apply Forall_replicate. split; [lia|]. apply Z.pow_pos_nonneg; [lia|].
    destruct Hcfg. lia.
  - assert (Hall : forallb (λ x, x =? 0) (replicate (Z.to_nat SSize) 0) = true).
    { apply forallb_forall. intros x Hx%list_elem_of_In%elem_of_replicate. apply Z.eqb_eq. tauto. }
    unfold dtor_checks. rewrite abs_size_abs. unfold static_int_default, s_size.
    cbn [st_mp_alloc st_mp_size m_limbs]. rewrite Z.eqb_refl. cbn [negb].
    change (Z.abs 0) with 0. change (Z.to_nat 0) with O. rewrite drop_0.
    destruct (Z.gtb_spec 0 SSize); [lia|].
    rewrite Hall. cbn [negb]. rewrite andb_false_r. reflexivity.
Qed.

Lemma static_int_default_value : integer_value (m_st static_int_default) = 0.
Proof. reflexivity. Qed.

End MoveFacts.

(** C6 (as stated, refuted). Move assignment between two dynamic
    integers swaps the descriptors: the source, which was in dynamic
    storage, is afterwards neither static nor zero. *)
Lemma move_assign_dynamic_source_kept :
  let cfg := config64 2 in
  let dt := MpzStruct 1 1 [5] in
  let do := MpzStruct 1 1 [7] in
  let σ := State (<[1%positive := m_dy dt]> {[2%positive := m_dy do]}) mpz_cache_default in
  is_dynamic (m_dy do) = true
  ∧ ¬ (∃ σ' u, integer_union_move_assign 1%positive 2%positive σ = (Ret tt, σ')
               ∧ objs σ' !! 2%positive = Some u
               ∧ is_static u = true ∧ integer_value u = 0).
Proof.
  intros cfg dt do σ. split; [reflexivity|].
  intros (σ' & u & Hrun & Hu & Hst & _).
  vm_compute in Hrun. injection Hrun as <-. vm_compute in Hu. injection Hu as <-.
  discriminate Hst.
Qed.

(** C6 (amended). Let [other] be a valid integer at an address different
    from [this].
    - Move construction at [this] gives [this] the representation of
      [other] unchanged (a static source is bit-copied, a dynamic
      descriptor is taken over); a static source is left as it was and a
      dynamic source becomes the static zero.
    - Move assignment to a valid [this] does the same when the source is
      static or the destination is static; when both are dynamic the two
      descriptors are swapped, so that the source keeps a dynamic value
      (the destination's former one).
    - Move assignment of an integer to itself changes nothing.
    The static zero is valid, in static storage and denotes [0]. *)
Theorem move_leaves_source (cfg : build_config) (Hcfg : config_ok cfg)
    (σ : state) (this other : loc) (uo : integer_union) :
  this ≠ other →
  objs σ !! other = Some uo →
  integer_valid uo →
  cache_valid (cache σ) →
  (∃ σ', integer_union_move_ctor this other σ = (Ret tt, σ')
     ∧ objs σ' !! this = Some uo
     ∧ objs σ' !! other = Some (if is_static uo then uo else m_st static_int_default))
  ∧ (∀ ut, objs σ !! this = Some ut → integer_valid ut →
     ∃ σ', integer_union_move_assign this other σ = (Ret tt, σ')
       ∧ objs σ' !! this = Some uo
       ∧ objs σ' !! other
         = Some (if is_static uo then uo
                 else if is_static ut then m_st static_int_default else ut))
  ∧ integer_union_move_assign other other σ = (Ret tt, σ)
  ∧ integer_valid (m_st static_int_default)
  ∧ is_static (m_st static_int_default) = true
  ∧ integer_value (m_st static_int_default) = 0.
Proof.
  intros Hne Ho Hvo Hc.
  assert (Hne' : (this =? other)%positive = false) by by apply Pos.eqb_neq.
  split; [|split; [|split; [|split; [|split]]]].
  - unfold integer_union_move_ctor.
    rewrite (run_bind_ret _ _ _ _ _ (run_is_static_at _ _ _ Ho)).
    rewrite (valid_is_static _ Hvo). destruct uo as [s|d].
    + destruct (dtor_checks_inv _ (proj2 Hvo)) as (Ha & _).
      rewrite (run_bind_ret _ _ _ _ _ (run_g_st _ _ _ Ho Ha)), run_put_obj.
      eexists. split; [reflexivity|]. split; [apply lookup_upd_eq|].
      by rewrite lookup_upd_ne.
    + assert (Ha : mp_alloc d ≠ s_alloc) by (destruct Hvo; unfold s_alloc; lia).
      rewrite (run_bind_ret _ _ _ _ _ (run_g_dy _ _ _ Ho Ha)).
      rewrite (run_bind_ret _ _ _ _ _ (run_put_obj _ _ _)).
      assert (Ho' : objs (upd σ this (m_dy d)) !! other = Some (m_dy d))
        by by rewrite lookup_upd_ne.
      rewrite (run_bind_ret _ _ _ _ _ (run_g_dy _ _ _ Ho' Ha)), run_put_obj.
      eexists. split; [reflexivity|]. split; [|apply lookup_upd_eq].
      rewrite lookup_upd_ne by done. apply lookup_upd_eq.
  - intros ut Ht Hvt. unfold integer_union_move_assign. rewrite Hne'.
    rewrite (run_bind_ret _ _ _ _ _ (run_is_static_at _ _ _ Ht)).
    rewrite (run_bind_ret _ _ _ _ _ (run_is_static_at _ _ _ Ho)).
    rewrite (valid_is_static _ Hvo), (valid_is_static _ Hvt).
    destruct ut as [st|dt], uo as [so|do]; cbn [andb negb].
    + destruct (dtor_checks_inv _ (proj2 Hvo)) as (Hao & _).
      destruct (dtor_checks_inv _ (proj2 Hvt)) as (Hat & _).
      rewrite (run_bind_ret _ _ _ _ _ (run_g_st _ _ _ Ho Hao)).
      rewrite (run_bind_ret _ _ _ _ _ (run_g_st _ _ _ Ht Hat)), run_put_obj.
      eexists. split; [reflexivity|]. split; [apply lookup_upd_eq|].
      by rewrite lookup_upd_ne.
    + assert (Ha : mp_alloc do ≠ s_alloc) by (destruct Hvo; unfold s_alloc; lia).
      rewrite (run_bind_ret _ _ _ _ _ (run_destroy_static _ _ _ Ht Hvt)).
      rewrite (run_bind_ret _ _ _ _ _ (run_g_dy _ _ _ Ho Ha)).
      rewrite (run_bind_ret _ _ _ _ _ (run_put_obj _ _ _)).
      assert (Ho' : objs (upd σ this (m_dy do)) !! other = Some (m_dy do))
        by by rewrite lookup_upd_ne.
      rewrite (run_bind_ret _ _ _ _ _ (run_g_dy _ _ _ Ho' Ha)), run_put_obj.
      eexists. split; [reflexivity|]. split; [|apply lookup_upd_eq].
      rewrite lookup_upd_ne by done. apply lookup_upd_eq.
    + destruct (dtor_checks_inv _ (proj2 Hvo)) as (Hao & _).
      destruct (run_destroy_dynamic _ _ _ Ht Hvt Hc) as (c' & Hrun & _).
      rewrite (run_bind_ret _ _ _ _ _ Hrun).
      assert (Ho' : objs (State (objs σ) c') !! other = Some (m_st so)) by done.
      rewrite (run_bind_ret _ _ _ _ _ (run_g_st _ _ _ Ho' Hao)), run_put_obj.
      eexists. split; [reflexivity|]. split; [apply lookup_upd_eq|].
      by rewrite lookup_upd_ne.
    + assert (Hao : mp_alloc do ≠ s_alloc) by (destruct Hvo; unfold s_alloc; lia).
      assert (Hat : mp_alloc dt ≠ s_alloc) by (destruct Hvt; unfold s_alloc; lia).
      rewrite (run_bind_ret _ _ _ _ _ (run_g_dy _ _ _ Ht Hat)).
      rewrite (run_bind_ret _ _ _ _ _ (run_g_dy _ _ _ Ho Hao)).
      rewrite (run_bind_ret _ _ _ _ _ (run_put_obj _ _ _)), run_put_obj.
      eexists. split; [reflexivity|]. split; [|apply lookup_upd_eq].
      rewrite lookup_upd_ne by done. apply lookup_upd_eq.
  - unfold integer_union_move_assign. by rewrite Pos.eqb_refl.
  - apply (static_int_default_valid Hcfg).
  - reflexivity.
  - reflexivity.
Qed.

Lemma move_leaves_source_witness :
  let cfg := config64 2 in
  let uo := m_dy (MpzStruct 3 (-3) [1; 2; 3]) in
  let σ := State {[2%positive := uo]} mpz_cache_default in
  ∃ σ', integer_union_move_ctor 1%positive 2%positive σ = (Ret tt, σ')
     ∧ objs σ' !! 1%positive = Some uo
     ∧ objs σ' !! 2%positive = Some (if is_static uo then uo else m_st static_int_default).
Proof.
  intros cfg uo σ.
  refine (proj1 (move_leaves_source cfg (config64_ok 2 ltac:(lia)) σ 1%positive 2%positive uo
                   _ _ _ _)).
  - discriminate.
  - reflexivity.
  - split; [simpl; lia | split; [simpl; lia | intros _; vm_compute; discriminate]].
  - reflexivity.
Defined.

(** ** Failure of a static kernel leaves the destination untouched *)

Section Failure.
Context {cfg : build_config}.

Lemma readonly_mret {A} (a : A) : readonly (mret a : M A).
Proof. by intros σ. Qed.

Lemma readonly_undefined {A} : readonly (undefined : M A).
Proof. by intros σ. Qed.

Lemma readonly_bind {A B} (m : M A) (f : A → M B) :
  readonly m → (∀ a, readonly (f a)) → readonly (m ≫= f).
Proof.
  intros Hm Hf σ. rewrite run_bind. specialize (Hm σ).
  destruct (m σ) as [[a|e| |] σ1]; simpl in *; subst; try done. apply Hf.
Qed.

Lemma readonly_get_obj l : readonly (get_obj l).
Proof. intros σ. unfold get_obj. by destruct (objs σ !! l). Qed.

Lemma readonly_assert b : readonly (assert b).
Proof. by destruct b. Qed.

Lemma readonly_g_st l : readonly (g_st l).
Proof.
  apply readonly_bind; [apply readonly_get_obj|].
  intros [s|d]; [|apply readonly_undefined].
  destruct (is_static _); [apply readonly_mret | apply readonly_undefined].
Qed.

Lemma readonly_load_size l : readonly (load_size l).
Proof. apply readonly_bind; [apply readonly_g_st | intros; apply readonly_mret]. Qed.

Lemma readonly_load_limb l i : readonly (load_limb l i).
Proof.
  apply readonly_bind; [apply readonly_g_st | intros s].
  destruct (_ && _); [apply readonly_mret | apply readonly_undefined].
Qed.

Lemma readonly_load_limbs l off n : readonly (load_limbs l off n).
Proof.
  apply readonly_bind; [apply readonly_g_st | intros s].
  destruct (_ && _); [apply readonly_mret | apply readonly_undefined].
Qed.

Lemma readonly_top_bit_set op asize : readonly (top_bit_set op asize).
Proof.
  unfold top_bit_set. destruct (asize =? SSize); [|apply readonly_mret].
  apply readonly_bind; [apply readonly_load_limb | intros; apply readonly_mret].
Qed.

Lemma readonly_compare_limbs_2 op1 op2 asize : readonly (compare_limbs_2 op1 op2 asize).
Proof.
  unfold compare_limbs_2.
  repeat first
    [ apply readonly_mret | apply readonly_assert | apply readonly_load_limb
    | apply readonly_bind; [|intros]
    | match goal with |- readonly (if ?c then _ else _) => destruct c end ].
Qed.

Lemma never_false_bind {A} (m : M A) (f : A → M bool) :
  (∀ a, never_false (f a)) → never_false (m ≫= f).
Proof.
  intros Hf σ σ'. rewrite run_bind.
  destruct (m σ) as [[a|e| |] σ1]; try done. apply Hf.
Qed.

Lemma never_false_true : never_false (mret true).
Proof. by intros σ σ'. Qed.

Lemma untouched_never_false m : never_false m → untouched_on_failure m.
Proof. intros H σ σ' Hr. by destruct (H σ σ'). Qed.

Lemma untouched_mret b : untouched_on_failure (mret b).
Proof. intros σ σ' Hr. by injection Hr. Qed.

Lemma untouched_undefined : untouched_on_failure undefined.
Proof. by intros σ σ' Hr. Qed.

Lemma untouched_bind_readonly {A} (m : M A) (f : A → M bool) :
  readonly m → (∀ a, untouched_on_failure (f a)) → untouched_on_failure (m ≫= f).
Proof.
  intros Hm Hf σ σ'. rewrite run_bind. specialize (Hm σ).
  destruct (m σ) as [[a|e| |] σ1]; simpl in *; subst; try done. apply Hf.
Qed.

(** A stage that itself follows the convention, followed by a
    continuation that gives up on [false] and cannot fail on [true]. *)
Lemma untouched_bind_bool (m : M bool) (f : bool → M bool) :
  untouched_on_failure m → never_false (f true) → untouched_on_failure (f false) →
  untouched_on_failure (m ≫= f).
Proof.
  intros Hm Ht Hf σ σ'. rewrite run_bind. specialize (Hm σ).
  destruct (m σ) as [[[]|e| |] σ1]; try done.
  - intros Hr. by destruct (Ht σ1 σ').
  - intros Hr. rewrite (Hm σ1 eq_refl) in Hr. by apply Hf.
Qed.

End Failure.

(** Reads are recognised, and a kernel is followed through its
    branches until it either fails before the first write or is past
    the point where it can fail. *)
Ltac solve_readonly :=
  repeat first
    [ apply readonly_mret | apply readonly_undefined | apply readonly_assert
    | apply readonly_load_size | apply readonly_load_limb | apply readonly_load_limbs
    | apply readonly_g_st | apply readonly_get_obj
    | apply readonly_top_bit_set | apply readonly_compare_limbs_2
    | apply readonly_bind; [|intros]
    | match goal with
      | |- readonly (if ?c then _ else _) => destruct c
      | |- readonly (let '(_, _) := ?p in _) => destruct p
      end ].

Ltac solve_never_false :=
  repeat first
    [ apply never_false_true
    | apply never_false_bind; intros
    | match goal with
      | |- never_false (if ?c then _ else _) => destruct c
      | |- never_false (let '(_, _) := ?p in _) => destruct p
      end ].

Ltac solve_untouched :=
  repeat first
    [ apply untouched_mret | apply untouched_undefined
    | apply untouched_bind_readonly; [solve [solve_readonly] | intros]
    | match goal with
      | |- untouched_on_failure (if ?c then _ else _) => destruct c
      | |- untouched_on_failure (let '(_, _) := ?p in _) => destruct p
      | |- untouched_on_failure (match ?x with Some _ => _ | None => _ end) => destruct x
      end
    | solve [apply untouched_never_false; solve_never_false] ].

Section FailureKernels.
Context {cfg : build_config}.

Lemma static_add_impl_0_untouched rop op1 op2 asize1 asize2 sign1 sign2 :
  untouched_on_failure (static_add_impl_0 rop op1 op2 asize1 asize2 sign1 sign2).
Proof. unfold static_add_impl_0. solve_untouched. Qed.

Lemma static_add_impl_1_untouched rop op1 op2 asize1 asize2 sign1 sign2 :
  untouched_on_failure (static_add_impl_1 rop op1 op2 asize1 asize2 sign1 sign2).
Proof. unfold static_add_impl_1. solve_untouched. Qed.

Lemma static_add_impl_2_untouched rop op1 op2 asize1 asize2 sign1 sign2 :
  untouched_on_failure (static_add_impl_2 rop op1 op2 asize1 asize2 sign1 sign2).
Proof. unfold static_add_impl_2. solve_untouched. Qed.

Lemma static_add_impl_untouched rop op1 op2 asize1 asize2 sign1 sign2 :
  untouched_on_failure (static_add_impl rop op1 op2 asize1 asize2 sign1 sign2).
Proof.
  unfold static_add_impl.
  destruct (static_add_algo =? 1); [apply static_add_impl_1_untouched|].
  destruct (static_add_algo =? 2);
    [apply static_add_impl_2_untouched | apply static_add_impl_0_untouched].
Qed.

Lemma static_addsub_untouched AddOrSub rop op1 op2 :
  untouched_on_failure (static_addsub AddOrSub rop op1 op2).
Proof.
  unfold static_addsub.
  apply untouched_bind_readonly; [solve_readonly | intros size1].
  apply untouched_bind_readonly; [solve_readonly | intros size2].
  destruct (asize_sign size1) as [asize1 sign1].
  destruct (asize_sign _) as [asize2 sign2].
  intros σ σ'. rewrite run_bind.
  pose proof (static_add_impl_untouched rop op1 op2 asize1 asize2 sign1 sign2 σ) as Hk.
  destruct (static_add_impl _ _ _ _ _ _ _ σ) as [[[]|e| |] σ1]; try done.
  - rewrite andb_true_r, run_bind.
    destruct (when _ _ σ1) as [[[]|e| |] σ2]; done.
  - rewrite andb_false_r. cbn. intros [= <-]. by apply Hk.
Qed.

Lemma static_mul_2exp_impl_0_untouched rop n s :
  untouched_on_failure (static_mul_2exp_impl_0 rop n s).
Proof.
  unfold static_mul_2exp_impl_0. solve_untouched.
  apply untouched_bind_bool; [solve_untouched | solve_never_false | apply untouched_mret].
Qed.

Lemma static_mul_2exp_impl_1_untouched rop n s :
  untouched_on_failure (static_mul_2exp_impl_1 rop n s).
Proof. unfold static_mul_2exp_impl_1. solve_untouched. Qed.

Lemma static_mul_2exp_impl_2_untouched rop n s :
  untouched_on_failure (static_mul_2exp_impl_2 rop n s).
Proof. unfold static_mul_2exp_impl_2. solve_untouched. Qed.

Lemma static_mul_2exp_impl_untouched rop n s :
  untouched_on_failure (static_mul_2exp_impl rop n s).
Proof.
  unfold static_mul_2exp_impl.
  destruct (static_mul_2exp_algo =? 1); [apply static_mul_2exp_impl_1_untouched|].
  destruct (static_mul_2exp_algo =? 2);
    [apply static_mul_2exp_impl_2_untouched | apply static_mul_2exp_impl_0_untouched].
Qed.

End FailureKernels.

(** C8. Whenever a static addition, subtraction or shift kernel reports
    failure (returns [false]), the store is exactly the one it was
    called on: every limb and the size field of the destination, and of
    every other integer, hold the values they held on entry.  The
    addresses are arbitrary, so the destination may be one of the
    operands.  This holds for the three addition kernels (generic,
    one-limb, two-limb), for [static_addsub<true>] and
    [static_addsub<false>], and for the three shift kernels. *)
Theorem static_kernel_failure_untouched (cfg : build_config) (σ σ' : state) :
  (∀ AddOrSub rop op1 op2,
     static_addsub AddOrSub rop op1 op2 σ = (Ret false, σ') → σ' = σ)
  ∧ (∀ rop op1 op2 asize1 asize2 sign1 sign2,
       (static_add_impl_0 rop op1 op2 asize1 asize2 sign1 sign2 σ = (Ret false, σ') → σ' = σ)
       ∧ (static_add_impl_1 rop op1 op2 asize1 asize2 sign1 sign2 σ = (Ret false, σ') → σ' = σ)
       ∧ (static_add_impl_2 rop op1 op2 asize1 asize2 sign1 sign2 σ = (Ret false, σ') → σ' = σ))
  ∧ (∀ rop n s,
       (static_mul_2exp_impl rop n s σ = (Ret false, σ') → σ' = σ)
       ∧ (static_mul_2exp_impl_0 rop n s σ = (Ret false, σ') → σ' = σ)
       ∧ (static_mul_2exp_impl_1 rop n s σ = (Ret false, σ') → σ' = σ)
       ∧ (static_mul_2exp_impl_2 rop n s σ = (Ret false, σ') → σ' = σ)).
Proof.
  split; [|split].
  - intros AddOrSub rop op1 op2. apply static_addsub_untouched.
  - intros rop op1 op2 asize1 asize2 sign1 sign2. split; [|split].
    + apply static_add_impl_0_untouched.
    + apply static_add_impl_1_untouched.
    + apply static_add_impl_2_untouched.
  - intros rop n s. split; [|split; [|split]].
    + apply static_mul_2exp_impl_untouched.
    + apply static_mul_2exp_impl_0_untouched.
    + apply static_mul_2exp_impl_1_untouched.
    + apply static_mul_2exp_impl_2_untouched.
Qed.

Lemma static_kernel_failure_untouched_witness :
  let cfg := config64 2 in
  let a := m_st (StaticInt (-1) 2 [5; 2 ^ 63]) in
  let b := m_st (StaticInt (-1) 2 [7; 2 ^ 63]) in
  let σ := State (<[1%positive := a]> {[2%positive := b]}) mpz_cache_default in
  static_addsub true 1%positive 1%positive 2%positive σ = (Ret false, σ) ∧ σ = σ.
Proof.
  intros cfg a b σ.
  assert (Hrun : static_addsub true 1%positive 1%positive 2%positive σ = (Ret false, σ))
    by (vm_compute; reflexivity).
  split; [exact Hrun|].
  exact (proj1 (static_kernel_failure_untouched cfg σ σ) true 1%positive 1%positive 2%positive Hrun).
Defined.

(** The generic shift kernel on a shift count whose limb part does not
    fit [mpz_size_t]: with 64-bit limbs and [s = 2^37],
    [static_cast<mpz_size_t>(ls)] is [-2^31], [std::size_t(new_asize)]
    is huge, and the kernel takes its last exit: it returns [false] and
    the store is as it was. *)
Example static_mul_2exp_impl_0_huge_shift :
  let cfg := config64 3 in
  let n := m_st (StaticInt (-1) 1 [1; 0; 0]) in
  let σ := State (<[1%positive := m_st static_int_default]> {[2%positive := n]})
                 mpz_cache_default in
  static_mul_2exp_impl_0 1%positive 2%positive (2 ^ 37) σ = (Ret false, σ).
Proof. vm_compute. reflexivity. Qed.

(** ** Stepping through kernels *)

Ltac lookup_tac :=
  first [ eassumption
        | apply lookup_upd_eq
        | rewrite lookup_upd_ne by (first [assumption | congruence]); lookup_tac ].

Ltac side_tac :=
  first [ assumption | reflexivity
        | cbn [set_size set_limb set_limbs st_mp_alloc st_mp_size m_limbs];
          rewrite ?length_insert;
          first [ assumption
                | match goal with
                  | H : length ?l = _ |- context [length ?l] => rewrite H; clear; lia
                  end
                | lia ] ].

Ltac run_prim :=
  lazymatch goal with
  | |- load_limb _ _ _ = _ => eapply run_load_limb; [lookup_tac | side_tac | side_tac]
  | |- load_size _ _ = _ => eapply run_load_size; [lookup_tac | side_tac]
  | |- store_size _ _ _ = _ => eapply run_store_size; [lookup_tac | side_tac]
  | |- store_limb _ _ _ _ = _ => eapply run_store_limb; [lookup_tac | side_tac | side_tac]
  | |- g_st _ _ = _ => eapply run_g_st; [lookup_tac | side_tac]
  | |- get_obj _ _ = _ => eapply run_get_obj; lookup_tac
  | |- is_static_at _ _ = _ => eapply run_is_static_at; lookup_tac
  | |- assert _ _ = _ => eapply run_assert_true; side_tac
  | |- put_obj _ _ _ = _ => apply run_put_obj
  | |- mret _ _ = _ => apply run_mret
  end.

(** One step: the first computation of a sequence is a primitive that
    returns normally. *)
Ltac mstep :=
  lazymatch goal with
  | |- (?m ≫= ?f) ?σ = _ =>
      let H := fresh "Hstep" in
      eassert (H : m σ = (Ret _, _)) by run_prim;
      rewrite (run_bind_ret m f σ _ _ H); clear H; cbv beta
  end.

(** ** Integers of one and two limbs *)

Section SmallShapes.
Context {cfg : build_config} (Hcfg : config_ok cfg).

Lemma asize_sign_spec z : asize_sign z = (Z.abs z, Z.sgn z).
Proof.
  unfold asize_sign. destruct (Z.ltb_spec z 0).
  - f_equal; lia.
  - destruct (Z.eqb_spec z 0); f_equal; lia.
Qed.

Lemma limb_wrap_small x : 0 ≤ x < 2 ^ GMP_LIMB_BITS → limb_wrap x = x.
Proof. intros H. by apply Z.mod_small. Qed.

Lemma limb_wrap_neg x :
  - 2 ^ GMP_LIMB_BITS ≤ x < 0 → limb_wrap x = x + 2 ^ GMP_LIMB_BITS.
Proof.
  intros H. unfold limb_wrap. symmetry.
  apply Z.mod_unique with (q := -1); lia.
Qed.

Lemma limb_wrap_range x : 0 ≤ limb_wrap x < 2 ^ GMP_LIMB_BITS.
Proof.
  apply Z.mod_pos_bound, Z.pow_pos_nonneg; [lia|]. destruct Hcfg. lia.
Qed.

(** Without nails the mask is the identity on limbs. *)
Lemma land_mask_no_nails x :
  GMP_NAIL_BITS = 0 → 0 ≤ x < 2 ^ GMP_LIMB_BITS → Z.land x GMP_NUMB_MASK = x.
Proof.
  intros HN Hx. rewrite (land_mask Hcfg). unfold GMP_NUMB_BITS. rewrite HN, Z.sub_0_r.
  by apply Z.mod_small.
Qed.

Lemma static_valid_shape1 s :
  SSize = 1 → static_int_valid s →
  ∃ l0, m_limbs s = [l0] ∧ st_mp_alloc s = s_alloc ∧ 0 ≤ l0 < 2 ^ GMP_LIMB_BITS
    ∧ ((st_mp_size s = 0 ∧ l0 = 0)
       ∨ (Z.abs (st_mp_size s) = 1 ∧ Z.land l0 GMP_NUMB_MASK ≠ 0)).
Proof.
  intros HS [[Hlen Hr] Hd]. apply dtor_checks_inv in Hd as (Ha & Hsz & Hz & Htop).
  rewrite HS in *. destruct (m_limbs s) as [|l0 [|l1 l]] eqn:Hl; simpl in Hlen; try lia.
  exists l0. split; [done|]. split; [done|].
  inversion Hr as [|? ? Hr0 _]; subst. split; [done|].
  destruct (Z.eq_dec (st_mp_size s) 0) as [H0|H0].
  - left. split; [done|]. specialize (Hz ltac:(lia)). rewrite H0 in Hz. simpl in Hz.
    by inversion Hz.
  - right. split; [lia|]. specialize (Htop H0).
    replace (Z.abs (st_mp_size s) - 1) with 0 in Htop by lia. exact Htop.
Qed.

Lemma static_valid_shape2 s :
  SSize = 2 → static_int_valid s →
  ∃ l0 l1, m_limbs s = [l0; l1] ∧ st_mp_alloc s = s_alloc
    ∧ 0 ≤ l0 < 2 ^ GMP_LIMB_BITS ∧ 0 ≤ l1 < 2 ^ GMP_LIMB_BITS
    ∧ ((st_mp_size s = 0 ∧ l0 = 0 ∧ l1 = 0)
       ∨ (Z.abs (st_mp_size s) = 1 ∧ Z.land l0 GMP_NUMB_MASK ≠ 0 ∧ l1 = 0)
       ∨ (Z.abs (st_mp_size s) = 2 ∧ Z.land l1 GMP_NUMB_MASK ≠ 0)).
Proof.
  intros HS [[Hlen Hr] Hd]. apply dtor_checks_inv in Hd as (Ha & Hsz & Hz & Htop).
  rewrite HS in *.
  destruct (m_limbs s) as [|l0 [|l1 [|l2 l]]] eqn:Hl; simpl in Hlen; try lia.
  exists l0, l1. split; [done|]. split; [done|].
  inversion Hr as [|? ? Hr0 Hr']; subst. inversion Hr' as [|? ? Hr1 _]; subst.
  split; [done|]. split; [done|].
  specialize (Hz ltac:(lia)).
  destruct (Z.eq_dec (st_mp_size s) 0) as [H0|H0].
  - left. split; [done|]. rewrite H0 in Hz. simpl in Hz.
    inversion Hz as [|? ? ? Hz']; subst. by inversion Hz'.
  - specialize (Htop H0).
    destruct (Z.eq_dec (Z.abs (st_mp_size s)) 1) as [H1|H1].
    + right; left. split; [done|]. rewrite H1 in Hz, Htop. simpl in Hz, Htop.
      split; [done|]. inversion Hz; subst. done.
    + right; right. split; [lia|].
      replace (Z.abs (st_mp_size s) - 1) with 1 in Htop by lia. exact Htop.
Qed.

(** The value of a two-limb static integer without nails. *)
Lemma static_value2 s l0 l1 :
  GMP_NAIL_BITS = 0 →
  m_limbs s = [l0; l1] →
  0 ≤ l0 < 2 ^ GMP_LIMB_BITS → 0 ≤ l1 < 2 ^ GMP_LIMB_BITS →
  (st_mp_size s = 0 ∧ l0 = 0 ∧ l1 = 0)
  ∨ (Z.abs (st_mp_size s) = 1 ∧ l1 = 0)
  ∨ Z.abs (st_mp_size s) = 2 →
  mpz_value (get_mpz_view s) = Z.sgn (st_mp_size s) * (l0 + 2 ^ GMP_LIMB_BITS * l1).
Proof.
  intros HN Hl H0 H1 Hcase. unfold mpz_value, get_mpz_view. cbn [mp_size mp_d]. rewrite Hl.
  assert (HB : GMP_NUMB_BITS = GMP_LIMB_BITS) by (unfold GMP_NUMB_BITS; lia).
  destruct Hcase as [(Hs & -> & ->)|[(Hs & ->)|Hs]].
  - rewrite Hs. reflexivity.
  - rewrite Hs. change (Z.to_nat 1) with 1%nat. cbn [firstn mpn_value].
    rewrite (land_mask_no_nails _ HN H0). lia.
  - rewrite Hs. change (Z.to_nat 2) with 2%nat. cbn [firstn mpn_value].
    rewrite (land_mask_no_nails _ HN H0), (land_mask_no_nails _ HN H1), HB. lia.
Qed.

(** A two-limb buffer written by a kernel, with the size the kernels
    compute from its limbs. *)
Lemma static2_intro sg lo hi :
  SSize = 2 → GMP_NAIL_BITS = 0 →
  0 ≤ lo < 2 ^ GMP_LIMB_BITS → 0 ≤ hi < 2 ^ GMP_LIMB_BITS →
  sg = 1 ∨ sg = -1 →
  let sz := if hi =? 0 then (if lo =? 0 then 0 else sg) else sg + sg in
  let s := StaticInt s_alloc sz [lo; hi] in
  static_int_valid s
  ∧ mpz_value (get_mpz_view s) = sg * (lo + 2 ^ GMP_LIMB_BITS * hi).
Proof.
  intros HS HN Hlo Hhi Hsg sz s.
  assert (Hcase : (st_mp_size s = 0 ∧ lo = 0 ∧ hi = 0)
                  ∨ (Z.abs (st_mp_size s) = 1 ∧ lo ≠ 0 ∧ hi = 0)
                  ∨ (Z.abs (st_mp_size s) = 2 ∧ hi ≠ 0)).
  { unfold s, sz. cbn [st_mp_size].
    destruct (Z.eqb_spec hi 0), (Z.eqb_spec lo 0); lia. }
  split.
  - split; [split; [cbn; lia | apply List.Forall_cons; [done|apply List.Forall_cons; [done|apply List.Forall_nil]]]|].
    unfold dtor_checks. rewrite abs_size_abs. unfold s_size, opt_size. rewrite HS.
    change (st_mp_alloc s) with s_alloc. rewrite Z.eqb_refl. cbn [negb].
    change (m_limbs s) with [lo; hi].
    destruct Hcase as [(Hs & -> & ->)|[(Hs & Hl & ->)|(Hs & Hh)]]; rewrite Hs.
    + reflexivity.
    + unfold limb_at. change (Z.to_nat (1 - 1)) with 0%nat. change (Z.to_nat 1) with 1%nat.
      cbn [nth drop forallb Z.eqb negb andb Z.gtb Z.leb Z.compare Pos.compare Pos.compare_cont].
      rewrite (land_mask_no_nails _ HN Hlo).
      by destruct (Z.eqb_spec lo 0).
    + unfold limb_at. change (Z.to_nat (2 - 1)) with 1%nat. change (Z.to_nat 2) with 2%nat.
      cbn [nth drop forallb Z.eqb negb andb Z.gtb Z.leb Z.compare Pos.compare Pos.compare_cont].
      rewrite (land_mask_no_nails _ HN Hhi).
      by destruct (Z.eqb_spec hi 0).
  - rewrite (static_value2 s lo hi HN eq_refl Hlo Hhi) by tauto.
    unfold s, sz. cbn [st_mp_size].
    destruct (Z.eqb_spec hi 0), (Z.eqb_spec lo 0), Hsg as [-> | ->]; subst;
      cbn [Z.sgn Z.add Pos.add]; lia.
Qed.

End SmallShapes.

(** ** The two-limb addition kernel on operands of opposite signs *)

Section AddTwoLimbs.
Context {cfg : build_config} (Hcfg : config_ok cfg).
Context (HS : SSize = 2) (HN : GMP_NAIL_BITS = 0).

Lemma static_add_algo_two : static_add_algo = 2.
Proof. unfold static_add_algo, s_size. by rewrite HS, HN. Qed.

Lemma set_size_twice r x y : set_size (set_size r x) y = set_size r y.
Proof. reflexivity. Qed.

Lemma written2 r r0 r1 sz lo hi :
  m_limbs r = [r0; r1] → st_mp_alloc r = s_alloc →
  set_limb (set_limb (set_size r sz) 0 lo) 1 hi = StaticInt s_alloc sz [lo; hi].
Proof. intros Hl Ha. unfold set_limb, set_size. cbn. by rewrite Hl, Ha. Qed.

(** Two-limb subtraction of the smaller magnitude from the larger. *)
Lemma sub2_correct a0 a1 b0 b1 :
  0 ≤ a0 < 2 ^ GMP_LIMB_BITS → 0 ≤ a1 < 2 ^ GMP_LIMB_BITS →
  0 ≤ b0 < 2 ^ GMP_LIMB_BITS → 0 ≤ b1 < 2 ^ GMP_LIMB_BITS →
  b0 + 2 ^ GMP_LIMB_BITS * b1 ≤ a0 + 2 ^ GMP_LIMB_BITS * a1 →
  let lo := limb_wrap (a0 - b0) in
  let hi := limb_wrap (a1 - b1 - (if a0 <? b0 then 1 else 0)) in
  0 ≤ lo < 2 ^ GMP_LIMB_BITS ∧ 0 ≤ hi < 2 ^ GMP_LIMB_BITS
  ∧ lo + 2 ^ GMP_LIMB_BITS * hi
    = (a0 + 2 ^ GMP_LIMB_BITS * a1) - (b0 + 2 ^ GMP_LIMB_BITS * b1)
  ∧ (a0 >=? b0) || (a1 >? b1) = true.
Proof.
  intros Ha0 Ha1 Hb0 Hb1 Hle lo hi. unfold lo, hi.
  set (M := 2 ^ GMP_LIMB_BITS) in *.
  split; [apply (limb_wrap_range Hcfg)|]. split; [apply (limb_wrap_range Hcfg)|].
  destruct (Z.ltb_spec a0 b0).
  - assert (b1 < a1) by nia.
    rewrite (limb_wrap_neg (a0 - b0)) by (fold M; lia).
    rewrite (limb_wrap_small (a1 - b1 - 1)) by (fold M; lia).
    split; [fold M; lia|].
    destruct (Z.gtb_spec a1 b1); [by rewrite orb_true_r | lia].
  - assert (b1 ≤ a1) by nia.
    rewrite (limb_wrap_small (a0 - b0)) by (fold M; lia).
    rewrite (limb_wrap_small (a1 - b1 - 0)) by (fold M; lia).
    split; [lia|]. destruct (Z.geb_spec a0 b0); [done | lia].
Qed.

Lemma run_compare_limbs_2 σ op1 op2 a b a0 a1 b0 b1 asize :
  objs σ !! op1 = Some (m_st a) → objs σ !! op2 = Some (m_st b) →
  st_mp_alloc a = s_alloc → st_mp_alloc b = s_alloc →
  m_limbs a = [a0; a1] → m_limbs b = [b0; b1] →
  asize = 1 ∨ asize = 2 →
  compare_limbs_2 op1 op2 asize σ
  = (Ret (if asize =? 2 then
            (if negb (a1 =? b1) then (if a1 >? b1 then 1 else -1)
             else if negb (a0 =? b0) then (if a0 >? b0 then 1 else -1) else 0)
          else (if negb (a0 =? b0) then (if a0 >? b0 then 1 else -1) else 0)), σ).
Proof.
  intros Ha Hb Haa Hab Hla Hlb Hs.
  assert (length (m_limbs a) = 2%nat) by (by rewrite Hla).
  assert (length (m_limbs b) = 2%nat) by (by rewrite Hlb).
  unfold compare_limbs_2. rewrite HN. cbn [Z.eqb assert].
  rewrite run_bind, run_mret.
  destruct Hs as [-> | ->].
  - change (1 - 1) with 0. change (0 =? 0) with true. change (1 =? 2) with false.
    change ((1 =? 1) || false) with true. cbn [assert]. rewrite run_bind, run_mret.
    mstep. mstep. rewrite Hla, Hlb. change (limb_at [a0; a1] 0) with a0.
    change (limb_at [b0; b1] 0) with b0.
    destruct (negb (a0 =? b0)); reflexivity.
  - change (2 - 1 - 1) with 0. change (2 - 1) with 1. change (1 =? 0) with false.
    change (2 =? 2) with true. change ((2 =? 1) || true) with true.
    cbn [assert]. rewrite run_bind, run_mret.
    mstep. mstep. rewrite Hla, Hlb. change (limb_at [a0; a1] 1) with a1.
    change (limb_at [b0; b1] 1) with b1.
    destruct (negb (a1 =? b1)); [reflexivity|].
    mstep. mstep. rewrite Hla, Hlb. change (limb_at [a0; a1] 0) with a0.
    change (limb_at [b0; b1] 0) with b0.
    destruct (negb (a0 =? b0)); reflexivity.
Qed.

(** What validity says about the two limbs. *)
Lemma static_valid_limbs2 s :
  static_int_valid s →
  ∃ l0 l1, m_limbs s = [l0; l1] ∧ st_mp_alloc s = s_alloc
    ∧ 0 ≤ l0 < 2 ^ GMP_LIMB_BITS ∧ 0 ≤ l1 < 2 ^ GMP_LIMB_BITS
    ∧ Z.abs (st_mp_size s) ≤ 2
    ∧ (st_mp_size s = 0 → l0 = 0 ∧ l1 = 0)
    ∧ (Z.abs (st_mp_size s) = 1 → l0 ≠ 0 ∧ l1 = 0)
    ∧ (Z.abs (st_mp_size s) = 2 → l1 ≠ 0)
    ∧ mpz_value (get_mpz_view s) = Z.sgn (st_mp_size s) * (l0 + 2 ^ GMP_LIMB_BITS * l1).
Proof.
  intros Hv. destruct (static_valid_shape2 s HS Hv) as (l0 & l1 & Hl & Ha & H0 & H1 & Hc).
  exists l0, l1. rewrite (land_mask_no_nails Hcfg _ HN H0), (land_mask_no_nails Hcfg _ HN H1) in Hc.
  split; [done|]. split; [done|]. split; [done|]. split; [done|].
  split; [lia|]. split; [lia|]. split; [lia|]. split; [lia|].
  apply (static_value2 Hcfg s l0 l1 HN Hl H0 H1). lia.
Qed.

Lemma run_static_add_impl_2_opposite σ rop op1 op2 r a b sa sb a0 a1 b0 b1 :
  objs σ !! rop = Some (m_st r) → objs σ !! op1 = Some (m_st a) →
  objs σ !! op2 = Some (m_st b) →
  static_int_valid r →
  m_limbs a = [a0; a1] → m_limbs b = [b0; b1] →
  st_mp_alloc a = s_alloc → st_mp_alloc b = s_alloc →
  0 ≤ a0 < 2 ^ GMP_LIMB_BITS → 0 ≤ a1 < 2 ^ GMP_LIMB_BITS →
  0 ≤ b0 < 2 ^ GMP_LIMB_BITS → 0 ≤ b1 < 2 ^ GMP_LIMB_BITS →
  Z.abs sa ≤ 2 → Z.abs sb ≤ 2 →
  (Z.abs sa = 1 → a0 ≠ 0 ∧ a1 = 0) → (Z.abs sa = 2 → a1 ≠ 0) →
  (Z.abs sb = 1 → b0 ≠ 0 ∧ b1 = 0) → (Z.abs sb = 2 → b1 ≠ 0) →
  sa * sb < 0 →
  ∃ r', static_add_impl_2 rop op1 op2 (Z.abs sa) (Z.abs sb) (Z.sgn sa) (Z.sgn sb) σ
        = (Ret true, upd σ rop (m_st r'))
    ∧ static_int_valid r'
    ∧ mpz_value (get_mpz_view r')
      = Z.sgn sa * (a0 + 2 ^ GMP_LIMB_BITS * a1) + Z.sgn sb * (b0 + 2 ^ GMP_LIMB_BITS * b1).
Proof.
  intros Hr Ha Hb Hvr Hla Hlb Haa Hab Ha0 Ha1 Hb0 Hb1 Hsa Hsb Ha1' Ha2' Hb1' Hb2' Hopp.
  destruct (static_valid_limbs2 r Hvr) as (r0 & r1 & Hlr & Har & _).
  assert (Hlenr : length (m_limbs r) = 2%nat) by (by rewrite Hlr).
  assert (Hlena : length (m_limbs a) = 2%nat) by (by rewrite Hla).
  assert (Hlenb : length (m_limbs b) = 2%nat) by (by rewrite Hlb).
  set (M := 2 ^ GMP_LIMB_BITS) in *.
  assert (HM : 0 < M) by (apply Z.pow_pos_nonneg; [lia | destruct Hcfg; lia]).
  assert (Hsgn : Z.sgn sb = - Z.sgn sa ∧ (Z.sgn sa = 1 ∨ Z.sgn sa = -1)) by nia.
  destruct Hsgn as [Hsgb Hsga].
  unfold static_add_impl_2.
  destruct (Z.eqb_spec (Z.sgn sa) (Z.sgn sb)) as [Heq|_]; [lia|].
  assert (Hge : (if Z.abs sa >? Z.abs sb then mret true
                 else if Z.abs sa =? Z.abs sb
                      then c ← compare_limbs_2 op1 op2 (Z.abs sa); mret (c >=? 0)
                      else mret false) σ
                = (Ret (b0 + M * b1 <=? a0 + M * a1), σ)).
  { destruct (Z.gtb_spec (Z.abs sa) (Z.abs sb)).
    - rewrite run_mret. do 2 f_equal. symmetry. apply Z.leb_le.
      assert (Z.abs sa = 2 ∧ Z.abs sb = 1) as [H2 H1] by lia.
      specialize (Ha2' H2). destruct (Hb1' H1) as [_ ->]. nia.
    - destruct (Z.eqb_spec (Z.abs sa) (Z.abs sb)) as [Heq|Hneq].
      + assert (Hcase : Z.abs sa = 1 ∨ Z.abs sa = 2) by lia.
        rewrite (run_bind_ret _ _ _ _ _
                   (run_compare_limbs_2 σ op1 op2 a b a0 a1 b0 b1 _ Ha Hb Haa Hab Hla Hlb Hcase)).
        rewrite run_mret. do 2 f_equal.
        destruct Hcase as [H1|H2].
        * rewrite H1. change (1 =? 2) with false. cbv iota.
          destruct (Ha1' H1) as [_ ->]. destruct (Hb1' ltac:(lia)) as [_ ->].
          destruct (Z.eqb_spec a0 b0), (Z.gtb_spec a0 b0), (Z.leb_spec (b0 + M * 0) (a0 + M * 0));
            cbn; lia.
        * rewrite H2. change (2 =? 2) with true. cbv iota.
          destruct (Z.eqb_spec a1 b1), (Z.gtb_spec a1 b1), (Z.eqb_spec a0 b0), (Z.gtb_spec a0 b0),
            (Z.leb_spec (b0 + M * b1) (a0 + M * a1)); cbn; try reflexivity; nia.
      + rewrite run_mret. do 2 f_equal. symmetry. apply Z.leb_gt.
        assert (Z.abs sa = 1 ∧ Z.abs sb = 2) as [H1 H2] by lia.
        specialize (Hb2' H2). destruct (Ha1' H1) as [_ ->]. nia. }
  rewrite (run_bind_ret _ _ _ _ _ Hge). clear Hge.
  destruct (Z.leb_spec (b0 + M * b1) (a0 + M * a1)) as [Hle|Hlt].
  - destruct (sub2_correct a0 a1 b0 b1 Ha0 Ha1 Hb0 Hb1 Hle) as (Hlo & Hhi & Hval & Hassert).
    fold M in Hlo, Hhi, Hval.
    set (lo := limb_wrap (a0 - b0)) in *.
    set (hi := limb_wrap (a1 - b1 - (if a0 <? b0 then 1 else 0))) in *.
    destruct (static2_intro Hcfg (Z.sgn sa) lo hi HS HN Hlo Hhi Hsga) as [Hvalid Hvalue].
    eexists. split; [|split; [exact Hvalid|]].
    + mstep. mstep. mstep. mstep. rewrite Hla, Hlb.
      change (limb_at [a0; a1] 0) with a0. change (limb_at [a0; a1] 1) with a1.
      change (limb_at [b0; b1] 0) with b0. change (limb_at [b0; b1] 1) with b1.
      rewrite (run_bind_ret _ _ _ _ _ (run_assert_true _ _ Hassert)).
      fold lo hi.
      mstep. destruct (Z.eqb_spec hi 0) as [Hh|Hh]; cbn [negb].
      * unfold when. destruct (Z.eqb_spec lo 0) as [Hl|Hl]; cbn [negb];
          repeat mstep; rewrite run_mret, ?upd_upd, ?set_size_twice;
          by rewrite (written2 r r0 r1 _ lo hi Hlr Har).
      * repeat mstep. rewrite run_mret, ?upd_upd, ?set_size_twice.
        by rewrite (written2 r r0 r1 _ lo hi Hlr Har).
    + rewrite Hvalue. fold M. rewrite Hval, Hsgb. ring.
  - assert (Hle : a0 + M * a1 ≤ b0 + M * b1) by lia.
    destruct (sub2_correct b0 b1 a0 a1 Hb0 Hb1 Ha0 Ha1 Hle) as (Hlo & Hhi & Hval & Hassert).
    fold M in Hlo, Hhi, Hval.
    set (lo := limb_wrap (b0 - a0)) in *.
    set (hi := limb_wrap (b1 - a1 - (if b0 <? a0 then 1 else 0))) in *.
    assert (Hsgb' : Z.sgn sb = 1 ∨ Z.sgn sb = -1) by lia.
    destruct (static2_intro Hcfg (Z.sgn sb) lo hi HS HN Hlo Hhi Hsgb') as [Hvalid Hvalue].
    eexists. split; [|split; [exact Hvalid|]].
    + mstep. mstep. mstep. mstep. rewrite Hla, Hlb.
      change (limb_at [a0; a1] 0) with a0. change (limb_at [a0; a1] 1) with a1.
      change (limb_at [b0; b1] 0) with b0. change (limb_at [b0; b1] 1) with b1.
      rewrite (run_bind_ret _ _ _ _ _ (run_assert_true _ _ Hassert)).
      fold lo hi.
      mstep. unfold when. destruct (Z.eqb_spec hi 0) as [Hh|Hh]; cbn [negb].
      * destruct (Z.eqb_spec lo 0) as [Hl|Hl]; [lia|].
        repeat mstep. rewrite run_mret, ?upd_upd, ?set_size_twice.
        by rewrite (written2 r r0 r1 _ lo hi Hlr Har).
      * repeat mstep. rewrite run_mret, ?upd_upd, ?set_size_twice.
        by rewrite (written2 r r0 r1 _ lo hi Hlr Har).
    + rewrite Hvalue. fold M. rewrite Hval, Hsgb. ring.
Qed.

End AddTwoLimbs.

(** ** Truncated division in sign-magnitude form *)

Section QuotRem.

(** The quotient and remainder the kernels assemble from magnitudes and
    signs are those of truncated division. *)
Lemma quot_rem_sign_magnitude (s1 s2 A B : Z) :
  0 ≤ A → 0 < B →
  s1 = 1 ∨ s1 = -1 ∨ (s1 = 0 ∧ A = 0) →
  s2 = 1 ∨ s2 = -1 →
  Z.quot (s1 * A) (s2 * B) = (if s1 =? s2 then 1 else -1) * (A / B)
  ∧ Z.rem (s1 * A) (s2 * B) = (if s1 =? -1 then -1 else 1) * (A mod B).
Proof.
  intros HA HB Hs1 Hs2.
  assert (Hq : Z.quot A B = A / B) by (apply Z.quot_div_nonneg; lia).
  assert (Hr : Z.rem A B = A mod B) by (apply Z.rem_mod_nonneg; lia).
  assert (Hm : ∀ x, -1 * x = - x) by (intros; lia).
  destruct Hs1 as [-> | [-> | [-> ->]]], Hs2 as [-> | ->]; cbn [Z.eqb Pos.eqb];
    rewrite ?Z.mul_1_l, ?Z.mul_0_l, ?Hm;
    rewrite ?Z.quot_opp_opp, ?Z.quot_opp_l, ?Z.quot_opp_r,
      ?Z.rem_opp_opp, ?Z.rem_opp_l, ?Z.rem_opp_r, ?Z.quot_0_l, ?Z.rem_0_l,
      ?Zdiv_0_l, ?Zmod_0_l by lia;
    rewrite ?Hq, ?Hr; split; lia.
Qed.

Lemma quot_rem_spec (a b : Z) :
  b ≠ 0 →
  Z.quot a b * b + Z.rem a b = a
  ∧ Z.abs (Z.rem a b) < Z.abs b
  ∧ (Z.rem a b = 0 ∨ Z.sgn (Z.rem a b) = Z.sgn a).
Proof.
  intros Hb. split; [|split].
  - pose proof (Z.quot_rem' a b). lia.
  - apply Z.rem_bound_abs. done.
  - destruct (Z.eq_dec (Z.rem a b) 0); [by left | right]. by apply Z.rem_sign_nz.
Qed.

End QuotRem.

(** ** Division through the backend *)

Section DivDynamic.
Context {cfg : build_config} (Hcfg : config_ok cfg).

Lemma run_mpz_view σ l u :
  objs σ !! l = Some u → integer_valid u →
  ∃ v, mpz_view l σ = (Ret v, σ) ∧ mpz_value v = integer_value u.
Proof.
  intros Hl Hv. unfold mpz_view.
  rewrite (run_bind_ret _ _ _ _ _ (run_get_obj _ _ _ Hl)), (valid_is_static u Hv).
  destruct u as [s|d].
  - destruct (dtor_checks_inv _ (proj2 Hv)) as (Ha & _).
    rewrite (run_bind_ret _ _ _ _ _ (run_g_st _ _ _ Hl Ha)), run_mret. eauto.
  - assert (Ha : mp_alloc d ≠ s_alloc) by (destruct Hv; unfold s_alloc; lia).
    rewrite (run_g_dy _ _ _ Hl Ha). eauto.
Qed.

Lemma run_when_promote σ l u :
  objs σ !! l = Some u → integer_valid u → cache_valid (cache σ) →
  ∃ d c', when (is_static u) (promote l 0) σ
          = (Ret tt, State (<[l := m_dy d]> (objs σ)) c')
    ∧ cache_valid c' ∧ mpz_valid d ∧ mpz_value d = integer_value u.
Proof.
  intros Hl Hv Hc. rewrite (valid_is_static u Hv). destruct u as [s|d]; cbn [when].
  - destruct (run_promote Hcfg σ l s 0 Hl Hv Hc ltac:(lia)) as (d & c' & Hrun & Hc' & Hvd & _ & Hval).
    exists d, c'. by rewrite Hrun.
  - exists d, (cache σ). rewrite run_mret, (insert_id _ _ _ Hl). by destruct σ.
Qed.

(** The part of [div] that runs when some operand is dynamic. *)
Lemma run_div_backend σ q r op1 op2 uq ur u1 u2 :
  q ≠ r →
  objs σ !! q = Some uq → objs σ !! r = Some ur →
  objs σ !! op1 = Some u1 → objs σ !! op2 = Some u2 →
  integer_valid uq → integer_valid ur → integer_valid u1 → integer_valid u2 →
  cache_valid (cache σ) →
  ∃ σ' dq dr,
    (when (is_static uq) (promote q 0);;
     when (is_static ur) (promote r 0);;
     dq ← g_dy q;
     dr ← g_dy r;
     v1 ← mpz_view op1;
     v2 ← mpz_view op2;
     let '(q', r') := mpz_tdiv_qr dq dr v1 v2 in
     put_obj q (m_dy q');;
     put_obj r (m_dy r')) σ = (Ret tt, σ')
    ∧ objs σ' !! q = Some (m_dy dq) ∧ objs σ' !! r = Some (m_dy dr)
    ∧ mpz_valid dq ∧ mpz_valid dr
    ∧ mpz_value dq = Z.quot (integer_value u1) (integer_value u2)
    ∧ mpz_value dr = Z.rem (integer_value u1) (integer_value u2).
Proof.
  intros Hne Hq Hr H1 H2 Hvq Hvr Hv1 Hv2 Hc.
  destruct (run_when_promote σ q uq Hq Hvq Hc) as (dq & c1 & Hrun1 & Hc1 & Hvdq & Hvalq).
  rewrite (run_bind_ret _ _ _ _ _ Hrun1).
  set (σ1 := State (<[q:=m_dy dq]> (objs σ)) c1).
  assert (Hr1 : objs σ1 !! r = Some ur) by (cbn; by rewrite lookup_insert_ne).
  destruct (run_when_promote σ1 r ur Hr1 Hvr Hc1) as (dr & c2 & Hrun2 & Hc2 & Hvdr & Hvalr).
  rewrite (run_bind_ret _ _ _ _ _ Hrun2).
  set (σ2 := State (<[r:=m_dy dr]> (objs σ1)) c2).
  assert (Hq2 : objs σ2 !! q = Some (m_dy dq)).
  { cbn. rewrite lookup_insert_ne by done. apply lookup_insert_eq. }
  assert (Hr2 : objs σ2 !! r = Some (m_dy dr)) by apply lookup_insert_eq.
  assert (Hkeep : ∀ l u, objs σ !! l = Some u → integer_valid u →
            ∃ u', objs σ2 !! l = Some u' ∧ integer_valid u'
                  ∧ integer_value u' = integer_value u).
  { intros l u Hl Hv. destruct (decide (l = r)) as [->|Hlr].
    - exists (m_dy dr). split; [done|]. split; [done|]. cbn. congruence.
    - destruct (decide (l = q)) as [->|Hlq].
      + exists (m_dy dq). split; [done|]. split; [done|]. cbn. congruence.
      + exists u. cbn. by rewrite !lookup_insert_ne. }
  assert (Haq : mp_alloc dq ≠ s_alloc) by (destruct Hvdq; unfold s_alloc; lia).
  assert (Har : mp_alloc dr ≠ s_alloc) by (destruct Hvdr; unfold s_alloc; lia).
  rewrite (run_bind_ret _ _ _ _ _ (run_g_dy _ _ _ Hq2 Haq)).
  rewrite (run_bind_ret _ _ _ _ _ (run_g_dy _ _ _ Hr2 Har)).
  destruct (Hkeep op1 u1 H1 Hv1) as (u1' & H1' & Hv1' & Hval1).
  destruct (Hkeep op2 u2 H2 Hv2) as (u2' & H2' & Hv2' & Hval2).
  destruct (run_mpz_view σ2 op1 u1' H1' Hv1') as (v1 & Hrunv1 & Hvv1).
  destruct (run_mpz_view σ2 op2 u2' H2' Hv2') as (v2 & Hrunv2 & Hvv2).
  rewrite (run_bind_ret _ _ _ _ _ Hrunv1), (run_bind_ret _ _ _ _ _ Hrunv2).
  unfold mpz_tdiv_qr. rewrite (run_bind_ret _ _ _ _ _ (run_put_obj _ _ _)), run_put_obj.
  eexists _, _, _. split; [reflexivity|].
  split; [rewrite lookup_upd_ne by done; apply lookup_upd_eq|].
  split; [apply lookup_upd_eq|].
  split; [apply (mpz_put_valid Hcfg)|]. split; [apply (mpz_put_valid Hcfg)|].
  rewrite !(mpz_put_value Hcfg). split; congruence.
Qed.

End DivDynamic.

(** ** The one-limb division kernel *)

Section DivOneLimb.
Context {cfg : build_config} (Hcfg : config_ok cfg).

Lemma run_negate_size σ x s :
  objs σ !! x = Some (m_st s) → st_mp_alloc s = s_alloc →
  negate_size x σ = (Ret tt, upd σ x (m_st (set_size s (- st_mp_size s)))).
Proof.
  intros Hx Ha. unfold negate_size. mstep. by apply run_store_size.
Qed.

Lemma written1 x x0 sz v :
  m_limbs x = [x0] → st_mp_alloc x = s_alloc →
  set_limb (set_size x sz) 0 v = StaticInt s_alloc sz [v].
Proof. intros Hl Ha. unfold set_limb, set_size. cbn. by rewrite Hl, Ha. Qed.

Lemma numb_le_limb : 2 ^ GMP_NUMB_BITS ≤ 2 ^ GMP_LIMB_BITS.
Proof. apply Z.pow_le_mono_r; [lia|]. unfold GMP_NUMB_BITS. destruct Hcfg. lia. Qed.

Lemma land_mask_small x : 0 ≤ x < 2 ^ GMP_NUMB_BITS → Z.land x GMP_NUMB_MASK = x.
Proof. intros Hx. rewrite (land_mask Hcfg). by apply Z.mod_small. Qed.

(** A one-limb buffer written by the kernel. *)
Lemma static1_intro sg v :
  SSize = 1 → 0 ≤ v < 2 ^ GMP_NUMB_BITS → sg = 1 ∨ sg = -1 →
  let s := StaticInt s_alloc (if v =? 0 then 0 else sg) [v] in
  static_int_valid s ∧ mpz_value (get_mpz_view s) = sg * v.
Proof.
  intros HS Hv Hsg s. pose proof numb_le_limb as Hle.
  assert (Hland : Z.land v GMP_NUMB_MASK = v) by by apply land_mask_small.
  split.
  - split; [split; [cbn; lia | apply List.Forall_cons; [lia | apply List.Forall_nil]]|].
    unfold dtor_checks. rewrite abs_size_abs. unfold s_size, opt_size. rewrite HS.
    change (st_mp_alloc s) with s_alloc. rewrite Z.eqb_refl. cbn [negb].
    change (m_limbs s) with [v]. change (st_mp_size s) with (if v =? 0 then 0 else sg).
    destruct (Z.eqb_spec v 0) as [->|Hnz]; [reflexivity|].
    replace (Z.abs sg) with 1 by lia.
    unfold limb_at. change (Z.to_nat (1 - 1)) with 0%nat. change (Z.to_nat 1) with 1%nat.
    cbn [nth drop forallb Z.eqb negb andb Z.gtb Z.leb Z.compare Pos.compare Pos.compare_cont].
    rewrite Hland. by destruct (Z.eqb_spec v 0).
  - unfold mpz_value, get_mpz_view, s. cbn [mp_size mp_d st_mp_size m_limbs].
    destruct (Z.eqb_spec v 0) as [->|Hnz]; [cbn; lia|].
    replace (Z.abs sg) with 1 by lia. change (Z.to_nat 1) with 1%nat.
    cbn [firstn mpn_value]. rewrite Hland.
    destruct Hsg as [-> | ->]; cbn [Z.sgn]; lia.
Qed.

Lemma static_div_algo_one : SSize = 1 → static_div_algo = 1.
Proof. intros HS. unfold static_div_algo, s_size. by rewrite HS. Qed.

Lemma static_value1 s l0 :
  m_limbs s = [l0] →
  (st_mp_size s = 0 ∧ l0 = 0) ∨ Z.abs (st_mp_size s) = 1 →
  mpz_value (get_mpz_view s) = Z.sgn (st_mp_size s) * Z.land l0 GMP_NUMB_MASK.
Proof.
  intros Hl Hcase. unfold mpz_value, get_mpz_view. cbn [mp_size mp_d]. rewrite Hl.
  destruct Hcase as [[-> ->] | ->]; [reflexivity|].
  change (Z.to_nat 1) with 1%nat. cbn [firstn mpn_value]. lia.
Qed.

End DivOneLimb.

Ltac run_prim ::=
  lazymatch goal with
  | |- load_limb _ _ _ = _ => eapply run_load_limb; [lookup_tac | side_tac | side_tac]
  | |- load_size _ _ = _ => eapply run_load_size; [lookup_tac | side_tac]
  | |- store_size _ _ _ = _ => eapply run_store_size; [lookup_tac | side_tac]
  | |- negate_size _ _ = _ => eapply run_negate_size; [lookup_tac | side_tac]
  | |- store_limb _ _ _ _ = _ => eapply run_store_limb; [lookup_tac | side_tac | side_tac]
  | |- g_st _ _ = _ => eapply run_g_st; [lookup_tac | side_tac]
  | |- get_obj _ _ = _ => eapply run_get_obj; lookup_tac
  | |- is_static_at _ _ = _ => eapply run_is_static_at; lookup_tac
  | |- assert _ _ = _ => eapply run_assert_true; side_tac
  | |- put_obj _ _ _ = _ => apply run_put_obj
  | |- mret _ _ = _ => apply run_mret
  end.

(** The last computation of a kernel is a primitive. *)
Ltac mlast :=
  lazymatch goal with
  | |- ?m ?σ = _ =>
      let H := fresh "Hstep" in
      eassert (H : m σ = (Ret _, _)) by run_prim;
      rewrite H; clear H
  end.

Section DivOneLimbKernel.
Context {cfg : build_config} (Hcfg : config_ok cfg) (HS : SSize = 1).

Lemma run_static_div_impl_1 σ q r op1 op2 qs rs a b asize1 asize2 :
  q ≠ r →
  objs σ !! q = Some (m_st qs) → objs σ !! r = Some (m_st rs) →
  objs σ !! op1 = Some (m_st a) → objs σ !! op2 = Some (m_st b) →
  static_int_valid qs → static_int_valid rs → static_int_valid a → static_int_valid b →
  st_mp_size b ≠ 0 →
  ∃ σ', static_div_impl_1 q r op1 op2 asize1 asize2
          (Z.sgn (st_mp_size a)) (Z.sgn (st_mp_size b)) σ = (Ret tt, σ')
    ∧ div_post σ' q r (integer_value (m_st a)) (integer_value (m_st b)).
Proof.
  intros Hne Hq Hr H1 H2 Hvq Hvr Hva Hvb Hbnz.
  destruct (static_valid_shape1 qs HS Hvq) as (q0 & Hlq & Haq & _).
  destruct (static_valid_shape1 rs HS Hvr) as (r0 & Hlr & Har & _).
  destruct (static_valid_shape1 a HS Hva) as (a0 & Hla & Haa & Ha0 & Hca).
  destruct (static_valid_shape1 b HS Hvb) as (b0 & Hlb & Hab & Hb0 & Hcb).
  assert (Hlenq : length (m_limbs qs) = 1%nat) by (by rewrite Hlq).
  assert (Hlenr : length (m_limbs rs) = 1%nat) by (by rewrite Hlr).
  assert (Hlena : length (m_limbs a) = 1%nat) by (by rewrite Hla).
  assert (Hlenb : length (m_limbs b) = 1%nat) by (by rewrite Hlb).
  destruct Hcb as [[? _]|[Hsb Hb0']]; [done|].
  pose proof (land_mask_range Hcfg a0) as Hn. pose proof (land_mask_range Hcfg b0) as Hd.
  remember (Z.land a0 GMP_NUMB_MASK) as n eqn:En.
  remember (Z.land b0 GMP_NUMB_MASK) as d eqn:Ed.
  assert (Hvala : integer_value (m_st a) = Z.sgn (st_mp_size a) * n).
  { cbn [integer_value]. rewrite En. apply (static_value1 a a0 Hla).
    destruct Hca as [[? ?]|[? ?]]; [left|right]; done. }
  assert (Hvalb : integer_value (m_st b) = Z.sgn (st_mp_size b) * d).
  { cbn [integer_value]. rewrite Ed. apply (static_value1 b b0 Hlb). by right. }
  assert (Hs1 : Z.sgn (st_mp_size a) = 1 ∨ Z.sgn (st_mp_size a) = -1
                ∨ (Z.sgn (st_mp_size a) = 0 ∧ n = 0)).
  { destruct Hca as [[Hz ->]|[Hz _]]; [|lia]. right; right. rewrite Hz. split; [done|].
    rewrite En. apply Z.land_0_l. }
  assert (Hs2 : Z.sgn (st_mp_size b) = 1 ∨ Z.sgn (st_mp_size b) = -1) by lia.
  assert (Hn0 : 0 ≤ n) by (clear -Hn; lia). assert (Hd0 : 0 < d) by (clear -Hd Hb0'; lia).
  destruct (quot_rem_sign_magnitude _ _ n d Hn0 Hd0 Hs1 Hs2) as [Hquot Hrem].
  assert (Hqr : 0 ≤ n / d < 2 ^ GMP_NUMB_BITS).
  { split; [apply Z.div_pos; lia|]. apply Z.le_lt_trans with n; [|lia].
    apply Z.div_le_upper_bound; nia. }
  assert (Hrr : 0 ≤ n mod d < 2 ^ GMP_NUMB_BITS).
  { pose proof (Z.mod_pos_bound n d Hd0). lia. }
  remember (if Z.sgn (st_mp_size a) =? Z.sgn (st_mp_size b) then 1 else -1) as sq eqn:Esq.
  remember (if Z.sgn (st_mp_size a) =? -1 then -1 else 1) as sr eqn:Esr.
  assert (Hsq : sq = 1 ∨ sq = -1).
  { clear -Esq. destruct (Z.sgn (st_mp_size a) =? Z.sgn (st_mp_size b)); tauto. }
  assert (Hsr : sr = 1 ∨ sr = -1).
  { clear -Esr. destruct (Z.sgn (st_mp_size a) =? -1); tauto. }
  destruct (static1_intro Hcfg sq (n / d) HS Hqr Hsq) as [Hvq' Hvalq'].
  destruct (static1_intro Hcfg sr (n mod d) HS Hrr Hsr) as [Hvr' Hvalr'].
  assert (Hrun : static_div_impl_1 q r op1 op2 asize1 asize2
            (Z.sgn (st_mp_size a)) (Z.sgn (st_mp_size b)) σ
          = (Ret tt, upd (upd σ q (m_st (StaticInt s_alloc (if n / d =? 0 then 0 else sq) [n / d])))
                         r (m_st (StaticInt s_alloc (if n mod d =? 0 then 0 else sr) [n mod d])))).
  { unfold static_div_impl_1. mstep. mstep. rewrite Hla, Hlb.
    change (limb_at [a0] 0) with a0. change (limb_at [b0] 0) with b0. rewrite <- En, <- Ed.
    destruct (Z.eqb_spec d 0); [done|].
    mstep. unfold when. rewrite Esq, Esr.
    destruct (Z.eqb_spec (Z.sgn (st_mp_size a)) (Z.sgn (st_mp_size b))) as [He|He],
             (Z.eqb_spec (Z.sgn (st_mp_size a)) (-1)) as [Hm|Hm]; cbn [negb];
      repeat mstep; mlast; rewrite ?upd_upd;
      cbn [set_size st_mp_size st_mp_alloc m_limbs];
      rewrite ?set_size_twice, ?(written1 qs q0 _ _ Hlq Haq), ?(written1 rs r0 _ _ Hlr Har);
      destruct (Z.eqb_spec (n / d) 0), (Z.eqb_spec (n mod d) 0); reflexivity. }
  eexists. split; [exact Hrun|].
  eexists _, _. split; [rewrite lookup_upd_ne by done; apply lookup_upd_eq|].
  split; [apply lookup_upd_eq|]. split; [exact Hvq'|]. split; [exact Hvr'|].
  cbn [integer_value] in *. rewrite Hvalq', Hvalr', Hvala, Hvalb, Hquot, Hrem. done.
Qed.

End DivOneLimbKernel.

(** ** The two-limb division kernel *)

Section DivTwoLimbs.
Context {cfg : build_config} (Hcfg : config_ok cfg).
Context (HS : SSize = 2) (HD : have_dlimb_div = true).

Lemma have_dlimb_div_no_nails : GMP_NAIL_BITS = 0.
Proof.
  revert HD. unfold have_dlimb_div.
  destruct (MPPP_UINT128 && (GMP_NUMB_BITS =? 64)).
  - intros [H _]%andb_prop. by apply Z.eqb_eq.
  - destruct (GMP_NUMB_BITS =? 32); [|done]. intros [H _]%andb_prop. by apply Z.eqb_eq.
Qed.

Lemma static_div_algo_two : static_div_algo = 2.
Proof. unfold static_div_algo, s_size. by rewrite HS, HD. Qed.

Lemma limb_bits_pos : 0 < GMP_LIMB_BITS.
Proof. destruct Hcfg. lia. Qed.

(** Division in the double-width type, limb by limb. *)
Lemma dlimb_div_spec a0 a1 b0 b1 :
  0 ≤ a0 < 2 ^ GMP_LIMB_BITS → 0 ≤ a1 < 2 ^ GMP_LIMB_BITS →
  0 ≤ b0 < 2 ^ GMP_LIMB_BITS → 0 ≤ b1 < 2 ^ GMP_LIMB_BITS →
  0 < b0 + 2 ^ GMP_LIMB_BITS * b1 →
  ∃ q1 q2 r1 r2,
    dlimb_div a0 a1 b0 b1 = (q1, q2, r1, r2)
    ∧ 0 ≤ q1 < 2 ^ GMP_LIMB_BITS ∧ 0 ≤ q2 < 2 ^ GMP_LIMB_BITS
    ∧ 0 ≤ r1 < 2 ^ GMP_LIMB_BITS ∧ 0 ≤ r2 < 2 ^ GMP_LIMB_BITS
    ∧ q1 + 2 ^ GMP_LIMB_BITS * q2
      = (a0 + 2 ^ GMP_LIMB_BITS * a1) / (b0 + 2 ^ GMP_LIMB_BITS * b1)
    ∧ r1 + 2 ^ GMP_LIMB_BITS * r2
      = (a0 + 2 ^ GMP_LIMB_BITS * a1) mod (b0 + 2 ^ GMP_LIMB_BITS * b1).
Proof.
  intros Ha0 Ha1 Hb0 Hb1 HB. pose proof limb_bits_pos as HW.
  unfold dlimb_div. rewrite !Z.shiftl_mul_pow2 by lia.
  remember (2 ^ GMP_LIMB_BITS) as M eqn:EM.
  assert (HM : 0 < M) by (rewrite EM; apply Z.pow_pos_nonneg; lia).
  assert (HMM : 2 ^ (2 * GMP_LIMB_BITS) = M * M).
  { rewrite EM, <- Z.pow_add_r by lia. f_equal. lia. }
  rewrite HMM.
  rewrite (Z.mul_comm a1 M), (Z.mul_comm b1 M).
  rewrite (Z.mod_small (a0 + M * a1)) by nia.
  rewrite (Z.mod_small (b0 + M * b1)) by nia.
  remember (a0 + M * a1) as A eqn:EA. remember (b0 + M * b1) as B eqn:EB.
  assert (HA : 0 ≤ A < M * M) by nia.
  assert (Hq : 0 ≤ A / B < M * M).
  { split; [apply Z.div_pos; lia|]. apply Z.le_lt_trans with A; [|lia].
    apply Z.div_le_upper_bound; nia. }
  assert (Hr : 0 ≤ A mod B < M * M).
  { pose proof (Z.mod_pos_bound A B HB). nia. }
  assert (Hsplit : ∀ x, 0 ≤ x < M * M →
            0 ≤ limb_wrap (Z.land x (M - 1)) < M ∧ 0 ≤ limb_wrap (Z.shiftr x GMP_LIMB_BITS) < M
            ∧ limb_wrap (Z.land x (M - 1)) + M * limb_wrap (Z.shiftr x GMP_LIMB_BITS) = x).
  { intros x Hx.
    assert (Hland : Z.land x (M - 1) = x mod M).
    { rewrite EM. replace (2 ^ GMP_LIMB_BITS - 1) with (Z.ones GMP_LIMB_BITS)
        by (rewrite Z.ones_equiv; lia).
      apply Z.land_ones. lia. }
    assert (Hshr : Z.shiftr x GMP_LIMB_BITS = x / M).
    { rewrite EM. apply Z.shiftr_div_pow2. lia. }
    rewrite Hland, Hshr.
    pose proof (Z.mod_pos_bound x M HM) as Hm.
    assert (Hd : 0 ≤ x / M < M).
    { split; [apply Z.div_pos; lia|]. apply Z.div_lt_upper_bound; lia. }
    unfold limb_wrap. rewrite <- EM.
    rewrite (Z.mod_small (x mod M)) by lia. rewrite (Z.mod_small (x / M)) by lia.
    split; [lia|]. split; [lia|].
    pose proof (Z.div_mod x M ltac:(lia)). lia. }
  destruct (Hsplit _ Hq) as (Hq1 & Hq2 & Hqv). destruct (Hsplit _ Hr) as (Hr1 & Hr2 & Hrv).
  eexists _, _, _, _. split; [reflexivity|]. repeat split; lia.
Qed.

(** The sizes the kernel writes, before and after the sign flip. *)
Lemma size1_neg v : - (if v =? 0 then 0 else 1) = (if v =? 0 then 0 else -1).
Proof. by destruct (v =? 0). Qed.

Lemma size2_pos hi lo :
  (if negb (hi =? 0) then 2 else if negb (lo =? 0) then 1 else 0)
  = (if hi =? 0 then if lo =? 0 then 0 else 1 else 1 + 1).
Proof. by destruct (hi =? 0), (lo =? 0). Qed.

Lemma size2_neg hi lo :
  - (if negb (hi =? 0) then 2 else if negb (lo =? 0) then 1 else 0)
  = (if hi =? 0 then if lo =? 0 then 0 else -1 else -1 + -1).
Proof. by destruct (hi =? 0), (lo =? 0). Qed.

Lemma run_static_div_impl_2 σ q r op1 op2 qs rs a b :
  q ≠ r →
  objs σ !! q = Some (m_st qs) → objs σ !! r = Some (m_st rs) →
  objs σ !! op1 = Some (m_st a) → objs σ !! op2 = Some (m_st b) →
  static_int_valid qs → static_int_valid rs → static_int_valid a → static_int_valid b →
  st_mp_size b ≠ 0 →
  ∃ σ', static_div_impl_2 q r op1 op2 (Z.abs (st_mp_size a)) (Z.abs (st_mp_size b))
          (Z.sgn (st_mp_size a)) (Z.sgn (st_mp_size b)) σ = (Ret tt, σ')
    ∧ div_post σ' q r (integer_value (m_st a)) (integer_value (m_st b)).
Proof.
  intros Hne Hq Hr H1 H2 Hvq Hvr Hva Hvb Hbnz.
  pose proof have_dlimb_div_no_nails as HN.
  destruct (static_valid_limbs2 Hcfg HS HN qs Hvq) as (q0 & q1 & Hlq & Haq & _).
  destruct (static_valid_limbs2 Hcfg HS HN rs Hvr) as (r0 & r1 & Hlr & Har & _).
  destruct (static_valid_limbs2 Hcfg HS HN a Hva)
    as (a0 & a1 & Hla & Haa & Ha0 & Ha1 & Hsa & Haz & Ha1' & Ha2' & Hvala).
  destruct (static_valid_limbs2 Hcfg HS HN b Hvb)
    as (b0 & b1 & Hlb & Hab & Hb0 & Hb1 & Hsb & Hbz & Hb1' & Hb2' & Hvalb).
  assert (Hlenq : length (m_limbs qs) = 2%nat) by (by rewrite Hlq).
  assert (Hlenr : length (m_limbs rs) = 2%nat) by (by rewrite Hlr).
  assert (Hlena : length (m_limbs a) = 2%nat) by (by rewrite Hla).
  assert (Hlenb : length (m_limbs b) = 2%nat) by (by rewrite Hlb).
  remember (2 ^ GMP_LIMB_BITS) as M eqn:EM.
  assert (HM : 0 < M) by (rewrite EM; apply Z.pow_pos_nonneg; [lia | destruct Hcfg; lia]).
  remember (a0 + M * a1) as A eqn:EA. remember (b0 + M * b1) as B eqn:EB.
  assert (HA : 0 ≤ A) by (clear -EA Ha0 Ha1 HM; nia).
  assert (HB : 0 < B).
  { assert (Hc : Z.abs (st_mp_size b) = 1 ∨ Z.abs (st_mp_size b) = 2) by (clear -Hbnz Hsb; lia).
    destruct Hc as [Hc|Hc].
    - destruct (Hb1' Hc) as [Hnz ->]. clear -EB Hb0 HM Hnz. nia.
    - specialize (Hb2' Hc). clear -EB Hb0 Hb1 HM Hb2'. nia. }
  assert (Hs1 : Z.sgn (st_mp_size a) = 1 ∨ Z.sgn (st_mp_size a) = -1
                ∨ (Z.sgn (st_mp_size a) = 0 ∧ A = 0)).
  { destruct (Z.eq_dec (st_mp_size a) 0) as [Hz|Hz].
    - right; right. destruct (Haz Hz) as [-> ->]. rewrite Hz. split; [done|]. lia.
    - clear -Hz. lia. }
  assert (Hs2 : Z.sgn (st_mp_size b) = 1 ∨ Z.sgn (st_mp_size b) = -1) by (clear -Hbnz; lia).
  destruct (quot_rem_sign_magnitude _ _ A B HA HB Hs1 Hs2) as [Hquot Hrem].
  remember (if Z.sgn (st_mp_size a) =? Z.sgn (st_mp_size b) then 1 else -1) as sq eqn:Esq.
  remember (if Z.sgn (st_mp_size a) =? -1 then -1 else 1) as sr eqn:Esr.
  assert (Hsq : sq = 1 ∨ sq = -1).
  { clear -Esq. destruct (Z.sgn (st_mp_size a) =? Z.sgn (st_mp_size b)); tauto. }
  assert (Hsr : sr = 1 ∨ sr = -1).
  { clear -Esr. destruct (Z.sgn (st_mp_size a) =? -1); tauto. }
  assert (Hgoal : ∀ ql qh rl rh,
            0 ≤ ql < M → 0 ≤ qh < M → 0 ≤ rl < M → 0 ≤ rh < M →
            ql + M * qh = A / B → rl + M * rh = A mod B →
            static_div_impl_2 q r op1 op2 (Z.abs (st_mp_size a)) (Z.abs (st_mp_size b))
              (Z.sgn (st_mp_size a)) (Z.sgn (st_mp_size b)) σ
            = (Ret tt,
               upd (upd σ q (m_st (StaticInt s_alloc
                       (if qh =? 0 then (if ql =? 0 then 0 else sq) else sq + sq) [ql; qh])))
                   r (m_st (StaticInt s_alloc
                       (if rh =? 0 then (if rl =? 0 then 0 else sr) else sr + sr) [rl; rh]))) →
            ∃ σ', static_div_impl_2 q r op1 op2 (Z.abs (st_mp_size a)) (Z.abs (st_mp_size b))
                    (Z.sgn (st_mp_size a)) (Z.sgn (st_mp_size b)) σ = (Ret tt, σ')
              ∧ div_post σ' q r (integer_value (m_st a)) (integer_value (m_st b))).
  { intros ql qh rl rh Hql Hqh Hrl Hrh Hqv Hrv Hrun.
    rewrite EM in Hql, Hqh, Hrl, Hrh.
    destruct (static2_intro Hcfg sq ql qh HS HN Hql Hqh Hsq) as [Hvq' Hvalq'].
    destruct (static2_intro Hcfg sr rl rh HS HN Hrl Hrh Hsr) as [Hvr' Hvalr'].
    eexists. split; [exact Hrun|].
    eexists _, _. split; [rewrite lookup_upd_ne by done; apply lookup_upd_eq|].
    split; [apply lookup_upd_eq|]. split; [exact Hvq'|]. split; [exact Hvr'|].
    cbn [integer_value]. rewrite Hvalq', Hvalr', <- EM, Hqv, Hrv, Hvala, Hvalb.
    rewrite Hquot, Hrem. done. }
  destruct ((Z.abs (st_mp_size a) <? 2) && (Z.abs (st_mp_size b) <? 2)) eqn:Hsmall.
  - apply andb_prop in Hsmall as [Hsa1%Z.ltb_lt Hsb1%Z.ltb_lt].
    assert (Hb1z : b1 = 0 ∧ b0 ≠ 0).
    { assert (Hc : Z.abs (st_mp_size b) = 1) by (clear -Hbnz Hsb1; lia). destruct (Hb1' Hc). done. }
    destruct Hb1z as [-> Hb0nz].
    assert (a1 = 0) as ->.
    { destruct (Z.eq_dec (st_mp_size a) 0) as [Hz|Hz]; [by destruct (Haz Hz)|].
      assert (Hc : Z.abs (st_mp_size a) = 1) by (clear -Hz Hsa1; lia). by destruct (Ha1' Hc). }
    assert (EA' : A = a0) by (clear -EA; lia). assert (EB' : B = b0) by (clear -EB; lia).
    assert (Hqr : 0 ≤ a0 / b0 < M).
    { split; [apply Z.div_pos; lia|]. apply Z.le_lt_trans with a0; [|lia].
      apply Z.div_le_upper_bound; [lia|]. clear -Ha0 Hb0 Hb0nz. nia. }
    assert (Hrr : 0 ≤ a0 mod b0 < M).
    { assert (Hb0p : 0 < b0) by (clear -Hb0 Hb0nz; lia).
      pose proof (Z.mod_pos_bound a0 b0 Hb0p). clear -H Hb0 EM. lia. }
    apply (Hgoal (a0 / b0) 0 (a0 mod b0) 0); try (clear -HM; lia); try done.
    { rewrite EA', EB'. clear. lia. }
    { rewrite EA', EB'. clear. lia. }
    unfold static_div_impl_2.
    destruct (Z.ltb_spec (Z.abs (st_mp_size a)) 2); [|lia].
    destruct (Z.ltb_spec (Z.abs (st_mp_size b)) 2); [|lia]. cbn [andb].
    mstep. mstep. rewrite Hla, Hlb.
    change (limb_at [a0; 0] 0) with a0. change (limb_at [b0; 0] 0) with b0.
    destruct (Z.eqb_spec b0 0); [done|].
    mstep. unfold when. rewrite Esq, Esr.
    destruct (Z.eqb_spec (Z.sgn (st_mp_size a)) (Z.sgn (st_mp_size b))) as [He|He],
             (Z.eqb_spec (Z.sgn (st_mp_size a)) (-1)) as [Hm|Hm]; cbn [negb];
      repeat mstep; mlast; rewrite ?upd_upd;
      cbn [set_size st_mp_size st_mp_alloc m_limbs];
      rewrite ?set_size_twice, ?(written2 qs q0 q1 _ _ _ Hlq Haq),
        ?(written2 rs r0 r1 _ _ _ Hlr Har);
      change (0 =? 0) with true; cbv iota;
      rewrite ?size1_neg; reflexivity.
  - assert (Hbb : (b0 =? 0) && (b1 =? 0) = false).
    { destruct (Z.eqb_spec b0 0), (Z.eqb_spec b1 0); try reflexivity.
      clear -EB HB e e0. subst. lia. }
    rewrite EM in Ha0, Ha1, Hb0, Hb1. rewrite EB, EM in HB.
    destruct (dlimb_div_spec a0 a1 b0 b1 Ha0 Ha1 Hb0 Hb1 HB)
      as (ql & qh & rl & rh & Hdd & Hql & Hqh & Hrl & Hrh & Hqv & Hrv).
    rewrite <- EM in Hql, Hqh, Hrl, Hrh, Hqv, Hrv. rewrite <- EA, <- EB in Hqv, Hrv.
    apply (Hgoal ql qh rl rh Hql Hqh Hrl Hrh Hqv Hrv).
    unfold static_div_impl_2. rewrite Hsmall.
    mstep. mstep. mstep. mstep. rewrite Hla, Hlb.
    change (limb_at [a0; a1] 0) with a0. change (limb_at [a0; a1] 1) with a1.
    change (limb_at [b0; b1] 0) with b0. change (limb_at [b0; b1] 1) with b1.
    rewrite Hbb, Hdd.
    mstep. unfold when. rewrite Esq, Esr.
    destruct (Z.eqb_spec (Z.sgn (st_mp_size a)) (Z.sgn (st_mp_size b))) as [He|He],
             (Z.eqb_spec (Z.sgn (st_mp_size a)) (-1)) as [Hm|Hm]; cbn [negb];
      repeat mstep; mlast; rewrite ?upd_upd;
      cbn [set_size st_mp_size st_mp_alloc m_limbs];
      rewrite ?set_size_twice, ?(written2 qs q0 q1 _ _ _ Hlq Haq),
        ?(written2 rs r0 r1 _ _ _ Hlr Har);
      rewrite ?size2_neg, ?size2_pos; reflexivity.
Qed.

End DivTwoLimbs.

(** ** The generic division kernel *)

Section DivGenericFacts.
Context {cfg : build_config} (Hcfg : config_ok cfg).

Lemma dtor_checks_intro s :
  st_mp_alloc s = s_alloc →
  Z.abs (st_mp_size s) ≤ SSize →
  (SSize ≤ 2 → Forall (λ x, x = 0) (drop (Z.to_nat (Z.abs (st_mp_size s))) (m_limbs s))) →
  (st_mp_size s ≠ 0 →
   Z.land (limb_at (m_limbs s) (Z.abs (st_mp_size s) - 1)) GMP_NUMB_MASK ≠ 0) →
  dtor_checks s = true.
Proof.
  intros Ha Hsz Hz Htop. unfold dtor_checks. rewrite abs_size_abs, Ha, Z.eqb_refl.
  cbn [negb]. unfold s_size, opt_size.
  destruct (Z.gtb_spec (Z.abs (st_mp_size s)) SSize); [lia|].
  assert (Hall : (SSize <=? 2) && negb (forallb (λ x, x =? 0)
                    (drop (Z.to_nat (Z.abs (st_mp_size s))) (m_limbs s))) = false).
  { destruct (Z.leb_spec SSize 2) as [Hle|]; [|done]. cbn [andb].
    specialize (Hz Hle). apply negb_false_iff, forallb_forall.
    intros x Hx%list_elem_of_In. rewrite Forall_forall in Hz. apply Z.eqb_eq. by apply Hz. }
  rewrite Hall.
  destruct (Z.gtb_spec (Z.abs (st_mp_size s)) 0); [|done]. cbn [andb].
  destruct (Z.eqb_spec (Z.land (limb_at (m_limbs s) (Z.abs (st_mp_size s) - 1)) GMP_NUMB_MASK) 0)
    as [He|]; [|done].
  exfalso. apply Htop; [lia | done].
Qed.

Lemma limb_at_app_l (l1 l2 : list Z) i :
  0 ≤ i < Z.of_nat (length l1) → limb_at (l1 ++ l2) i = limb_at l1 i.
Proof. intros Hi. unfold limb_at. apply app_nth1. lia. Qed.

Lemma limb_at_take (l : list Z) n i :
  0 ≤ i < Z.of_nat n → limb_at (take n l) i = limb_at l i.
Proof.
  intros Hi. unfold limb_at. rewrite !nth_lookup, lookup_take_lt by lia. done.
Qed.

(** Clearing the unused limbs completes a buffer that is normalised. *)
Lemma zero_unused_limbs_valid s :
  limbs_typed SSize (m_limbs s) → st_mp_alloc s = s_alloc →
  Z.abs (st_mp_size s) ≤ SSize →
  (st_mp_size s ≠ 0 →
   Z.land (limb_at (m_limbs s) (Z.abs (st_mp_size s) - 1)) GMP_NUMB_MASK ≠ 0) →
  static_int_valid (zero_unused_limbs s)
  ∧ mpz_value (get_mpz_view (zero_unused_limbs s)) = mpz_value (get_mpz_view s).
Proof.
  intros [Hlen Hr] Ha Hsz Htop. unfold zero_unused_limbs. rewrite abs_size_abs.
  unfold opt_size. destruct (Z.leb_spec SSize 2) as [Hle|Hgt].
  - set (n := Z.to_nat (Z.abs (st_mp_size s))).
    assert (Hn : (n ≤ length (m_limbs s))%nat) by lia.
    assert (Hlt : length (take n (m_limbs s)) = n) by (rewrite length_take; lia).
    split; [split; [split|]|].
    + cbn [m_limbs]. rewrite length_app, Hlt, length_replicate. lia.
    + cbn [m_limbs]. apply Forall_app. split; [by apply Forall_take|].
      apply Forall_replicate. split; [lia|]. apply Z.pow_pos_nonneg; [lia|]. destruct Hcfg; lia.
    + apply dtor_checks_intro; cbn [st_mp_alloc st_mp_size m_limbs]; try done.
      * intros _. fold n. rewrite drop_app_length' by done. by apply Forall_replicate.
      * intros Hnz. rewrite limb_at_app_l by lia. rewrite limb_at_take by lia. by apply Htop.
    + unfold mpz_value, get_mpz_view. cbn [mp_size mp_d st_mp_size m_limbs]. fold n.
      by rewrite take_app_length' by done.
  - split; [|done]. split; [done|]. apply dtor_checks_intro; try done. lia.
Qed.

(** The value of a sign-magnitude pair whose size is [sg * k]. *)
Lemma mpz_value_signed sg (k : nat) alloc l :
  sg = 1 ∨ sg = -1 →
  mpz_value (MpzStruct alloc (sg * Z.of_nat k) l) = sg * mpn_value (take k l).
Proof.
  intros Hsg. unfold mpz_value. cbn [mp_size mp_d].
  replace (Z.to_nat (Z.abs (sg * Z.of_nat k))) with k by (destruct Hsg as [-> | ->]; lia).
  destruct k as [|k]; [rewrite take_0; cbn [mpn_value]; rewrite !Z.mul_0_r; reflexivity|].
  rewrite Z.sgn_mul, (Z.sgn_pos (Z.of_nat (S k))) by lia.
  destruct Hsg as [-> | ->]; cbn [Z.sgn]; lia.
Qed.

Lemma run_zero_unused_limbs_at σ x xs :
  objs σ !! x = Some (m_st xs) → st_mp_alloc xs = s_alloc →
  zero_unused_limbs_at x σ = (Ret tt, upd σ x (m_st (zero_unused_limbs xs))).
Proof. intros Hx Ha. unfold zero_unused_limbs_at. mstep. apply run_put_obj. Qed.

Lemma strip_size_S σ x xs (n : nat) :
  objs σ !! x = Some (m_st xs) → st_mp_alloc xs = s_alloc →
  (n < length (m_limbs xs))%nat →
  strip_size x (S n) σ
  = if Z.land (limb_at (m_limbs xs) (Z.of_nat n)) GMP_NUMB_MASK =? 0
    then strip_size x n (upd σ x (m_st (set_size xs (Z.of_nat n))))
    else (Ret tt, σ).
Proof.
  intros Hx Ha Hlen. cbn [strip_size]. mstep.
  destruct (_ =? 0); [|reflexivity]. mstep. reflexivity.
Qed.

(** The stripping loop stops at the normalised size and does not change
    the value. *)
Lemma run_strip_size σ x xs (n : nat) :
  objs σ !! x = Some (m_st xs) → st_mp_alloc xs = s_alloc →
  st_mp_size xs = Z.of_nat n → (n ≤ length (m_limbs xs))%nat →
  ∃ k : nat,
    strip_size x n σ = (Ret tt, upd σ x (m_st (set_size xs (Z.of_nat k))))
    ∧ (k ≤ n)%nat
    ∧ (k ≠ O → Z.land (limb_at (m_limbs xs) (Z.of_nat k - 1)) GMP_NUMB_MASK ≠ 0)
    ∧ mpn_value (take k (m_limbs xs)) = mpn_value (take n (m_limbs xs)).
Proof.
  revert σ xs. induction n as [|n IH]; intros σ xs Hx Ha Hsz Hlen.
  - exists O. split; [|done]. cbn [strip_size]. rewrite run_mret. f_equal.
    symmetry. apply upd_id. rewrite Hx. do 2 f_equal. destruct xs; cbn in *. by subst.
  - rewrite (strip_size_S σ x xs n Hx Ha) by lia.
    destruct (Z.eqb_spec (Z.land (limb_at (m_limbs xs) (Z.of_nat n)) GMP_NUMB_MASK) 0)
      as [Hz|Hnz].
    + destruct (IH (upd σ x (m_st (set_size xs (Z.of_nat n)))) (set_size xs (Z.of_nat n)))
        as (k & Hrun & Hk & Htop & Hval); [apply lookup_upd_eq | done | done | cbn; lia |].
      exists k. rewrite Hrun, upd_upd. split; [done|]. split; [lia|]. split; [done|].
      cbn [set_size m_limbs] in Hval. rewrite Hval.
      replace (S n) with (Z.to_nat (Z.of_nat n + 1)) by lia.
      rewrite (take_top (m_limbs xs) (Z.of_nat n + 1)) by lia.
      replace (Z.of_nat n + 1 - 1) with (Z.of_nat n) by lia.
      rewrite (mpn_value_top_zero Hcfg _ _ Hz). by rewrite Nat2Z.id.
    + exists (S n). split; [|split; [done|split; [|done]]].
      * f_equal. symmetry. apply upd_id. rewrite Hx. do 2 f_equal.
        destruct xs; cbn in *. by subst.
      * intros _. replace (Z.of_nat (S n) - 1) with (Z.of_nat n) by lia. done.
Qed.

Lemma run_read_ptr_operand σ l s n :
  objs σ !! l = Some (m_st s) → st_mp_alloc s = s_alloc →
  0 ≤ n ≤ Z.of_nat (length (m_limbs s)) →
  read_ptr (AtOperand l) n σ = (Ret (take (Z.to_nat n) (m_limbs s)), σ).
Proof.
  intros Hl Ha Hn. cbn [read_ptr].
  rewrite (run_load_limbs σ l s 0 n Hl Ha) by lia. by rewrite drop_0.
Qed.

Lemma run_read_ptr_local σ buf n :
  0 ≤ n ≤ Z.of_nat (length buf) →
  read_ptr (AtLocal buf) n σ = (Ret (take (Z.to_nat n) buf), σ).
Proof.
  intros Hn. cbn [read_ptr].
  destruct (Z.leb_spec 0 n); [|lia]. destruct (Z.leb_spec n (Z.of_nat (length buf))); [|lia].
  reflexivity.
Qed.

End DivGenericFacts.

Section DivGenericFinish.
Context {cfg : build_config} (Hcfg : config_ok cfg).

Lemma pre_valid_of_valid s : static_int_valid s → pre_valid s (mpz_value (get_mpz_view s)).
Proof.
  intros [Ht Hd]. destruct (dtor_checks_inv _ Hd) as (Ha & Hs & _ & Htop).
  split; [done|]. split; [done|]. split; [done|]. split; [done|]. reflexivity.
Qed.

Lemma pre_valid_zero_unused s v :
  pre_valid s v →
  static_int_valid (zero_unused_limbs s) ∧ mpz_value (get_mpz_view (zero_unused_limbs s)) = v.
Proof.
  intros (Ht & Ha & Hs & Htop & Hv).
  destruct (zero_unused_limbs_valid Hcfg s Ht Ha Hs Htop) as [H1 H2]. split; [done|congruence].
Qed.

Lemma run_when_negate σ x X c :
  objs σ !! x = Some (m_st X) → st_mp_alloc X = s_alloc →
  when c (negate_size x) σ
  = (Ret tt, upd σ x (m_st (set_size X (if c then - st_mp_size X else st_mp_size X)))).
Proof.
  intros Hx Ha. destruct c; cbn [when].
  - by apply run_negate_size.
  - rewrite run_mret. f_equal. symmetry. apply upd_id. rewrite Hx. do 2 f_equal. by destruct X.
Qed.

(** What the size computation of the kernel leaves at [x]:
    [x._mp_size = n; while (...) --x._mp_size; if (neg) x._mp_size = -x._mp_size;] *)
Lemma pre_valid_finish X (k n : nat) (neg : bool) v :
  limbs_typed SSize (m_limbs X) → st_mp_alloc X = s_alloc →
  (k ≤ n)%nat → Z.of_nat n ≤ SSize →
  (k ≠ O → Z.land (limb_at (m_limbs X) (Z.of_nat k - 1)) GMP_NUMB_MASK ≠ 0) →
  mpn_value (take k (m_limbs X)) = mpn_value (take n (m_limbs X)) →
  mpn_value (take n (m_limbs X)) = v →
  pre_valid (set_size X (if neg then - Z.of_nat k else Z.of_nat k))
            ((if neg then -1 else 1) * v).
Proof.
  intros Ht Ha Hk Hn Htop Hval Hv.
  assert (Hsz : (if neg then - Z.of_nat k else Z.of_nat k)
                = (if neg then -1 else 1) * Z.of_nat k) by (destruct neg; lia).
  split; [done|]. split; [done|]. cbn [set_size st_mp_size m_limbs].
  split; [destruct neg; lia|]. split.
  - intros Hnz. replace (Z.abs (if neg then - Z.of_nat k else Z.of_nat k)) with (Z.of_nat k)
      by (destruct neg; lia).
    apply Htop. destruct neg; lia.
  - unfold get_mpz_view. cbn [set_size st_mp_size m_limbs]. rewrite Hsz.
    rewrite mpz_value_signed by (destruct neg; tauto). by rewrite Hval, Hv.
Qed.

Lemma set_limbs_0_limbs X vs :
  m_limbs (set_limbs X 0 vs) = vs ++ drop (length vs) (m_limbs X).
Proof. reflexivity. Qed.

Lemma set_limbs_0_typed X vs :
  limbs_typed SSize (m_limbs X) → (length vs ≤ length (m_limbs X))%nat →
  Forall (λ x, 0 ≤ x < 2 ^ GMP_LIMB_BITS) vs →
  limbs_typed SSize (m_limbs (set_limbs X 0 vs)).
Proof.
  intros [Hlen Hr] Hvs Hrv. rewrite set_limbs_0_limbs. split.
  - rewrite length_app, length_drop. lia.
  - apply Forall_app. split; [done | by apply Forall_drop].
Qed.

Lemma set_limb_0_typed X v :
  limbs_typed SSize (m_limbs X) → 0 ≤ v < 2 ^ GMP_LIMB_BITS →
  limbs_typed SSize (m_limbs (set_limb X 0 v)).
Proof.
  intros [Hlen Hr] Hv. cbn [set_limb m_limbs]. split.
  - by rewrite length_insert.
  - by apply Forall_insert.
Qed.

Lemma set_limb_0_take X v :
  (0 < length (m_limbs X))%nat → take 1 (m_limbs (set_limb X 0 v)) = [v].
Proof.
  intros Hlen. cbn [set_limb m_limbs]. destruct (m_limbs X); [cbn in Hlen; lia | reflexivity].
Qed.

Lemma run_store_limbs_0 σ x X vs :
  objs σ !! x = Some (m_st X) → st_mp_alloc X = s_alloc →
  (length vs ≤ length (m_limbs X))%nat →
  store_limbs x 0 vs σ = (Ret tt, upd σ x (m_st (set_limbs X 0 vs))).
Proof. intros Hx Ha Hl. apply run_store_limbs; try done; lia. Qed.

(** The quotient of an [n1]-limb dividend by a normalised [n2]-limb
    divisor fits in [n1 - n2 + 1] limbs. *)
Lemma quotient_limbs N D (n1 n2 : nat) :
  (1 ≤ n2 ≤ n1)%nat →
  0 ≤ N < 2 ^ (GMP_NUMB_BITS * Z.of_nat n1) →
  2 ^ (GMP_NUMB_BITS * (Z.of_nat n2 - 1)) ≤ D →
  0 ≤ N / D < 2 ^ (GMP_NUMB_BITS * Z.of_nat (n1 - n2 + 1)).
Proof.
  intros Hn HN HD. pose proof (numb_bits_pos Hcfg) as Hnb.
  assert (Hp : 0 < 2 ^ (GMP_NUMB_BITS * (Z.of_nat n2 - 1)))
    by (apply Z.pow_pos_nonneg; [lia|nia]).
  split; [apply Z.div_pos; lia|].
  apply Z.div_lt_upper_bound; [lia|].
  assert (Hsplit : 2 ^ (GMP_NUMB_BITS * Z.of_nat n1)
          = 2 ^ (GMP_NUMB_BITS * (Z.of_nat n2 - 1)) * 2 ^ (GMP_NUMB_BITS * Z.of_nat (n1 - n2 + 1))).
  { rewrite <- Z.pow_add_r by nia. f_equal. nia. }
  assert (Hq : 0 < 2 ^ (GMP_NUMB_BITS * Z.of_nat (n1 - n2 + 1)))
    by (apply Z.pow_pos_nonneg; [lia|nia]).
  rewrite Hsplit in HN. nia.
Qed.

End DivGenericFinish.

Section DivGenericKernel.
Context {cfg : build_config} (Hcfg : config_ok cfg).

(** [x._mp_size = n;], the stripping loop and the sign flip. *)
Lemma run_size_fixup σ x X n neg v :
  objs σ !! x = Some (m_st X) → st_mp_alloc X = s_alloc →
  limbs_typed SSize (m_limbs X) → 0 ≤ n ≤ SSize →
  mpn_value (take (Z.to_nat n) (m_limbs X)) = v →
  ∃ X' σ1 σ2,
    store_size x n σ = (Ret tt, σ1)
    ∧ strip_size x (Z.to_nat n) σ1 = (Ret tt, σ2)
    ∧ when neg (negate_size x) σ2 = (Ret tt, upd σ x (m_st X'))
    ∧ pre_valid X' ((if neg then -1 else 1) * v).
Proof.
  intros Hx Ha Ht Hn Hv.
  assert (Hlen : Z.of_nat (length (m_limbs X)) = SSize) by apply Ht.
  destruct (run_strip_size Hcfg (upd σ x (m_st (set_size X n))) x (set_size X n) (Z.to_nat n))
    as (k & Hstrip & Hk & Htop & Hval).
  { apply lookup_upd_eq. } { exact Ha. }
  { cbn [set_size st_mp_size]. lia. } { cbn [set_size m_limbs]. lia. }
  rewrite upd_upd in Hstrip. cbn [set_size st_mp_alloc st_mp_size m_limbs] in *.
  exists (set_size X (if neg then - Z.of_nat k else Z.of_nat k)).
  eexists. eexists.
  split; [by eapply run_store_size|]. split; [exact Hstrip|]. split.
  - rewrite (run_when_negate _ x (StaticInt (st_mp_alloc X) (Z.of_nat k) (m_limbs X)) neg);
      [|apply lookup_upd_eq|exact Ha].
    rewrite upd_upd. reflexivity.
  - apply (pre_valid_finish X k (Z.to_nat n) neg v); try done. lia.
Qed.

Lemma run_div0_tail σ q r Q1 R1 nq nr sign1 sign2 vq vr :
  q ≠ r →
  objs σ !! q = Some (m_st Q1) → objs σ !! r = Some (m_st R1) →
  st_mp_alloc Q1 = s_alloc → st_mp_alloc R1 = s_alloc →
  limbs_typed SSize (m_limbs Q1) → limbs_typed SSize (m_limbs R1) →
  0 ≤ nq ≤ SSize → 0 ≤ nr ≤ SSize →
  mpn_value (take (Z.to_nat nq) (m_limbs Q1)) = vq →
  mpn_value (take (Z.to_nat nr) (m_limbs R1)) = vr →
  ∃ σ' Q R,
    (store_size q nq;;
     strip_size q (Z.to_nat nq);;
     when (negb (sign1 =? sign2)) (negate_size q);;
     store_size r nr;;
     strip_size r (Z.to_nat nr);;
     when (sign1 =? -1) (negate_size r)) σ = (Ret tt, σ')
    ∧ objs σ' !! q = Some (m_st Q) ∧ objs σ' !! r = Some (m_st R)
    ∧ pre_valid Q ((if negb (sign1 =? sign2) then -1 else 1) * vq)
    ∧ pre_valid R ((if sign1 =? -1 then -1 else 1) * vr).
Proof.
  intros Hne Hq Hr Haq Har Htq Htr Hnq Hnr Hvq Hvr.
  destruct (run_size_fixup σ q Q1 nq (negb (sign1 =? sign2)) vq Hq Haq Htq Hnq Hvq)
    as (Q & σ1 & σ2 & E1 & E2 & E3 & HQ).
  assert (Hr' : objs (upd σ q (m_st Q)) !! r = Some (m_st R1))
    by (by rewrite lookup_upd_ne).
  destruct (run_size_fixup _ r R1 nr (sign1 =? -1) vr Hr' Har Htr Hnr Hvr)
    as (R & σ3 & σ4 & E4 & E5 & E6 & HR).
  exists (upd (upd σ q (m_st Q)) r (m_st R)), Q, R.
  split.
  { rewrite (run_bind_ret _ _ _ _ _ E1), (run_bind_ret _ _ _ _ _ E2),
      (run_bind_ret _ _ _ _ _ E3), (run_bind_ret _ _ _ _ _ E4), (run_bind_ret _ _ _ _ _ E5).
    exact E6. }
  split; [rewrite lookup_upd_ne by congruence; apply lookup_upd_eq|].
  split; [apply lookup_upd_eq|]. by split.
Qed.

(** The call of [mpn_divrem_1] or [mpn_tdiv_qr]. *)
Lemma run_div0_limbs σ q r qs rs data1 data2 n1 n2 nl dl :
  q ≠ r →
  objs σ !! q = Some (m_st qs) → objs σ !! r = Some (m_st rs) →
  st_mp_alloc qs = s_alloc → st_mp_alloc rs = s_alloc →
  limbs_typed SSize (m_limbs qs) → limbs_typed SSize (m_limbs rs) →
  1 ≤ n2 ≤ n1 → n1 ≤ SSize →
  read_ptr data1 n1 σ = (Ret nl, σ) → read_ptr data2 n2 σ = (Ret dl, σ) →
  Z.of_nat (length nl) = n1 → Z.of_nat (length dl) = n2 →
  2 ^ (GMP_NUMB_BITS * (n2 - 1)) ≤ mpn_value dl →
  ∃ σ1 Q1 R1,
    (if n2 =? 1 then
       n ← read_ptr data1 n1;
       d ← read_ptr data2 1;
       let '(qv, rem) := mpn_divrem_1 n (limb_at d 0) in
       store_limbs q 0 qv;;
       store_limb r 0 rem
     else
       n ← read_ptr data1 n1;
       d ← read_ptr data2 n2;
       let '(qv, rv) := mpn_tdiv_qr n d in
       store_limbs q 0 qv;;
       store_limbs r 0 rv) σ = (Ret tt, σ1)
    ∧ objs σ1 !! q = Some (m_st Q1) ∧ objs σ1 !! r = Some (m_st R1)
    ∧ st_mp_alloc Q1 = s_alloc ∧ st_mp_alloc R1 = s_alloc
    ∧ limbs_typed SSize (m_limbs Q1) ∧ limbs_typed SSize (m_limbs R1)
    ∧ mpn_value (take (Z.to_nat (n1 - n2 + 1)) (m_limbs Q1)) = mpn_value nl / mpn_value dl
    ∧ mpn_value (take (Z.to_nat n2) (m_limbs R1)) = mpn_value nl mod mpn_value dl.
Proof.
  intros Hne Hq Hr Haq Har Htq Htr Hn Hn1 Hrd1 Hrd2 Hlnl Hldl HD.
  pose proof (numb_bits_pos Hcfg) as Hnb.
  assert (Hlq : Z.of_nat (length (m_limbs qs)) = SSize) by apply Htq.
  assert (Hlr : Z.of_nat (length (m_limbs rs)) = SSize) by apply Htr.
  assert (HDpos : 0 < mpn_value dl).
  { assert (0 < 2 ^ (GMP_NUMB_BITS * (n2 - 1))) by (apply Z.pow_pos_nonneg; [lia|nia]). lia. }
  pose proof (mpn_value_nonneg Hcfg nl) as HN0.
  pose proof (mpn_value_bound Hcfg nl) as HN1.
  pose proof (mpn_value_bound Hcfg dl) as HD1.
  assert (Hquo : 0 ≤ mpn_value nl / mpn_value dl
                 < 2 ^ (GMP_NUMB_BITS * Z.of_nat (length nl - length dl + 1))).
  { apply (quotient_limbs Hcfg); [lia|lia|]. by replace (Z.of_nat (length dl)) with n2. }
  assert (Hrem : 0 ≤ mpn_value nl mod mpn_value dl < 2 ^ (GMP_NUMB_BITS * Z.of_nat (length dl))).
  { pose proof (Z.mod_pos_bound (mpn_value nl) (mpn_value dl) HDpos). lia. }
  destruct (Z.eqb_spec n2 1) as [E|E].
  - assert (Hl1 : length dl = 1%nat) by lia. clear Hldl. subst n2.
    destruct dl as [|d0 [|? ?]]; cbn [length] in Hl1; try lia. clear Hl1.
    assert (Hone : ∀ x, mpn_value [x] = Z.land x GMP_NUMB_MASK)
      by (intros x; cbn [mpn_value]; lia).
    pose proof (Hone d0) as Hd0.
    rewrite (run_bind_ret _ _ _ _ _ Hrd1), (run_bind_ret _ _ _ _ _ Hrd2).
    change (limb_at [d0] 0) with d0. unfold mpn_divrem_1. rewrite <- Hd0.
    remember (mpn_of_Z (length nl) (mpn_value nl / mpn_value [d0])) as qv eqn:Eqv.
    assert (Hlqv : length qv = length nl) by (subst qv; apply mpn_of_Z_length).
    assert (Hfit : (length qv ≤ length (m_limbs qs))%nat) by lia.
    rewrite (run_bind_ret _ _ _ _ _ (run_store_limbs_0 σ q qs qv Hq Haq Hfit)).
    eexists _, (set_limbs qs 0 qv), (set_limb rs 0 (mpn_value nl mod mpn_value [d0])).
    split.
    { apply run_store_limb; [by rewrite lookup_upd_ne|done|lia]. }
    split; [rewrite lookup_upd_ne by congruence; apply lookup_upd_eq|].
    split; [apply lookup_upd_eq|]. split; [done|]. split; [done|].
    split; [apply set_limbs_0_typed; [done|lia|subst; apply (mpn_of_Z_range Hcfg)]|].
    split.
    { apply set_limb_0_typed; [done|].
      cbn [length] in Hrem. change (Z.of_nat 1) with 1 in Hrem. rewrite Z.mul_1_r in Hrem.
      assert (2 ^ GMP_NUMB_BITS ≤ 2 ^ GMP_LIMB_BITS).
      { apply Z.pow_le_mono_r; [lia|]. unfold GMP_NUMB_BITS. destruct Hcfg. lia. }
      lia. }
    split.
    + rewrite set_limbs_0_limbs.
      replace (Z.to_nat (n1 - 1 + 1)) with (length qv) by lia.
      rewrite take_app_length. subst qv. apply (mpn_value_of_Z_small Hcfg).
      cbn [length] in Hquo. replace (length nl - 1 + 1)%nat with (length nl) in Hquo by lia.
      exact Hquo.
    + change (Z.to_nat 1) with 1%nat. rewrite set_limb_0_take by lia.
      rewrite Hone. apply (land_mask_small Hcfg).
      cbn [length] in Hrem. change (Z.of_nat 1) with 1 in Hrem. rewrite Z.mul_1_r in Hrem.
      exact Hrem.
  - rewrite (run_bind_ret _ _ _ _ _ Hrd1), (run_bind_ret _ _ _ _ _ Hrd2).
    unfold mpn_tdiv_qr.
    remember (mpn_of_Z (length nl - length dl + 1) (mpn_value nl / mpn_value dl)) as qv eqn:Eqv.
    remember (mpn_of_Z (length dl) (mpn_value nl mod mpn_value dl)) as rv eqn:Erv.
    assert (Hlqv : length qv = (length nl - length dl + 1)%nat)
      by (subst qv; apply mpn_of_Z_length).
    assert (Hlrv : length rv = length dl) by (subst rv; apply mpn_of_Z_length).
    assert (Hfit : (length qv ≤ length (m_limbs qs))%nat) by lia.
    rewrite (run_bind_ret _ _ _ _ _ (run_store_limbs_0 σ q qs qv Hq Haq Hfit)).
    eexists _, (set_limbs qs 0 qv), (set_limbs rs 0 rv).
    split.
    { apply run_store_limbs_0; [by rewrite lookup_upd_ne|done|lia]. }
    split; [rewrite lookup_upd_ne by congruence; apply lookup_upd_eq|].
    split; [apply lookup_upd_eq|]. split; [done|]. split; [done|].
    split; [apply set_limbs_0_typed; [done|lia|subst; apply (mpn_of_Z_range Hcfg)]|].
    split; [apply set_limbs_0_typed; [done|lia|subst; apply (mpn_of_Z_range Hcfg)]|].
    split.
    + rewrite set_limbs_0_limbs.
      replace (Z.to_nat (n1 - n2 + 1)) with (length qv) by lia.
      rewrite take_app_length. subst qv rv. by apply (mpn_value_of_Z_small Hcfg).
    + rewrite set_limbs_0_limbs.
      replace (Z.to_nat n2) with (length rv) by lia.
      rewrite take_app_length. subst qv rv. by apply (mpn_value_of_Z_small Hcfg).
Qed.

End DivGenericKernel.

Section DivGeneric.
Context {cfg : build_config} (Hcfg : config_ok cfg).

(** Sign and magnitude of a valid static integer. *)
Lemma static_magnitude s :
  static_int_valid s →
  mpz_value (get_mpz_view s)
  = Z.sgn (st_mp_size s) * mpn_value (take (Z.to_nat (Z.abs (st_mp_size s))) (m_limbs s))
  ∧ 0 ≤ mpn_value (take (Z.to_nat (Z.abs (st_mp_size s))) (m_limbs s))
      < 2 ^ (GMP_NUMB_BITS * Z.abs (st_mp_size s))
  ∧ (st_mp_size s ≠ 0 →
     2 ^ (GMP_NUMB_BITS * (Z.abs (st_mp_size s) - 1))
     ≤ mpn_value (take (Z.to_nat (Z.abs (st_mp_size s))) (m_limbs s)))
  ∧ (st_mp_size s = 0 →
     mpn_value (take (Z.to_nat (Z.abs (st_mp_size s))) (m_limbs s)) = 0).
Proof.
  intros Hv. pose proof (static_valid_normalized _ Hv) as Hn.
  split; [reflexivity|]. split; [|split].
  - split; [apply (mpn_value_nonneg Hcfg)|].
    pose proof (mpn_value_bound Hcfg (take (Z.to_nat (Z.abs (st_mp_size s))) (m_limbs s))) as Hb.
    rewrite length_take in Hb. destruct Hn as [Hlen _].
    replace (Z.of_nat (Z.to_nat (Z.abs (st_mp_size s)) `min` length (m_limbs s)))
      with (Z.abs (st_mp_size s)) in Hb by lia.
    exact Hb.
  - intros Hnz. apply (normalized_magnitude Hcfg _ _ Hn Hnz).
  - intros ->. reflexivity.
Qed.

Lemma run_static_div_impl_0 σ q r op1 op2 qs rs a b :
  q ≠ r →
  objs σ !! q = Some (m_st qs) → objs σ !! r = Some (m_st rs) →
  objs σ !! op1 = Some (m_st a) → objs σ !! op2 = Some (m_st b) →
  static_int_valid qs → static_int_valid rs → static_int_valid a → static_int_valid b →
  st_mp_size b ≠ 0 →
  ∃ σ' Q R,
    static_div_impl_0 q r op1 op2 (Z.abs (st_mp_size a)) (Z.abs (st_mp_size b))
      (Z.sgn (st_mp_size a)) (Z.sgn (st_mp_size b)) σ = (Ret tt, σ')
    ∧ objs σ' !! q = Some (m_st Q) ∧ objs σ' !! r = Some (m_st R)
    ∧ pre_valid Q (Z.quot (mpz_value (get_mpz_view a)) (mpz_value (get_mpz_view b)))
    ∧ pre_valid R (Z.rem (mpz_value (get_mpz_view a)) (mpz_value (get_mpz_view b))).
Proof.
  intros Hne Hq Hr H1 H2 Hvq Hvr Hva Hvb Hbnz.
  pose proof (numb_bits_pos Hcfg) as Hnb.
  destruct (pre_valid_of_valid qs Hvq) as (Htq & Haq & _).
  destruct (pre_valid_of_valid rs Hvr) as (Htr & Har & _).
  destruct (pre_valid_of_valid a Hva) as (Hta & Haa & Hsa & _).
  destruct (pre_valid_of_valid b Hvb) as (Htb & Hab & Hsb & _).
  destruct (static_magnitude a Hva) as (Eva & HNr & HNlo & HNz).
  destruct (static_magnitude b Hvb) as (Evb & HDr & HDlo & _).
  specialize (HDlo Hbnz).
  assert (Hla : Z.of_nat (length (m_limbs a)) = SSize) by apply Hta.
  assert (Hlb : Z.of_nat (length (m_limbs b)) = SSize) by apply Htb.
  rewrite Eva, Evb.
  remember (Z.abs (st_mp_size a)) as n1 eqn:En1.
  remember (Z.abs (st_mp_size b)) as n2 eqn:En2.
  remember (Z.sgn (st_mp_size a)) as s1 eqn:Es1.
  remember (Z.sgn (st_mp_size b)) as s2 eqn:Es2.
  remember (mpn_value (take (Z.to_nat n1) (m_limbs a))) as N eqn:EN.
  remember (mpn_value (take (Z.to_nat n2) (m_limbs b))) as D eqn:ED.
  assert (Hn1 : 0 ≤ n1 ≤ SSize) by (clear -En1 Hsa; lia).
  assert (Hn2 : 1 ≤ n2 ≤ SSize) by (clear -En2 Hsb Hbnz; lia).
  assert (Hs1 : s1 = 1 ∨ s1 = -1 ∨ (s1 = 0 ∧ N = 0)).
  { destruct (Z.eq_dec (st_mp_size a) 0) as [E|E].
    - right. right. split; [rewrite Es1, E; reflexivity | by apply HNz].
    - clear -Es1 E. lia. }
  assert (Hs2 : s2 = 1 ∨ s2 = -1) by (clear -Es2 Hbnz; lia).
  clear En1 En2 Es1 Es2 HNz HNlo Hsa Hsb Hbnz Evb.
  assert (HDpos : 0 < D).
  { assert (0 < 2 ^ (GMP_NUMB_BITS * (n2 - 1))) by (apply Z.pow_pos_nonneg; [lia|nia]). lia. }
  destruct (quot_rem_sign_magnitude s1 s2 N D (proj1 HNr) HDpos Hs1 Hs2) as [Equo Erem].
  rewrite Equo, Erem.
  unfold static_div_impl_0. destruct (Z.gtb_spec n2 n1) as [Hgt|Hle].
  - (* the divisor has more limbs than the dividend *)
    assert (HND : N < D).
    { assert (2 ^ (GMP_NUMB_BITS * n1) ≤ 2 ^ (GMP_NUMB_BITS * (n2 - 1)))
        by (apply Z.pow_le_mono_r; [lia|nia]).
      lia. }
    rewrite (Z.div_small N D), (Z.mod_small N D) by lia.
    exists (upd (upd σ r (m_st a)) q (m_st (set_size qs 0))), (set_size qs 0), a.
    split.
    { mstep. mstep. mstep. mlast. reflexivity. }
    split; [apply lookup_upd_eq|].
    split; [rewrite lookup_upd_ne by congruence; apply lookup_upd_eq|].
    split.
    + split; [done|]. split; [done|]. cbn [set_size st_mp_size m_limbs].
      split; [lia|]. split; [done|]. unfold mpz_value, get_mpz_view. cbn. lia.
    + replace ((if s1 =? -1 then -1 else 1) * N) with (s1 * N).
      * rewrite <- Eva. by apply pre_valid_of_valid.
      * clear -Hs1. destruct Hs1 as [-> | [-> | [-> ->]]]; reflexivity.
  - (* the general case *)
    assert (Hfit1 : 0 + n1 ≤ Z.of_nat (length (m_limbs a))) by lia.
    assert (Hfit2 : 0 + n2 ≤ Z.of_nat (length (m_limbs b))) by lia.
    assert (Hn2p : 0 ≤ n2) by lia.
    assert (Hlt1 : Z.of_nat (length (take (Z.to_nat n1) (m_limbs a))) = n1)
      by (rewrite length_take; lia).
    assert (Hlt2 : Z.of_nat (length (take (Z.to_nat n2) (m_limbs b))) = n2)
      by (rewrite length_take; lia).
    assert (Hd1 : ∃ data1,
      (if (op1 =? q)%positive || (op1 =? r)%positive then
         op1_alt ← load_limbs op1 0 n1; mret (AtLocal op1_alt)
       else mret (AtOperand op1)) σ = (Ret data1, σ)
      ∧ read_ptr data1 n1 σ = (Ret (take (Z.to_nat n1) (m_limbs a)), σ)
      ∧ match data1 with
        | AtOperand l => l = op1 ∧ (op1 =? q)%positive || (op1 =? r)%positive = false
        | AtLocal _ => True
        end).
    { destruct ((op1 =? q)%positive || (op1 =? r)%positive).
      - exists (AtLocal (take (Z.to_nat n1) (m_limbs a))). split.
        { rewrite (run_bind_ret _ _ _ _ _ (run_load_limbs σ op1 a 0 n1 H1 Haa
                     (Z.le_refl 0) (proj1 Hn1) Hfit1)).
          by rewrite drop_0. }
        split; [|done]. rewrite run_read_ptr_local by lia.
        by rewrite take_take, Nat.min_id.
      - exists (AtOperand op1). split; [reflexivity|]. split; [|done].
        apply run_read_ptr_operand; [done|done|lia]. }
    assert (Hd2 : ∃ data2,
      (if (op2 =? q)%positive || (op2 =? r)%positive || (op1 =? op2)%positive then
         op2_alt ← load_limbs op2 0 n2; mret (AtLocal op2_alt)
       else mret (AtOperand op2)) σ = (Ret data2, σ)
      ∧ read_ptr data2 n2 σ = (Ret (take (Z.to_nat n2) (m_limbs b)), σ)
      ∧ match data2 with
        | AtOperand l =>
            l = op2
            ∧ (op2 =? q)%positive || (op2 =? r)%positive || (op1 =? op2)%positive = false
        | AtLocal _ => True
        end).
    { destruct ((op2 =? q)%positive || (op2 =? r)%positive || (op1 =? op2)%positive).
      - exists (AtLocal (take (Z.to_nat n2) (m_limbs b))). split.
        { rewrite (run_bind_ret _ _ _ _ _ (run_load_limbs σ op2 b 0 n2 H2 Hab
                     (Z.le_refl 0) Hn2p Hfit2)).
          by rewrite drop_0. }
        split; [|done]. rewrite run_read_ptr_local by lia.
        by rewrite take_take, Nat.min_id.
      - exists (AtOperand op2). split; [reflexivity|]. split; [|done].
        apply run_read_ptr_operand; [done|done|lia]. }
    destruct Hd1 as (data1 & Est1 & Erd1 & Hp1). destruct Hd2 as (data2 & Est2 & Erd2 & Hp2).
    assert (Hdist : distinct_op q r data1 data2 = true).
    { unfold distinct_op. destruct (Pos.eqb_spec q r); [done|]. cbn [negb andb].
      destruct data1 as [l1|?], data2 as [l2|?]; try reflexivity.
      - destruct Hp1 as [-> Hc1], Hp2 as [-> Hc2].
        apply orb_false_elim in Hc1 as [-> ->]. apply orb_false_elim in Hc2 as [Hc2 ->].
        apply orb_false_elim in Hc2 as [-> ->]. reflexivity.
      - destruct Hp1 as [-> Hc1]. apply orb_false_elim in Hc1 as [-> ->]. reflexivity.
      - destruct Hp2 as [-> Hc2]. apply orb_false_elim in Hc2 as [Hc2 _].
        apply orb_false_elim in Hc2 as [-> ->]. reflexivity. }
    assert (Hn21 : 1 ≤ n2 ≤ n1) by lia.
    assert (HDlo' : 2 ^ (GMP_NUMB_BITS * (n2 - 1))
                    ≤ mpn_value (take (Z.to_nat n2) (m_limbs b))) by (by rewrite <- ED).
    destruct (run_div0_limbs Hcfg σ q r qs rs data1 data2 n1 n2
                (take (Z.to_nat n1) (m_limbs a)) (take (Z.to_nat n2) (m_limbs b))
                Hne Hq Hr Haq Har Htq Htr Hn21 (proj2 Hn1) Erd1 Erd2 Hlt1 Hlt2 HDlo')
      as (σ1 & Q1 & R1 & Elimbs & Hq1 & Hr1 & Haq1 & Har1 & Htq1 & Htr1 & Hvq1 & Hvr1).
    rewrite <- EN, <- ED in Hvq1, Hvr1.
    assert (Hnq : 0 ≤ n1 - n2 + 1 ≤ SSize) by lia.
    assert (Hnr : 0 ≤ n2 ≤ SSize) by lia.
    destruct (run_div0_tail Hcfg σ1 q r Q1 R1 (n1 - n2 + 1) n2 s1 s2 (N / D) (N mod D)
                Hne Hq1 Hr1 Haq1 Har1 Htq1 Htr1 Hnq Hnr Hvq1 Hvr1)
      as (σ' & Q & R & Etail & Hq' & Hr' & HQ & HR).
    exists σ', Q, R. split.
    { rewrite (run_bind_ret _ _ _ _ _ Est1), (run_bind_ret _ _ _ _ _ Est2),
        (run_bind_ret _ _ _ _ _ (run_assert_true σ _ Hdist)),
        (run_bind_ret _ _ _ _ _ Elimbs).
      exact Etail. }
    split; [done|]. split; [done|]. split; [|done].
    destruct (s1 =? s2); exact HQ.
Qed.

End DivGeneric.

(** ** [static_div] and [div] *)

Section DivStatic.
Context {cfg : build_config} (Hcfg : config_ok cfg).

Lemma static_div_algo_cases :
  (SSize = 1 ∧ static_div_algo = 1)
  ∨ (SSize = 2 ∧ have_dlimb_div = true ∧ static_div_algo = 2)
  ∨ static_div_algo = 0.
Proof.
  unfold static_div_algo, s_size. destruct (Z.eqb_spec SSize 1); [by left|].
  destruct (Z.eqb_spec SSize 2); cbn [andb]; [|by right; right].
  destruct have_dlimb_div; [by right; left | by right; right].
Qed.

Lemma run_static_div σ q r op1 op2 qs rs a b :
  q ≠ r →
  objs σ !! q = Some (m_st qs) → objs σ !! r = Some (m_st rs) →
  objs σ !! op1 = Some (m_st a) → objs σ !! op2 = Some (m_st b) →
  static_int_valid qs → static_int_valid rs → static_int_valid a → static_int_valid b →
  st_mp_size b ≠ 0 →
  ∃ σ', static_div q r op1 op2 σ = (Ret tt, σ')
    ∧ div_post σ' q r (integer_value (m_st a)) (integer_value (m_st b)).
Proof.
  intros Hne Hq Hr H1 H2 Hvq Hvr Hva Hvb Hbnz.
  destruct (pre_valid_of_valid a Hva) as (_ & Haa & _).
  destruct (pre_valid_of_valid b Hvb) as (_ & Hab & _).
  assert (Hpre : static_div q r op1 op2 σ
    = (static_div_impl q r op1 op2 (Z.abs (st_mp_size a)) (Z.abs (st_mp_size b))
         (Z.sgn (st_mp_size a)) (Z.sgn (st_mp_size b));;
       when (static_div_algo =? 0) (zero_unused_limbs_at q;; zero_unused_limbs_at r)) σ).
  { unfold static_div. mstep. mstep. rewrite !asize_sign_spec. reflexivity. }
  destruct static_div_algo_cases as [[HS Halgo] | [(HS & HD & Halgo) | Halgo]].
  - destruct (run_static_div_impl_1 Hcfg HS σ q r op1 op2 qs rs a b
                (Z.abs (st_mp_size a)) (Z.abs (st_mp_size b))
                Hne Hq Hr H1 H2 Hvq Hvr Hva Hvb Hbnz) as (σ' & E & Hpost).
    exists σ'. split; [|done]. rewrite Hpre. unfold static_div_impl. rewrite Halgo.
    change (1 =? 1) with true. change (1 =? 0) with false. cbv iota.
    rewrite (run_bind_ret _ _ _ _ _ E). reflexivity.
  - destruct (run_static_div_impl_2 Hcfg HS HD σ q r op1 op2 qs rs a b
                Hne Hq Hr H1 H2 Hvq Hvr Hva Hvb Hbnz) as (σ' & E & Hpost).
    exists σ'. split; [|done]. rewrite Hpre. unfold static_div_impl. rewrite Halgo.
    change (2 =? 1) with false. change (2 =? 2) with true. change (2 =? 0) with false.
    cbv iota. rewrite (run_bind_ret _ _ _ _ _ E). reflexivity.
  - destruct (run_static_div_impl_0 Hcfg σ q r op1 op2 qs rs a b
                Hne Hq Hr H1 H2 Hvq Hvr Hva Hvb Hbnz)
      as (σ1 & Q & R & E & Hq1 & Hr1 & HQ & HR).
    destruct (pre_valid_zero_unused Hcfg Q _ HQ) as [HvQ EQ].
    destruct (pre_valid_zero_unused Hcfg R _ HR) as [HvR ER].
    destruct HQ as (_ & HaQ & _). destruct HR as (_ & HaR & _).
    exists (upd (upd σ1 q (m_st (zero_unused_limbs Q))) r (m_st (zero_unused_limbs R))).
    split.
    + rewrite Hpre. unfold static_div_impl. rewrite Halgo.
      change (0 =? 1) with false. change (0 =? 2) with false. change (0 =? 0) with true.
      cbv iota. rewrite (run_bind_ret _ _ _ _ _ E). cbn [when].
      rewrite (run_bind_ret _ _ _ _ _ (run_zero_unused_limbs_at σ1 q Q Hq1 HaQ)).
      apply run_zero_unused_limbs_at; [by rewrite lookup_upd_ne | done].
    + exists (m_st (zero_unused_limbs Q)), (m_st (zero_unused_limbs R)).
      split; [rewrite lookup_upd_ne by congruence; apply lookup_upd_eq|].
      split; [apply lookup_upd_eq|].
      split; [exact HvQ|]. split; [exact HvR|]. split; [exact EQ | exact ER].
Qed.

Lemma sign_nonzero u : integer_valid u → integer_value u ≠ 0 → (sign u =? 0) = false.
Proof.
  intros Hv Hnz. assert (Hs : size_word u ≠ 0) by (by rewrite <- (integer_value_zero Hcfg u Hv)).
  unfold sign. destruct (Z.eqb_spec (size_word u) 0); [done|]. cbn [negb].
  by destruct (size_word u >? 0).
Qed.

Lemma sign_zero u : integer_valid u → integer_value u = 0 → (sign u =? 0) = true.
Proof.
  intros Hv Hz. apply (integer_value_zero Hcfg u Hv) in Hz.
  unfold sign. by rewrite Hz.
Qed.

(** [div] on distinct destinations and a nonzero divisor returns
    normally, with the truncated quotient and remainder in [q] and [r]. *)
Lemma div_returns σ q r op1 op2 uq ur u1 u2 :
  q ≠ r →
  objs σ !! q = Some uq → objs σ !! r = Some ur →
  objs σ !! op1 = Some u1 → objs σ !! op2 = Some u2 →
  integer_valid uq → integer_valid ur → integer_valid u1 → integer_valid u2 →
  cache_valid (cache σ) →
  integer_value u2 ≠ 0 →
  ∃ σ', div q r op1 op2 σ = (Ret tt, σ')
    ∧ div_post σ' q r (integer_value u1) (integer_value u2).
Proof.
  intros Hne Hq Hr H1 H2 Hvq Hvr Hv1 Hv2 Hc Hnz.
  assert (Hpre : div q r op1 op2 σ
    = (if is_static uq && is_static ur && is_static u1 && is_static u2
       then static_div q r op1 op2
       else
         when (is_static uq) (promote q 0);; when (is_static ur) (promote r 0);;
         dq ← g_dy q; dr ← g_dy r; v1 ← mpz_view op1; v2 ← mpz_view op2;
         let '(q', r') := mpz_tdiv_qr dq dr v1 v2 in
         put_obj q (m_dy q');; put_obj r (m_dy r')) σ).
  { unfold div. destruct (Pos.eqb_spec q r); [done|].
    mstep. rewrite (sign_nonzero u2 Hv2 Hnz). mstep. mstep. mstep. mstep. reflexivity. }
  destruct (is_static uq && is_static ur && is_static u1 && is_static u2) eqn:Hall.
  - apply andb_prop in Hall as [Hall Hs2]. apply andb_prop in Hall as [Hall Hs1].
    apply andb_prop in Hall as [Hsq Hsr].
    rewrite valid_is_static in Hsq, Hsr, Hs1, Hs2 by done.
    destruct uq as [qs|]; [|done]. destruct ur as [rs|]; [|done].
    destruct u1 as [a|]; [|done]. destruct u2 as [b|]; [|done].
    assert (Hbnz : st_mp_size b ≠ 0).
    { intros Hz. apply Hnz. by apply (integer_value_zero Hcfg (m_st b) Hv2). }
    destruct (run_static_div σ q r op1 op2 qs rs a b Hne Hq Hr H1 H2 Hvq Hvr Hv1 Hv2 Hbnz)
      as (σ' & E & Hpost).
    exists σ'. split; [by rewrite Hpre|done].
  - destruct (run_div_backend Hcfg σ q r op1 op2 uq ur u1 u2 Hne Hq Hr H1 H2 Hvq Hvr Hv1 Hv2 Hc)
      as (σ' & dq & dr & E & Hq' & Hr' & Hvdq & Hvdr & Eq & Er).
    exists σ'. split; [by rewrite Hpre|].
    exists (m_dy dq), (m_dy dr).
    split; [done|]. split; [done|]. split; [exact Hvdq|]. split; [exact Hvdr|].
    split; [exact Eq | exact Er].
Qed.

End DivStatic.

(** Exercise 5 of the documentation, [div(q, r, 7, -2)], evaluated on
    each static kernel and on the dynamic path. *)
Example div_7_m2_one_limb :
  let cfg := config64 1 in
  let σ := State (<[1%positive := m_st (StaticInt (-1) 0 [0])]>
                 (<[2%positive := m_st (StaticInt (-1) 0 [0])]>
                 (<[3%positive := m_st (StaticInt (-1) 1 [7])]>
                  {[4%positive := m_st (StaticInt (-1) (-1) [2])]}))) mpz_cache_default in
  static_div_algo = 1
  ∧ ∃ σ', div 1%positive 2%positive 3%positive 4%positive σ = (Ret tt, σ')
      ∧ objs σ' !! 1%positive = Some (m_st (StaticInt (-1) (-1) [3]))
      ∧ objs σ' !! 2%positive = Some (m_st (StaticInt (-1) 1 [1])).
Proof. intros cfg σ. split; [reflexivity|]. eexists. split; [vm_compute; reflexivity|]. split; reflexivity. Qed.

Example div_7_m2_two_limbs :
  let cfg := config64 2 in
  let σ := State (<[1%positive := m_st (StaticInt (-1) 0 [0; 0])]>
                 (<[2%positive := m_st (StaticInt (-1) 0 [0; 0])]>
                 (<[3%positive := m_st (StaticInt (-1) 1 [7; 0])]>
                  {[4%positive := m_st (StaticInt (-1) (-1) [2; 0])]}))) mpz_cache_default in
  static_div_algo = 2
  ∧ ∃ σ', div 1%positive 2%positive 3%positive 4%positive σ = (Ret tt, σ')
      ∧ objs σ' !! 1%positive = Some (m_st (StaticInt (-1) (-1) [3; 0]))
      ∧ objs σ' !! 2%positive = Some (m_st (StaticInt (-1) 1 [1; 0])).
Proof. intros cfg σ. split; [reflexivity|]. eexists. split; [vm_compute; reflexivity|]. split; reflexivity. Qed.

Example div_7_m2_generic :
  let cfg := config64 3 in
  let σ := State (<[1%positive := m_st (StaticInt (-1) 0 [0; 0; 0])]>
                 (<[2%positive := m_st (StaticInt (-1) 0 [0; 0; 0])]>
                 (<[3%positive := m_st (StaticInt (-1) 1 [7; 0; 0])]>
                  {[4%positive := m_st (StaticInt (-1) (-1) [2; 0; 0])]}))) mpz_cache_default in
  static_div_algo = 0
  ∧ ∃ σ', div 1%positive 2%positive 3%positive 4%positive σ = (Ret tt, σ')
      ∧ objs σ' !! 1%positive = Some (m_st (StaticInt (-1) (-1) [3; 0; 0]))
      ∧ objs σ' !! 2%positive = Some (m_st (StaticInt (-1) 1 [1; 0; 0])).
Proof. intros cfg σ. split; [reflexivity|]. eexists. split; [vm_compute; reflexivity|]. split; reflexivity. Qed.

Example div_7_m2_dynamic :
  let cfg := config64 1 in
  let σ := State (<[1%positive := m_st (StaticInt (-1) 0 [0])]>
                 (<[2%positive := m_st (StaticInt (-1) 0 [0])]>
                 (<[3%positive := m_dy (MpzStruct 2 1 [7; 0])]>
                  {[4%positive := m_st (StaticInt (-1) (-1) [2])]}))) mpz_cache_default in
  ∃ σ' uq ur, div 1%positive 2%positive 3%positive 4%positive σ = (Ret tt, σ')
      ∧ objs σ' !! 1%positive = Some uq ∧ objs σ' !! 2%positive = Some ur
      ∧ is_dynamic uq = true ∧ is_dynamic ur = true
      ∧ integer_value uq = -3 ∧ integer_value ur = 1.
Proof.
  intros cfg σ. eexists _, _, _. split; [vm_compute; reflexivity|].
  split; [reflexivity|]. split; [reflexivity|]. by repeat split.
Qed.

(** ** Division with remainder *)

(** C1. Let [q] and [r] be distinct objects and let the divisor [b] be
    nonzero. Whatever the storage of the four integers (static or
    dynamic, in any combination), whichever static kernel the build
    selects (one limb, two limbs, or the generic one) and whether or not
    the operands alias the destinations, [div(q, r, a, b)] returns
    normally and leaves in [q] and [r] two valid integers with
    [q * b + r = a], [|r| < |b|], and [r = 0] or [sign r = sign a]: the
    quotient truncated towards zero and its remainder. *)
Theorem div_correct (cfg : build_config) (Hcfg : config_ok cfg)
    (σ : state) (q r op1 op2 : loc) (uq ur a b : integer_union) :
  q ≠ r →
  objs σ !! q = Some uq → objs σ !! r = Some ur →
  objs σ !! op1 = Some a → objs σ !! op2 = Some b →
  integer_valid uq → integer_valid ur → integer_valid a → integer_valid b →
  cache_valid (cache σ) →
  integer_value b ≠ 0 →
  ∃ σ' uq' ur',
    div q r op1 op2 σ = (Ret tt, σ')
    ∧ objs σ' !! q = Some uq' ∧ objs σ' !! r = Some ur'
    ∧ integer_valid uq' ∧ integer_valid ur'
    ∧ integer_value uq' * integer_value b + integer_value ur' = integer_value a
    ∧ Z.abs (integer_value ur') < Z.abs (integer_value b)
    ∧ (integer_value ur' = 0 ∨ Z.sgn (integer_value ur') = Z.sgn (integer_value a))
    ∧ integer_value uq' = Z.quot (integer_value a) (integer_value b)
    ∧ integer_value ur' = Z.rem (integer_value a) (integer_value b).
Proof.
  intros Hne Hq Hr H1 H2 Hvq Hvr Hva Hvb Hc Hnz.
  destruct (div_returns Hcfg σ q r op1 op2 uq ur a b Hne Hq Hr H1 H2 Hvq Hvr Hva Hvb Hc Hnz)
    as (σ' & Erun & uq' & ur' & Hq' & Hr' & Hvq' & Hvr' & Equo & Erem).
  destruct (quot_rem_spec (integer_value a) (integer_value b) Hnz) as (Hsum & Hlt & Hsgn).
  exists σ', uq', ur'. rewrite Equo, Erem. by repeat split.
Qed.

Lemma div_correct_witness :
  let cfg := config64 3 in
  let z := m_st (StaticInt (-1) 0 [0; 0; 0]) in
  let a := m_st (StaticInt (-1) 1 [7; 0; 0]) in
  let b := m_st (StaticInt (-1) (-1) [2; 0; 0]) in
  let σ := State (<[1%positive := z]> (<[2%positive := z]> (<[3%positive := a]>
                  {[4%positive := b]}))) mpz_cache_default in
  ∃ σ' uq' ur',
    div 1%positive 2%positive 3%positive 4%positive σ = (Ret tt, σ')
    ∧ objs σ' !! 1%positive = Some uq' ∧ objs σ' !! 2%positive = Some ur'
    ∧ integer_valid uq' ∧ integer_valid ur'
    ∧ integer_value uq' * integer_value b + integer_value ur' = integer_value a
    ∧ Z.abs (integer_value ur') < Z.abs (integer_value b)
    ∧ (integer_value ur' = 0 ∨ Z.sgn (integer_value ur') = Z.sgn (integer_value a))
    ∧ integer_value uq' = Z.quot (integer_value a) (integer_value b)
    ∧ integer_value ur' = Z.rem (integer_value a) (integer_value b).
Proof.
  intros cfg z a b σ.
  refine (div_correct cfg (config64_ok 3 _) σ 1%positive 2%positive 3%positive 4%positive
            z z a b _ _ _ _ _ _ _ _ _ _ _).
  - lia.
  - discriminate.
  - reflexivity.
  - reflexivity.
  - reflexivity.
  - reflexivity.
  - split; [split; [reflexivity | repeat apply List.Forall_cons; try apply List.Forall_nil; simpl; lia] | reflexivity].
  - split; [split; [reflexivity | repeat apply List.Forall_cons; try apply List.Forall_nil; simpl; lia] | reflexivity].
  - split; [split; [reflexivity | repeat apply List.Forall_cons; try apply List.Forall_nil; simpl; lia] | reflexivity].
  - split; [split; [reflexivity | repeat apply List.Forall_cons; try apply List.Forall_nil; simpl; lia] | reflexivity].
  - reflexivity.
  - vm_compute. discriminate.
Defined.

(** C7 (as stated, refuted). With a zero divisor and the same object
    passed as quotient and as remainder, [div] throws
    [std::invalid_argument]: the test [&q == &r] comes first, so a zero
    divisor does not always raise an error of the domain category. *)
Lemma div_same_object_zero_divisor :
  let cfg := config64 2 in
  let z := m_st (StaticInt (-1) 0 [0; 0]) in
  let a := m_st (StaticInt (-1) 1 [7; 0]) in
  let σ := State (<[1%positive := z]> (<[2%positive := a]> {[3%positive := z]}))
                 mpz_cache_default in
  integer_value z = 0
  ∧ div 1%positive 1%positive 2%positive 3%positive σ = (Throw invalid_argument, σ)
  ∧ ¬ (∃ e σ', div 1%positive 1%positive 2%positive 3%positive σ = (Throw e, σ')
               ∧ exn_category e = domain_category).
Proof.
  intros cfg z a σ. split; [reflexivity|]. split; [reflexivity|].
  intros (e & σ' & Hrun & Hcat). vm_compute in Hrun. injection Hrun as <- _.
  discriminate Hcat.
Qed.

(** C7 (amended). On valid integers, [div(q, r, a, b)] throws
    [std::invalid_argument] if and only if [q] and [r] are the same
    object (whatever the divisor), and throws [zero_division_error], of
    the domain category, if and only if [q] and [r] are distinct objects
    and [b] is zero. Whenever it throws, no object has been modified. *)
Theorem div_errors (cfg : build_config) (Hcfg : config_ok cfg)
    (σ : state) (q r op1 op2 : loc) (uq ur a b : integer_union) :
  objs σ !! q = Some uq → objs σ !! r = Some ur →
  objs σ !! op1 = Some a → objs σ !! op2 = Some b →
  integer_valid uq → integer_valid ur → integer_valid a → integer_valid b →
  cache_valid (cache σ) →
  (fst (div q r op1 op2 σ) = Throw invalid_argument ↔ q = r)
  ∧ (fst (div q r op1 op2 σ) = Throw zero_division_error ↔ q ≠ r ∧ integer_value b = 0)
  ∧ exn_category zero_division_error = domain_category
  ∧ (∀ e, fst (div q r op1 op2 σ) = Throw e → snd (div q r op1 op2 σ) = σ).
Proof.
  intros Hq Hr H1 H2 Hvq Hvr Hva Hvb Hc.
  destruct (Pos.eq_dec q r) as [Heq|Hne].
  - assert (E : div q r op1 op2 σ = (Throw invalid_argument, σ)).
    { unfold div. destruct (Pos.eqb_spec q r); [reflexivity|done]. }
    rewrite E. cbn [fst snd]. split; [done|]. split; [|done].
    split; [discriminate | by intros [? _]].
  - destruct (Z.eq_dec (integer_value b) 0) as [Hz|Hnz].
    + assert (E : div q r op1 op2 σ = (Throw zero_division_error, σ)).
      { unfold div. destruct (Pos.eqb_spec q r); [done|].
        mstep. by rewrite (sign_zero Hcfg b Hvb Hz). }
      rewrite E. cbn [fst snd]. split; [split; [discriminate|done]|]. by split.
    + destruct (div_returns Hcfg σ q r op1 op2 uq ur a b Hne Hq Hr H1 H2 Hvq Hvr Hva Hvb Hc Hnz)
        as (σ' & E & _).
      rewrite E. cbn [fst snd]. split; [split; [discriminate|done]|].
      split; [split; [discriminate | by intros [_ ?]]|]. split; [done|]. discriminate.
Qed.

Lemma div_errors_witness :
  let cfg := config64 2 in
  let z := m_st (StaticInt (-1) 0 [0; 0]) in
  let a := m_st (StaticInt (-1) 1 [7; 0]) in
  let σ := State (<[1%positive := z]> (<[2%positive := z]> (<[3%positive := a]>
                  {[4%positive := z]}))) mpz_cache_default in
  (fst (div 1%positive 2%positive 3%positive 4%positive σ) = Throw invalid_argument
   ↔ 1%positive = 2%positive)
  ∧ (fst (div 1%positive 2%positive 3%positive 4%positive σ) = Throw zero_division_error
     ↔ 1%positive ≠ 2%positive ∧ integer_value z = 0)
  ∧ exn_category zero_division_error = domain_category
  ∧ (∀ e, fst (div 1%positive 2%positive 3%positive 4%positive σ) = Throw e →
          snd (div 1%positive 2%positive 3%positive 4%positive σ) = σ).
Proof.
  intros cfg z a σ.
  refine (div_errors cfg (config64_ok 2 _) σ 1%positive 2%positive 3%positive 4%positive
            z z a z _ _ _ _ _ _ _ _ _).
  - lia.
  - reflexivity.
  - reflexivity.
  - reflexivity.
  - reflexivity.
  - split; [split; [reflexivity | repeat apply List.Forall_cons; try apply List.Forall_nil; simpl; lia] | reflexivity].
  - split; [split; [reflexivity | repeat apply List.Forall_cons; try apply List.Forall_nil; simpl; lia] | reflexivity].
  - split; [split; [reflexivity | repeat apply List.Forall_cons; try apply List.Forall_nil; simpl; lia] | reflexivity].
  - split; [split; [reflexivity | repeat apply List.Forall_cons; try apply List.Forall_nil; simpl; lia] | reflexivity].
  - reflexivity.
Defined.

(** * Further properties of the code *)

(** ** The descriptor pool *)

Section PoolInvariant.
Context {cfg : build_config} (Hcfg : config_ok cfg).

Lemma run_mpz_init_nlimbs_alloc n σ :
  allocatable n →
  mpz_init_nlimbs n σ = (Ret (mpz_init2 (GMP_NUMB_BITS * n)), σ)
  ∧ mp_alloc (mpz_init2 (GMP_NUMB_BITS * n)) = Z.max 1 n.
Proof.
  intros (Hn & Hsm & Hbm). unfold mpz_init_nlimbs.
  pose proof (numb_bits_pos Hcfg) as Hnb.
  destruct (Z.gtb_spec n (SIZE_MAX / GMP_NUMB_BITS)); [lia|].
  destruct (Z.gtb_spec (GMP_NUMB_BITS * n) BITCNT_MAX); [lia|].
  rewrite run_bind. unfold mpz_init2. cbn [mp_alloc].
  replace ((GMP_NUMB_BITS * n + GMP_NUMB_BITS - 1) / GMP_NUMB_BITS) with n.
  - destruct (Z.geb_spec (Z.max 1 n) n); [done | lia].
  - apply Z.div_unique with (r := GMP_NUMB_BITS - 1); lia.
Qed.

Lemma mpz_init_nlimbs_not_allocatable n σ :
  0 ≤ n → ¬ allocatable n → mpz_init_nlimbs n σ = (Abort, σ).
Proof.
  intros Hn Hna. unfold mpz_init_nlimbs.
  destruct (Z.gtb_spec n (SIZE_MAX / GMP_NUMB_BITS)); [done|].
  destruct (Z.gtb_spec (GMP_NUMB_BITS * n) BITCNT_MAX); [done|].
  destruct Hna. by repeat split.
Qed.

Lemma pool_inv_default : pool_inv mpz_cache_default.
Proof.
  split; [reflexivity|]. intros k b Hb. unfold mpz_cache_default in Hb. cbn [m_vec] in Hb.
  apply lookup_replicate in Hb as [-> _]. split; [cbn; unfold max_entries; lia | constructor].
Qed.

Lemma pool_inv_insert c k b :
  pool_inv c → bucket_ok k b → pool_inv (MpzCache (<[k := b]> (m_vec c))).
Proof.
  intros [Hv Hb] Hk. split.
  - unfold cache_valid in *. cbn [m_vec]. by rewrite length_insert.
  - intros k' b' Hl. cbn [m_vec] in Hl.
    destruct (decide (k = k')) as [<-|Hne].
    + apply list_lookup_insert_Some in Hl as [(_ & <- & _) | [? _]]; done.
    + rewrite list_lookup_insert_ne in Hl by done. by apply Hb.
Qed.

Lemma run_push m σ :
  pool_inv (cache σ) → 0 ≤ mp_alloc m →
  ∃ c', mpz_clear_cache m σ = (Ret tt, State (objs σ) c') ∧ pool_inv c'.
Proof.
  intros Hp Ha. destruct σ as [o c]. cbn [cache objs] in *.
  unfold mpz_clear_cache. destruct MPPP_HAVE_THREAD_LOCAL; [|by exists c].
  unfold mpz_cache_push. rewrite run_bind.
  destruct (Z.geb_spec (mp_alloc m) 0); [|lia]. cbn [assert].
  rewrite run_mret, run_bind. cbn [get_cache cache objs].
  destruct (Z.eqb_spec (mp_alloc m) 0); [by exists c|].
  destruct (Z.gtb_spec (mp_alloc m) max_size); [by exists c|]. cbn [orb].
  destruct (m_vec c !! Z.to_nat (mp_alloc m - 1)) as [bucket|] eqn:Hb.
  - destruct (Z.geb_spec (Z.of_nat (length bucket)) max_entries); [by exists c|].
    eexists. split; [reflexivity|]. apply pool_inv_insert; [done|].
    destruct (proj2 Hp _ _ Hb) as [_ Hall]. split.
    + rewrite length_app. cbn [length]. lia.
    + apply Forall_app. split; [done|]. constructor; [lia|constructor].
  - apply lookup_ge_None in Hb. destruct Hp as [Hv _].
    unfold cache_valid, max_size in *. lia.
Qed.

Lemma last_Some_app {A} (l : list A) x : last l = Some x → l = removelast l ++ [x].
Proof.
  intros H. destruct (last_Some l x) as [[l' ->] _]; [done|].
  by rewrite removelast_last.
Qed.

Lemma run_pop n σ :
  pool_inv (cache σ) → allocatable n →
  ∃ m c', mpz_init_cache n σ = (Ret m, State (objs σ) c') ∧ pool_inv c' ∧ n ≤ mp_alloc m.
Proof.
  intros Hp Hn. destruct σ as [o c]. cbn [cache objs] in *.
  destruct (run_mpz_init_nlimbs_alloc n (State o c) Hn) as [Hfresh Hfa].
  assert (Hnew : ∃ m c', mpz_init_nlimbs n (State o c) = (Ret m, State o c')
                         ∧ pool_inv c' ∧ n ≤ mp_alloc m).
  { eexists _, c. split; [exact Hfresh|]. split; [done|]. rewrite Hfa. lia. }
  unfold mpz_init_cache. destruct MPPP_HAVE_THREAD_LOCAL; [|done].
  unfold mpz_cache_pop. rewrite run_bind. cbn [get_cache cache objs].
  destruct (Z.eqb_spec n 0); [done|].
  destruct (Z.gtb_spec n max_size); [done|]. cbn [orb].
  destruct (m_vec c !! Z.to_nat (n - 1)) as [bucket|] eqn:Hb.
  - destruct (last bucket) as [m|] eqn:Hlast; [|done].
    rewrite run_bind. cbn [put_cache objs cache]. rewrite run_mret.
    destruct (proj2 Hp _ _ Hb) as [Hlen Hall].
    pose proof (last_Some_app _ _ Hlast) as Hsplit.
    rewrite Hsplit in Hlen, Hall. rewrite length_app in Hlen. cbn [length] in Hlen.
    apply Forall_app in Hall as [Hall Hm]. apply Forall_inv in Hm.
    destruct Hn as (Hn0 & _).
    eexists _, _. split; [reflexivity|]. split.
    + apply pool_inv_insert; [done|]. split; [lia|done].
    + lia.
  - apply lookup_ge_None in Hb. destruct Hp as [Hv _]. destruct Hn as (Hn0 & _).
    unfold cache_valid, max_size in *. lia.
Qed.

End PoolInvariant.

(** X1. The pool keeps its invariant: every bucket [k] holds at most
    [max_entries] descriptors, all with [k + 1] limbs allocated.  Giving
    a descriptor back ([mpz_clear_cache]) and asking for one with
    [nlimbs] limbs ([mpz_init_cache]) both return normally and preserve
    the invariant, no integer is touched, and the descriptor handed out
    has at least [nlimbs] limbs allocated, whether it is fresh or comes
    from the pool. *)
Theorem pool_invariant (cfg : build_config) (Hcfg : config_ok cfg) (σ : state) :
  pool_inv (cache σ) →
  (∀ m, 0 ≤ mp_alloc m →
     ∃ c', mpz_clear_cache m σ = (Ret tt, State (objs σ) c') ∧ pool_inv c')
  ∧ (∀ n, allocatable n →
     ∃ m c', mpz_init_cache n σ = (Ret m, State (objs σ) c')
       ∧ pool_inv c' ∧ n ≤ mp_alloc m).
Proof.
  intros Hp. split.
  - intros m Hm. by apply run_push.
  - intros n Hn. by apply run_pop.
Qed.

Lemma pool_invariant_witness :
  let cfg := config64 2 in
  let σ := State ∅ mpz_cache_default in
  (∀ m, 0 ≤ mp_alloc m →
     ∃ c', mpz_clear_cache m σ = (Ret tt, State (objs σ) c') ∧ pool_inv c')
  ∧ (∀ n, allocatable n →
     ∃ m c', mpz_init_cache n σ = (Ret m, State (objs σ) c')
       ∧ pool_inv c' ∧ n ≤ mp_alloc m).
Proof.
  intros cfg σ.
  refine (pool_invariant cfg (config64_ok 2 _) σ _).
  - lia.
  - split; [reflexivity|]. intros k b Hb.
    assert (Hk : (k < 10)%nat) by (apply lookup_lt_Some in Hb; exact Hb).
    do 10 (destruct k as [|k]; [injection Hb as <-; split; [vm_compute; discriminate | constructor]|]).
    lia.
Defined.

(** X2. The pool is a stack per size: when thread-local storage is
    available, a descriptor with between 1 and [max_size] limbs
    allocated that is given back while its bucket is not full is exactly
    the descriptor the next request for that many limbs returns, and the
    pool is then as it was before. *)
Theorem pool_round_trip (cfg : build_config) (σ : state) (m : mpz_struct_t)
    (bucket : list mpz_struct_t) :
  MPPP_HAVE_THREAD_LOCAL = true →
  1 ≤ mp_alloc m ≤ max_size →
  m_vec (cache σ) !! Z.to_nat (mp_alloc m - 1) = Some bucket →
  Z.of_nat (length bucket) < max_entries →
  (mpz_clear_cache m;; mpz_init_cache (mp_alloc m)) σ = (Ret m, σ).
Proof.
  intros Htl Ha Hb Hlen. destruct σ as [o [v]]. cbn [cache objs m_vec] in *.
  assert (Hk : (Z.to_nat (mp_alloc m - 1) < length v)%nat) by (by apply lookup_lt_Some in Hb).
  assert (Hpush : mpz_clear_cache m (State o (MpzCache v))
    = (Ret tt, State o (MpzCache (<[Z.to_nat (mp_alloc m - 1) := bucket ++ [m]]> v)))).
  { unfold mpz_clear_cache. rewrite Htl. unfold mpz_cache_push. rewrite run_bind.
    destruct (Z.geb_spec (mp_alloc m) 0); [|lia]. cbn [assert].
    rewrite run_mret, run_bind. cbn [get_cache cache objs m_vec].
    destruct (Z.eqb_spec (mp_alloc m) 0); [lia|].
    destruct (Z.gtb_spec (mp_alloc m) max_size); [lia|]. cbn [orb].
    rewrite Hb. destruct (Z.geb_spec (Z.of_nat (length bucket)) max_entries); [lia|].
    reflexivity. }
  rewrite (run_bind_ret _ _ _ _ _ Hpush).
  unfold mpz_init_cache. rewrite Htl. unfold mpz_cache_pop. rewrite run_bind.
  cbn [get_cache cache objs m_vec].
  destruct (Z.eqb_spec (mp_alloc m) 0); [lia|].
  destruct (Z.gtb_spec (mp_alloc m) max_size); [lia|]. cbn [orb].
  rewrite list_lookup_insert_eq by done.
  rewrite last_snoc, run_bind. cbn [put_cache objs cache]. rewrite run_mret.
  rewrite removelast_last, list_insert_insert_eq, list_insert_id by done.
  reflexivity.
Qed.

Lemma pool_round_trip_witness :
  let cfg := config64 2 in
  let m := MpzStruct 3 2 [5; 7; 0] in
  let σ := State ∅ mpz_cache_default in
  (mpz_clear_cache m;; mpz_init_cache (mp_alloc m)) σ = (Ret m, σ).
Proof.
  intros cfg m σ.
  refine (pool_round_trip cfg σ m [] _ _ _ _).
  - reflexivity.
  - vm_compute. split; discriminate.
  - reflexivity.
  - reflexivity.
Defined.

(** ** Sign, size and negation *)

Section SignSize.
Context {cfg : build_config} (Hcfg : config_ok cfg).

Lemma dtor_checks_set_size_opp s :
  dtor_checks (set_size s (- st_mp_size s)) = dtor_checks s.
Proof.
  unfold dtor_checks. rewrite !abs_size_abs.
  cbn [set_size st_mp_alloc st_mp_size m_limbs]. by rewrite Z.abs_opp.
Qed.

Lemma static_valid_negate s :
  static_int_valid s →
  static_int_valid (set_size s (- st_mp_size s))
  ∧ mpz_value (get_mpz_view (set_size s (- st_mp_size s))) = - mpz_value (get_mpz_view s).
Proof.
  intros [Ht Hd]. split.
  - split; [done|]. by rewrite dtor_checks_set_size_opp.
  - unfold mpz_value, get_mpz_view. cbn [set_size mp_size mp_d st_mp_size m_limbs].
    rewrite Z.abs_opp, Z.sgn_opp. lia.
Qed.

(** The number of limbs of a normalised magnitude. *)
Lemma nlimbs_of_magnitude v (n : Z) :
  0 < n → 2 ^ (GMP_NUMB_BITS * (n - 1)) ≤ Z.abs v < 2 ^ (GMP_NUMB_BITS * n) →
  Z.of_nat (nlimbs_of v) = n.
Proof.
  intros Hn [Hlo Hhi]. pose proof (numb_bits_pos Hcfg) as Hnb.
  assert (Hpos : 0 < 2 ^ (GMP_NUMB_BITS * (n - 1))) by (apply Z.pow_pos_nonneg; [lia|nia]).
  assert (Hv : v ≠ 0) by lia.
  destruct (nlimbs_of_spec Hcfg v Hv) as (Hk & Hklo & Hkhi).
  set (k := Z.of_nat (nlimbs_of v)) in *.
  destruct (Z.lt_trichotomy k n) as [Hlt | [Heq | Hgt]]; [|done|].
  - assert (2 ^ (GMP_NUMB_BITS * k) ≤ 2 ^ (GMP_NUMB_BITS * (n - 1)))
      by (apply Z.pow_le_mono_r; [lia|nia]).
    lia.
  - assert (2 ^ (GMP_NUMB_BITS * n) ≤ 2 ^ (GMP_NUMB_BITS * (k - 1)))
      by (apply Z.pow_le_mono_r; [lia|nia]).
    lia.
Qed.

Lemma nlimbs_of_normalized size l :
  normalized size l →
  Z.of_nat (nlimbs_of (Z.sgn size * mpn_value (take (Z.to_nat (Z.abs size)) l))) = Z.abs size.
Proof.
  intros Hn. destruct (Z.eq_dec size 0) as [->|Hnz]; [reflexivity|].
  destruct (normalized_magnitude Hcfg _ _ Hn Hnz) as [Hlo Hhi].
  pose proof (mpn_value_nonneg Hcfg (take (Z.to_nat (Z.abs size)) l)) as H0.
  apply nlimbs_of_magnitude; [lia|].
  replace (Z.abs (Z.sgn size * mpn_value (take (Z.to_nat (Z.abs size)) l)))
    with (mpn_value (take (Z.to_nat (Z.abs size)) l)); [done|].
  rewrite Z.abs_mul. replace (Z.abs (Z.sgn size)) with 1 by lia. lia.
Qed.

Lemma nlimbs_of_value u :
  integer_valid u → Z.of_nat (nlimbs_of (integer_value u)) = Z.abs (size_word u).
Proof.
  destruct u as [s|d]; cbn [integer_valid integer_value size_word]; intros Hv.
  - apply (nlimbs_of_normalized _ _ (static_valid_normalized _ Hv)).
  - apply (nlimbs_of_normalized _ _ (mpz_valid_normalized _ Hv)).
Qed.

End SignSize.

(** X3. [sign()] of a valid integer is the sign of its value: [-1], [0]
    or [1], whatever the storage. *)
Theorem sign_spec (cfg : build_config) (Hcfg : config_ok cfg) (u : integer_union) :
  integer_valid u → sign u = Z.sgn (integer_value u).
Proof.
  intros Hv. rewrite (integer_value_sgn Hcfg u Hv). unfold sign.
  destruct (Z.eqb_spec (size_word u) 0) as [->|Hnz]; [reflexivity|]. cbn [negb].
  destruct (Z.gtb_spec (size_word u) 0); lia.
Qed.

Lemma sign_spec_witness :
  let cfg := config64 2 in
  let u := m_dy (MpzStruct 3 (-3) [1; 2; 3]) in
  sign u = Z.sgn (integer_value u).
Proof.
  intros cfg u. refine (sign_spec cfg (config64_ok 2 _) u _).
  - lia.
  - split; [simpl; lia | split; [simpl; lia | intros _; vm_compute; discriminate]].
Defined.

(** X4. [size()] of a valid integer is the number of limbs of its
    magnitude: [0] for zero, and otherwise the [n] with
    [2^(GMP_NUMB_BITS*(n-1)) <= |value| < 2^(GMP_NUMB_BITS*n)]; the call
    changes nothing. *)
Theorem size_spec (cfg : build_config) (Hcfg : config_ok cfg) (σ : state) (l : loc)
    (u : integer_union) :
  objs σ !! l = Some u → integer_valid u →
  ∃ n, mp_integer_size l σ = (Ret n, σ)
    ∧ n = Z.of_nat (nlimbs_of (integer_value u))
    ∧ (integer_value u = 0 → n = 0)
    ∧ (integer_value u ≠ 0 →
       2 ^ (GMP_NUMB_BITS * (n - 1)) ≤ Z.abs (integer_value u) < 2 ^ (GMP_NUMB_BITS * n)).
Proof.
  intros Hl Hv. exists (Z.abs (size_word u)).
  pose proof (nlimbs_of_value Hcfg u Hv) as Hn.
  split; [|split; [done|split]].
  - unfold mp_integer_size.
    rewrite (run_bind_ret _ _ _ _ _ (run_is_static_at _ _ _ Hl)), (valid_is_static u Hv).
    destruct u as [s|d].
    + destruct (dtor_checks_inv _ (proj2 Hv)) as (Ha & _).
      rewrite (run_bind_ret _ _ _ _ _ (run_g_st _ _ _ Hl Ha)), run_mret.
      by rewrite abs_size_abs.
    + assert (Ha : mp_alloc d ≠ s_alloc) by (destruct Hv; unfold s_alloc; lia).
      by rewrite (run_bind_ret _ _ _ _ _ (run_g_dy _ _ _ Hl Ha)), run_mret.
  - intros Hz. apply (integer_value_zero Hcfg u Hv) in Hz. lia.
  - intros Hnz. rewrite <- Hn. destruct (nlimbs_of_spec Hcfg _ Hnz) as (_ & Hlo & Hhi). done.
Qed.

Lemma size_spec_witness :
  let cfg := config64 2 in
  let u := m_dy (MpzStruct 3 (-3) [1; 2; 3]) in
  let σ := State {[1%positive := u]} mpz_cache_default in
  ∃ n, mp_integer_size 1%positive σ = (Ret n, σ)
    ∧ n = Z.of_nat (nlimbs_of (integer_value u))
    ∧ (integer_value u = 0 → n = 0)
    ∧ (integer_value u ≠ 0 →
       2 ^ (GMP_NUMB_BITS * (n - 1)) ≤ Z.abs (integer_value u) < 2 ^ (GMP_NUMB_BITS * n)).
Proof.
  intros cfg u σ. refine (size_spec cfg (config64_ok 2 _) σ 1%positive u _ _).
  - lia.
  - reflexivity.
  - split; [simpl; lia | split; [simpl; lia | intros _; vm_compute; discriminate]].
Defined.

(** X5. [negate()] on a valid integer returns normally and leaves at the
    same address a valid integer of the same storage class whose value
    is the opposite; nothing else changes. *)
Theorem negate_spec (cfg : build_config) (Hcfg : config_ok cfg) (σ : state) (l : loc)
    (u : integer_union) :
  objs σ !! l = Some u → integer_valid u →
  ∃ u', negate l σ = (Ret tt, upd σ l u')
    ∧ integer_valid u'
    ∧ is_static u' = is_static u
    ∧ integer_value u' = - integer_value u.
Proof.
  intros Hl Hv. unfold negate.
  rewrite (run_bind_ret _ _ _ _ _ (run_is_static_at _ _ _ Hl)).
  pose proof (valid_is_static u Hv) as Hst. rewrite Hst. destruct u as [s|d].
  - destruct (dtor_checks_inv _ (proj2 Hv)) as (Ha & _).
    destruct (static_valid_negate s Hv) as [Hv' Hval].
    exists (m_st (set_size s (- st_mp_size s))).
    split; [by apply run_negate_size|]. split; [done|]. split; [|done].
    by rewrite (valid_is_static (m_st _) Hv').
  - assert (Ha : mp_alloc d ≠ s_alloc) by (destruct Hv; unfold s_alloc; lia).
    rewrite (run_bind_ret _ _ _ _ _ (run_g_dy _ _ _ Hl Ha)), run_put_obj.
    exists (m_dy (mpz_neg d d)). split; [done|].
    assert (Hv' : integer_valid (m_dy (mpz_neg d d))) by apply (mpz_put_valid Hcfg).
    split; [done|]. split.
    + by rewrite (valid_is_static (m_dy _) Hv').
    + apply (mpz_put_value Hcfg).
Qed.

Lemma negate_spec_witness :
  let cfg := config64 2 in
  let u := m_st (StaticInt (-1) 1 [7; 0]) in
  let σ := State {[1%positive := u]} mpz_cache_default in
  ∃ u', negate 1%positive σ = (Ret tt, upd σ 1%positive u')
    ∧ integer_valid u'
    ∧ is_static u' = is_static u
    ∧ integer_value u' = - integer_value u.
Proof.
  intros cfg u σ. refine (negate_spec cfg (config64_ok 2 _) σ 1%positive u _ _).
  - lia.
  - reflexivity.
  - split; [split; [reflexivity | repeat apply List.Forall_cons; try apply List.Forall_nil; simpl; lia] | reflexivity].
Defined.

(** ** Promotion, demotion and copies *)

Section StorageFacts.
Context {cfg : build_config} (Hcfg : config_ok cfg).

Lemma allocatable_small n : 0 ≤ n ≤ 65 → allocatable n.
Proof.
  intros Hn. pose proof (numb_bits_pos Hcfg) as Hnb.
  assert (Hle : GMP_NUMB_BITS ≤ 64) by (unfold GMP_NUMB_BITS; destruct Hcfg; lia).
  assert (65535 ≤ SIZE_MAX ∧ 65535 ≤ BITCNT_MAX) as [Hsm Hbm] by (destruct Hcfg; lia).
  assert (1023 ≤ SIZE_MAX / GMP_NUMB_BITS) by (apply Z.div_le_lower_bound; lia).
  split; [lia|]. split; [lia|nia].
Qed.

Lemma run_mpz_init_cache_alloc n σ :
  cache_valid (cache σ) → allocatable n →
  ∃ m c', mpz_init_cache n σ = (Ret m, State (objs σ) c') ∧ cache_valid c'.
Proof.
  intros Hc Hn. destruct σ as [o c]. cbn [cache objs] in *.
  destruct (run_mpz_init_nlimbs_alloc Hcfg n (State o c) Hn) as [Hfresh _].
  assert (Hnew : ∃ m c', mpz_init_nlimbs n (State o c) = (Ret m, State o c') ∧ cache_valid c')
    by (by eexists _, c).
  unfold mpz_init_cache. destruct MPPP_HAVE_THREAD_LOCAL; [|done].
  unfold mpz_cache_pop. rewrite run_bind. cbn [get_cache cache objs].
  destruct (Z.eqb_spec n 0); [done|].
  destruct (Z.gtb_spec n max_size); [done|]. cbn [orb].
  destruct (m_vec c !! Z.to_nat (n - 1)) as [bucket|] eqn:Hb.
  - destruct (last bucket) as [m|]; [|done].
    rewrite run_bind. cbn [put_cache objs cache]. rewrite run_mret.
    eexists _, _. split; [reflexivity|]. unfold cache_valid in *. cbn [m_vec].
    by rewrite length_insert.
  - apply lookup_ge_None in Hb. destruct Hn as (Hn0 & _).
    unfold cache_valid, max_size in *. lia.
Qed.

Lemma run_mpz_init_set_cache o σ :
  cache_valid (cache σ) → allocatable (mpz_size o) →
  ∃ m c', mpz_init_set_cache o σ = (Ret (mpz_set m o), State (objs σ) c') ∧ cache_valid c'.
Proof.
  intros Hc Hn. destruct (run_mpz_init_cache_alloc _ σ Hc Hn) as (m & c' & Hrun & Hc').
  exists m, c'. split; [|done]. unfold mpz_init_set_cache.
  by rewrite (run_bind_ret _ _ _ _ _ Hrun).
Qed.

Lemma mpz_set_facts m o :
  mpz_valid (mpz_set m o) ∧ is_static (m_dy (mpz_set m o)) = false
  ∧ mpz_value (mpz_set m o) = mpz_value o ∧ 0 ≤ mp_alloc (mpz_set m o).
Proof.
  pose proof (mpz_put_valid Hcfg m (mpz_value o)) as Hv.
  split; [done|]. split; [exact (valid_is_static (m_dy _) Hv)|].
  split; [apply (mpz_put_value Hcfg)|]. apply Hv.
Qed.

Lemma dynamic_facts d :
  mpz_valid d → mp_alloc d ≠ s_alloc ∧ is_static (m_dy d) = false ∧ is_dynamic (m_dy d) = true.
Proof.
  intros Hv. pose proof (valid_is_static (m_dy d) Hv) as Hs. cbn in Hs.
  split; [destruct Hv; unfold s_alloc; lia|]. split; [done|].
  unfold is_dynamic. unfold is_static in Hs. by rewrite Hs.
Qed.

(** The static integer [demote] builds from a descriptor. *)
Lemma demoted_valid d :
  mpz_valid d → mpz_limbs_typed d → mpz_size d ≤ SSize →
  let s := set_limbs (set_size static_int_default (mp_size d)) 0
             (take (Z.to_nat (mpz_size d)) (mp_d d)) in
  static_int_valid s ∧ mpz_value (get_mpz_view s) = mpz_value d.
Proof.
  intros (Ha & Hlen & Htop) Hty Hsz s. unfold mpz_size in *.
  assert (HS : 0 < SSize) by (destruct Hcfg; lia).
  set (n := Z.to_nat (Z.abs (mp_size d))) in *.
  assert (Hln : length (take n (mp_d d)) = n) by (rewrite length_take; lia).
  assert (Hlimbs : m_limbs s = take n (mp_d d) ++ replicate (Z.to_nat SSize - n) 0).
  { unfold s. rewrite set_limbs_0_limbs. cbn [set_size m_limbs static_int_default].
    by rewrite Hln, drop_replicate. }
  assert (Hsize : st_mp_size s = mp_size d) by reflexivity.
  assert (Halloc : st_mp_alloc s = s_alloc) by reflexivity.
  split; [split|].
  - rewrite Hlimbs. split.
    + rewrite length_app, Hln, length_replicate. lia.
    + apply Forall_app. split; [done|]. apply Forall_replicate. split; [lia|].
      apply Z.pow_pos_nonneg; [lia|]. destruct Hcfg. lia.
  - apply dtor_checks_intro; rewrite ?Hsize; [done|done| |].
    + intros _. rewrite Hlimbs. fold n. rewrite drop_app_length' by done.
      by apply Forall_replicate.
    + intros Hnz. rewrite Hlimbs, limb_at_app_l by lia.
      rewrite limb_at_take by lia. by apply Htop.
  - unfold mpz_value, get_mpz_view. cbn [mp_size mp_d]. rewrite Hsize, Hlimbs. fold n.
    by rewrite take_app_length' by done.
Qed.

Lemma run_demote σ l d :
  objs σ !! l = Some (m_dy d) → mpz_valid d → mpz_limbs_typed d →
  cache_valid (cache σ) →
  (SSize < mpz_size d → demote l σ = (Ret false, σ))
  ∧ (mpz_size d ≤ SSize →
     ∃ s c', demote l σ = (Ret true, State (<[l := m_st s]> (objs σ)) c')
       ∧ cache_valid c' ∧ static_int_valid s
       ∧ mpz_value (get_mpz_view s) = mpz_value d
       ∧ st_mp_size s = mp_size d).
Proof.
  intros Hl Hv Hty Hc. destruct (dynamic_facts d Hv) as (Ha & Hst & Hdy).
  assert (Hpre : demote l σ =
    (if mpz_size d >? SSize then mret false
     else
       destroy_dynamic l;;
       put_obj l (m_st static_int_default);;
       store_size l (mp_size d);;
       store_limbs l 0 (take (Z.to_nat (mpz_size d)) (mp_d d));;
       mret true) σ).
  { unfold demote. rewrite (run_bind_ret _ _ _ _ _ (run_get_obj _ _ _ Hl)), Hdy.
    cbn [assert]. rewrite run_bind, run_mret.
    rewrite (run_bind_ret _ _ _ _ _ (run_g_dy _ _ _ Hl Ha)).
    destruct (mpz_size d >? SSize); [done|].
    destruct Hv as (_ & Hlen & _). unfold mpz_size.
    by destruct (Z.leb_spec (Z.abs (mp_size d)) (Z.of_nat (length (mp_d d)))); [|lia]. }
  rewrite Hpre. split.
  - intros Hgt. by destruct (Z.gtb_spec (mpz_size d) SSize); [|lia].
  - intros Hle. destruct (Z.gtb_spec (mpz_size d) SSize); [lia|].
    destruct (run_destroy_dynamic σ l d Hl Hv Hc) as (c' & Hdd & Hc').
    destruct (demoted_valid d Hv Hty Hle) as [Hvs Hval].
    eexists _, c'. split; [|split; [done|split; [exact Hvs|split; [exact Hval|reflexivity]]]].
    rewrite (run_bind_ret _ _ _ _ _ Hdd), (run_bind_ret _ _ _ _ _ (run_put_obj _ _ _)).
    assert (HS : 0 < SSize) by (destruct Hcfg; lia).
    rewrite (run_bind_ret _ _ _ _ _
               (run_store_size _ l static_int_default (mp_size d) (lookup_upd_eq _ _ _) eq_refl)).
    rewrite upd_upd.
    rewrite (run_bind_ret _ _ _ _ _
               (run_store_limbs_0 _ l (set_size static_int_default (mp_size d))
                  (take (Z.to_nat (mpz_size d)) (mp_d d)) (lookup_upd_eq _ _ _) eq_refl
                  ltac:(cbn; rewrite length_take, length_replicate; lia))).
    rewrite upd_upd, run_mret. reflexivity.
Qed.

End StorageFacts.

Section StorageRuns.
Context {cfg : build_config} (Hcfg : config_ok cfg).

Lemma static_facts s :
  static_int_valid s →
  st_mp_alloc s = s_alloc ∧ is_static (m_st s) = true ∧ is_dynamic (m_st s) = false
  ∧ allocatable (mpz_size (get_mpz_view s)).
Proof.
  intros Hv. pose proof (valid_is_static (m_st s) Hv) as Hs. cbn in Hs.
  destruct (dtor_checks_inv _ (proj2 Hv)) as (Ha & _).
  split; [done|]. split; [done|]. split.
  - unfold is_dynamic. unfold is_static in Hs. by rewrite Hs.
  - apply (allocatable_small Hcfg). pose proof (static_view_size_bound Hcfg s Hv). lia.
Qed.

(** [promote()] with the exact number of limbs: the descriptor that
    replaces the static integer. *)
Lemma run_promote_exact σ l s :
  objs σ !! l = Some (m_st s) → static_int_valid s → cache_valid (cache σ) →
  ∃ m c', promote l 0 σ
          = (Ret tt, State (<[l := m_dy (mpz_set m (get_mpz_view s))]> (objs σ)) c')
    ∧ cache_valid c'.
Proof.
  intros Hl Hv Hc. destruct (static_facts s Hv) as (Ha & Hst & _ & Hal).
  destruct (run_mpz_init_set_cache Hcfg (get_mpz_view s) σ Hc Hal) as (m & c' & Hrun & Hc').
  exists m, c'. split; [|done]. unfold promote.
  rewrite (run_bind_ret _ _ _ _ _ (run_get_obj _ _ _ Hl)), Hst. cbn [assert].
  rewrite run_bind, run_mret.
  rewrite (run_bind_ret _ _ _ _ _ (run_g_st _ _ _ Hl Ha)).
  change (0 =? 0) with true. cbv iota.
  rewrite (run_bind_ret _ _ _ _ _ Hrun).
  rewrite (run_bind_ret _ _ _ _ _ (run_destroy_static (State (objs σ) c') l s Hl Hv)).
  reflexivity.
Qed.

Lemma mpz_put_size rop v : mpz_size (mpz_put rop v) = Z.of_nat (nlimbs_of v).
Proof.
  unfold mpz_size, mpz_put. cbn [mp_size]. destruct (Z.eq_dec v 0) as [->|Hv]; [reflexivity|].
  rewrite Z.abs_mul. replace (Z.abs (Z.sgn v)) with 1 by lia. lia.
Qed.

Lemma mpz_put_typed rop v : mpz_limbs_typed (mpz_put rop v).
Proof.
  unfold mpz_limbs_typed. rewrite mpz_put_size, Nat2Z.id. unfold mpz_put. cbn [mp_d].
  rewrite take_app_length' by (by rewrite mpn_of_Z_length). apply (mpn_of_Z_range Hcfg).
Qed.

End StorageRuns.

(** X6. The public [promote()] throws [std::invalid_argument] on an
    integer that is already dynamic, changing nothing; on a static
    integer it returns normally and leaves a valid dynamic integer of
    the same value at the same address, all other integers untouched. *)
Theorem mp_integer_promote_spec (cfg : build_config) (Hcfg : config_ok cfg)
    (σ : state) (l : loc) (u : integer_union) :
  objs σ !! l = Some u → integer_valid u → cache_valid (cache σ) →
  (is_dynamic u = true → mp_integer_promote l σ = (Throw invalid_argument, σ))
  ∧ (is_static u = true →
     ∃ d c', mp_integer_promote l σ = (Ret tt, State (<[l := m_dy d]> (objs σ)) c')
       ∧ cache_valid c' ∧ mpz_valid d ∧ is_dynamic (m_dy d) = true
       ∧ mpz_value d = integer_value u).
Proof.
  intros Hl Hv Hc. unfold mp_integer_promote.
  rewrite (run_bind_ret _ _ _ _ _ (run_get_obj _ _ _ Hl)). destruct u as [s|d].
  - destruct (static_facts Hcfg s Hv) as (Ha & Hst & Hdy & _). rewrite Hdy.
    split; [done|]. intros _.
    destruct (run_promote Hcfg σ l s 0 Hl Hv Hc ltac:(lia)) as (d & c' & Hrun & Hc' & Hvd & Had & Hval).
    exists d, c'. split; [done|]. split; [done|]. split; [done|]. split; [|done].
    by apply dynamic_facts.
  - destruct (dynamic_facts d Hv) as (Ha & Hst & Hdy). rewrite Hdy.
    split; [done|]. by rewrite Hst.
Qed.

Lemma mp_integer_promote_spec_witness :
  let cfg := config64 2 in
  let u := m_st (StaticInt (-1) 1 [7; 0]) in
  let σ := State {[1%positive := u]} mpz_cache_default in
  (is_dynamic u = true → mp_integer_promote 1%positive σ = (Throw invalid_argument, σ))
  ∧ (is_static u = true →
     ∃ d c', mp_integer_promote 1%positive σ
             = (Ret tt, State (<[1%positive := m_dy d]> (objs σ)) c')
       ∧ cache_valid c' ∧ mpz_valid d ∧ is_dynamic (m_dy d) = true
       ∧ mpz_value d = integer_value u).
Proof.
  intros cfg u σ. refine (mp_integer_promote_spec cfg (config64_ok 2 _) σ 1%positive u _ _ _).
  - lia.
  - reflexivity.
  - split; [split; [reflexivity | repeat apply List.Forall_cons; try apply List.Forall_nil; simpl; lia] | reflexivity].
  - reflexivity.
Defined.

(** X7. [demote()] on a valid dynamic integer returns [false] and
    changes nothing when the value needs more than [SSize] limbs;
    otherwise it returns [true] and leaves at the same address a valid
    static integer with the same size word and the same value, all other
    integers untouched. *)
Theorem demote_spec (cfg : build_config) (Hcfg : config_ok cfg)
    (σ : state) (l : loc) (d : mpz_struct_t) :
  objs σ !! l = Some (m_dy d) → mpz_valid d → mpz_limbs_typed d →
  cache_valid (cache σ) →
  (SSize < mpz_size d → demote l σ = (Ret false, σ))
  ∧ (mpz_size d ≤ SSize →
     ∃ s c', demote l σ = (Ret true, State (<[l := m_st s]> (objs σ)) c')
       ∧ cache_valid c' ∧ static_int_valid s
       ∧ mpz_value (get_mpz_view s) = mpz_value d
       ∧ st_mp_size s = mp_size d).
Proof. intros Hl Hv Hty Hc. by apply run_demote. Qed.

Lemma demote_spec_witness :
  let cfg := config64 2 in
  let d := MpzStruct 3 (-2) [1; 2; 3] in
  let σ := State {[1%positive := m_dy d]} mpz_cache_default in
  (SSize < mpz_size d → demote 1%positive σ = (Ret false, σ))
  ∧ (mpz_size d ≤ SSize →
     ∃ s c', demote 1%positive σ = (Ret true, State (<[1%positive := m_st s]> (objs σ)) c')
       ∧ cache_valid c' ∧ static_int_valid s
       ∧ mpz_value (get_mpz_view s) = mpz_value d
       ∧ st_mp_size s = mp_size d).
Proof.
  intros cfg d σ. refine (demote_spec cfg (config64_ok 2 _) σ 1%positive d _ _ _ _).
  - lia.
  - reflexivity.
  - split; [simpl; lia | split; [simpl; lia | intros _; vm_compute; discriminate]].
  - repeat apply List.Forall_cons; try apply List.Forall_nil; simpl; lia.
  - reflexivity.
Defined.

(** X8. Promotion followed by demotion is a round trip: a valid static
    integer that is promoted with the exact number of limbs and then
    demoted is again a valid static integer with the same size word and
    the same value, and [demote] reports success. *)
Theorem promote_demote_round_trip (cfg : build_config) (Hcfg : config_ok cfg)
    (σ : state) (l : loc) (s : static_int) :
  objs σ !! l = Some (m_st s) → static_int_valid s → cache_valid (cache σ) →
  ∃ s' c', (promote l 0;; demote l) σ
           = (Ret true, State (<[l := m_st s']> (objs σ)) c')
    ∧ cache_valid c' ∧ static_int_valid s'
    ∧ st_mp_size s' = st_mp_size s
    ∧ integer_value (m_st s') = integer_value (m_st s).
Proof.
  intros Hl Hv Hc.
  destruct (run_promote_exact Hcfg σ l s Hl Hv Hc) as (m & c1 & Hrun & Hc1).
  set (d := mpz_set m (get_mpz_view s)) in *.
  destruct (mpz_set_facts Hcfg m (get_mpz_view s)) as (Hvd & _ & Hval & _). fold d in Hvd, Hval.
  assert (Hsz : mpz_size d = Z.abs (st_mp_size s)).
  { unfold d, mpz_set. rewrite mpz_put_size.
    apply (nlimbs_of_normalized Hcfg _ _ (static_valid_normalized _ Hv)). }
  assert (Hle : mpz_size d ≤ SSize).
  { rewrite Hsz. destruct (dtor_checks_inv _ (proj2 Hv)) as (_ & H & _). exact H. }
  assert (Hty : mpz_limbs_typed d) by apply (mpz_put_typed Hcfg).
  destruct (run_demote Hcfg (State (<[l := m_dy d]> (objs σ)) c1) l d
              (lookup_insert_eq _ _ _) Hvd Hty Hc1) as [_ Hok].
  destruct (Hok Hle) as (s' & c' & Hdem & Hc' & Hvs' & Hval' & Hsize').
  exists s', c'. split.
  { rewrite (run_bind_ret _ _ _ _ _ Hrun), Hdem. cbn [objs]. by rewrite insert_insert_eq. }
  split; [done|]. split; [done|]. split.
  - (* the size word: same sign, same number of limbs *)
    rewrite Hsize'. pose proof (mpz_value_sgn Hcfg d Hvd) as Hsg.
    rewrite Hval in Hsg. change (Z.sgn (mpz_value (get_mpz_view s)) = Z.sgn (mp_size d)) in Hsg.
    rewrite (static_value_sgn Hcfg s Hv) in Hsg.
    unfold mpz_size in Hsz. clear -Hsg Hsz. lia.
  - cbn [integer_value]. by rewrite Hval', Hval.
Qed.

Lemma promote_demote_round_trip_witness :
  let cfg := config64 2 in
  let s := StaticInt (-1) (-2) [7; 9] in
  let σ := State {[1%positive := m_st s]} mpz_cache_default in
  ∃ s' c', (promote 1%positive 0;; demote 1%positive) σ
           = (Ret true, State (<[1%positive := m_st s']> (objs σ)) c')
    ∧ cache_valid c' ∧ static_int_valid s'
    ∧ st_mp_size s' = st_mp_size s
    ∧ integer_value (m_st s') = integer_value (m_st s).
Proof.
  intros cfg s σ.
  refine (promote_demote_round_trip cfg (config64_ok 2 _) σ 1%positive s _ _ _).
  - lia.
  - reflexivity.
  - split; [split; [reflexivity | repeat apply List.Forall_cons; try apply List.Forall_nil; simpl; lia] | reflexivity].
  - reflexivity.
Defined.

(** X9. The copy constructor makes a deep copy that keeps the storage
    class: the new integer is valid, has the storage class and the value
    of the source, and a static source is copied bit for bit without
    touching the pool; no other integer changes. *)
Theorem copy_ctor_spec (cfg : build_config) (Hcfg : config_ok cfg)
    (σ : state) (this other : loc) (uo : integer_union) :
  objs σ !! other = Some uo → integer_valid uo → cache_valid (cache σ) →
  allocatable (Z.abs (size_word uo)) →
  ∃ ut c', integer_union_copy_ctor this other σ
           = (Ret tt, State (<[this := ut]> (objs σ)) c')
    ∧ cache_valid c' ∧ integer_valid ut
    ∧ is_static ut = is_static uo
    ∧ integer_value ut = integer_value uo
    ∧ (is_static uo = true → ut = uo ∧ c' = cache σ).
Proof.
  intros Ho Hv Hc Hal. unfold integer_union_copy_ctor.
  rewrite (run_bind_ret _ _ _ _ _ (run_is_static_at _ _ _ Ho)). destruct uo as [s|o].
  - destruct (static_facts Hcfg s Hv) as (Ha & Hst & _). rewrite Hst.
    rewrite (run_bind_ret _ _ _ _ _ (run_g_st _ _ _ Ho Ha)), run_put_obj.
    exists (m_st s), (cache σ).
    split; [reflexivity|]. split; [done|]. split; [done|]. split; [done|]. by split.
  - destruct (dynamic_facts o Hv) as (Ha & Hst & _).
    rewrite Hst. rewrite (run_bind_ret _ _ _ _ _ (run_g_dy _ _ _ Ho Ha)).
    destruct (run_mpz_init_set_cache Hcfg o σ Hc Hal) as (m & c' & Hrun & Hc').
    destruct (mpz_set_facts Hcfg m o) as (Hvd & Hsd & Hval & Hge).
    rewrite (run_bind_ret _ _ _ _ _ Hrun), (run_bind_ret _ _ _ _ _ (run_put_obj _ _ _)).
    destruct (Z.geb_spec (mp_alloc (mpz_set m o)) 0); [|lia].
    exists (m_dy (mpz_set m o)), c'. split; [reflexivity|].
    split; [done|]. split; [done|]. split; [done|]. split; [done|]. done.
Qed.

Lemma copy_ctor_spec_witness :
  let cfg := config64 2 in
  let uo := m_dy (MpzStruct 3 (-3) [1; 2; 3]) in
  let σ := State {[2%positive := uo]} mpz_cache_default in
  ∃ ut c', integer_union_copy_ctor 1%positive 2%positive σ
           = (Ret tt, State (<[1%positive := ut]> (objs σ)) c')
    ∧ cache_valid c' ∧ integer_valid ut
    ∧ is_static ut = is_static uo
    ∧ integer_value ut = integer_value uo
    ∧ (is_static uo = true → ut = uo ∧ c' = cache σ).
Proof.
  intros cfg uo σ.
  refine (copy_ctor_spec cfg (config64_ok 2 _) σ 1%positive 2%positive uo _ _ _ _).
  - lia.
  - reflexivity.
  - split; [simpl; lia | split; [simpl; lia | intros _; vm_compute; discriminate]].
  - reflexivity.
  - split; [simpl; lia | split; vm_compute; discriminate].
Defined.

(** X10. Copy assignment between two distinct valid integers returns
    normally and leaves in the destination a valid integer with the
    storage class and the value of the source, whatever the two storage
    classes were; the source and all other integers are unchanged.
    Assigning an integer to itself changes nothing. *)
Theorem copy_assign_spec (cfg : build_config) (Hcfg : config_ok cfg)
    (σ : state) (this other : loc) (ut uo : integer_union) :
  this ≠ other →
  objs σ !! this = Some ut → objs σ !! other = Some uo →
  integer_valid ut → integer_valid uo → cache_valid (cache σ) →
  allocatable (Z.abs (size_word uo)) →
  (∃ ut' c', integer_union_copy_assign this other σ
             = (Ret tt, State (<[this := ut']> (objs σ)) c')
     ∧ cache_valid c' ∧ integer_valid ut'
     ∧ is_static ut' = is_static uo
     ∧ integer_value ut' = integer_value uo)
  ∧ integer_union_copy_assign other other σ = (Ret tt, σ).
Proof.
  intros Hne Ht Ho Hvt Hvo Hc Hal. split.
  2: { unfold integer_union_copy_assign. by rewrite Pos.eqb_refl. }
  unfold integer_union_copy_assign.
  destruct (Pos.eqb_spec this other); [done|].
  rewrite (run_bind_ret _ _ _ _ _ (run_is_static_at _ _ _ Ht)).
  rewrite (run_bind_ret _ _ _ _ _ (run_is_static_at _ _ _ Ho)).
  destruct ut as [st|dt], uo as [so|do].
  - (* static := static *)
    destruct (static_facts Hcfg st Hvt) as (Hat & Hst & _).
    destruct (static_facts Hcfg so Hvo) as (Hao & Hso & _).
    rewrite Hst, Hso. cbn [andb].
    rewrite (run_bind_ret _ _ _ _ _ (run_g_st _ _ _ Ho Hao)).
    rewrite (run_bind_ret _ _ _ _ _ (run_g_st _ _ _ Ht Hat)), run_put_obj.
    exists (m_st so), (cache σ).
    split; [reflexivity|]. split; [done|]. split; [done|]. by split.
  - (* static := dynamic *)
    destruct (static_facts Hcfg st Hvt) as (Hat & Hst & _).
    destruct (dynamic_facts do Hvo) as (Hao & Hso & _).
    rewrite Hst, Hso. cbn [andb negb].
    rewrite (run_bind_ret _ _ _ _ _ (run_destroy_static σ this st Ht Hvt)).
    rewrite (run_bind_ret _ _ _ _ _ (run_g_dy _ _ _ Ho Hao)).
    destruct (run_mpz_init_set_cache Hcfg do σ Hc Hal) as (m & c' & Hrun & Hc').
    destruct (mpz_set_facts Hcfg m do) as (Hvd & Hsd & Hval & Hge).
    rewrite (run_bind_ret _ _ _ _ _ Hrun), (run_bind_ret _ _ _ _ _ (run_put_obj _ _ _)).
    destruct (Z.geb_spec (mp_alloc (mpz_set m do)) 0); [|lia].
    exists (m_dy (mpz_set m do)), c'.
    split; [reflexivity|]. split; [done|]. split; [done|]. by split.
  - (* dynamic := static *)
    destruct (dynamic_facts dt Hvt) as (Hat & Hst & _).
    destruct (static_facts Hcfg so Hvo) as (Hao & Hso & _).
    rewrite Hst, Hso. cbn [andb negb].
    destruct (run_destroy_dynamic σ this dt Ht Hvt Hc) as (c' & Hdd & Hc').
    rewrite (run_bind_ret _ _ _ _ _ Hdd).
    rewrite (run_bind_ret _ _ _ _ _ (run_g_st (State (objs σ) c') other so Ho Hao)), run_put_obj.
    exists (m_st so), c'.
    split; [reflexivity|]. split; [done|]. split; [done|]. by split.
  - (* dynamic := dynamic *)
    destruct (dynamic_facts dt Hvt) as (Hat & Hst & _).
    destruct (dynamic_facts do Hvo) as (Hao & Hso & _).
    rewrite Hst, Hso. cbn [andb negb].
    rewrite (run_bind_ret _ _ _ _ _ (run_g_dy _ _ _ Ht Hat)).
    rewrite (run_bind_ret _ _ _ _ _ (run_g_dy _ _ _ Ho Hao)), run_put_obj.
    destruct (mpz_set_facts Hcfg dt do) as (Hvd & Hsd & Hval & Hge).
    exists (m_dy (mpz_set dt do)), (cache σ).
    split; [reflexivity|]. split; [done|]. split; [done|]. by split.
Qed.

Lemma copy_assign_spec_witness :
  let cfg := config64 2 in
  let ut := m_st (StaticInt (-1) 1 [7; 0]) in
  let uo := m_dy (MpzStruct 3 (-3) [1; 2; 3]) in
  let σ := State (<[1%positive := ut]> {[2%positive := uo]}) mpz_cache_default in
  (∃ ut' c', integer_union_copy_assign 1%positive 2%positive σ
             = (Ret tt, State (<[1%positive := ut']> (objs σ)) c')
     ∧ cache_valid c' ∧ integer_valid ut'
     ∧ is_static ut' = is_static uo
     ∧ integer_value ut' = integer_value uo)
  ∧ integer_union_copy_assign 2%positive 2%positive σ = (Ret tt, σ).
Proof.
  intros cfg ut uo σ.
  refine (copy_assign_spec cfg (config64_ok 2 _) σ 1%positive 2%positive ut uo _ _ _ _ _ _ _).
  - lia.
  - discriminate.
  - reflexivity.
  - reflexivity.
  - split; [split; [reflexivity | repeat apply List.Forall_cons; try apply List.Forall_nil; simpl; lia] | reflexivity].
  - split; [simpl; lia | split; [simpl; lia | intros _; vm_compute; discriminate]].
  - reflexivity.
  - split; [simpl; lia | split; vm_compute; discriminate].
Defined.

(** ** Comparison *)

Section Equality.
Context {cfg : build_config} (Hcfg : config_ok cfg).

(** Limb vectors of the same length with the same value agree on the
    numb part of every limb. *)
Lemma mpn_value_inj l1 l2 :
  length l1 = length l2 → mpn_value l1 = mpn_value l2 →
  Forall2 (λ x y, Z.land x GMP_NUMB_MASK = Z.land y GMP_NUMB_MASK) l1 l2.
Proof.
  revert l2. induction l1 as [|x l1 IH]; intros [|y l2] Hlen Hval; try done.
  cbn [mpn_value] in Hval. injection Hlen as Hlen.
  pose proof (land_mask_range Hcfg x) as Hx. pose proof (land_mask_range Hcfg y) as Hy.
  pose proof (base_pos Hcfg) as HB.
  assert (Hxy : Z.land x GMP_NUMB_MASK = Z.land y GMP_NUMB_MASK).
  { assert (H1 : (Z.land x GMP_NUMB_MASK + 2 ^ GMP_NUMB_BITS * mpn_value l1) mod 2 ^ GMP_NUMB_BITS
                 = Z.land x GMP_NUMB_MASK).
    { rewrite Z.mul_comm, Z_mod_plus_full. by apply Z.mod_small. }
    assert (H2 : (Z.land y GMP_NUMB_MASK + 2 ^ GMP_NUMB_BITS * mpn_value l2) mod 2 ^ GMP_NUMB_BITS
                 = Z.land y GMP_NUMB_MASK).
    { rewrite Z.mul_comm, Z_mod_plus_full. by apply Z.mod_small. }
    rewrite <- H1, <- H2. by rewrite Hval. }
  constructor; [done|]. apply IH; [done|]. rewrite Hxy in Hval. nia.
Qed.

(** The predicate of [operator==] looks at bits of the numb part only. *)
Lemma limb_eq_pred_numb x y :
  Z.land x GMP_NUMB_MASK = Z.land y GMP_NUMB_MASK → limb_eq_pred x y = true.
Proof.
  intros Hxy. unfold limb_eq_pred. apply Z.eqb_eq.
  pose proof (numb_bits_pos Hcfg) as Hnb.
  assert (Hsub : Z.land GMP_NUMB_MASK GMP_NUMB_BITS = GMP_NUMB_BITS).
  { rewrite Z.land_comm. apply (land_mask_small Hcfg). split; [lia|].
    apply Z.pow_gt_lin_r; lia. }
  rewrite <- Hsub, !Z.land_assoc. by rewrite Hxy.
Qed.

Lemma std_equal_prefix pred l1 l1' rest :
  Forall2 (λ x y, pred x y = true) l1 l1' → std_equal pred l1 (l1' ++ rest) = true.
Proof.
  induction 1 as [|x y l1 l1' Hxy _ IH]; [by destruct rest|].
  cbn [app std_equal]. by rewrite Hxy, IH.
Qed.

(** Valid static integers with the same value have the same size word
    and agree on the numb parts of their significant limbs. *)
Lemma static_same_value a b :
  static_int_valid a → static_int_valid b →
  mpz_value (get_mpz_view a) = mpz_value (get_mpz_view b) →
  st_mp_size a = st_mp_size b
  ∧ mpn_value (take (Z.to_nat (Z.abs (st_mp_size a))) (m_limbs a))
    = mpn_value (take (Z.to_nat (Z.abs (st_mp_size a))) (m_limbs b)).
Proof.
  intros Hva Hvb Hval.
  pose proof (nlimbs_of_value Hcfg (m_st a) Hva) as Hna.
  pose proof (nlimbs_of_value Hcfg (m_st b) Hvb) as Hnb.
  cbn [integer_value size_word] in Hna, Hnb. rewrite Hval, Hnb in Hna.
  pose proof (static_value_sgn Hcfg a Hva) as Hsa.
  pose proof (static_value_sgn Hcfg b Hvb) as Hsb.
  rewrite Hval, Hsb in Hsa.
  assert (Hsz : st_mp_size a = st_mp_size b) by (clear -Hna Hsa; lia).
  split; [done|]. unfold mpz_value, get_mpz_view in Hval. cbn [mp_size mp_d] in Hval.
  rewrite Hsz in *. destruct (Z.eq_dec (st_mp_size b) 0) as [->|Hnz]; [reflexivity|].
  assert (Z.sgn (st_mp_size b) = 1 ∨ Z.sgn (st_mp_size b) = -1) as [E|E] by lia;
    rewrite E in Hval; lia.
Qed.

Lemma run_operator_eq σ a b ua ub :
  objs σ !! a = Some ua → objs σ !! b = Some ub →
  integer_valid ua → integer_valid ub →
  ∃ res, operator_eq a b σ = (Ret res, σ)
    ∧ (integer_value ua = integer_value ub → res = true)
    ∧ (is_static ua && is_static ub = false →
       res = true → integer_value ua = integer_value ub).
Proof.
  intros Ha Hb Hva Hvb. unfold operator_eq.
  rewrite (run_bind_ret _ _ _ _ _ (run_is_static_at _ _ _ Ha)).
  rewrite (run_bind_ret _ _ _ _ _ (run_is_static_at _ _ _ Hb)).
  destruct (is_static ua && is_static ub) eqn:Hboth.
  - apply andb_prop in Hboth as [Hsa Hsb].
    rewrite valid_is_static in Hsa, Hsb by done.
    destruct ua as [x|]; [|done]. destruct ub as [y|]; [|done].
    destruct (static_facts Hcfg x Hva) as (Hax & _).
    destruct (static_facts Hcfg y Hvb) as (Hay & _).
    rewrite (run_bind_ret _ _ _ _ _ (run_g_st _ _ _ Ha Hax)).
    rewrite (run_bind_ret _ _ _ _ _ (run_g_st _ _ _ Hb Hay)), run_mret.
    eexists. split; [reflexivity|]. split; [|done].
    cbn [integer_value]. intros Hval.
    destruct (static_same_value x y Hva Hvb Hval) as [Hsz Hmag].
    rewrite Hsz, Z.eqb_refl. cbn [andb]. rewrite abs_size_abs.
    set (n := Z.to_nat (Z.abs (st_mp_size x))) in *.
    rewrite <- (take_drop n (m_limbs y)). apply std_equal_prefix.
    assert (Hlx : Z.abs (st_mp_size x) ≤ Z.of_nat (length (m_limbs x)))
      by apply (static_valid_normalized _ Hva).
    assert (Hly : Z.abs (st_mp_size y) ≤ Z.of_nat (length (m_limbs y)))
      by apply (static_valid_normalized _ Hvb).
    eapply Forall2_impl; [apply mpn_value_inj; [|exact Hmag]|].
    + rewrite !length_take. lia.
    + intros ? ? ?. by apply limb_eq_pred_numb.
  - destruct (run_mpz_view σ a ua Ha Hva) as (va & Hrva & Hvala).
    destruct (run_mpz_view σ b ub Hb Hvb) as (vb & Hrvb & Hvalb).
    rewrite (run_bind_ret _ _ _ _ _ Hrva), (run_bind_ret _ _ _ _ _ Hrvb), run_mret.
    eexists. split; [reflexivity|]. unfold mpz_cmp. rewrite Hvala, Hvalb. split.
    + intros ->. by rewrite Z.compare_refl.
    + intros _. destruct (Z.compare_spec (integer_value ua) (integer_value ub)); done.
Qed.

End Equality.

(** X11. On valid integers [operator==] only reads, and it never
    misses an equality: if the two values are equal it returns [true],
    whatever the storage.  When at least one operand is in dynamic
    storage it returns [true] only if the values are equal.
    [operator!=] returns the negation of [operator==]. *)
Theorem operator_eq_spec (cfg : build_config) (Hcfg : config_ok cfg)
    (σ : state) (a b : loc) (ua ub : integer_union) :
  objs σ !! a = Some ua → objs σ !! b = Some ub →
  integer_valid ua → integer_valid ub →
  ∃ res, operator_eq a b σ = (Ret res, σ)
    ∧ operator_ne a b σ = (Ret (negb res), σ)
    ∧ (integer_value ua = integer_value ub → res = true)
    ∧ (is_static ua && is_static ub = false →
       res = true → integer_value ua = integer_value ub).
Proof.
  intros Ha Hb Hva Hvb.
  destruct (run_operator_eq Hcfg σ a b ua ub Ha Hb Hva Hvb) as (res & Hrun & H1 & H2).
  exists res. split; [done|]. split; [|done].
  unfold operator_ne. by rewrite (run_bind_ret _ _ _ _ _ Hrun).
Qed.

Lemma operator_eq_spec_witness :
  let cfg := config64 2 in
  let ua := m_st (StaticInt (-1) 1 [7; 0]) in
  let ub := m_dy (MpzStruct 3 1 [7; 0; 0]) in
  let σ := State (<[1%positive := ua]> {[2%positive := ub]}) mpz_cache_default in
  ∃ res, operator_eq 1%positive 2%positive σ = (Ret res, σ)
    ∧ operator_ne 1%positive 2%positive σ = (Ret (negb res), σ)
    ∧ (integer_value ua = integer_value ub → res = true)
    ∧ (is_static ua && is_static ub = false →
       res = true → integer_value ua = integer_value ub).
Proof.
  intros cfg ua ub σ.
  refine (operator_eq_spec cfg (config64_ok 2 _) σ 1%positive 2%positive ua ub _ _ _ _).
  - lia.
  - reflexivity.
  - reflexivity.
  - split; [split; [reflexivity | repeat apply List.Forall_cons; try apply List.Forall_nil; simpl; lia] | reflexivity].
  - split; [simpl; lia | split; [simpl; lia | intros _; vm_compute; discriminate]].
Defined.

(** ** Addition and subtraction *)

Section ArithBackend.
Context {cfg : build_config} (Hcfg : config_ok cfg).

Lemma run_when_promote_n σ l u n :
  objs σ !! l = Some u → integer_valid u → cache_valid (cache σ) → 0 ≤ n ≤ 65 →
  ∃ d c', when (is_static u) (promote l n) σ
          = (Ret tt, State (<[l := m_dy d]> (objs σ)) c')
    ∧ cache_valid c' ∧ mpz_valid d ∧ mpz_value d = integer_value u.
Proof.
  intros Hl Hv Hc Hn. rewrite (valid_is_static u Hv). destruct u as [s|d]; cbn [when].
  - destruct (run_promote Hcfg σ l s n Hl Hv Hc Hn) as (d & c' & Hrun & Hc' & Hvd & _ & Hval).
    exists d, c'. by rewrite Hrun.
  - exists d, (cache σ). rewrite run_mret, (insert_id _ _ _ Hl). by destruct σ.
Qed.

(** The [mpz] path of [add], [sub] and [mul]: promotion of a static
    destination and the backend call. *)
Lemma run_arith_backend (op : mpz_struct_t → mpz_struct_t → mpz_struct_t → mpz_struct_t)
    (f : Z → Z → Z) σ rop op1 op2 ur u1 u2 n :
  (∀ d x y, op d x y = mpz_put d (f (mpz_value x) (mpz_value y))) →
  objs σ !! rop = Some ur → objs σ !! op1 = Some u1 → objs σ !! op2 = Some u2 →
  integer_valid ur → integer_valid u1 → integer_valid u2 →
  cache_valid (cache σ) → 0 ≤ n ≤ 65 →
  ∃ σ', (when (is_static ur) (promote rop n);;
         d ← g_dy rop;
         v1 ← mpz_view op1;
         v2 ← mpz_view op2;
         put_obj rop (m_dy (op d v1 v2))) σ = (Ret tt, σ')
    ∧ arith_post σ σ' rop (f (integer_value u1) (integer_value u2)).
Proof.
  intros Hop Hr H1 H2 Hvr Hv1 Hv2 Hc Hn.
  destruct (run_when_promote_n σ rop ur n Hr Hvr Hc Hn) as (d & c1 & Hrun1 & Hc1 & Hvd & Hvald).
  rewrite (run_bind_ret _ _ _ _ _ Hrun1).
  set (σ1 := State (<[rop := m_dy d]> (objs σ)) c1).
  assert (Hr1 : objs σ1 !! rop = Some (m_dy d)) by apply lookup_insert_eq.
  assert (Hkeep : ∀ l u, objs σ !! l = Some u → integer_valid u →
            ∃ u', objs σ1 !! l = Some u' ∧ integer_valid u'
                  ∧ integer_value u' = integer_value u).
  { intros l u Hl Hv. destruct (decide (l = rop)) as [->|Hlr].
    - exists (m_dy d). split; [done|]. split; [done|]. cbn. congruence.
    - exists u. cbn. by rewrite lookup_insert_ne. }
  assert (Had : mp_alloc d ≠ s_alloc) by (destruct Hvd; unfold s_alloc; lia).
  rewrite (run_bind_ret _ _ _ _ _ (run_g_dy _ _ _ Hr1 Had)).
  destruct (Hkeep op1 u1 H1 Hv1) as (u1' & H1' & Hv1' & Hval1).
  destruct (Hkeep op2 u2 H2 Hv2) as (u2' & H2' & Hv2' & Hval2).
  destruct (run_mpz_view σ1 op1 u1' H1' Hv1') as (v1 & Hrunv1 & Hvv1).
  destruct (run_mpz_view σ1 op2 u2' H2' Hv2') as (v2 & Hrunv2 & Hvv2).
  rewrite (run_bind_ret _ _ _ _ _ Hrunv1), (run_bind_ret _ _ _ _ _ Hrunv2), run_put_obj.
  eexists. split; [reflexivity|]. exists (m_dy (op d v1 v2)).
  split; [unfold upd, σ1; cbn [objs]; by rewrite insert_insert_eq|].
  split; [done|]. rewrite Hop.
  split; [apply (mpz_put_valid Hcfg)|]. cbn [integer_value].
  rewrite (mpz_put_value Hcfg). congruence.
Qed.

Lemma kernel_post_arith σ σ' rop v :
  cache_valid (cache σ) → kernel_post σ σ' rop v → arith_post σ σ' rop v.
Proof. intros Hc (R & -> & Hv & Hval). by exists (m_st R). Qed.

(** Reading a limb of an operand after the size of the destination was
    written, whether or not the operand is the destination. *)
Lemma run_load_limb_frame σ rop op r a x i :
  objs σ !! rop = Some (m_st r) → objs σ !! op = Some (m_st a) →
  st_mp_alloc a = s_alloc → 0 ≤ i < Z.of_nat (length (m_limbs a)) →
  load_limb op i (upd σ rop (m_st (set_size r x)))
  = (Ret (limb_at (m_limbs a) i), upd σ rop (m_st (set_size r x))).
Proof.
  intros Hr Ho Ha Hi. destruct (decide (op = rop)) as [->|Hne].
  - assert (a = r) by congruence. subst a.
    apply (run_load_limb _ rop (set_size r x)); [apply lookup_upd_eq|done|done].
  - apply (run_load_limb _ op a); [by rewrite lookup_upd_ne|done|done].
Qed.

End ArithBackend.

Section AddOneLimb.
Context {cfg : build_config} (Hcfg : config_ok cfg).
Context (HS : SSize = 1) (HN : GMP_NAIL_BITS = 0).

Lemma static_add_algo_one : static_add_algo = 1.
Proof. unfold static_add_algo, s_size. by rewrite HS, HN. Qed.

Lemma numb_is_limb : GMP_NUMB_BITS = GMP_LIMB_BITS.
Proof. unfold GMP_NUMB_BITS. lia. Qed.

(** A valid one-limb integer without nails: its limb is its magnitude. *)
Lemma static_valid_limb1 s :
  static_int_valid s →
  ∃ l0, m_limbs s = [l0] ∧ st_mp_alloc s = s_alloc ∧ 0 ≤ l0 < 2 ^ GMP_LIMB_BITS
    ∧ Z.abs (st_mp_size s) ≤ 1
    ∧ (st_mp_size s = 0 ↔ l0 = 0)
    ∧ mpz_value (get_mpz_view s) = Z.sgn (st_mp_size s) * l0.
Proof.
  intros Hv. destruct (static_valid_shape1 s HS Hv) as (l0 & Hl & Ha & H0 & Hc).
  exists l0. rewrite (land_mask_no_nails Hcfg _ HN H0) in Hc.
  split; [done|]. split; [done|]. split; [done|]. split; [lia|]. split; [lia|].
  rewrite (static_value1 s l0 Hl) by (destruct Hc as [[? ?]|[? ?]]; [left|right]; done).
  by rewrite (land_mask_no_nails Hcfg _ HN H0).
Qed.

Lemma run_static_add_impl_1 σ rop op1 op2 r a b s2 :
  objs σ !! rop = Some (m_st r) → objs σ !! op1 = Some (m_st a) →
  objs σ !! op2 = Some (m_st b) →
  static_int_valid r → static_int_valid a → static_int_valid b →
  s2 = st_mp_size b ∨ s2 = - st_mp_size b →
  ∃ ok σ', static_add_impl_1 rop op1 op2 (Z.abs (st_mp_size a)) (Z.abs s2)
             (Z.sgn (st_mp_size a)) (Z.sgn s2) σ = (Ret ok, σ')
    ∧ (ok = true →
       kernel_post σ σ' rop
         (mpz_value (get_mpz_view a) + Z.sgn s2 * Z.abs (mpz_value (get_mpz_view b)))).
Proof.
  intros Hr H1 H2 Hvr Hva Hvb Hs2.
  destruct (static_valid_limb1 r Hvr) as (r0 & Hlr & Har & _).
  destruct (static_valid_limb1 a Hva) as (d1 & Hla & Haa & Hd1 & Hsa & Hza & Hvala).
  destruct (static_valid_limb1 b Hvb) as (d2 & Hlb & Hab & Hd2 & Hsb & Hzb & Hvalb).
  assert (Hlenr : length (m_limbs r) = 1%nat) by (by rewrite Hlr).
  assert (Hlena : length (m_limbs a) = 1%nat) by (by rewrite Hla).
  assert (Hlenb : length (m_limbs b) = 1%nat) by (by rewrite Hlb).
  rewrite Hvala, Hvalb.
  assert (Habs : Z.abs (Z.sgn (st_mp_size b) * d2) = d2).
  { destruct (Z.eq_dec d2 0) as [->|Hnz]; [lia|].
    assert (st_mp_size b ≠ 0) by tauto. rewrite Z.abs_mul. lia. }
  rewrite Habs.
  assert (Hz2 : s2 = 0 ↔ d2 = 0) by (clear -Hs2 Hzb; lia).
  assert (Hs2abs : Z.abs s2 ≤ 1) by (clear -Hs2 Hsb; lia).
  remember (Z.sgn (st_mp_size a)) as sg1 eqn:E1.
  remember (Z.sgn s2) as sg2 eqn:E2.
  assert (Hsg1 : (sg1 = 0 ∧ d1 = 0) ∨ ((sg1 = 1 ∨ sg1 = -1) ∧ d1 ≠ 0)).
  { destruct (Z.eq_dec d1 0) as [Hd|Hd]; [left|right].
    - pose proof (proj2 Hza Hd) as Hz. rewrite E1, Hz. done.
    - assert (st_mp_size a ≠ 0) by tauto. split; [clear -E1 H; lia | done]. }
  assert (Hsg2 : (sg2 = 0 ∧ d2 = 0) ∨ ((sg2 = 1 ∨ sg2 = -1) ∧ d2 ≠ 0)).
  { destruct (Z.eq_dec d2 0) as [Hd|Hd]; [left|right].
    - pose proof (proj2 Hz2 Hd) as Hz. rewrite E2, Hz. done.
    - assert (s2 ≠ 0) by tauto. split; [clear -E2 H; lia | done]. }
  assert (Ha1 : ((Z.abs (st_mp_size a) =? 1) && negb (d1 =? 0))
                || ((Z.abs (st_mp_size a) =? 0) && (d1 =? 0)) = true).
  { destruct (Z.eqb_spec d1 0) as [Hd|Hd].
    - rewrite (proj2 Hza Hd). reflexivity.
    - assert (st_mp_size a ≠ 0) by tauto.
      replace (Z.abs (st_mp_size a)) with 1 by lia. reflexivity. }
  assert (Ha2 : ((Z.abs s2 =? 1) && negb (d2 =? 0))
                || ((Z.abs s2 =? 0) && (d2 =? 0)) = true).
  { destruct (Z.eqb_spec d2 0) as [Hd|Hd].
    - rewrite (proj2 Hz2 Hd). reflexivity.
    - assert (s2 ≠ 0) by tauto.
      replace (Z.abs s2) with 1 by lia. reflexivity. }
  clear Hvala Hvalb Habs Hza Hzb Hz2 Hsa Hsb Hs2abs Hs2 E1 E2.
  pose proof (numb_is_limb) as HB.
  assert (Hpre : static_add_impl_1 rop op1 op2 (Z.abs (st_mp_size a)) (Z.abs s2) sg1 sg2 σ
    = (if sg1 =? sg2 then
         let '(tmp, cy) := limb_add_overflow d1 d2 in
         if negb (cy =? 0) then mret false
         else store_size rop sg1;; store_limb rop 0 tmp;; mret true
       else
         if d1 >=? d2 then
           let tmp := limb_wrap (d1 - d2) in
           store_size rop sg1;;
           when (tmp =? 0) (store_size rop 0);;
           store_limb rop 0 tmp;;
           mret true
         else
           store_size rop sg2;;
           d2' ← load_limb op2 0;
           d1' ← load_limb op1 0;
           store_limb rop 0 (limb_wrap (d2' - d1'));;
           mret true) σ).
  { unfold static_add_impl_1. mstep. mstep. rewrite Hla, Hlb.
    change (limb_at [d1] 0) with d1. change (limb_at [d2] 0) with d2.
    rewrite Ha1, Ha2. cbn [assert]. by rewrite !run_bind, !run_mret. }
  rewrite Hpre. clear Hpre Ha1 Ha2.
  destruct (Z.eqb_spec sg1 sg2) as [Heq|Hneq].
  - (* same sign *)
    unfold limb_add_overflow.
    destruct (Z.lt_ge_cases (d1 + d2) (2 ^ GMP_LIMB_BITS)) as [Hfit|Hovf].
    + rewrite (limb_wrap_small (d1 + d2)) by lia.
      destruct (Z.ltb_spec (d1 + d2) d1); [lia|]. cbn [Z.eqb negb].
      eexists true, _. split.
      { mstep. mstep. rewrite run_mret. reflexivity. }
      intros _. rewrite upd_upd, (written1 r r0 _ _ Hlr Har).
      eexists. split; [reflexivity|].
      destruct Hsg1 as [[-> ->]|[Hsg Hd1nz]].
      * destruct Hsg2 as [[_ ->]|[Hsg _]]; [|lia].
        destruct (static1_intro Hcfg 1 0 HS) as [Hv' Hval']; [rewrite HB; lia|by left|].
        split; [exact Hv'|]. etransitivity; [exact Hval'|lia].
      * destruct (static1_intro Hcfg sg1 (d1 + d2) HS) as [Hv' Hval'];
          [rewrite HB; lia|done|].
        destruct (Z.eqb_spec (d1 + d2) 0); [lia|].
        split; [exact Hv'|]. rewrite Hval', <- Heq. lia.
    + exists false, σ. split; [|done].
      unfold limb_wrap.
      assert (Hw : (d1 + d2) mod 2 ^ GMP_LIMB_BITS = d1 + d2 - 2 ^ GMP_LIMB_BITS).
      { symmetry. apply Z.mod_unique with (q := 1); lia. }
      rewrite Hw. destruct (Z.ltb_spec (d1 + d2 - 2 ^ GMP_LIMB_BITS) d1); [|lia].
      reflexivity.
  - destruct (Z.geb_spec d1 d2) as [Hge|Hlt].
    + (* |op1| >= |op2| *)
      assert (Hsg : sg1 = 1 ∨ sg1 = -1).
      { destruct Hsg1 as [[-> ->]|[? _]]; [|done]. destruct Hsg2 as [[-> _]|[_ ?]]; lia. }
      cbv zeta. rewrite (limb_wrap_small (d1 - d2)) by lia.
      destruct (static1_intro Hcfg sg1 (d1 - d2) HS) as [Hv' Hval'];
        [rewrite HB; lia|done|].
      exists true, (upd σ rop (m_st (StaticInt s_alloc (if d1 - d2 =? 0 then 0 else sg1)
                                               [d1 - d2]))).
      split.
      { mstep. unfold when. destruct (Z.eqb_spec (d1 - d2) 0).
        - mstep. mstep. rewrite run_mret, !upd_upd, set_size_twice,
            (written1 r r0 _ _ Hlr Har). reflexivity.
        - rewrite run_bind, run_mret. mstep.
          rewrite run_mret, !upd_upd, (written1 r r0 _ _ Hlr Har). reflexivity. }
      intros _. eexists. split; [reflexivity|]. split; [exact Hv'|].
      etransitivity; [exact Hval'|].
      destruct Hsg2 as [[-> ->]|[Hsg2 _]]; [lia|].
      clear -Hsg Hsg2 Hneq. lia.
    + (* |op2| > |op1| *)
      assert (Hsg : sg2 = 1 ∨ sg2 = -1).
      { destruct Hsg2 as [[-> ->]|[? _]]; [lia|done]. }
      destruct (static1_intro Hcfg sg2 (d2 - d1) HS) as [Hv' Hval'];
        [rewrite HB; lia|done|].
      destruct (Z.eqb_spec (d2 - d1) 0); [lia|].
      eexists true, _. split.
      { mstep.
        rewrite (run_bind_ret _ _ _ _ _
                   (run_load_limb_frame σ rop op2 r b sg2 0 Hr H2 Hab ltac:(lia))).
        rewrite (run_bind_ret _ _ _ _ _
                   (run_load_limb_frame σ rop op1 r a sg2 0 Hr H1 Haa ltac:(lia))).
        rewrite Hla, Hlb. change (limb_at [d1] 0) with d1. change (limb_at [d2] 0) with d2.
        rewrite (limb_wrap_small (d2 - d1)) by lia.
        mstep. rewrite run_mret. reflexivity. }
      intros _. exists (StaticInt s_alloc sg2 [d2 - d1]).
      split; [|split; [exact Hv'|]].
      * rewrite upd_upd, (written1 r r0 _ _ Hlr Har). reflexivity.
      * rewrite Hval'. destruct Hsg1 as [[-> ->]|[Hsg1 _]]; [lia|].
        clear -Hsg Hsg1 Hneq. lia.
Qed.

End AddOneLimb.

Section AddTwoLimbsAll.
Context {cfg : build_config} (Hcfg : config_ok cfg).
Context (HS : SSize = 2) (HN : GMP_NAIL_BITS = 0).

(** [limb_add_overflow] computes the sum and the carry. *)
Lemma limb_add_overflow_spec x y :
  0 ≤ x < 2 ^ GMP_LIMB_BITS → 0 ≤ y < 2 ^ GMP_LIMB_BITS →
  ∃ res cy, limb_add_overflow x y = (res, cy)
    ∧ 0 ≤ res < 2 ^ GMP_LIMB_BITS ∧ (cy = 0 ∨ cy = 1)
    ∧ x + y = res + 2 ^ GMP_LIMB_BITS * cy.
Proof.
  intros Hx Hy. unfold limb_add_overflow.
  destruct (Z.lt_ge_cases (x + y) (2 ^ GMP_LIMB_BITS)) as [Hfit|Hovf].
  - rewrite (limb_wrap_small (x + y)) by lia.
    destruct (Z.ltb_spec (x + y) x); [lia|].
    exists (x + y), 0. split; [done|]. split; [lia|]. split; [by left|lia].
  - assert (Hw : limb_wrap (x + y) = x + y - 2 ^ GMP_LIMB_BITS).
    { unfold limb_wrap. symmetry. apply Z.mod_unique with (q := 1); lia. }
    rewrite Hw. destruct (Z.ltb_spec (x + y - 2 ^ GMP_LIMB_BITS) x); [|lia].
    exists (x + y - 2 ^ GMP_LIMB_BITS), 1. split; [done|]. split; [lia|]. split; [by right|lia].
Qed.

Lemma run_static_add_impl_2 σ rop op1 op2 r a b s2 :
  objs σ !! rop = Some (m_st r) → objs σ !! op1 = Some (m_st a) →
  objs σ !! op2 = Some (m_st b) →
  static_int_valid r → static_int_valid a → static_int_valid b →
  s2 = st_mp_size b ∨ s2 = - st_mp_size b →
  ∃ ok σ', static_add_impl_2 rop op1 op2 (Z.abs (st_mp_size a)) (Z.abs s2)
             (Z.sgn (st_mp_size a)) (Z.sgn s2) σ = (Ret ok, σ')
    ∧ (ok = true →
       kernel_post σ σ' rop
         (mpz_value (get_mpz_view a) + Z.sgn s2 * Z.abs (mpz_value (get_mpz_view b)))).
Proof.
  intros Hr H1 H2 Hvr Hva Hvb Hs2.
  destruct (static_valid_limbs2 Hcfg HS HN r Hvr) as (r0 & r1 & Hlr & Har & _).
  destruct (static_valid_limbs2 Hcfg HS HN a Hva)
    as (a0 & a1 & Hla & Haa & Ha0 & Ha1 & Hsa & Haz & Ha1' & Ha2' & Hvala).
  destruct (static_valid_limbs2 Hcfg HS HN b Hvb)
    as (b0 & b1 & Hlb & Hab & Hb0 & Hb1 & Hsb & Hbz & Hb1' & Hb2' & Hvalb).
  assert (Hlenr : length (m_limbs r) = 2%nat) by (by rewrite Hlr).
  assert (Hlena : length (m_limbs a) = 2%nat) by (by rewrite Hla).
  assert (Hlenb : length (m_limbs b) = 2%nat) by (by rewrite Hlb).
  set (W := 2 ^ GMP_LIMB_BITS) in *.
  assert (HW : 0 < W) by (apply Z.pow_pos_nonneg; [lia | destruct Hcfg; lia]).
  assert (Habs2 : Z.abs s2 = Z.abs (st_mp_size b)) by (clear -Hs2; lia).
  assert (Hmagb : Z.abs (mpz_value (get_mpz_view b)) = b0 + W * b1).
  { rewrite Hvalb. destruct (Z.eq_dec (st_mp_size b) 0) as [Hz|Hnz].
    - destruct (Hbz Hz) as [-> ->]. lia.
    - rewrite Z.abs_mul. replace (Z.abs (Z.sgn (st_mp_size b))) with 1 by lia. nia. }
  rewrite Hvala, Hmagb.
  assert (Hs2z : s2 = 0 → b0 = 0 ∧ b1 = 0) by (intros ?; apply Hbz; clear -Hs2 H; lia).
  assert (Hs21 : Z.abs s2 = 1 → b0 ≠ 0 ∧ b1 = 0) by (rewrite Habs2; exact Hb1').
  assert (Hs22 : Z.abs s2 = 2 → b1 ≠ 0) by (rewrite Habs2; exact Hb2').
  assert (Hs2a : Z.abs s2 ≤ 2) by (rewrite Habs2; exact Hsb).
  clear Hvala Hvalb Hmagb Hs2 Habs2 Hbz Hb1' Hb2' Hsb.
  destruct (Z.eq_dec (Z.sgn (st_mp_size a)) (Z.sgn s2)) as [Heq|Hneq].
  - (* same sign *)
    unfold static_add_impl_2. rewrite Heq, Z.eqb_refl.
    destruct (limb_add_overflow_spec a0 b0 Ha0 Hb0) as (lo & cy_lo & Elo & Hlo & Hcl & Slo).
    destruct (limb_add_overflow_spec a1 b1 Ha1 Hb1) as (hi1 & cy_hi1 & Ehi1 & Hhi1 & Hch1 & Shi1).
    assert (Hcyr : 0 ≤ cy_lo < 2 ^ GMP_LIMB_BITS) by (fold W; lia).
    destruct (limb_add_overflow_spec hi1 cy_lo Hhi1 Hcyr)
      as (hi2 & cy_hi2 & Ehi2 & Hhi2 & Hch2 & Shi2).
    fold W in Hlo, Hhi1, Hhi2, Slo, Shi1, Shi2.
    destruct (negb (cy_hi1 =? 0) || negb (cy_hi2 =? 0)) eqn:Hcy.
    { exists false, σ. split; [|done].
      mstep. mstep. mstep. mstep. rewrite Hla, Hlb.
      change (limb_at [a0; a1] 0) with a0. change (limb_at [a0; a1] 1) with a1.
      change (limb_at [b0; b1] 0) with b0. change (limb_at [b0; b1] 1) with b1.
      rewrite Elo, Ehi1, Ehi2, Hcy. reflexivity. }
    apply orb_false_elim in Hcy as [Hc1 Hc2].
    apply negb_false_iff, Z.eqb_eq in Hc1, Hc2. subst cy_hi1 cy_hi2.
    assert (Hsum : lo + W * hi2 = (a0 + W * a1) + (b0 + W * b1)) by lia.
    set (sg := Z.sgn s2) in *.
    exists true, (upd σ rop (m_st (StaticInt s_alloc (if hi2 =? 0 then sg else sg + sg)
                                             [lo; hi2]))).
    split.
    { mstep. mstep. mstep. mstep. rewrite Hla, Hlb.
      change (limb_at [a0; a1] 0) with a0. change (limb_at [a0; a1] 1) with a1.
      change (limb_at [b0; b1] 0) with b0. change (limb_at [b0; b1] 1) with b1.
      rewrite Elo, Ehi1, Ehi2. change ((0 =? 0)) with true. cbn [negb orb].
      mstep. unfold when. destruct (Z.eqb_spec hi2 0); cbn [negb].
      - rewrite run_bind, run_mret. mstep. mstep.
        rewrite run_mret, !upd_upd, (written2 r r0 r1 _ lo hi2 Hlr Har). reflexivity.
      - mstep. mstep. mstep.
        rewrite run_mret, !upd_upd, set_size_twice, (written2 r r0 r1 _ lo hi2 Hlr Har).
        reflexivity. }
    intros _. eexists. split; [reflexivity|].
    destruct (Z.eq_dec s2 0) as [Hz|Hnz].
    + (* both operands are zero *)
      destruct (Hs2z Hz) as [-> ->].
      assert (Hsz : st_mp_size a = 0) by (clear -Heq Hz; lia).
      destruct (Haz Hsz) as [-> ->].
      assert (lo = 0 ∧ hi2 = 0) as [-> ->] by nia.
      assert (Hsg0 : sg = 0) by (unfold sg; rewrite Hz; reflexivity). rewrite Hsg0.
      destruct (static2_intro Hcfg 1 0 0 HS HN) as [Hv' Hval']; [fold W; lia|fold W; lia|by left|].
      split; [exact Hv'|]. etransitivity; [exact Hval'|]. lia.
    + assert (Hsg : sg = 1 ∨ sg = -1) by (unfold sg; clear -Hnz; lia).
      destruct (static2_intro Hcfg sg lo hi2 HS HN) as [Hv' Hval']; [done|done|done|].
      assert (Hnzsum : 0 < (a0 + W * a1) + (b0 + W * b1)).
      { assert (0 < b0 + W * b1); [|nia].
        assert (Z.abs s2 = 1 ∨ Z.abs s2 = 2) as [E|E] by lia.
        - destruct (Hs21 E). nia.
        - specialize (Hs22 E). nia. }
      assert (Hsize : (if hi2 =? 0 then (if lo =? 0 then 0 else sg) else sg + sg)
                      = (if hi2 =? 0 then sg else sg + sg)).
      { destruct (Z.eqb_spec hi2 0); [|done]. destruct (Z.eqb_spec lo 0); [nia|done]. }
      rewrite Hsize in Hv', Hval'.
      split; [exact Hv'|]. etransitivity; [exact Hval'|]. fold W. rewrite Hsum. ring.
  - (* different signs *)
    destruct (Z.eq_dec (st_mp_size a) 0) as [Hza|Hnza];
      [|destruct (Z.eq_dec s2 0) as [Hzb|Hnzb]].
    + (* op1 is zero: the result is op2 with its effective sign *)
      destruct (Haz Hza) as [-> ->].
      assert (Hsg : Z.sgn s2 = 1 ∨ Z.sgn s2 = -1) by (rewrite Hza in Hneq; clear -Hneq; lia).
      assert (Hle : 0 + W * 0 ≤ b0 + W * b1) by nia.
      destruct (sub2_correct Hcfg b0 b1 0 0 Hb0 Hb1 Ha0 Ha1 Hle) as (Hlo & Hhi & Hval & Hassert).
      fold W in Hlo, Hhi, Hval.
      set (lo := limb_wrap (b0 - 0)) in *.
      set (hi := limb_wrap (b1 - 0 - (if b0 <? 0 then 1 else 0))) in *.
      destruct (static2_intro Hcfg (Z.sgn s2) lo hi HS HN Hlo Hhi Hsg) as [Hvalid Hvalue].
      assert (Hnzb : 0 < b0 + W * b1).
      { assert (Z.abs s2 = 1 ∨ Z.abs s2 = 2) as [E|E] by (clear -Hsg Hs2a; lia).
        - destruct (Hs21 E). nia.
        - specialize (Hs22 E). nia. }
      exists true, (upd σ rop (m_st (StaticInt s_alloc
                     (if hi =? 0 then (if lo =? 0 then 0 else Z.sgn s2) else Z.sgn s2 + Z.sgn s2)
                     [lo; hi]))).
      split.
      { unfold static_add_impl_2. rewrite Hza. change (Z.sgn 0) with 0. change (Z.abs 0) with 0.
        destruct (Z.eqb_spec 0 (Z.sgn s2)); [lia|].
        destruct (Z.gtb_spec 0 (Z.abs s2)); [lia|].
        destruct (Z.eqb_spec 0 (Z.abs s2)); [lia|].
        rewrite run_bind, run_mret.
        mstep. mstep. mstep. mstep. rewrite Hla, Hlb.
        change (limb_at [0; 0] 0) with 0. change (limb_at [0; 0] 1) with 0.
        change (limb_at [b0; b1] 0) with b0. change (limb_at [b0; b1] 1) with b1.
        rewrite (run_bind_ret _ _ _ _ _ (run_assert_true _ _ Hassert)).
        fold lo hi.
        mstep. unfold when. destruct (Z.eqb_spec hi 0) as [Hh|Hh]; cbn [negb].
        * destruct (Z.eqb_spec lo 0) as [Hl|Hl]; [lia|].
          rewrite run_bind, run_mret. mstep. mstep.
          rewrite run_mret, ?upd_upd, ?set_size_twice.
          by rewrite (written2 r r0 r1 _ lo hi Hlr Har).
        * mstep. mstep. mstep. rewrite run_mret, ?upd_upd, ?set_size_twice.
          by rewrite (written2 r r0 r1 _ lo hi Hlr Har). }
      intros _. eexists. split; [reflexivity|]. split; [exact Hvalid|].
      etransitivity; [exact Hvalue|]. fold W. rewrite Hval, Hza. cbn [Z.sgn]. lia.
    + (* op2 is zero: the result is op1 *)
      destruct (Hs2z Hzb) as [-> ->].
      assert (Hsg : Z.sgn (st_mp_size a) = 1 ∨ Z.sgn (st_mp_size a) = -1)
        by (clear -Hnza; lia).
      assert (Hle : 0 + W * 0 ≤ a0 + W * a1) by nia.
      destruct (sub2_correct Hcfg a0 a1 0 0 Ha0 Ha1 Hb0 Hb1 Hle) as (Hlo & Hhi & Hval & Hassert).
      fold W in Hlo, Hhi, Hval.
      set (lo := limb_wrap (a0 - 0)) in *.
      set (hi := limb_wrap (a1 - 0 - (if a0 <? 0 then 1 else 0))) in *.
      destruct (static2_intro Hcfg (Z.sgn (st_mp_size a)) lo hi HS HN Hlo Hhi Hsg)
        as [Hvalid Hvalue].
      exists true, (upd σ rop (m_st (StaticInt s_alloc
                     (if hi =? 0 then (if lo =? 0 then 0 else Z.sgn (st_mp_size a))
                      else Z.sgn (st_mp_size a) + Z.sgn (st_mp_size a))
                     [lo; hi]))).
      split.
      { unfold static_add_impl_2. rewrite Hzb. change (Z.sgn 0) with 0. change (Z.abs 0) with 0.
        destruct (Z.eqb_spec (Z.sgn (st_mp_size a)) 0); [lia|].
        destruct (Z.gtb_spec (Z.abs (st_mp_size a)) 0); [|lia].
        rewrite run_bind, run_mret.
        mstep. mstep. mstep. mstep. rewrite Hla, Hlb.
        change (limb_at [a0; a1] 0) with a0. change (limb_at [a0; a1] 1) with a1.
        change (limb_at [0; 0] 0) with 0. change (limb_at [0; 0] 1) with 0.
        rewrite (run_bind_ret _ _ _ _ _ (run_assert_true _ _ Hassert)).
        fold lo hi.
        mstep. destruct (Z.eqb_spec hi 0) as [Hh|Hh]; cbn [negb].
        * unfold when. destruct (Z.eqb_spec lo 0) as [Hl|Hl]; cbn [negb];
            repeat mstep; rewrite run_mret, ?upd_upd, ?set_size_twice;
            by rewrite (written2 r r0 r1 _ lo hi Hlr Har).
        * repeat mstep. rewrite run_mret, ?upd_upd, ?set_size_twice.
          by rewrite (written2 r r0 r1 _ lo hi Hlr Har). }
      intros _. eexists. split; [reflexivity|]. split; [exact Hvalid|].
      etransitivity; [exact Hvalue|]. fold W. rewrite Hval, Hzb. cbn [Z.sgn]. lia.
    + (* both nonzero, opposite signs *)
      assert (Hopp : st_mp_size a * s2 < 0) by (clear -Hneq Hnza Hnzb; nia).
      destruct (run_static_add_impl_2_opposite Hcfg HS HN σ rop op1 op2 r a b
                  (st_mp_size a) s2 a0 a1 b0 b1 Hr H1 H2 Hvr Hla Hlb Haa Hab
                  Ha0 Ha1 Hb0 Hb1 Hsa Hs2a Ha1' Ha2' Hs21 Hs22 Hopp)
        as (r' & Hrun & Hv' & Hval').
      exists true, (upd σ rop (m_st r')). split; [exact Hrun|].
      intros _. exists r'. split; [done|]. split; [done|]. exact Hval'.
Qed.

End AddTwoLimbsAll.

Section GenericAddFacts.
Context {cfg : build_config} (Hcfg : config_ok cfg).

Lemma set_size_id s : set_size s (st_mp_size s) = s.
Proof. by destruct s. Qed.

Lemma limb_at_lookup (l : list Z) (k : nat) :
  (k < length l)%nat → l !! k = Some (limb_at l (Z.of_nat k)).
Proof.
  intros Hk. unfold limb_at. rewrite Nat2Z.id.
  destruct (lookup_lt_is_Some_2 l k Hk) as [x Hx]. by rewrite (nth_lookup_Some _ _ _ _ Hx).
Qed.

(** [copy_limbs] from a buffer onto itself changes nothing. *)
Lemma run_copy_limbs_self σ l A (n k : nat) :
  objs σ !! l = Some (m_st A) → st_mp_alloc A = s_alloc →
  (k + n ≤ length (m_limbs A))%nat →
  copy_limbs n l (Z.of_nat k) l (Z.of_nat k) σ = (Ret tt, σ).
Proof.
  revert k. induction n as [|n IH]; intros k Hl Ha Hlen; cbn [copy_limbs]; [done|].
  assert (Hk : 0 ≤ Z.of_nat k < Z.of_nat (length (m_limbs A))) by lia.
  rewrite (run_bind_ret _ _ _ _ _ (run_load_limb σ l A (Z.of_nat k) Hl Ha Hk)).
  rewrite (run_bind_ret _ _ _ _ _ (run_store_limb σ l A (Z.of_nat k) _ Hl Ha Hk)).
  assert (Hid : set_limb A (Z.of_nat k) (limb_at (m_limbs A) (Z.of_nat k)) = A).
  { unfold set_limb. destruct A as [al sz L]. cbn [st_mp_alloc st_mp_size m_limbs] in *.
    f_equal. rewrite Nat2Z.id. apply list_insert_id, limb_at_lookup. lia. }
  rewrite Hid, (upd_id _ _ _ Hl).
  replace (Z.of_nat k + 1) with (Z.of_nat (S k)) by lia. apply IH; [done|done|lia].
Qed.

Lemma set_limbs_nil D (k : nat) : set_limbs D (Z.of_nat k) [] = D.
Proof.
  unfold set_limbs. destruct D as [al sz L]. cbn [st_mp_alloc st_mp_size m_limbs length].
  f_equal. by rewrite Nat2Z.id, Nat.add_0_r, app_nil_l, take_drop.
Qed.

Lemma set_limbs_cons D (k : nat) x rest :
  (k < length (m_limbs D))%nat →
  set_limbs (set_limb D (Z.of_nat k) x) (Z.of_nat (S k)) rest
  = set_limbs D (Z.of_nat k) (x :: rest).
Proof.
  intros Hk. unfold set_limbs, set_limb. destruct D as [al sz L].
  cbn [st_mp_alloc st_mp_size m_limbs length] in *. f_equal. rewrite !Nat2Z.id.
  destruct (lookup_lt_is_Some_2 (<[k:=x]> L) k) as [y Hy]; [by rewrite length_insert|].
  assert (y = x) as ->.
  { rewrite list_lookup_insert_eq in Hy by done. congruence. }
  rewrite (take_S_r _ _ _ Hy), take_insert_ge by lia.
  rewrite drop_insert_lt by lia. rewrite <- app_assoc. cbn [app].
  by replace (S k + length rest)%nat with (k + S (length rest))%nat by lia.
Qed.

(** [copy_limbs] between two different buffers. *)
Lemma run_copy_limbs_distinct σ src dst A D (n k : nat) :
  src ≠ dst →
  objs σ !! src = Some (m_st A) → objs σ !! dst = Some (m_st D) →
  st_mp_alloc A = s_alloc → st_mp_alloc D = s_alloc →
  (k + n ≤ length (m_limbs A))%nat → (k + n ≤ length (m_limbs D))%nat →
  copy_limbs n src (Z.of_nat k) dst (Z.of_nat k) σ
  = (Ret tt, upd σ dst (m_st (set_limbs D (Z.of_nat k) (take n (drop k (m_limbs A)))))).
Proof.
  intros Hne. revert σ D k.
  induction n as [|n IH]; intros σ D k Hs Hd Ha HaD HlA HlD; cbn [copy_limbs].
  - rewrite take_0, set_limbs_nil, (upd_id _ _ _ Hd). done.
  - assert (HkA : 0 ≤ Z.of_nat k < Z.of_nat (length (m_limbs A))) by lia.
    assert (HkD : 0 ≤ Z.of_nat k < Z.of_nat (length (m_limbs D))) by lia.
    rewrite (run_bind_ret _ _ _ _ _ (run_load_limb σ src A (Z.of_nat k) Hs Ha HkA)).
    rewrite (run_bind_ret _ _ _ _ _ (run_store_limb σ dst D (Z.of_nat k) _ Hd HaD HkD)).
    replace (Z.of_nat k + 1) with (Z.of_nat (S k)) by lia.
    rewrite (IH _ (set_limb D (Z.of_nat k) (limb_at (m_limbs A) (Z.of_nat k))) (S k)).
    + rewrite upd_upd, set_limbs_cons by lia. do 4 f_equal.
      rewrite (drop_S _ _ _ (limb_at_lookup (m_limbs A) k ltac:(lia))). done.
    + by rewrite lookup_upd_ne.
    + apply lookup_upd_eq.
    + done.
    + done.
    + lia.
    + cbn [set_limb m_limbs]. rewrite length_insert. lia.
Qed.

(** A buffer that starts with the significant limbs of a valid integer
    and carries its size word denotes the same value. *)
Lemma pre_valid_prefix R A :
  static_int_valid A →
  limbs_typed SSize (m_limbs R) → st_mp_alloc R = s_alloc →
  st_mp_size R = st_mp_size A →
  take (Z.to_nat (Z.abs (st_mp_size A))) (m_limbs R)
  = take (Z.to_nat (Z.abs (st_mp_size A))) (m_limbs A) →
  pre_valid R (mpz_value (get_mpz_view A)).
Proof.
  intros Hv Ht Ha Hsz Htake.
  destruct (pre_valid_of_valid A Hv) as (HtA & _ & HsA & HtopA & _).
  split; [done|]. split; [done|]. rewrite Hsz. split; [done|]. split.
  - intros Hnz. specialize (HtopA Hnz).
    rewrite <- (limb_at_take (m_limbs R) (Z.to_nat (Z.abs (st_mp_size A)))) by lia.
    rewrite Htake, limb_at_take by lia. done.
  - unfold mpz_value, get_mpz_view. cbn [mp_size mp_d]. by rewrite Hsz, Htake.
Qed.

(** The copy branches of the generic kernel:
    [rop._mp_size = size; copy_limbs(data, data + asize, rop.m_limbs)]. *)
Lemma run_copy_operand σ rop op r a :
  objs σ !! rop = Some (m_st r) → objs σ !! op = Some (m_st a) →
  static_int_valid r → static_int_valid a →
  ∃ R, (store_size rop (st_mp_size a);;
        copy_limbs (Z.to_nat (Z.abs (st_mp_size a))) op 0 rop 0;;
        mret true) σ = (Ret true, upd σ rop (m_st R))
    ∧ pre_valid R (mpz_value (get_mpz_view a)).
Proof.
  intros Hr Ho Hvr Hva.
  destruct (pre_valid_of_valid r Hvr) as (Htr & Har & _).
  destruct (pre_valid_of_valid a Hva) as (Hta & Haa & Hsa & _).
  assert (Hlr : Z.of_nat (length (m_limbs r)) = SSize) by apply Htr.
  assert (Hla : Z.of_nat (length (m_limbs a)) = SSize) by apply Hta.
  rewrite (run_bind_ret _ _ _ _ _ (run_store_size σ rop r _ Hr Har)).
  change 0 with (Z.of_nat 0).
  assert (HfA : (0 + Z.to_nat (Z.abs (st_mp_size a)) ≤ length (m_limbs a))%nat) by lia.
  assert (HfR : (0 + Z.to_nat (Z.abs (st_mp_size a)) ≤ length (m_limbs r))%nat) by lia.
  destruct (decide (op = rop)) as [->|Hne].
  - assert (a = r) by congruence. subst a. rewrite set_size_id.
    exists r. rewrite (upd_id _ _ _ Hr).
    rewrite (run_bind_ret _ _ _ _ _ (run_copy_limbs_self σ rop r _ 0 Hr Har HfA)).
    split; [done|]. by apply pre_valid_of_valid.
  - eexists. split.
    + assert (Ho' : objs (upd σ rop (m_st (set_size r (st_mp_size a)))) !! op = Some (m_st a))
        by (by rewrite lookup_upd_ne).
      rewrite (run_bind_ret _ _ _ _ _
                 (run_copy_limbs_distinct _ op rop a (set_size r (st_mp_size a)) _ 0 Hne
                    Ho' (lookup_upd_eq _ _ _) Haa Har HfA HfR)).
      rewrite run_mret, upd_upd. reflexivity.
    + rewrite drop_0.
      assert (Hlt : length (take (Z.to_nat (Z.abs (st_mp_size a))) (m_limbs a))
                    = Z.to_nat (Z.abs (st_mp_size a))) by (rewrite length_take; lia).
      apply pre_valid_prefix; [done| |done|done|].
      * apply set_limbs_0_typed; [done|cbn [set_size m_limbs]; lia|].
        apply Forall_take, Hta.
      * change (Z.of_nat 0) with 0. rewrite set_limbs_0_limbs.
        by rewrite take_app_length' by done.
Qed.

(** The [mpn] calls: what is written and what is returned. *)
Lemma run_mpn_add_core σ rop R (x y : list Z) :
  objs σ !! rop = Some (m_st R) → st_mp_alloc R = s_alloc →
  (length x ≤ length (m_limbs R))%nat →
  (let '(r, cy) := mpn_add x y in store_limbs rop 0 r;; mret cy) σ
  = (Ret ((mpn_value x + mpn_value y) / 2 ^ (GMP_NUMB_BITS * Z.of_nat (length x))),
     upd σ rop (m_st (set_limbs R 0 (mpn_of_Z (length x) (mpn_value x + mpn_value y))))).
Proof.
  intros Hr Ha Hlen. unfold mpn_add.
  rewrite (run_bind_ret _ _ _ _ _
             (run_store_limbs_0 σ rop R _ Hr Ha ltac:(by rewrite mpn_of_Z_length))).
  reflexivity.
Qed.

Lemma run_mpn_sub_core σ rop R (x y : list Z) :
  objs σ !! rop = Some (m_st R) → st_mp_alloc R = s_alloc →
  (length x ≤ length (m_limbs R))%nat →
  (let '(r, br) := mpn_sub x y in store_limbs rop 0 r;; mret br) σ
  = (Ret (if mpn_value x - mpn_value y <? 0 then 1 else 0),
     upd σ rop (m_st (set_limbs R 0 (mpn_of_Z (length x) (mpn_value x - mpn_value y))))).
Proof.
  intros Hr Ha Hlen. unfold mpn_sub.
  rewrite (run_bind_ret _ _ _ _ _
             (run_store_limbs_0 σ rop R _ Hr Ha ltac:(by rewrite mpn_of_Z_length))).
  reflexivity.
Qed.

Lemma run_load_prefix σ l s n :
  objs σ !! l = Some (m_st s) → st_mp_alloc s = s_alloc →
  0 ≤ n ≤ Z.of_nat (length (m_limbs s)) →
  load_limbs l 0 n σ = (Ret (take (Z.to_nat n) (m_limbs s)), σ).
Proof.
  intros Hl Ha Hn. rewrite (run_load_limbs σ l s 0 n Hl Ha) by lia. by rewrite drop_0.
Qed.

Lemma take_1_limb (l : list Z) : (1 ≤ length l)%nat → take 1 l = [limb_at l 0].
Proof. destruct l; cbn; [lia|done]. Qed.

End GenericAddFacts.

Section GenericAddBlocks.
Context {cfg : build_config} (Hcfg : config_ok cfg).

(** A prefix of a buffer whose value reaches [B^(n-1)] has a nonzero
    top limb. *)
Lemma buffer_top (l : list Z) (n : Z) :
  0 < n ≤ Z.of_nat (length l) →
  2 ^ (GMP_NUMB_BITS * (n - 1)) ≤ mpn_value (take (Z.to_nat n) l) →
  Z.land (limb_at l (n - 1)) GMP_NUMB_MASK ≠ 0.
Proof.
  intros Hn Hlo Hz. rewrite take_top in Hlo by done.
  rewrite (mpn_value_top_zero Hcfg _ _ Hz) in Hlo.
  pose proof (mpn_value_bound Hcfg (take (Z.to_nat (n - 1)) l)) as Hb.
  rewrite length_take in Hb.
  replace (Z.of_nat (Z.to_nat (n - 1) `min` length l)) with (n - 1) in Hb by lia. lia.
Qed.

Lemma prefix_bound (l : list Z) (n : Z) :
  0 ≤ n ≤ Z.of_nat (length l) →
  0 ≤ mpn_value (take (Z.to_nat n) l) < 2 ^ (GMP_NUMB_BITS * n).
Proof.
  intros Hn. split; [apply (mpn_value_nonneg Hcfg)|].
  pose proof (mpn_value_bound Hcfg (take (Z.to_nat n) l)) as Hb.
  rewrite length_take in Hb.
  by replace (Z.of_nat (Z.to_nat n `min` length l)) with n in Hb by lia.
Qed.

Lemma pow_base_mono (m n : Z) :
  0 ≤ m ≤ n → 2 ^ (GMP_NUMB_BITS * m) ≤ 2 ^ (GMP_NUMB_BITS * n).
Proof.
  intros H. pose proof (numb_bits_pos Hcfg). apply Z.pow_le_mono_r; [lia|nia].
Qed.

Lemma pow_base_step (n : Z) :
  0 ≤ n → 2 ^ (GMP_NUMB_BITS * (n + 1)) = 2 ^ GMP_NUMB_BITS * 2 ^ (GMP_NUMB_BITS * n).
Proof.
  intros H. pose proof (numb_bits_pos Hcfg). rewrite <- Z.pow_add_r by nia. f_equal. lia.
Qed.

(** The overflow pre-check of the generic kernel: when it passes, twice
    the magnitude fits in [SSize] limbs. *)
Lemma run_top_bit_set σ op A :
  objs σ !! op = Some (m_st A) → static_int_valid A → st_mp_size A ≠ 0 →
  ∃ c, top_bit_set op (Z.abs (st_mp_size A)) σ = (Ret c, σ)
    ∧ (c = false →
       2 * mpn_value (take (Z.to_nat (Z.abs (st_mp_size A))) (m_limbs A))
       < 2 ^ (GMP_NUMB_BITS * SSize)).
Proof.
  intros Ho Hv Hnz.
  destruct (pre_valid_of_valid A Hv) as (Ht & Ha & Hs & _).
  assert (Hl : Z.of_nat (length (m_limbs A)) = SSize) by apply Ht.
  pose proof (numb_bits_pos Hcfg) as Hnb. pose proof (base_ge_2 Hcfg) as HB2.
  remember (Z.abs (st_mp_size A)) as n eqn:En.
  assert (Hn : 0 < n ≤ SSize) by lia. clear En Hs Hnz.
  assert (Hidx : 0 ≤ n - 1 < Z.of_nat (length (m_limbs A))) by lia.
  assert (Hn1 : 0 ≤ n - 1 ≤ Z.of_nat (length (m_limbs A))) by lia.
  assert (Hn0 : 0 ≤ n ≤ Z.of_nat (length (m_limbs A))) by lia.
  unfold top_bit_set. destruct (Z.eqb_spec n SSize) as [Heq|Hne].
  - rewrite (run_bind_ret _ _ _ _ _ (run_load_limb σ op A (n - 1) Ho Ha Hidx)), run_mret.
    eexists. split; [reflexivity|]. intros Hc. apply negb_false_iff, Z.eqb_eq in Hc.
    pose proof (land_mask_range Hcfg (limb_at (m_limbs A) (n - 1))) as Hr.
    set (t := Z.land (limb_at (m_limbs A) (n - 1)) GMP_NUMB_MASK) in *.
    rewrite Z.shiftr_div_pow2 in Hc by lia.
    assert (Hp : 0 < 2 ^ (GMP_NUMB_BITS - 1)) by (apply Z.pow_pos_nonneg; lia).
    assert (Ht2 : t < 2 ^ (GMP_NUMB_BITS - 1)).
    { apply Z.div_small_iff in Hc as [?|?]; lia. }
    rewrite take_top by lia. rewrite (mpn_value_app Hcfg). cbn [mpn_value]. fold t.
    rewrite length_take.
    replace (Z.of_nat (Z.to_nat (n - 1) `min` length (m_limbs A))) with (n - 1) by lia.
    pose proof (prefix_bound (m_limbs A) (n - 1) Hn1) as Hlow.
    assert (HBsplit : 2 ^ GMP_NUMB_BITS = 2 * 2 ^ (GMP_NUMB_BITS - 1)).
    { rewrite <- Z.pow_succ_r by lia. f_equal. lia. }
    rewrite <- Heq. replace n with ((n - 1) + 1) at 3 by lia.
    rewrite pow_base_step by lia.
    assert (0 < 2 ^ (GMP_NUMB_BITS * (n - 1))) by (apply Z.pow_pos_nonneg; [lia|nia]).
    nia.
  - rewrite run_mret. exists false. split; [done|]. intros _.
    pose proof (prefix_bound (m_limbs A) n Hn0) as Hb.
    assert (Hnm : 0 ≤ n ≤ SSize - 1) by lia.
    pose proof (pow_base_mono n (SSize - 1) Hnm) as Hm.
    replace SSize with ((SSize - 1) + 1) by lia. rewrite pow_base_step by lia.
    assert (0 < 2 ^ (GMP_NUMB_BITS * (SSize - 1))) by (apply Z.pow_pos_nonneg; [lia|nia]).
    nia.
Qed.

(** [sub_compute_size]: the index of the top nonzero limb, plus one. *)
Lemma run_sub_compute_size_loop σ x X (n : nat) :
  objs σ !! x = Some (m_st X) → st_mp_alloc X = s_alloc →
  (n ≤ length (m_limbs X))%nat →
  ∃ k : nat,
    sub_compute_size_loop x n σ = (Ret (Z.of_nat k), σ)
    ∧ (k ≤ n)%nat
    ∧ (k ≠ O → Z.land (limb_at (m_limbs X) (Z.of_nat k - 1)) GMP_NUMB_MASK ≠ 0)
    ∧ mpn_value (take k (m_limbs X)) = mpn_value (take n (m_limbs X)).
Proof.
  intros Hx Ha. induction n as [|n IH]; intros Hlen.
  - exists O. by repeat split.
  - cbn [sub_compute_size_loop].
    rewrite (run_bind_ret _ _ _ _ _ (run_load_limb σ x X (Z.of_nat n) Hx Ha ltac:(lia))).
    destruct (Z.eqb_spec (Z.land (limb_at (m_limbs X) (Z.of_nat n)) GMP_NUMB_MASK) 0)
      as [Hz|Hnz]; cbn [negb].
    + destruct IH as (k & Hrun & Hk & Htop & Hval); [lia|].
      exists k. split; [done|]. split; [lia|]. split; [done|].
      rewrite Hval. replace (S n) with (Z.to_nat (Z.of_nat n + 1)) by lia.
      rewrite take_top by lia. replace (Z.of_nat n + 1 - 1) with (Z.of_nat n) by lia.
      rewrite (mpn_value_top_zero Hcfg _ _ Hz). by rewrite Nat2Z.id.
    + exists (S n). rewrite run_mret. split; [do 2 f_equal; lia|].
      split; [done|]. split; [|done]. intros _.
      by replace (Z.of_nat (S n) - 1) with (Z.of_nat n) by lia.
Qed.

(** The three ways the kernel adds the shorter operand [y] to the
    longer operand [x]. *)
Lemma run_add_form3 σ rop x y R X Y nx ny :
  objs σ !! rop = Some (m_st R) → objs σ !! x = Some (m_st X) → objs σ !! y = Some (m_st Y) →
  st_mp_alloc R = s_alloc → st_mp_alloc X = s_alloc → st_mp_alloc Y = s_alloc →
  1 ≤ ny ≤ nx → nx ≤ Z.of_nat (length (m_limbs X)) → nx ≤ Z.of_nat (length (m_limbs Y)) →
  nx ≤ Z.of_nat (length (m_limbs R)) →
  let Sv := mpn_value (take (Z.to_nat nx) (m_limbs X))
           + mpn_value (take (Z.to_nat ny) (m_limbs Y)) in
  (if ny =? 1 then d2 ← load_limb y 0; mpn_add_1_at rop x nx d2
   else if nx =? ny then mpn_add_n_at rop x y nx
   else mpn_add_at rop x nx y ny) σ
  = (Ret (Sv / 2 ^ (GMP_NUMB_BITS * nx)),
     upd σ rop (m_st (set_limbs R 0 (mpn_of_Z (Z.to_nat nx) Sv)))).
Proof.
  intros Hr Hx Hy HaR HaX HaY Hn HlX HlY HlR Sv.
  assert (Hlt : length (take (Z.to_nat nx) (m_limbs X)) = Z.to_nat nx)
    by (rewrite length_take; lia).
  assert (Hfit : (length (take (Z.to_nat nx) (m_limbs X)) ≤ length (m_limbs R))%nat) by lia.
  pose proof (run_load_prefix σ x X nx Hx HaX ltac:(lia)) as HloadX.
  destruct (Z.eqb_spec ny 1) as [E1|N1].
  - rewrite (run_bind_ret _ _ _ _ _ (run_load_limb σ y Y 0 Hy HaY ltac:(lia))).
    unfold mpn_add_1_at, mpn_add_1. rewrite (run_bind_ret _ _ _ _ _ HloadX).
    rewrite (run_mpn_add_core σ rop R _ _ Hr HaR Hfit), Hlt, Z2Nat.id by lia.
    unfold Sv. rewrite E1. change (Z.to_nat 1) with 1%nat. by rewrite take_1_limb by lia.
  - destruct (Z.eqb_spec nx ny) as [E|N].
    + unfold mpn_add_n_at, mpn_add_n. rewrite (run_bind_ret _ _ _ _ _ HloadX).
      rewrite (run_bind_ret _ _ _ _ _ (run_load_prefix σ y Y nx Hy HaY ltac:(lia))).
      rewrite (run_mpn_add_core σ rop R _ _ Hr HaR Hfit), Hlt, Z2Nat.id by lia.
      unfold Sv. by rewrite E.
    + unfold mpn_add_at. rewrite (run_bind_ret _ _ _ _ _ HloadX).
      rewrite (run_bind_ret _ _ _ _ _ (run_load_prefix σ y Y ny Hy HaY ltac:(lia))).
      by rewrite (run_mpn_add_core σ rop R _ _ Hr HaR Hfit), Hlt, Z2Nat.id by lia.
Qed.

Lemma run_add_form2 σ rop x y R X Y nx ny :
  objs σ !! rop = Some (m_st R) → objs σ !! x = Some (m_st X) → objs σ !! y = Some (m_st Y) →
  st_mp_alloc R = s_alloc → st_mp_alloc X = s_alloc → st_mp_alloc Y = s_alloc →
  1 ≤ ny ≤ nx → nx ≤ Z.of_nat (length (m_limbs X)) → nx ≤ Z.of_nat (length (m_limbs Y)) →
  nx ≤ Z.of_nat (length (m_limbs R)) →
  let Sv := mpn_value (take (Z.to_nat nx) (m_limbs X))
           + mpn_value (take (Z.to_nat ny) (m_limbs Y)) in
  (if ny =? 1 then d ← load_limb y 0; mpn_add_1_at rop x nx d
   else mpn_add_at rop x nx y ny) σ
  = (Ret (Sv / 2 ^ (GMP_NUMB_BITS * nx)),
     upd σ rop (m_st (set_limbs R 0 (mpn_of_Z (Z.to_nat nx) Sv)))).
Proof.
  intros Hr Hx Hy HaR HaX HaY Hn HlX HlY HlR Sv.
  assert (Hlt : length (take (Z.to_nat nx) (m_limbs X)) = Z.to_nat nx)
    by (rewrite length_take; lia).
  assert (Hfit : (length (take (Z.to_nat nx) (m_limbs X)) ≤ length (m_limbs R))%nat) by lia.
  pose proof (run_load_prefix σ x X nx Hx HaX ltac:(lia)) as HloadX.
  destruct (Z.eqb_spec ny 1) as [E1|N1].
  - rewrite (run_bind_ret _ _ _ _ _ (run_load_limb σ y Y 0 Hy HaY ltac:(lia))).
    unfold mpn_add_1_at, mpn_add_1. rewrite (run_bind_ret _ _ _ _ _ HloadX).
    rewrite (run_mpn_add_core σ rop R _ _ Hr HaR Hfit), Hlt, Z2Nat.id by lia.
    unfold Sv. rewrite E1. change (Z.to_nat 1) with 1%nat. by rewrite take_1_limb by lia.
  - unfold mpn_add_at. rewrite (run_bind_ret _ _ _ _ _ HloadX).
    rewrite (run_bind_ret _ _ _ _ _ (run_load_prefix σ y Y ny Hy HaY ltac:(lia))).
    by rewrite (run_mpn_add_core σ rop R _ _ Hr HaR Hfit), Hlt, Z2Nat.id by lia.
Qed.

Lemma run_sub_form3 σ rop x y R X Y nx ny :
  objs σ !! rop = Some (m_st R) → objs σ !! x = Some (m_st X) → objs σ !! y = Some (m_st Y) →
  st_mp_alloc R = s_alloc → st_mp_alloc X = s_alloc → st_mp_alloc Y = s_alloc →
  1 ≤ ny ≤ nx → nx ≤ Z.of_nat (length (m_limbs X)) → nx ≤ Z.of_nat (length (m_limbs Y)) →
  nx ≤ Z.of_nat (length (m_limbs R)) →
  let D := mpn_value (take (Z.to_nat nx) (m_limbs X))
           - mpn_value (take (Z.to_nat ny) (m_limbs Y)) in
  (if ny =? 1 then d2 ← load_limb y 0; mpn_sub_1_at rop x nx d2
   else if nx =? ny then mpn_sub_n_at rop x y nx
   else mpn_sub_at rop x nx y ny) σ
  = (Ret (if D <? 0 then 1 else 0),
     upd σ rop (m_st (set_limbs R 0 (mpn_of_Z (Z.to_nat nx) D)))).
Proof.
  intros Hr Hx Hy HaR HaX HaY Hn HlX HlY HlR D.
  assert (Hlt : length (take (Z.to_nat nx) (m_limbs X)) = Z.to_nat nx)
    by (rewrite length_take; lia).
  assert (Hfit : (length (take (Z.to_nat nx) (m_limbs X)) ≤ length (m_limbs R))%nat) by lia.
  pose proof (run_load_prefix σ x X nx Hx HaX ltac:(lia)) as HloadX.
  destruct (Z.eqb_spec ny 1) as [E1|N1].
  - rewrite (run_bind_ret _ _ _ _ _ (run_load_limb σ y Y 0 Hy HaY ltac:(lia))).
    unfold mpn_sub_1_at, mpn_sub_1. rewrite (run_bind_ret _ _ _ _ _ HloadX).
    rewrite (run_mpn_sub_core σ rop R _ _ Hr HaR Hfit), Hlt.
    unfold D. rewrite E1. change (Z.to_nat 1) with 1%nat. by rewrite take_1_limb by lia.
  - destruct (Z.eqb_spec nx ny) as [E|N].
    + unfold mpn_sub_n_at, mpn_sub_n. rewrite (run_bind_ret _ _ _ _ _ HloadX).
      rewrite (run_bind_ret _ _ _ _ _ (run_load_prefix σ y Y nx Hy HaY ltac:(lia))).
      rewrite (run_mpn_sub_core σ rop R _ _ Hr HaR Hfit), Hlt.
      unfold D. by rewrite E.
    + unfold mpn_sub_at. rewrite (run_bind_ret _ _ _ _ _ HloadX).
      rewrite (run_bind_ret _ _ _ _ _ (run_load_prefix σ y Y ny Hy HaY ltac:(lia))).
      by rewrite (run_mpn_sub_core σ rop R _ _ Hr HaR Hfit), Hlt.
Qed.

Lemma run_sub_form2 σ rop x y R X Y nx ny :
  objs σ !! rop = Some (m_st R) → objs σ !! x = Some (m_st X) → objs σ !! y = Some (m_st Y) →
  st_mp_alloc R = s_alloc → st_mp_alloc X = s_alloc → st_mp_alloc Y = s_alloc →
  1 ≤ ny ≤ nx → nx ≤ Z.of_nat (length (m_limbs X)) → nx ≤ Z.of_nat (length (m_limbs Y)) →
  nx ≤ Z.of_nat (length (m_limbs R)) →
  let D := mpn_value (take (Z.to_nat nx) (m_limbs X))
           - mpn_value (take (Z.to_nat ny) (m_limbs Y)) in
  (if ny =? 1 then d ← load_limb y 0; mpn_sub_1_at rop x nx d
   else mpn_sub_at rop x nx y ny) σ
  = (Ret (if D <? 0 then 1 else 0),
     upd σ rop (m_st (set_limbs R 0 (mpn_of_Z (Z.to_nat nx) D)))).
Proof.
  intros Hr Hx Hy HaR HaX HaY Hn HlX HlY HlR D.
  assert (Hlt : length (take (Z.to_nat nx) (m_limbs X)) = Z.to_nat nx)
    by (rewrite length_take; lia).
  assert (Hfit : (length (take (Z.to_nat nx) (m_limbs X)) ≤ length (m_limbs R))%nat) by lia.
  pose proof (run_load_prefix σ x X nx Hx HaX ltac:(lia)) as HloadX.
  destruct (Z.eqb_spec ny 1) as [E1|N1].
  - rewrite (run_bind_ret _ _ _ _ _ (run_load_limb σ y Y 0 Hy HaY ltac:(lia))).
    unfold mpn_sub_1_at, mpn_sub_1. rewrite (run_bind_ret _ _ _ _ _ HloadX).
    rewrite (run_mpn_sub_core σ rop R _ _ Hr HaR Hfit), Hlt.
    unfold D. rewrite E1. change (Z.to_nat 1) with 1%nat. by rewrite take_1_limb by lia.
  - unfold mpn_sub_at. rewrite (run_bind_ret _ _ _ _ _ HloadX).
    rewrite (run_bind_ret _ _ _ _ _ (run_load_prefix σ y Y ny Hy HaY ltac:(lia))).
    by rewrite (run_mpn_sub_core σ rop R _ _ Hr HaR Hfit), Hlt.
Qed.

End GenericAddBlocks.

Section GenericAddKernel.
Context {cfg : build_config} (Hcfg : config_ok cfg).

Lemma pre_valid_signed X sx (n : nat) v :
  limbs_typed SSize (m_limbs X) → st_mp_alloc X = s_alloc →
  sx ≠ 0 → Z.abs sx = Z.of_nat n → Z.of_nat n ≤ SSize →
  Z.land (limb_at (m_limbs X) (Z.of_nat n - 1)) GMP_NUMB_MASK ≠ 0 →
  mpn_value (take n (m_limbs X)) = v →
  pre_valid (set_size X sx) (Z.sgn sx * v).
Proof.
  intros Ht Ha Hnz Habs Hn Htop Hv.
  pose proof (pre_valid_finish X n n (sx <? 0) v Ht Ha (Nat.le_refl n) Hn
                (λ _, Htop) eq_refl Hv) as H.
  destruct (Z.ltb_spec sx 0).
  - replace sx with (- Z.of_nat n) by lia. replace (Z.sgn (- Z.of_nat n)) with (-1) by lia.
    exact H.
  - replace sx with (Z.of_nat n) by lia. replace (Z.sgn (Z.of_nat n)) with 1 by lia.
    exact H.
Qed.

(** The carry handling after an [mpn] addition. *)
Lemma run_add_block σ rop R sx Sv (form : M Z) :
  objs σ !! rop = Some (m_st R) → limbs_typed SSize (m_limbs R) → st_mp_alloc R = s_alloc →
  sx ≠ 0 → Z.abs sx ≤ SSize →
  2 ^ (GMP_NUMB_BITS * (Z.abs sx - 1)) ≤ Sv →
  Sv < 2 * 2 ^ (GMP_NUMB_BITS * Z.abs sx) →
  Sv < 2 ^ (GMP_NUMB_BITS * SSize) →
  form σ = (Ret (Sv / 2 ^ (GMP_NUMB_BITS * Z.abs sx)),
            upd σ rop (m_st (set_limbs R 0 (mpn_of_Z (Z.to_nat (Z.abs sx)) Sv)))) →
  ∃ R', (cy ← form;
         if negb (cy =? 0) then
           assert (Z.abs sx <? s_size);;
           store_size rop (sx + Z.sgn sx);;
           store_limb rop (Z.abs sx) 1
         else store_size rop sx) σ = (Ret tt, upd σ rop (m_st R'))
    ∧ pre_valid R' (Z.sgn sx * Sv).
Proof.
  intros Hr Ht Ha Hnz Hsx Hlo Hhi Hfit Hform.
  pose proof (numb_bits_pos Hcfg) as Hnb. pose proof (base_ge_2 Hcfg) as HB2.
  assert (Hlen : Z.of_nat (length (m_limbs R)) = SSize) by apply Ht.
  remember (Z.abs sx) as n eqn:En.
  assert (Hn : 1 ≤ n ≤ SSize) by lia.
  remember (mpn_of_Z (Z.to_nat n) Sv) as qv eqn:Eqv.
  assert (Hlq : length qv = Z.to_nat n) by (subst qv; apply mpn_of_Z_length).
  assert (Hfq : (length qv ≤ length (m_limbs R))%nat) by lia.
  remember (set_limbs R 0 qv) as Q eqn:EQ.
  assert (HtQ : limbs_typed SSize (m_limbs Q)).
  { subst Q. apply set_limbs_0_typed; [done|done|]. subst qv. apply (mpn_of_Z_range Hcfg). }
  assert (HaQ : st_mp_alloc Q = s_alloc) by (by subst Q).
  assert (HLQ : m_limbs Q = qv ++ drop (Z.to_nat n) (m_limbs R)).
  { subst Q. by rewrite set_limbs_0_limbs, Hlq. }
  assert (HlQ : Z.of_nat (length (m_limbs Q)) = SSize) by apply HtQ.
  assert (Hpow : 0 < 2 ^ (GMP_NUMB_BITS * n)) by (apply Z.pow_pos_nonneg; [lia|nia]).
  assert (HS0 : 0 ≤ Sv).
  { assert (0 < 2 ^ (GMP_NUMB_BITS * (n - 1))) by (apply Z.pow_pos_nonneg; [lia|nia]). lia. }
  rewrite (run_bind_ret _ _ _ _ _ Hform).
  assert (HQl : objs (upd σ rop (m_st Q)) !! rop = Some (m_st Q)) by apply lookup_upd_eq.
  destruct (Z.lt_ge_cases Sv (2 ^ (GMP_NUMB_BITS * n))) as [Hsmall|Hcarry].
  - (* no carry *)
    rewrite (Z.div_small Sv) by lia. cbn [Z.eqb negb].
    exists (set_size Q sx). split.
    { rewrite (run_store_size _ rop Q sx HQl HaQ), upd_upd. done. }
    assert (Hvq : mpn_value (take (Z.to_nat n) (m_limbs Q)) = Sv).
    { rewrite HLQ, take_app_length' by done. subst qv.
      apply (mpn_value_of_Z_small Hcfg). rewrite Z2Nat.id by lia. lia. }
    apply (pre_valid_signed Q sx (Z.to_nat n) Sv); try done; try lia.
    rewrite Z2Nat.id by lia. apply (buffer_top Hcfg); [lia|]. by rewrite Hvq.
  - (* carry into a new limb *)
    assert (Hcy : Sv / 2 ^ (GMP_NUMB_BITS * n) = 1).
    { symmetry. apply Z.div_unique with (r := Sv - 2 ^ (GMP_NUMB_BITS * n)); lia. }
    rewrite Hcy. cbn [Z.eqb negb].
    assert (Hlt : n < SSize).
    { destruct (Z.eq_dec n SSize) as [E|E]; [rewrite E in Hcarry; lia | lia]. }
    unfold s_size. destruct (Z.ltb_spec n SSize); [|lia]. cbn [assert].
    rewrite run_bind, run_mret.
    rewrite (run_bind_ret _ _ _ _ _ (run_store_size _ rop Q (sx + Z.sgn sx) HQl HaQ)), upd_upd.
    assert (Hidx : 0 ≤ n < Z.of_nat (length (m_limbs (set_size Q (sx + Z.sgn sx)))))
      by (cbn [set_size m_limbs]; lia).
    rewrite (run_store_limb _ rop (set_size Q (sx + Z.sgn sx)) n 1 (lookup_upd_eq _ _ _) HaQ Hidx).
    rewrite upd_upd.
    exists (set_size (set_limb Q n 1) (sx + Z.sgn sx)). split; [done|].
    assert (H1r : 0 ≤ 1 < 2 ^ GMP_LIMB_BITS).
    { split; [lia|]. pose proof (numb_le_limb Hcfg). lia. }
    assert (HLQ' : m_limbs (set_limb Q n 1)
                   = qv ++ 1 :: drop (S (Z.to_nat n)) (m_limbs R)).
    { cbn [set_limb m_limbs]. rewrite HLQ, insert_app_r_alt by lia.
      rewrite Hlq, Nat.sub_diag. f_equal.
      destruct (drop (Z.to_nat n) (m_limbs R)) as [|y rest] eqn:Ed.
      - apply (f_equal length) in Ed. rewrite length_drop in Ed. cbn in Ed. lia.
      - cbn. f_equal. rewrite <- (drop_drop _ 1 (Z.to_nat n)) || idtac.
        replace (S (Z.to_nat n)) with (Z.to_nat n + 1)%nat by lia.
        rewrite <- drop_drop, Ed. done. }
    assert (Hvq : mpn_value (take (Z.to_nat (n + 1)) (m_limbs (set_limb Q n 1))) = Sv).
    { rewrite HLQ'. replace (Z.to_nat (n + 1)) with (length (qv ++ [1])) 
        by (rewrite length_app, Hlq; cbn; lia).
      replace (qv ++ 1 :: drop (S (Z.to_nat n)) (m_limbs R))
        with ((qv ++ [1]) ++ drop (S (Z.to_nat n)) (m_limbs R)) by (by rewrite <- app_assoc).
      rewrite take_app_length, (mpn_value_app Hcfg), Hlq. subst qv.
      rewrite (mpn_value_of_Z Hcfg), Z2Nat.id by lia. cbn [mpn_value].
      rewrite (land_mask_small Hcfg 1) by lia.
      assert (Hp0 : 2 ^ (GMP_NUMB_BITS * n) ≠ 0) by (clear -Hpow; lia).
      pose proof (Z.div_mod Sv (2 ^ (GMP_NUMB_BITS * n)) Hp0) as Hdm.
      rewrite Hcy in Hdm. rewrite Z.mul_0_r, Z.add_0_r, Z.mul_1_r.
      rewrite Z.mul_1_r in Hdm. clear -Hdm. lia. }
    replace (Z.sgn sx * Sv) with (Z.sgn (sx + Z.sgn sx) * Sv) by (f_equal; lia).
    apply (pre_valid_signed (set_limb Q n 1) (sx + Z.sgn sx) (Z.to_nat (n + 1)) Sv).
    + by apply set_limb_0_typed || (cbn [set_limb m_limbs]; split;
        [rewrite length_insert; apply HtQ | apply Forall_insert; [apply HtQ | done]]).
    + done.
    + lia.
    + lia.
    + lia.
    + rewrite Z2Nat.id by lia. replace (n + 1 - 1) with n by lia.
      rewrite HLQ'. unfold limb_at. rewrite app_nth2 by lia.
      replace (Z.to_nat n - length qv)%nat with O by lia. cbn [nth].
      rewrite (land_mask_small Hcfg 1) by lia. done.
    + done.
Qed.

(** The size computation after an [mpn] subtraction. *)
Lemma run_sub_block σ rop R sgx nx D (form : M Z) :
  objs σ !! rop = Some (m_st R) → limbs_typed SSize (m_limbs R) → st_mp_alloc R = s_alloc →
  sgx = 1 ∨ sgx = -1 → 1 ≤ nx ≤ SSize →
  0 ≤ D < 2 ^ (GMP_NUMB_BITS * nx) →
  form σ = (Ret (if D <? 0 then 1 else 0),
            upd σ rop (m_st (set_limbs R 0 (mpn_of_Z (Z.to_nat nx) D)))) →
  ∃ R', (br ← form;
         assert (br =? 0);;
         sz ← sub_compute_size rop nx;
         store_size rop sz;;
         when (negb (sgx =? 1)) (sz' ← load_size rop; store_size rop (- sz'))) σ
        = (Ret tt, upd σ rop (m_st R'))
    ∧ pre_valid R' (sgx * D).
Proof.
  intros Hr Ht Ha Hsg Hn HD Hform.
  assert (Hlen : Z.of_nat (length (m_limbs R)) = SSize) by apply Ht.
  remember (mpn_of_Z (Z.to_nat nx) D) as qv eqn:Eqv.
  assert (Hlq : length qv = Z.to_nat nx) by (subst qv; apply mpn_of_Z_length).
  assert (Hfq : (length qv ≤ length (m_limbs R))%nat) by lia.
  remember (set_limbs R 0 qv) as Q eqn:EQ.
  assert (HtQ : limbs_typed SSize (m_limbs Q)).
  { subst Q. apply set_limbs_0_typed; [done|done|]. subst qv. apply (mpn_of_Z_range Hcfg). }
  assert (HaQ : st_mp_alloc Q = s_alloc) by (by subst Q).
  assert (HLQ : m_limbs Q = qv ++ drop (Z.to_nat nx) (m_limbs R)).
  { subst Q. by rewrite set_limbs_0_limbs, Hlq. }
  assert (HlQ : Z.of_nat (length (m_limbs Q)) = SSize) by apply HtQ.
  assert (Hvq : mpn_value (take (Z.to_nat nx) (m_limbs Q)) = D).
  { rewrite HLQ, take_app_length' by done. subst qv.
    apply (mpn_value_of_Z_small Hcfg). rewrite Z2Nat.id by lia. lia. }
  rewrite (run_bind_ret _ _ _ _ _ Hform).
  destruct (Z.ltb_spec D 0); [lia|]. cbn [Z.eqb assert]. rewrite run_bind, run_mret.
  assert (HQl : objs (upd σ rop (m_st Q)) !! rop = Some (m_st Q)) by apply lookup_upd_eq.
  assert (Hnl : (Z.to_nat nx ≤ length (m_limbs Q))%nat) by lia.
  destruct (run_sub_compute_size_loop Hcfg _ rop Q (Z.to_nat nx) HQl HaQ Hnl)
    as (k & Hloop & Hk & Htop & Hval).
  assert (Hsz : sub_compute_size rop nx (upd σ rop (m_st Q))
                = (Ret (Z.of_nat k), upd σ rop (m_st Q))).
  { unfold sub_compute_size. destruct (Z.gtb_spec nx 0); [|lia]. cbn [assert].
    by rewrite run_bind, run_mret. }
  rewrite (run_bind_ret _ _ _ _ _ Hsz).
  rewrite (run_bind_ret _ _ _ _ _ (run_store_size _ rop Q (Z.of_nat k) HQl HaQ)), upd_upd.
  change (sz' ← load_size rop; store_size rop (- sz')) with (negate_size rop).
  rewrite (run_when_negate _ rop (set_size Q (Z.of_nat k)) _ (lookup_upd_eq _ _ _) HaQ).
  rewrite upd_upd. cbn [set_size st_mp_size st_mp_alloc m_limbs].
  eexists. split; [reflexivity|].
  assert (Hnn : Z.of_nat (Z.to_nat nx) ≤ SSize) by lia.
  pose proof (pre_valid_finish Q k (Z.to_nat nx) (negb (sgx =? 1)) D HtQ HaQ Hk Hnn Htop
                (eq_trans Hval eq_refl) Hvq) as Hpre.
  replace ((if negb (sgx =? 1) then -1 else 1) * D) with (sgx * D) in Hpre
    by (destruct Hsg as [-> | ->]; reflexivity).
  exact Hpre.
Qed.

End GenericAddKernel.

Section GenericAddRun.
Context {cfg : build_config} (Hcfg : config_ok cfg).

Lemma kernel_finish (m : M unit) σ rop v :
  (∃ R', m σ = (Ret tt, upd σ rop (m_st R')) ∧ pre_valid R' v) →
  ∃ ok σ', (m;; mret true) σ = (Ret ok, σ')
    ∧ (ok = true → ∃ R, σ' = upd σ rop (m_st R) ∧ pre_valid R v).
Proof.
  intros (R' & Hrun & Hpre). exists true, (upd σ rop (m_st R')). split.
  - by rewrite (run_bind_ret _ _ _ _ _ Hrun), run_mret.
  - intros _. by exists R'.
Qed.

(** The comparison of the magnitudes in the generic kernel. *)
Lemma run_magnitude_ge σ op1 op2 a b :
  objs σ !! op1 = Some (m_st a) → objs σ !! op2 = Some (m_st b) →
  static_int_valid a → static_int_valid b →
  st_mp_size a ≠ 0 → st_mp_size b ≠ 0 →
  (if Z.abs (st_mp_size a) >? Z.abs (st_mp_size b) then mret true
   else if Z.abs (st_mp_size a) =? Z.abs (st_mp_size b) then
     c ← mpn_cmp_at op1 op2 (Z.abs (st_mp_size a)); mret (c >=? 0)
   else mret false) σ
  = (Ret (mpn_value (take (Z.to_nat (Z.abs (st_mp_size b))) (m_limbs b))
          <=? mpn_value (take (Z.to_nat (Z.abs (st_mp_size a))) (m_limbs a))), σ).
Proof.
  intros H1 H2 Hva Hvb Hnza Hnzb.
  destruct (pre_valid_of_valid a Hva) as (Hta & Haa & Hsa & _).
  destruct (pre_valid_of_valid b Hvb) as (Htb & Hab & Hsb & _).
  destruct (static_magnitude Hcfg a Hva) as (_ & Hra & Hloa & _).
  destruct (static_magnitude Hcfg b Hvb) as (_ & Hrb & Hlob & _).
  specialize (Hloa Hnza). specialize (Hlob Hnzb).
  assert (Hla : Z.of_nat (length (m_limbs a)) = SSize) by apply Hta.
  assert (Hlb : Z.of_nat (length (m_limbs b)) = SSize) by apply Htb.
  remember (Z.abs (st_mp_size a)) as n1 eqn:En1.
  remember (Z.abs (st_mp_size b)) as n2 eqn:En2.
  assert (Hn1 : 1 ≤ n1 ≤ SSize) by lia. assert (Hn2 : 1 ≤ n2 ≤ SSize) by lia.
  clear En1 En2 Hnza Hnzb Hsa Hsb.
  remember (mpn_value (take (Z.to_nat n1) (m_limbs a))) as N1 eqn:EN1.
  remember (mpn_value (take (Z.to_nat n2) (m_limbs b))) as N2 eqn:EN2.
  destruct (Z.gtb_spec n1 n2) as [Hgt|Hle].
  - rewrite run_mret. do 2 f_equal. symmetry. apply Z.leb_le.
    assert (Hm : 0 ≤ n2 ≤ n1 - 1) by lia.
    pose proof (pow_base_mono Hcfg n2 (n1 - 1) Hm). lia.
  - destruct (Z.eqb_spec n1 n2) as [Heq|Hne].
    + subst n2. unfold mpn_cmp_at.
      assert (Hi1 : 0 ≤ n1 ≤ Z.of_nat (length (m_limbs a))) by lia.
      assert (Hi2 : 0 ≤ n1 ≤ Z.of_nat (length (m_limbs b))) by lia.
      rewrite run_bind.
      rewrite (run_bind_ret _ _ _ _ _ (run_load_prefix σ op1 a n1 H1 Haa Hi1)).
      rewrite (run_bind_ret _ _ _ _ _ (run_load_prefix σ op2 b n1 H2 Hab Hi2)).
      rewrite run_mret, run_mret. do 2 f_equal.
      unfold mpn_cmp. rewrite <- EN1, <- EN2.
      destruct (Z.compare_spec N1 N2), (Z.leb_spec N2 N1); try reflexivity; lia.
    + rewrite run_mret. do 2 f_equal. symmetry. apply Z.leb_gt.
      assert (Hm : 0 ≤ n1 ≤ n2 - 1) by lia.
      pose proof (pow_base_mono Hcfg n1 (n2 - 1) Hm). lia.
Qed.

(** The generic kernel, called as [add] calls it. *)
Lemma run_static_add_impl_0 σ rop op1 op2 r a b :
  objs σ !! rop = Some (m_st r) → objs σ !! op1 = Some (m_st a) →
  objs σ !! op2 = Some (m_st b) →
  static_int_valid r → static_int_valid a → static_int_valid b →
  ∃ ok σ', static_add_impl_0 rop op1 op2 (Z.abs (st_mp_size a)) (Z.abs (st_mp_size b))
             (Z.sgn (st_mp_size a)) (Z.sgn (st_mp_size b)) σ = (Ret ok, σ')
    ∧ (ok = true →
       ∃ R, σ' = upd σ rop (m_st R)
         ∧ pre_valid R (mpz_value (get_mpz_view a) + mpz_value (get_mpz_view b))).
Proof.
  intros Hr H1 H2 Hvr Hva Hvb.
  destruct (pre_valid_of_valid r Hvr) as (Htr & Har & _).
  destruct (pre_valid_of_valid a Hva) as (Hta & Haa & Hsa & _).
  destruct (pre_valid_of_valid b Hvb) as (Htb & Hab & Hsb & _).
  destruct (static_magnitude Hcfg a Hva) as (Hma & Hra & Hloa & _).
  destruct (static_magnitude Hcfg b Hvb) as (Hmb & Hrb & Hlob & _).
  assert (Hlr : Z.of_nat (length (m_limbs r)) = SSize) by apply Htr.
  assert (Hla : Z.of_nat (length (m_limbs a)) = SSize) by apply Hta.
  assert (Hlb : Z.of_nat (length (m_limbs b)) = SSize) by apply Htb.
  unfold static_add_impl_0.
  rewrite (run_bind_ret _ _ _ _ _ (run_load_size σ op1 a H1 Haa)).
  rewrite (run_bind_ret _ _ _ _ _ (run_load_size σ op2 b H2 Hab)).
  destruct (Z.eqb_spec (Z.sgn (st_mp_size b)) 0) as [Eb|Eb].
  { destruct (run_copy_operand σ rop op1 r a Hr H1 Hvr Hva) as (R & Hrun & Hpre).
    exists true, (upd σ rop (m_st R)). split; [exact Hrun|]. intros _. exists R.
    split; [done|]. rewrite Hmb, Eb, Z.mul_0_l, Z.add_0_r. exact Hpre. }
  destruct (Z.eqb_spec (Z.sgn (st_mp_size a)) 0) as [Ea|Ea].
  { destruct (run_copy_operand σ rop op2 r b Hr H2 Hvr Hvb) as (R & Hrun & Hpre).
    exists true, (upd σ rop (m_st R)). split; [exact Hrun|]. intros _. exists R.
    split; [done|]. rewrite Hma, Ea, Z.mul_0_l, Z.add_0_l. exact Hpre. }
  assert (Hnza : st_mp_size a ≠ 0) by (clear -Ea; lia).
  assert (Hnzb : st_mp_size b ≠ 0) by (clear -Eb; lia).
  destruct (run_top_bit_set Hcfg σ op1 a H1 Hva Hnza) as (c1 & Hc1 & Hb1).
  destruct (run_top_bit_set Hcfg σ op2 b H2 Hvb Hnzb) as (c2 & Hc2 & Hb2).
  rewrite (run_bind_ret _ _ _ _ _ Hc1), (run_bind_ret _ _ _ _ _ Hc2).
  destruct c1; [exists false, σ; split; [done|discriminate]|].
  destruct c2; [exists false, σ; split; [done|discriminate]|].
  cbn [orb].
  specialize (Hb1 eq_refl). specialize (Hb2 eq_refl).
  specialize (Hloa Hnza). specialize (Hlob Hnzb).
  pose proof (run_magnitude_ge σ op1 op2 a b H1 H2 Hva Hvb Hnza Hnzb) as Hge.
  remember (mpn_value (take (Z.to_nat (Z.abs (st_mp_size a))) (m_limbs a))) as N1 eqn:EN1.
  remember (mpn_value (take (Z.to_nat (Z.abs (st_mp_size b))) (m_limbs b))) as N2 eqn:EN2.
  assert (Hn1 : 1 ≤ Z.abs (st_mp_size a)) by (clear -Hnza; lia).
  assert (Hn2 : 1 ≤ Z.abs (st_mp_size b)) by (clear -Hnzb; lia).
  assert (Hsg1 : Z.sgn (st_mp_size a) = 1 ∨ Z.sgn (st_mp_size a) = -1) by (clear -Hnza; lia).
  assert (Hsg2 : Z.sgn (st_mp_size b) = 1 ∨ Z.sgn (st_mp_size b) = -1) by (clear -Hnzb; lia).
  apply kernel_finish.
  destruct (Z.eqb_spec (Z.sgn (st_mp_size a)) (Z.sgn (st_mp_size b))) as [Esg|Esg].
  - (* same sign *)
    destruct (Z.geb_spec (Z.abs (st_mp_size a)) (Z.abs (st_mp_size b))) as [Hge12|Hlt12].
    + assert (Hb : 1 ≤ Z.abs (st_mp_size b) ≤ Z.abs (st_mp_size a)) by (clear -Hn2 Hge12; lia).
      pose proof (run_add_form3 σ rop op1 op2 r a b _ _ Hr H1 H2 Har Haa Hab Hb
                    ltac:(rewrite Hla; exact Hsa) ltac:(rewrite Hlb; exact Hsa)
                    ltac:(rewrite Hlr; exact Hsa)) as Hform.
      cbv zeta in Hform. rewrite <- EN1, <- EN2 in Hform.
      assert (Hm : 0 ≤ Z.abs (st_mp_size b) ≤ Z.abs (st_mp_size a)) by (clear -Hb; lia).
      pose proof (pow_base_mono Hcfg _ _ Hm) as Hmono.
      assert (Hlo : 2 ^ (GMP_NUMB_BITS * (Z.abs (st_mp_size a) - 1)) ≤ N1 + N2)
        by (clear -Hloa Hrb; lia).
      assert (Hhi : N1 + N2 < 2 * 2 ^ (GMP_NUMB_BITS * Z.abs (st_mp_size a)))
        by (clear -Hra Hrb Hmono; lia).
      assert (Hfit : N1 + N2 < 2 ^ (GMP_NUMB_BITS * SSize)) by (clear -Hb1 Hb2; lia).
      destruct (run_add_block Hcfg σ rop r (st_mp_size a) (N1 + N2) _ Hr Htr Har Hnza Hsa
                  Hlo Hhi Hfit Hform) as (R' & Hrun & Hpre).
      exists R'. split; [exact Hrun|].
      replace (mpz_value (get_mpz_view a) + mpz_value (get_mpz_view b))
        with (Z.sgn (st_mp_size a) * (N1 + N2)); [exact Hpre|].
      rewrite Hma, Hmb, <- Esg. ring.
    + assert (Hb : 1 ≤ Z.abs (st_mp_size a) ≤ Z.abs (st_mp_size b)) by (clear -Hn1 Hlt12; lia).
      pose proof (run_add_form2 σ rop op2 op1 r b a _ _ Hr H2 H1 Har Hab Haa Hb
                    ltac:(rewrite Hlb; exact Hsb) ltac:(rewrite Hla; exact Hsb)
                    ltac:(rewrite Hlr; exact Hsb)) as Hform.
      cbv zeta in Hform. rewrite <- EN1, <- EN2 in Hform.
      assert (Hm : 0 ≤ Z.abs (st_mp_size a) ≤ Z.abs (st_mp_size b)) by (clear -Hb; lia).
      pose proof (pow_base_mono Hcfg _ _ Hm) as Hmono.
      assert (Hlo : 2 ^ (GMP_NUMB_BITS * (Z.abs (st_mp_size b) - 1)) ≤ N2 + N1)
        by (clear -Hlob Hra; lia).
      assert (Hhi : N2 + N1 < 2 * 2 ^ (GMP_NUMB_BITS * Z.abs (st_mp_size b)))
        by (clear -Hra Hrb Hmono; lia).
      assert (Hfit : N2 + N1 < 2 ^ (GMP_NUMB_BITS * SSize)) by (clear -Hb1 Hb2; lia).
      destruct (run_add_block Hcfg σ rop r (st_mp_size b) (N2 + N1) _ Hr Htr Har Hnzb Hsb
                  Hlo Hhi Hfit Hform) as (R' & Hrun & Hpre).
      exists R'. split; [exact Hrun|].
      replace (mpz_value (get_mpz_view a) + mpz_value (get_mpz_view b))
        with (Z.sgn (st_mp_size b) * (N2 + N1)); [exact Hpre|].
      rewrite Hma, Hmb, Esg. ring.
  - (* differing signs *)
    assert (Hopp : Z.sgn (st_mp_size b) = - Z.sgn (st_mp_size a))
      by (clear -Hsg1 Hsg2 Esg; lia).
    rewrite (run_bind_ret _ _ _ _ _ Hge).
    destruct (Z.leb_spec N2 N1) as [Hle|Hgt].
    + assert (Hb : 1 ≤ Z.abs (st_mp_size b) ≤ Z.abs (st_mp_size a)).
      { split; [exact Hn2|].
        destruct (Z.le_gt_cases (Z.abs (st_mp_size b)) (Z.abs (st_mp_size a))) as [?|Hc];
          [done|exfalso].
        assert (Hm : 0 ≤ Z.abs (st_mp_size a) ≤ Z.abs (st_mp_size b) - 1)
          by (clear -Hn1 Hc; lia).
        pose proof (pow_base_mono Hcfg _ _ Hm) as Hmono.
        clear -Hmono Hra Hlob Hle. lia. }
      pose proof (run_sub_form3 σ rop op1 op2 r a b _ _ Hr H1 H2 Har Haa Hab Hb
                    ltac:(rewrite Hla; exact Hsa) ltac:(rewrite Hlb; exact Hsa)
                    ltac:(rewrite Hlr; exact Hsa)) as Hform.
      cbv zeta in Hform. rewrite <- EN1, <- EN2 in Hform.
      assert (HD : 0 ≤ N1 - N2 < 2 ^ (GMP_NUMB_BITS * Z.abs (st_mp_size a)))
        by (clear -Hle Hra Hrb; lia).
      destruct (run_sub_block Hcfg σ rop r (Z.sgn (st_mp_size a)) (Z.abs (st_mp_size a))
                  (N1 - N2) _ Hr Htr Har Hsg1 (conj Hn1 Hsa) HD Hform) as (R' & Hrun & Hpre).
      exists R'. split; [exact Hrun|].
      replace (mpz_value (get_mpz_view a) + mpz_value (get_mpz_view b))
        with (Z.sgn (st_mp_size a) * (N1 - N2)); [exact Hpre|].
      rewrite Hma, Hmb, Hopp. ring.
    + assert (Hb : 1 ≤ Z.abs (st_mp_size a) ≤ Z.abs (st_mp_size b)).
      { split; [exact Hn1|].
        destruct (Z.le_gt_cases (Z.abs (st_mp_size a)) (Z.abs (st_mp_size b))) as [?|Hc];
          [done|exfalso].
        assert (Hm : 0 ≤ Z.abs (st_mp_size b) ≤ Z.abs (st_mp_size a) - 1)
          by (clear -Hn2 Hc; lia).
        pose proof (pow_base_mono Hcfg _ _ Hm) as Hmono.
        clear -Hmono Hrb Hloa Hgt. lia. }
      pose proof (run_sub_form2 σ rop op2 op1 r b a _ _ Hr H2 H1 Har Hab Haa Hb
                    ltac:(rewrite Hlb; exact Hsb) ltac:(rewrite Hla; exact Hsb)
                    ltac:(rewrite Hlr; exact Hsb)) as Hform.
      cbv zeta in Hform. rewrite <- EN1, <- EN2 in Hform.
      assert (HD : 0 ≤ N2 - N1 < 2 ^ (GMP_NUMB_BITS * Z.abs (st_mp_size b)))
        by (clear -Hgt Hra Hrb; lia).
      destruct (run_sub_block Hcfg σ rop r (Z.sgn (st_mp_size b)) (Z.abs (st_mp_size b))
                  (N2 - N1) _ Hr Htr Har Hsg2 (conj Hn2 Hsb) HD Hform) as (R' & Hrun & Hpre).
      exists R'. split; [exact Hrun|].
      replace (mpz_value (get_mpz_view a) + mpz_value (get_mpz_view b))
        with (Z.sgn (st_mp_size b) * (N2 - N1)); [exact Hpre|].
      rewrite Hma, Hmb, Hopp. ring.
Qed.

End GenericAddRun.

(** ** Addition and subtraction *)

Section AddSubRun.
Context {cfg : build_config} (Hcfg : config_ok cfg).

Lemma static_add_algo_cases :
  (static_add_algo = 1 ∧ SSize = 1 ∧ GMP_NAIL_BITS = 0)
  ∨ (static_add_algo = 2 ∧ SSize = 2 ∧ GMP_NAIL_BITS = 0)
  ∨ static_add_algo = 0.
Proof.
  unfold static_add_algo, s_size.
  destruct (Z.eqb_spec GMP_NAIL_BITS 0), (Z.eqb_spec SSize 1), (Z.eqb_spec SSize 2);
    cbn; auto.
Qed.

Lemma sgn_abs_value b :
  static_int_valid b →
  Z.sgn (st_mp_size b) * Z.abs (mpz_value (get_mpz_view b)) = mpz_value (get_mpz_view b)
  ∧ Z.sgn (- st_mp_size b) * Z.abs (mpz_value (get_mpz_view b))
    = - mpz_value (get_mpz_view b).
Proof.
  intros Hv. destruct (static_magnitude Hcfg b Hv) as (Hm & Hr & _ & _).
  rewrite Hm. remember (mpn_value _) as N eqn:EN. clear EN Hm. rewrite Z.sgn_opp.
  destruct (Z.sgn_spec (st_mp_size b)) as [[_ ->]|[[_ ->]|[_ ->]]]; lia.
Qed.

(** The static path of [add] and [sub]: on success the destination is a
    valid static integer with the sum (the difference), on failure the
    store is as it was.  For a subtraction the statement covers the
    one- and two-limb kernels. *)
Lemma run_static_addsub σ (AddOrSub : bool) rop op1 op2 r a b :
  objs σ !! rop = Some (m_st r) → objs σ !! op1 = Some (m_st a) →
  objs σ !! op2 = Some (m_st b) →
  static_int_valid r → static_int_valid a → static_int_valid b →
  AddOrSub = true ∨ static_add_algo ≠ 0 →
  ∃ ok σ', static_addsub AddOrSub rop op1 op2 σ = (Ret ok, σ')
    ∧ (ok = true →
       kernel_post σ σ' rop
         (mpz_value (get_mpz_view a)
          + (if AddOrSub then mpz_value (get_mpz_view b) else - mpz_value (get_mpz_view b))))
    ∧ (ok = false → σ' = σ).
Proof.
  intros Hr H1 H2 Hvr Hva Hvb Hmode.
  pose proof (static_addsub_untouched AddOrSub rop op1 op2) as Hunt.
  destruct (pre_valid_of_valid a Hva) as (_ & Haa & _).
  destruct (pre_valid_of_valid b Hvb) as (_ & Hab & _).
  destruct (sgn_abs_value b Hvb) as [Hpos Hneg].
  cut (∃ ok σ', static_addsub AddOrSub rop op1 op2 σ = (Ret ok, σ')
         ∧ (ok = true →
            kernel_post σ σ' rop
              (mpz_value (get_mpz_view a)
               + (if AddOrSub then mpz_value (get_mpz_view b)
                  else - mpz_value (get_mpz_view b))))).
  { intros (ok & σ' & Hk & Hpost). exists ok, σ'. split; [done|]. split; [done|].
    intros ->. by apply Hunt. }
  unfold static_addsub.
  rewrite (run_bind_ret _ _ _ _ _ (run_load_size σ op1 a H1 Haa)).
  rewrite (run_bind_ret _ _ _ _ _ (run_load_size σ op2 b H2 Hab)).
  rewrite !asize_sign_spec.
  remember (if AddOrSub then st_mp_size b else - st_mp_size b) as s2 eqn:Es2.
  assert (Hs2 : s2 = st_mp_size b ∨ s2 = - st_mp_size b)
    by (subst s2; destruct AddOrSub; auto).
  assert (Hval : Z.sgn s2 * Z.abs (mpz_value (get_mpz_view b))
                 = if AddOrSub then mpz_value (get_mpz_view b)
                   else - mpz_value (get_mpz_view b))
    by (subst s2; destruct AddOrSub; done).
  unfold static_add_impl.
  destruct static_add_algo_cases as [(E & HS & HN)|[(E & HS & HN)|E]]; rewrite E;
    cbn [Z.eqb Pos.eqb].
  - destruct (run_static_add_impl_1 Hcfg HS HN σ rop op1 op2 r a b s2 Hr H1 H2 Hvr Hva Hvb Hs2)
      as (ok & σ' & Hk & Hpost).
    exists ok, σ'. rewrite (run_bind_ret _ _ _ _ _ Hk). cbn [andb when].
    split; [by rewrite run_bind, run_mret|]. rewrite <- Hval. exact Hpost.
  - destruct (run_static_add_impl_2 Hcfg HS HN σ rop op1 op2 r a b s2 Hr H1 H2 Hvr Hva Hvb Hs2)
      as (ok & σ' & Hk & Hpost).
    exists ok, σ'. rewrite (run_bind_ret _ _ _ _ _ Hk). cbn [andb when].
    split; [by rewrite run_bind, run_mret|]. rewrite <- Hval. exact Hpost.
  - destruct Hmode as [->|Hne]; [|done]. subst s2.
    destruct (run_static_add_impl_0 Hcfg σ rop op1 op2 r a b Hr H1 H2 Hvr Hva Hvb)
      as (ok & σ' & Hk & Hpost).
    rewrite (run_bind_ret _ _ _ _ _ Hk). cbn [andb].
    destruct ok.
    + destruct (Hpost eq_refl) as (R & -> & Hpre).
      assert (HaR : st_mp_alloc R = s_alloc) by apply Hpre.
      cbn [when].
      rewrite (run_bind_ret _ _ _ _ _
                 (run_zero_unused_limbs_at _ rop R (lookup_upd_eq _ _ _) HaR)).
      rewrite run_mret, upd_upd.
      exists true, (upd σ rop (m_st (zero_unused_limbs R))). split; [done|]. intros _.
      exists (zero_unused_limbs R). split; [done|].
      exact (pre_valid_zero_unused Hcfg R _ Hpre).
    + exists false, σ'. cbn [when]. split; [by rewrite run_bind, run_mret|discriminate].
Qed.

(** The generic kernel takes the size word of the second operand as it
    is stored, also when [static_addsub] was asked to subtract: with a
    zero first operand the second operand is copied unchanged. *)
Lemma run_static_addsub_sub_zero σ rop op1 op2 r a b :
  static_add_algo = 0 →
  objs σ !! rop = Some (m_st r) → objs σ !! op1 = Some (m_st a) →
  objs σ !! op2 = Some (m_st b) →
  static_int_valid r → static_int_valid a → static_int_valid b →
  st_mp_size a = 0 →
  ∃ σ', static_addsub false rop op1 op2 σ = (Ret true, σ')
    ∧ kernel_post σ σ' rop (mpz_value (get_mpz_view b)).
Proof.
  intros E Hr H1 H2 Hvr Hva Hvb Hza.
  destruct (pre_valid_of_valid a Hva) as (_ & Haa & _).
  destruct (pre_valid_of_valid b Hvb) as (_ & Hab & _).
  destruct (static_magnitude Hcfg a Hva) as (Hma & _ & _ & Hzero).
  destruct (static_magnitude Hcfg b Hvb) as (Hmb & _ & _ & _).
  assert (Hkernel : ∃ R, static_add_impl_0 rop op1 op2 (Z.abs (st_mp_size a))
                           (Z.abs (- st_mp_size b)) (Z.sgn (st_mp_size a))
                           (Z.sgn (- st_mp_size b)) σ = (Ret true, upd σ rop (m_st R))
                    ∧ pre_valid R (mpz_value (get_mpz_view b))).
  { unfold static_add_impl_0.
    rewrite (run_bind_ret _ _ _ _ _ (run_load_size σ op1 a H1 Haa)).
    rewrite (run_bind_ret _ _ _ _ _ (run_load_size σ op2 b H2 Hab)).
    rewrite Z.abs_opp.
    destruct (Z.eqb_spec (Z.sgn (- st_mp_size b)) 0) as [Eb|Eb].
    - destruct (run_copy_operand σ rop op1 r a Hr H1 Hvr Hva) as (R & Hrun & Hpre).
      exists R. split; [exact Hrun|].
      assert (Hzb : st_mp_size b = 0) by (clear -Eb; lia).
      replace (mpz_value (get_mpz_view b)) with (mpz_value (get_mpz_view a)); [done|].
      rewrite Hma, Hmb, Hza, Hzb. reflexivity.
    - destruct (Z.eqb_spec (Z.sgn (st_mp_size a)) 0) as [_|Hc];
        [|by rewrite Hza in Hc].
      destruct (run_copy_operand σ rop op2 r b Hr H2 Hvr Hvb) as (R & Hrun & Hpre).
      exists R. split; [exact Hrun|exact Hpre]. }
  destruct Hkernel as (R & Hk & Hpre).
  assert (HaR : st_mp_alloc R = s_alloc) by apply Hpre.
  unfold static_addsub.
  rewrite (run_bind_ret _ _ _ _ _ (run_load_size σ op1 a H1 Haa)).
  rewrite (run_bind_ret _ _ _ _ _ (run_load_size σ op2 b H2 Hab)).
  rewrite !asize_sign_spec. unfold static_add_impl. rewrite E. cbn [Z.eqb].
  rewrite (run_bind_ret _ _ _ _ _ Hk). cbn [andb when].
  rewrite (run_bind_ret _ _ _ _ _
             (run_zero_unused_limbs_at _ rop R (lookup_upd_eq _ _ _) HaR)).
  rewrite run_mret, upd_upd.
  exists (upd σ rop (m_st (zero_unused_limbs R))). split; [done|].
  exists (zero_unused_limbs R). split; [done|].
  exact (pre_valid_zero_unused Hcfg R _ Hpre).
Qed.

(** The shape shared by [add] and [sub]: static fast path, else the
    backend on a promoted destination. *)
Lemma run_addsub_entry (AddOrSub : bool)
    (op : mpz_struct_t → mpz_struct_t → mpz_struct_t → mpz_struct_t)
    (f : Z → Z → Z) σ rop op1 op2 ur u1 u2 :
  (∀ d x y, op d x y = mpz_put d (f (mpz_value x) (mpz_value y))) →
  (∀ x y, f x y = x + (if AddOrSub then y else - y)) →
  objs σ !! rop = Some ur → objs σ !! op1 = Some u1 → objs σ !! op2 = Some u2 →
  integer_valid ur → integer_valid u1 → integer_valid u2 →
  cache_valid (cache σ) →
  AddOrSub = true ∨ static_add_algo ≠ 0 ∨ is_static ur && is_static u1 && is_static u2 = false →
  ∃ σ', (sr ← is_static_at rop;
         s1 ← is_static_at op1;
         s2 ← is_static_at op2;
         done ← (if sr && s1 && s2 then static_addsub AddOrSub rop op1 op2 else mret false);
         if done : bool then mret tt
         else
           when sr (promote rop (SSize + 1));;
           d ← g_dy rop;
           v1 ← mpz_view op1;
           v2 ← mpz_view op2;
           put_obj rop (m_dy (op d v1 v2))) σ = (Ret tt, σ')
    ∧ arith_post σ σ' rop (f (integer_value u1) (integer_value u2)).
Proof.
  intros Hop Hf Hr H1 H2 Hvr Hv1 Hv2 Hc Hmode.
  assert (Hn : 0 ≤ SSize + 1 ≤ 65) by (destruct Hcfg; lia).
  pose proof (run_arith_backend Hcfg op f σ rop op1 op2 ur u1 u2 (SSize + 1)
                Hop Hr H1 H2 Hvr Hv1 Hv2 Hc Hn) as Hback.
  rewrite (run_bind_ret _ _ _ _ _ (run_is_static_at σ rop ur Hr)).
  rewrite (run_bind_ret _ _ _ _ _ (run_is_static_at σ op1 u1 H1)).
  rewrite (run_bind_ret _ _ _ _ _ (run_is_static_at σ op2 u2 H2)).
  destruct (is_static ur && is_static u1 && is_static u2) eqn:Eall.
  - apply andb_prop in Eall as [Eall E2]. apply andb_prop in Eall as [Er E1].
    rewrite (valid_is_static ur Hvr) in Er. rewrite (valid_is_static u1 Hv1) in E1.
    rewrite (valid_is_static u2 Hv2) in E2.
    destruct ur as [r|]; [|discriminate]. destruct u1 as [a|]; [|discriminate].
    destruct u2 as [b|]; [|discriminate].
    assert (Hmode' : AddOrSub = true ∨ static_add_algo ≠ 0)
      by (destruct Hmode as [?|[?|?]]; [by left|by right|discriminate]).
    destruct (run_static_addsub σ AddOrSub rop op1 op2 r a b Hr H1 H2 Hvr Hv1 Hv2 Hmode')
      as (ok & σ' & Hk & Hpost & Hfail).
    rewrite (run_bind_ret _ _ _ _ _ Hk). destruct ok.
    + exists σ'. rewrite run_mret. split; [done|]. rewrite Hf.
      apply kernel_post_arith; [done|]. by apply Hpost.
    + rewrite (Hfail eq_refl). exact Hback.
  - rewrite run_bind, run_mret. exact Hback.
Qed.

End AddSubRun.

(** X12. [add(rop, op1, op2)] returns and leaves at [rop] a valid integer
    whose value is the sum of the values the operands had, whatever the
    storage classes of the three objects and whichever of them are the
    same object; every other object is left as it was. *)
Theorem add_correct (cfg : build_config) (Hcfg : config_ok cfg)
    (σ : state) (rop op1 op2 : loc) (ur u1 u2 : integer_union) :
  objs σ !! rop = Some ur → objs σ !! op1 = Some u1 → objs σ !! op2 = Some u2 →
  integer_valid ur → integer_valid u1 → integer_valid u2 →
  cache_valid (cache σ) →
  ∃ σ', add rop op1 op2 σ = (Ret tt, σ')
    ∧ arith_post σ σ' rop (integer_value u1 + integer_value u2).
Proof.
  intros Hr H1 H2 Hvr Hv1 Hv2 Hc.
  apply (run_addsub_entry Hcfg true mpz_add Z.add σ rop op1 op2 ur u1 u2); try done.
  by left.
Qed.

Lemma add_correct_witness :
  let cfg := config64 3 in
  let u1 := m_st (StaticInt (-1) 2 [2 ^ 64 - 1; 2 ^ 64 - 1; 0]) in
  let u2 := m_dy (MpzStruct 3 (-1) [1; 0; 0]) in
  let σ := State (<[1%positive := u1]> {[2%positive := u2]}) mpz_cache_default in
  ∃ σ', add 1%positive 1%positive 2%positive σ = (Ret tt, σ')
    ∧ arith_post σ σ' 1%positive (integer_value u1 + integer_value u2).
Proof.
  intros cfg u1 u2 σ.
  refine (add_correct cfg (config64_ok 3 _) σ 1%positive 1%positive 2%positive u1 u1 u2
            _ _ _ _ _ _ _).
  - lia.
  - reflexivity.
  - reflexivity.
  - reflexivity.
  - split; [split; [reflexivity | repeat apply List.Forall_cons; try apply List.Forall_nil; simpl; lia] | reflexivity].
  - split; [split; [reflexivity | repeat apply List.Forall_cons; try apply List.Forall_nil; simpl; lia] | reflexivity].
  - split; [simpl; lia | split; [simpl; lia | intros _; vm_compute; discriminate]].
  - reflexivity.
Defined.

(** X13. [sub(rop, op1, op2)] returns and leaves at [rop] a valid integer
    whose value is the difference of the values the operands had, under
    any aliasing, when the build uses the one- or two-limb kernel (no
    nail bits and a static size of one or two limbs) or when one of the
    three objects is dynamic. *)
Theorem sub_correct (cfg : build_config) (Hcfg : config_ok cfg)
    (σ : state) (rop op1 op2 : loc) (ur u1 u2 : integer_union) :
  objs σ !! rop = Some ur → objs σ !! op1 = Some u1 → objs σ !! op2 = Some u2 →
  integer_valid ur → integer_valid u1 → integer_valid u2 →
  cache_valid (cache σ) →
  static_add_algo ≠ 0 ∨ is_static ur && is_static u1 && is_static u2 = false →
  ∃ σ', sub rop op1 op2 σ = (Ret tt, σ')
    ∧ arith_post σ σ' rop (integer_value u1 - integer_value u2).
Proof.
  intros Hr H1 H2 Hvr Hv1 Hv2 Hc Hmode.
  apply (run_addsub_entry Hcfg false mpz_sub Z.sub σ rop op1 op2 ur u1 u2); try done.
  by right.
Qed.

Lemma sub_correct_witness :
  let cfg := config64 2 in
  let u1 := m_st (StaticInt (-1) 1 [5; 0]) in
  let u2 := m_st (StaticInt (-1) 2 [7; 1]) in
  let σ := State (<[1%positive := u1]> {[2%positive := u2]}) mpz_cache_default in
  ∃ σ', sub 1%positive 1%positive 2%positive σ = (Ret tt, σ')
    ∧ arith_post σ σ' 1%positive (integer_value u1 - integer_value u2).
Proof.
  intros cfg u1 u2 σ.
  refine (sub_correct cfg (config64_ok 2 _) σ 1%positive 1%positive 2%positive u1 u1 u2
            _ _ _ _ _ _ _ _).
  - lia.
  - reflexivity.
  - reflexivity.
  - reflexivity.
  - split; [split; [reflexivity | repeat apply List.Forall_cons; try apply List.Forall_nil; simpl; lia] | reflexivity].
  - split; [split; [reflexivity | repeat apply List.Forall_cons; try apply List.Forall_nil; simpl; lia] | reflexivity].
  - split; [split; [reflexivity | repeat apply List.Forall_cons; try apply List.Forall_nil; simpl; lia] | reflexivity].
  - reflexivity.
  - left. vm_compute. discriminate.
Defined.

(** X14. On a build that uses the generic kernel (nail bits, or a static
    size above two limbs), [sub(rop, op1, op2)] with three static
    objects and [op1] zero returns and leaves at [rop] the value of
    [op2] itself: the kernel stores the size word of [op2] as it finds
    it. *)
Theorem sub_generic_zero_minuend (cfg : build_config) (Hcfg : config_ok cfg)
    (σ : state) (rop op1 op2 : loc) (r a b : static_int) :
  static_add_algo = 0 →
  objs σ !! rop = Some (m_st r) → objs σ !! op1 = Some (m_st a) →
  objs σ !! op2 = Some (m_st b) →
  static_int_valid r → static_int_valid a → static_int_valid b →
  cache_valid (cache σ) →
  integer_value (m_st a) = 0 →
  ∃ σ', sub rop op1 op2 σ = (Ret tt, σ')
    ∧ arith_post σ σ' rop (integer_value (m_st b)).
Proof.
  intros E Hr H1 H2 Hvr Hva Hvb Hc Hzero.
  assert (Hza : st_mp_size a = 0).
  { destruct (Z.eq_dec (st_mp_size a) 0) as [?|Hnz]; [done|exfalso].
    destruct (static_magnitude Hcfg a Hva) as (Hma & Hra & Hlo & _).
    specialize (Hlo Hnz). cbn [integer_value] in Hzero. rewrite Hma in Hzero.
    pose proof (numb_bits_pos Hcfg) as Hnb.
    assert (0 < 2 ^ (GMP_NUMB_BITS * (Z.abs (st_mp_size a) - 1)))
      by (apply Z.pow_pos_nonneg; [lia|nia]).
    destruct (Z.sgn_spec (st_mp_size a)) as [[_ Es]|[[? _]|[_ Es]]];
      [rewrite Es in Hzero; lia | lia | rewrite Es in Hzero; lia]. }
  destruct (run_static_addsub_sub_zero Hcfg σ rop op1 op2 r a b E Hr H1 H2 Hvr Hva Hvb Hza)
    as (σ' & Hk & Hpost).
  unfold sub.
  rewrite (run_bind_ret _ _ _ _ _ (run_is_static_at σ rop _ Hr)).
  rewrite (run_bind_ret _ _ _ _ _ (run_is_static_at σ op1 _ H1)).
  rewrite (run_bind_ret _ _ _ _ _ (run_is_static_at σ op2 _ H2)).
  rewrite (valid_is_static (m_st r) Hvr), (valid_is_static (m_st a) Hva),
    (valid_is_static (m_st b) Hvb). cbn [andb].
  rewrite (run_bind_ret _ _ _ _ _ Hk), run_mret.
  exists σ'. split; [done|]. by apply kernel_post_arith.
Qed.

Lemma sub_generic_zero_minuend_witness :
  let cfg := config64 3 in
  let a := StaticInt (-1) 0 [0; 0; 0] in
  let b := StaticInt (-1) 1 [7; 0; 0] in
  let σ := State (<[1%positive := m_st a]> {[2%positive := m_st b]}) mpz_cache_default in
  ∃ σ', sub 1%positive 1%positive 2%positive σ = (Ret tt, σ')
    ∧ arith_post σ σ' 1%positive (integer_value (m_st b)).
Proof.
  intros cfg a b σ.
  refine (sub_generic_zero_minuend cfg (config64_ok 3 _) σ 1%positive 1%positive 2%positive
            a a b _ _ _ _ _ _ _ _ _).
  - lia.
  - reflexivity.
  - reflexivity.
  - reflexivity.
  - reflexivity.
  - split; [split; [reflexivity | repeat apply List.Forall_cons; try apply List.Forall_nil; simpl; lia] | reflexivity].
  - split; [split; [reflexivity | repeat apply List.Forall_cons; try apply List.Forall_nil; simpl; lia] | reflexivity].
  - split; [split; [reflexivity | repeat apply List.Forall_cons; try apply List.Forall_nil; simpl; lia] | reflexivity].
  - reflexivity.
  - reflexivity.
Defined.

(** ** Construction from finite floating-point values *)

Section FromFloatFinite.
Context {cfg : build_config} (Hcfg : config_ok cfg).

(** A value occupies at most [n] limbs exactly when its magnitude is
    below [2 ^ (GMP_NUMB_BITS * n)]. *)
Lemma nlimbs_of_le v (n : Z) :
  0 ≤ n →
  (Z.of_nat (nlimbs_of v) ≤ n ↔ Z.abs v < 2 ^ (GMP_NUMB_BITS * n)).
Proof.
  intros Hn. pose proof (numb_bits_pos Hcfg) as Hnb.
  assert (Hp : 0 < 2 ^ (GMP_NUMB_BITS * n)) by (apply Z.pow_pos_nonneg; [lia|nia]).
  destruct (Z.eq_dec v 0) as [->|Hnz].
  - rewrite (nlimbs_of_zero). cbn. split; [intros _; exact Hp|intros _; exact Hn].
  - destruct (nlimbs_of_spec Hcfg v Hnz) as (Hpos & Hlo & Hhi).
    remember (Z.of_nat (nlimbs_of v)) as k eqn:Ek. clear Ek. split.
    + intros Hle. assert (Hm : 0 ≤ k ≤ n) by lia.
      pose proof (pow_base_mono Hcfg k n Hm). lia.
    + intros Hlt. destruct (Z.le_gt_cases k n) as [?|Hgt]; [done|exfalso].
      assert (Hm : 0 ≤ n ≤ k - 1) by lia.
      pose proof (pow_base_mono Hcfg n (k - 1) Hm). lia.
Qed.

(** [ctor_from_mpz] on a fresh static integer and a backend result. *)
Lemma ctor_from_mpz_put rop v flag :
  let this := StaticInt s_alloc 0 (replicate (Z.to_nat SSize) 0) in
  let r := ctor_from_mpz this (MpzRaii (mpz_put rop v) flag) in
  (Z.of_nat (nlimbs_of v) ≤ SSize →
   fail_flag r.2 = flag ∧ static_int_valid r.1 ∧ mpz_value (get_mpz_view r.1) = v)
  ∧ (SSize < Z.of_nat (nlimbs_of v) →
     r = (static_int_default, MpzRaii (mpz_put rop v) true)).
Proof.
  intros this r.
  pose proof (mpz_put_size rop v) as Hsz. unfold mpz_size in Hsz.
  pose proof (mpz_put_valid Hcfg rop v) as Hval.
  pose proof (mpz_put_typed Hcfg rop v) as Hty.
  pose proof (mpz_put_value Hcfg rop v) as Hv.
  pose proof (SSize_range _ Hcfg) as HSS.
  unfold r, ctor_from_mpz, s_size. cbn [m_mpz fail_flag].
  remember (mpz_put rop v) as z eqn:Ez.
  split.
  - intros Hfit.
    destruct (Z.gtb_spec (mp_size z) SSize) as [?|_]; [lia|].
    destruct (Z.ltb_spec (mp_size z) (- SSize)) as [?|_]; [lia|].
    cbn [orb fst snd fail_flag]. split; [done|].
    assert (Hd : mpz_size z ≤ SSize) by (unfold mpz_size; lia).
    pose proof (demoted_valid Hcfg z Hval Hty Hd) as Hdem. cbv zeta in Hdem.
    assert (Hlen : (Z.to_nat (Z.abs (mp_size z)) ≤ length (mp_d z))%nat).
    { destruct Hval as (_ & Hb & _). lia. }
    assert (Heq : set_limbs (set_size static_int_default (mp_size z)) 0
                    (take (Z.to_nat (mpz_size z)) (mp_d z))
                  = StaticInt (st_mp_alloc this) (mp_size z)
                      (take (Z.to_nat (Z.abs (mp_size z))) (mp_d z)
                       ++ drop (Z.to_nat (Z.abs (mp_size z))) (m_limbs this))).
    { unfold set_limbs, set_size, static_int_default, this, mpz_size.
      cbn [st_mp_alloc st_mp_size m_limbs Z.to_nat take app Nat.add].
      by rewrite length_take, Nat.min_l by exact Hlen. }
    rewrite Heq in Hdem. rewrite Hv in Hdem. exact Hdem.
  - intros Hbig.
    assert (Hor : (mp_size z >? SSize) || (mp_size z <? - SSize) = true).
    { destruct (Z.gtb_spec (mp_size z) SSize); [done|].
      destruct (Z.ltb_spec (mp_size z) (- SSize)); [done|lia]. }
    rewrite Hor. reflexivity.
Qed.

Lemma run_from_float this ty x σ :
  isfinite x = true → cache_valid (cache σ) →
  allocatable (Z.of_nat (nlimbs_of (float_trunc x))) →
  ∃ u c', integer_union_from_float this ty x σ
          = (Ret tt, State (<[this := u]> (objs σ)) c')
    ∧ cache_valid c' ∧ integer_valid u
    ∧ integer_value u = float_trunc x
    ∧ is_static u = (Z.of_nat (nlimbs_of (float_trunc x)) <=? SSize).
Proof.
  intros Hfin Hc Hal.
  unfold integer_union_from_float, static_int_from_float. rewrite Hfin.
  cbn [negb mpz_raii_default fail_flag m_mpz assert].
  rewrite run_bind, run_mret.
  assert (Hz : (match ty with
                | cpp_float | cpp_double => mpz_set_d mpz_init x
                | cpp_long_double => mpfr_get_z_of_ld mpz_init x
                end) = mpz_put mpz_init (float_trunc x)) by (by destruct ty).
  rewrite Hz.
  destruct (ctor_from_mpz_put mpz_init (float_trunc x) false) as [Hfit Hbig].
  cbv zeta in Hfit, Hbig.
  destruct (ctor_from_mpz _ _) as [s mpz'] eqn:Ector.
  cbn [fst snd] in Hfit, Hbig.
  rewrite (run_bind_ret _ _ _ _ _ (run_put_obj σ this (m_st s))).
  destruct (Z.leb_spec (Z.of_nat (nlimbs_of (float_trunc x))) SSize) as [Hle|Hgt].
  - destruct (Hfit Hle) as (Hflag & Hvs & Hval). rewrite Hflag, run_mret.
    exists (m_st s), (cache σ). split; [done|]. split; [done|]. split; [done|].
    split; [done|]. by destruct (static_facts Hcfg s Hvs) as (_ & ? & _).
  - specialize (Hbig Hgt). injection Hbig as -> ->. cbn [fail_flag m_mpz].
    rewrite (run_bind_ret _ _ _ _ _
               (run_destroy_static _ this static_int_default (lookup_upd_eq _ _ _)
                  (static_int_default_valid Hcfg))).
    assert (Hal' : allocatable (mpz_size (mpz_put mpz_init (float_trunc x))))
      by (by rewrite mpz_put_size).
    destruct (run_mpz_init_set_cache Hcfg (mpz_put mpz_init (float_trunc x))
                (upd σ this (m_st static_int_default)) Hc Hal') as (m & c' & Hrun & Hc').
    rewrite (run_bind_ret _ _ _ _ _ Hrun), run_put_obj.
    destruct (mpz_set_facts Hcfg m (mpz_put mpz_init (float_trunc x)))
      as (Hvd & Hst & Hvald & _).
    exists (m_dy (mpz_set m (mpz_put mpz_init (float_trunc x)))), c'.
    split; [unfold upd; cbn [objs cache]; by rewrite insert_insert_eq|].
    split; [done|]. split; [done|].
    split; [cbn [integer_value]; by rewrite Hvald, (mpz_put_value Hcfg)|done].
Qed.

End FromFloatFinite.

(** X15. Constructing an integer from a finite [float], [double] or
    [long double] returns and leaves at the address a valid integer whose
    value is the argument truncated towards zero; the storage is static
    exactly when the magnitude of that value is below
    [2 ^ (GMP_NUMB_BITS * SSize)], and dynamic otherwise. *)
Theorem from_float_finite (cfg : build_config) (Hcfg : config_ok cfg)
    (σ : state) (this : loc) (ty : float_type) (x : spec_float) :
  isfinite x = true → cache_valid (cache σ) →
  allocatable (Z.of_nat (nlimbs_of (float_trunc x))) →
  ∃ u c', integer_union_from_float this ty x σ
          = (Ret tt, State (<[this := u]> (objs σ)) c')
    ∧ cache_valid c' ∧ integer_valid u
    ∧ integer_value u = float_trunc x
    ∧ (is_static u = true ↔ Z.abs (float_trunc x) < 2 ^ (GMP_NUMB_BITS * SSize)).
Proof.
  intros Hfin Hc Hal.
  destruct (run_from_float Hcfg this ty x σ Hfin Hc Hal) as (u & c' & Hrun & Hc' & Hv & Hval & Hst).
  exists u, c'. split; [done|]. split; [done|]. split; [done|]. split; [done|].
  rewrite Hst, Z.leb_le. apply (nlimbs_of_le Hcfg). destruct Hcfg. lia.
Qed.

Lemma from_float_finite_witness :
  let cfg := config64 1 in
  let x := S754_finite true 5 70 in
  let σ := State ∅ mpz_cache_default in
  ∃ u c', integer_union_from_float 1%positive cpp_double x σ
          = (Ret tt, State (<[1%positive := u]> (objs σ)) c')
    ∧ cache_valid c' ∧ integer_valid u
    ∧ integer_value u = float_trunc x
    ∧ (is_static u = true ↔ Z.abs (float_trunc x) < 2 ^ (GMP_NUMB_BITS * SSize)).
Proof.
  intros cfg x σ.
  refine (from_float_finite cfg (config64_ok 1 _) σ 1%positive cpp_double x _ _ _).
  - lia.
  - reflexivity.
  - reflexivity.
  - vm_compute. repeat split; discriminate.
Defined.

(** ** Multiplication *)

Section MulLimbs.
Context {cfg : build_config} (Hcfg : config_ok cfg).

Lemma pow_base_add (m n : Z) :
  0 ≤ m → 0 ≤ n →
  2 ^ (GMP_NUMB_BITS * (m + n)) = 2 ^ (GMP_NUMB_BITS * m) * 2 ^ (GMP_NUMB_BITS * n).
Proof.
  intros Hm Hn. pose proof (numb_bits_pos Hcfg). rewrite <- Z.pow_add_r by nia. f_equal. lia.
Qed.

Lemma pow_base_pos_Z (n : Z) : 0 ≤ n → 0 < 2 ^ (GMP_NUMB_BITS * n).
Proof. intros Hn. pose proof (numb_bits_pos Hcfg). apply Z.pow_pos_nonneg; [lia|nia]. Qed.

Lemma mpn_of_Z_take (k n : nat) v : (k ≤ n)%nat → take k (mpn_of_Z n v) = mpn_of_Z k v.
Proof.
  revert n v. induction k as [|k IH]; intros n v Hk; [done|].
  destruct n as [|n]; [lia|]. cbn [mpn_of_Z take]. f_equal. apply IH. lia.
Qed.

Lemma limb_at_of_Z (n : nat) v i :
  0 ≤ i < Z.of_nat n →
  limb_at (mpn_of_Z n v) i = (v / 2 ^ (GMP_NUMB_BITS * i)) mod 2 ^ GMP_NUMB_BITS.
Proof.
  pose proof (numb_bits_pos Hcfg) as Hnb. pose proof (base_pos Hcfg) as HB.
  revert v i. induction n as [|n IH]; intros v i Hi; [lia|].
  unfold limb_at. cbn [mpn_of_Z]. destruct (Z.eq_dec i 0) as [->|Hnz].
  - cbn [Z.to_nat nth]. by rewrite Z.mul_0_r, Z.pow_0_r, Z.div_1_r.
  - replace (Z.to_nat i) with (S (Z.to_nat (i - 1))) by lia. cbn [nth].
    fold (limb_at (mpn_of_Z n (v / 2 ^ GMP_NUMB_BITS)) (i - 1)).
    rewrite IH by lia. f_equal.
    rewrite Z.div_div by (try apply pow_base_pos_Z; lia). f_equal.
    replace i with (1 + (i - 1)) at 2 by lia.
    rewrite pow_base_add by lia. by rewrite Z.mul_1_r.
Qed.

Lemma mpn_of_Z_snoc (n : nat) v :
  mpn_of_Z (S n) v
  = mpn_of_Z n v ++ [(v / 2 ^ (GMP_NUMB_BITS * Z.of_nat n)) mod 2 ^ GMP_NUMB_BITS].
Proof.
  pose proof (base_pos Hcfg) as HB.
  revert v. induction n as [|n IH]; intros v.
  - cbn [mpn_of_Z app]. by rewrite Z.mul_0_r, Z.pow_0_r, Z.div_1_r.
  - change (mpn_of_Z (S (S n)) v)
      with (v mod 2 ^ GMP_NUMB_BITS :: mpn_of_Z (S n) (v / 2 ^ GMP_NUMB_BITS)).
    rewrite IH. cbn [mpn_of_Z app]. do 3 f_equal.
    rewrite Z.div_div by (try apply pow_base_pos_Z; lia). f_equal.
    replace (Z.of_nat (S n)) with (1 + Z.of_nat n) by lia.
    rewrite pow_base_add by lia. by rewrite Z.mul_1_r.
Qed.

Lemma div_top_small v (k : Z) :
  0 ≤ k → 0 ≤ v < 2 ^ (GMP_NUMB_BITS * (k + 1)) →
  0 ≤ v / 2 ^ (GMP_NUMB_BITS * k) < 2 ^ GMP_NUMB_BITS.
Proof.
  intros Hk Hv. pose proof (pow_base_pos_Z k Hk) as Hp.
  rewrite (pow_base_step Hcfg) in Hv by lia.
  split; [apply Z.div_pos; lia|]. apply Z.div_lt_upper_bound; lia.
Qed.

(** The top limb of a product that fits its buffer. *)
Lemma top_limb_of_Z (n : nat) v :
  (1 ≤ n)%nat → 0 ≤ v < 2 ^ (GMP_NUMB_BITS * Z.of_nat n) →
  limb_at (mpn_of_Z n v) (Z.of_nat n - 1) = v / 2 ^ (GMP_NUMB_BITS * (Z.of_nat n - 1)).
Proof.
  intros Hn Hv. rewrite limb_at_of_Z by lia. apply Z.mod_small.
  apply div_top_small; [lia|]. by replace (Z.of_nat n - 1 + 1) with (Z.of_nat n) by lia.
Qed.

(** The size of a product of two normalised magnitudes. *)
Lemma product_bounds N1 N2 n1 n2 :
  1 ≤ n1 → 1 ≤ n2 →
  2 ^ (GMP_NUMB_BITS * (n1 - 1)) ≤ N1 < 2 ^ (GMP_NUMB_BITS * n1) →
  2 ^ (GMP_NUMB_BITS * (n2 - 1)) ≤ N2 < 2 ^ (GMP_NUMB_BITS * n2) →
  2 ^ (GMP_NUMB_BITS * (n1 + n2 - 2)) ≤ N1 * N2 < 2 ^ (GMP_NUMB_BITS * (n1 + n2)).
Proof.
  intros H1 H2 [Hl1 Hh1] [Hl2 Hh2].
  pose proof (pow_base_pos_Z (n1 - 1) ltac:(lia)) as Hp1.
  pose proof (pow_base_pos_Z (n2 - 1) ltac:(lia)) as Hp2.
  rewrite pow_base_add by lia.
  replace (n1 + n2 - 2) with ((n1 - 1) + (n2 - 1)) by lia.
  rewrite pow_base_add by lia. split.
  - apply Z.mul_le_mono_nonneg; lia.
  - apply Z.mul_lt_mono_nonneg; lia.
Qed.

(** What the [mpn] call selected by the sizes, and the store of [hi],
    leave at [res_data]. *)
Lemma run_mul_product σ op1 op2 a b n1 n2 :
  objs σ !! op1 = Some (m_st a) → objs σ !! op2 = Some (m_st b) →
  st_mp_alloc a = s_alloc → st_mp_alloc b = s_alloc →
  1 ≤ n1 ≤ Z.of_nat (length (m_limbs a)) → 1 ≤ n2 ≤ Z.of_nat (length (m_limbs b)) →
  let P := mpn_value (take (Z.to_nat n1) (m_limbs a))
           * mpn_value (take (Z.to_nat n2) (m_limbs b)) in
  (if n2 =? 1 then
     x ← load_limbs op1 0 n1;
     d2 ← load_limb op2 0;
     let '(r, hi) := mpn_mul_1 x d2 in
     mret (r ++ [hi], hi)
   else if n1 =? 1 then
     y ← load_limbs op2 0 n2;
     d1 ← load_limb op1 0;
     let '(r, hi) := mpn_mul_1 y d1 in
     mret (r ++ [hi], hi)
   else if n1 =? n2 then
     x ← load_limbs op1 0 n1;
     y ← load_limbs op2 0 n1;
     let r := mpn_mul_n x y in
     mret (r, limb_at r (2 * n1 - 1))
   else if n1 >=? n2 then
     x ← load_limbs op1 0 n1;
     y ← load_limbs op2 0 n2;
     mret (mpn_mul x y)
   else
     x ← load_limbs op1 0 n1;
     y ← load_limbs op2 0 n2;
     mret (mpn_mul y x)) σ
  = (Ret (mpn_of_Z (Z.to_nat (n1 + n2)) P, P / 2 ^ (GMP_NUMB_BITS * (n1 + n2 - 1))), σ).
Proof.
  intros H1 H2 Ha Hb Hn1 Hn2. cbv zeta.
  pose proof (prefix_bound Hcfg (m_limbs a) n1 ltac:(lia)) as HN1.
  pose proof (prefix_bound Hcfg (m_limbs b) n2 ltac:(lia)) as HN2.
  assert (Hl1 : length (take (Z.to_nat n1) (m_limbs a)) = Z.to_nat n1)
    by (rewrite length_take; lia).
  assert (Hl2 : length (take (Z.to_nat n2) (m_limbs b)) = Z.to_nat n2)
    by (rewrite length_take; lia).
  pose proof (run_load_prefix σ op1 a n1 H1 Ha ltac:(lia)) as Hload1.
  pose proof (run_load_prefix σ op2 b n2 H2 Hb ltac:(lia)) as Hload2.
  assert (Hd1 : n1 = 1 → mpn_value [limb_at (m_limbs a) 0]
                          = mpn_value (take (Z.to_nat n1) (m_limbs a))).
  { intros ->. change (Z.to_nat 1) with 1%nat. by rewrite take_1_limb by lia. }
  assert (Hd2 : n2 = 1 → mpn_value [limb_at (m_limbs b) 0]
                          = mpn_value (take (Z.to_nat n2) (m_limbs b))).
  { intros ->. change (Z.to_nat 1) with 1%nat. by rewrite take_1_limb by lia. }
  remember (mpn_value (take (Z.to_nat n1) (m_limbs a))) as N1 eqn:EN1.
  remember (mpn_value (take (Z.to_nat n2) (m_limbs b))) as N2 eqn:EN2.
  assert (HP : 0 ≤ N1 * N2 < 2 ^ (GMP_NUMB_BITS * (n1 + n2))).
  { rewrite pow_base_add by lia. split; [apply Z.mul_nonneg_nonneg; lia|].
    apply Z.mul_lt_mono_nonneg; lia. }
  remember (N1 * N2) as P eqn:EP.
  assert (Hone : ∀ (k : Z), 1 ≤ k → k + 1 = n1 + n2 →
            mpn_of_Z (Z.to_nat k) P ++ [P / 2 ^ (GMP_NUMB_BITS * Z.of_nat (Z.to_nat k))]
            = mpn_of_Z (Z.to_nat (n1 + n2)) P
            ∧ P / 2 ^ (GMP_NUMB_BITS * Z.of_nat (Z.to_nat k))
              = P / 2 ^ (GMP_NUMB_BITS * (n1 + n2 - 1))).
  { intros k Hk Hs. rewrite <- Hs. replace (Z.to_nat (k + 1)) with (S (Z.to_nat k)) by lia.
    rewrite mpn_of_Z_snoc, Z2Nat.id by lia. replace (k + 1 - 1) with k by lia.
    split; [|done]. do 2 f_equal. symmetry. apply Z.mod_small.
    apply div_top_small; [lia|by rewrite Hs]. }
  assert (Htop : ∀ (k : nat), Z.of_nat k = n1 + n2 →
            mpn_of_Z k P = mpn_of_Z (Z.to_nat (n1 + n2)) P
            ∧ limb_at (mpn_of_Z k P) (Z.of_nat k - 1)
              = P / 2 ^ (GMP_NUMB_BITS * (n1 + n2 - 1))).
  { intros k Hk. split; [f_equal; lia|].
    rewrite top_limb_of_Z by (rewrite ?Hk; lia). by rewrite Hk. }
  destruct (Z.eqb_spec n2 1) as [E2|N2'].
  - rewrite (run_bind_ret _ _ _ _ _ Hload1).
    rewrite (run_bind_ret _ _ _ _ _ (run_load_limb σ op2 b 0 H2 Hb ltac:(lia))).
    unfold mpn_mul_1. cbv zeta. rewrite run_mret, Hl1, <- EN1, (Hd2 E2), <- EP.
    destruct (Hone n1 ltac:(lia) ltac:(lia)) as [-> ->]. done.
  - destruct (Z.eqb_spec n1 1) as [E1|N1'].
    + rewrite (run_bind_ret _ _ _ _ _ Hload2).
      rewrite (run_bind_ret _ _ _ _ _ (run_load_limb σ op1 a 0 H1 Ha ltac:(lia))).
      unfold mpn_mul_1. cbv zeta. rewrite run_mret, Hl2, <- EN2, (Hd1 E1).
      rewrite (Z.mul_comm N2 N1), <- EP.
      destruct (Hone n2 ltac:(lia) ltac:(lia)) as [-> ->]. done.
    + destruct (Z.eqb_spec n1 n2) as [E|N].
      * subst n2. rewrite (run_bind_ret _ _ _ _ _ Hload1), (run_bind_ret _ _ _ _ _ Hload2).
        unfold mpn_mul_n, mpn_mul. cbv zeta. cbn [fst].
        rewrite run_mret, Hl1, Hl2, <- EN1, <- EN2, <- EP.
        destruct (Htop (Z.to_nat n1 + Z.to_nat n1)%nat ltac:(lia)) as [Ha1 Ha2].
        replace (2 * n1 - 1) with (Z.of_nat (Z.to_nat n1 + Z.to_nat n1) - 1) by lia.
        by rewrite Ha2, Ha1.
      * destruct (n1 >=? n2);
          rewrite (run_bind_ret _ _ _ _ _ Hload1), (run_bind_ret _ _ _ _ _ Hload2);
          unfold mpn_mul; cbv zeta; rewrite run_mret, Hl1, Hl2, <- EN1, <- EN2.
        -- rewrite <- EP.
           destruct (Htop (Z.to_nat n1 + Z.to_nat n2)%nat ltac:(lia)) as [-> ->]. done.
        -- rewrite (Z.mul_comm N2 N1), <- EP.
           destruct (Htop (Z.to_nat n2 + Z.to_nat n1)%nat ltac:(lia)) as [-> ->]. done.
Qed.

(** The destination after a product of [n] limbs was stored with its
    sign. *)
Lemma mul_result_valid R vs (n : nat) sg P :
  limbs_typed SSize (m_limbs R) → st_mp_alloc R = s_alloc →
  Forall (λ x, 0 ≤ x < 2 ^ GMP_LIMB_BITS) vs →
  (length vs ≤ length (m_limbs R))%nat → (1 ≤ n ≤ length vs)%nat →
  take n vs = mpn_of_Z n P →
  2 ^ (GMP_NUMB_BITS * (Z.of_nat n - 1)) ≤ P < 2 ^ (GMP_NUMB_BITS * Z.of_nat n) →
  sg = 1 ∨ sg = -1 →
  pre_valid (set_size (set_limbs R 0 vs) (sg * Z.of_nat n)) (sg * P).
Proof.
  intros Ht Ha Hvs Hlen Hn Htake HP Hsg.
  assert (HlR : Z.of_nat (length (m_limbs R)) = SSize) by apply Ht.
  assert (Hp0 : 0 < 2 ^ (GMP_NUMB_BITS * (Z.of_nat n - 1))) by (apply pow_base_pos_Z; lia).
  assert (Hval : mpn_value (take n (m_limbs (set_limbs R 0 vs))) = P).
  { rewrite set_limbs_0_limbs, take_app_le by lia. rewrite Htake.
    apply (mpn_value_of_Z_small Hcfg). lia. }
  replace sg with (Z.sgn (sg * Z.of_nat n)) at 2 by (destruct Hsg as [-> | ->]; lia).
  apply (pre_valid_signed (set_limbs R 0 vs) (sg * Z.of_nat n) n P).
  - by apply set_limbs_0_typed.
  - done.
  - destruct Hsg as [-> | ->]; lia.
  - destruct Hsg as [-> | ->]; lia.
  - lia.
  - replace (Z.of_nat n - 1) with (Z.of_nat n - 1) by done.
    pose proof (buffer_top Hcfg (m_limbs (set_limbs R 0 vs)) (Z.of_nat n)) as Hbt.
    rewrite Nat2Z.id in Hbt. apply Hbt.
    + rewrite set_limbs_0_limbs, length_app, length_drop. lia.
    + rewrite Hval. lia.
  - exact Hval.
Qed.

End MulLimbs.

Section MulGeneric.
Context {cfg : build_config} (Hcfg : config_ok cfg).

(** The sign of a product of two nonzero static integers. *)
Lemma product_sign a b :
  static_int_valid a → static_int_valid b →
  st_mp_size a ≠ 0 → st_mp_size b ≠ 0 →
  let sg := if Z.sgn (st_mp_size a) =? Z.sgn (st_mp_size b) then 1 else -1 in
  (sg = 1 ∨ sg = -1)
  ∧ mpz_value (get_mpz_view a) * mpz_value (get_mpz_view b)
    = sg * (mpn_value (take (Z.to_nat (Z.abs (st_mp_size a))) (m_limbs a))
            * mpn_value (take (Z.to_nat (Z.abs (st_mp_size b))) (m_limbs b))).
Proof.
  intros Hva Hvb Hnza Hnzb sg.
  destruct (static_magnitude Hcfg a Hva) as (Hma & _).
  destruct (static_magnitude Hcfg b Hvb) as (Hmb & _).
  rewrite Hma, Hmb. unfold sg.
  remember (mpn_value (take (Z.to_nat (Z.abs (st_mp_size a))) (m_limbs a))) as N1.
  remember (mpn_value (take (Z.to_nat (Z.abs (st_mp_size b))) (m_limbs b))) as N2.
  destruct (Z.sgn_spec (st_mp_size a)) as [[_ ->]|[[? _]|[_ ->]]]; [|lia|];
    destruct (Z.sgn_spec (st_mp_size b)) as [[_ ->]|[[? _]|[_ ->]]]; try lia;
    (match goal with |- context [Z.eqb ?x ?y] => destruct (Z.eqb_spec x y) as [E|E] end);
    (split; [auto|lia]).
Qed.

Lemma pre_valid_zero_size r :
  limbs_typed SSize (m_limbs r) → st_mp_alloc r = s_alloc → pre_valid (set_size r 0) 0.
Proof.
  intros Ht Ha.
  pose proof (pre_valid_finish r 0 0 false 0 Ht Ha (Nat.le_refl 0)) as H.
  apply H; [destruct Hcfg; lia|done|done|done].
Qed.

Lemma set_limbs_set_size r s off vs :
  set_limbs (set_size r s) off vs = set_size (set_limbs r off vs) s.
Proof. reflexivity. Qed.

Lemma set_size_set_size r s s' : set_size (set_size r s) s' = set_size r s'.
Proof. reflexivity. Qed.

(** The generic kernel: success with the product at [rop], or a size
    hint and an untouched store. *)
Lemma run_static_mul_impl_0 σ rop op1 op2 r a b :
  objs σ !! rop = Some (m_st r) → objs σ !! op1 = Some (m_st a) →
  objs σ !! op2 = Some (m_st b) →
  static_int_valid r → static_int_valid a → static_int_valid b →
  ∃ hint σ', static_mul_impl_0 rop op1 op2 (Z.abs (st_mp_size a)) (Z.abs (st_mp_size b))
               (Z.sgn (st_mp_size a)) (Z.sgn (st_mp_size b)) σ = (Ret hint, σ')
    ∧ (hint = 0 →
       ∃ R, σ' = upd σ rop (m_st R)
         ∧ pre_valid R (mpz_value (get_mpz_view a) * mpz_value (get_mpz_view b)))
    ∧ (hint ≠ 0 →
       σ' = σ ∧ 0 < hint ≤ 2 * SSize
       ∧ 2 ^ (GMP_NUMB_BITS * SSize)
         ≤ Z.abs (mpz_value (get_mpz_view a) * mpz_value (get_mpz_view b))).
Proof.
  intros Hr H1 H2 Hvr Hva Hvb.
  destruct (pre_valid_of_valid r Hvr) as (Htr & Har & _).
  destruct (pre_valid_of_valid a Hva) as (Hta & Haa & Hsa & _).
  destruct (pre_valid_of_valid b Hvb) as (Htb & Hab & Hsb & _).
  destruct (static_magnitude Hcfg a Hva) as (Hma & Hra & Hloa & _).
  destruct (static_magnitude Hcfg b Hvb) as (Hmb & Hrb & Hlob & _).
  assert (Hlr : Z.of_nat (length (m_limbs r)) = SSize) by apply Htr.
  assert (Hla : Z.of_nat (length (m_limbs a)) = SSize) by apply Hta.
  assert (Hlb : Z.of_nat (length (m_limbs b)) = SSize) by apply Htb.
  unfold static_mul_impl_0.
  destruct (Z.eqb_spec (Z.sgn (st_mp_size a)) 0) as [Ea|Ea].
  { cbn [orb]. rewrite (run_bind_ret _ _ _ _ _ (run_store_size σ rop r 0 Hr Har)), run_mret.
    exists 0, (upd σ rop (m_st (set_size r 0))). split; [done|]. split; [|done].
    intros _. exists (set_size r 0). split; [done|].
    rewrite Hma, Ea, !Z.mul_0_l. by apply pre_valid_zero_size. }
  destruct (Z.eqb_spec (Z.sgn (st_mp_size b)) 0) as [Eb|Eb].
  { cbn [orb]. rewrite (run_bind_ret _ _ _ _ _ (run_store_size σ rop r 0 Hr Har)), run_mret.
    exists 0, (upd σ rop (m_st (set_size r 0))). split; [done|]. split; [|done].
    intros _. exists (set_size r 0). split; [done|].
    rewrite Hmb, Eb, Z.mul_0_l, Z.mul_0_r. by apply pre_valid_zero_size. }
  cbn [orb].
  assert (Hnza : st_mp_size a ≠ 0) by (clear -Ea; lia).
  assert (Hnzb : st_mp_size b ≠ 0) by (clear -Eb; lia).
  specialize (Hloa Hnza). specialize (Hlob Hnzb).
  destruct (product_sign a b Hva Hvb Hnza Hnzb) as [Hsg Hval]. cbv zeta in Hval.
  assert (Hn1 : 1 ≤ Z.abs (st_mp_size a) ≤ Z.of_nat (length (m_limbs a)))
    by (clear -Hnza Hsa Hla; lia).
  assert (Hn2 : 1 ≤ Z.abs (st_mp_size b) ≤ Z.of_nat (length (m_limbs b)))
    by (clear -Hnzb Hsb Hlb; lia).
  pose proof (run_mul_product Hcfg σ op1 op2 a b _ _ H1 H2 Haa Hab Hn1 Hn2) as Hprod.
  cbv zeta in Hprod.
  pose proof (product_bounds Hcfg _ _ _ _ (proj1 Hn1) (proj1 Hn2)
                (conj Hloa (proj2 Hra)) (conj Hlob (proj2 Hrb))) as HPb.
  remember (mpn_value (take (Z.to_nat (Z.abs (st_mp_size a))) (m_limbs a))
            * mpn_value (take (Z.to_nat (Z.abs (st_mp_size b))) (m_limbs b))) as P eqn:EP.
  remember (Z.abs (st_mp_size a)) as n1 eqn:En1.
  remember (Z.abs (st_mp_size b)) as n2 eqn:En2.
  remember (if Z.sgn (st_mp_size a) =? Z.sgn (st_mp_size b) then 1 else -1) as sg eqn:Esg.
  rewrite (run_bind_ret _ _ _ _ _ Hprod).
  rewrite Hval.
  assert (Hn12 : 1 ≤ n1 ∧ 1 ≤ n2 ∧ n1 ≤ SSize ∧ n2 ≤ SSize) by lia.
  clear Hprod Hval Hma Hmb Hra Hrb Hloa Hlob EP En1 En2 Hn1 Hn2 Hsa Hsb.
  assert (Hp1 : 0 < 2 ^ (GMP_NUMB_BITS * (n1 + n2 - 1)))
    by (apply (pow_base_pos_Z Hcfg); lia).
  assert (Hp2 : 0 < 2 ^ (GMP_NUMB_BITS * (n1 + n2 - 2)))
    by (apply (pow_base_pos_Z Hcfg); lia).
  assert (Hasz : ∃ n : nat,
            n1 + n2 - (if P / 2 ^ (GMP_NUMB_BITS * (n1 + n2 - 1)) =? 0 then 1 else 0)
            = Z.of_nat n
            ∧ (1 ≤ n)%nat ∧ Z.of_nat n ≤ n1 + n2
            ∧ 2 ^ (GMP_NUMB_BITS * (Z.of_nat n - 1)) ≤ P < 2 ^ (GMP_NUMB_BITS * Z.of_nat n)).
  { destruct (Z.eqb_spec (P / 2 ^ (GMP_NUMB_BITS * (n1 + n2 - 1))) 0) as [E0|E0].
    - exists (Z.to_nat (n1 + n2 - 1)). rewrite Z2Nat.id by lia.
      split; [done|]. split; [lia|]. split; [lia|].
      replace (n1 + n2 - 1 - 1) with (n1 + n2 - 2) by lia.
      split; [apply HPb|].
      apply Z.div_small_iff in E0 as [?|?]; lia.
    - exists (Z.to_nat (n1 + n2)). rewrite Z2Nat.id by lia.
      split; [lia|]. split; [lia|]. split; [lia|]. split; [|apply HPb].
      destruct (Z.lt_ge_cases P (2 ^ (GMP_NUMB_BITS * (n1 + n2 - 1)))) as [Hlt|?]; [|done].
      exfalso. apply E0. apply Z.div_small. lia. }
  destruct Hasz as (n & -> & Hn1' & Hnle & HPn).
  assert (Hsgn : (if negb (Z.sgn (st_mp_size a) =? Z.sgn (st_mp_size b))
                  then - Z.of_nat n else Z.of_nat n) = sg * Z.of_nat n).
  { subst sg. destruct (Z.sgn (st_mp_size a) =? Z.sgn (st_mp_size b)); cbn [negb]; lia. }
  clear Esg HPb.
  remember (negb (Z.sgn (st_mp_size a) =? Z.sgn (st_mp_size b))) as c eqn:Ec. clear Ec.
  assert (Hlres : length (mpn_of_Z (Z.to_nat (n1 + n2)) P) = Z.to_nat (n1 + n2))
    by apply mpn_of_Z_length.
  assert (Htake : take n (mpn_of_Z (Z.to_nat (n1 + n2)) P) = mpn_of_Z n P)
    by (apply mpn_of_Z_take; lia).
  assert (Htemp : ∃ hint σ',
            (if Z.of_nat n >? SSize then mret (Z.of_nat n)
             else
               store_size rop (Z.of_nat n);;
               when c (negate_size rop);;
               store_limbs rop 0 (take (Z.to_nat (Z.of_nat n))
                                    (mpn_of_Z (Z.to_nat (n1 + n2)) P));;
               mret 0) σ = (Ret hint, σ')
            ∧ (hint = 0 → ∃ R, σ' = upd σ rop (m_st R) ∧ pre_valid R (sg * P))
            ∧ (hint ≠ 0 → σ' = σ ∧ 0 < hint ≤ 2 * SSize
                          ∧ 2 ^ (GMP_NUMB_BITS * SSize) ≤ Z.abs (sg * P))).
  { destruct (Z.gtb_spec (Z.of_nat n) SSize) as [Hbig|Hfit].
    - exists (Z.of_nat n), σ. split; [done|]. split; [lia|]. intros _. split; [done|].
      split; [lia|].
      assert (Hm : 0 ≤ SSize ≤ Z.of_nat n - 1) by lia.
      pose proof (pow_base_mono Hcfg _ _ Hm) as Hmono.
      replace (Z.abs (sg * P)) with P by (destruct Hsg as [-> | ->]; lia). lia.
    - rewrite Nat2Z.id, Htake.
      rewrite (run_bind_ret _ _ _ _ _ (run_store_size σ rop r (Z.of_nat n) Hr Har)).
      rewrite (run_bind_ret _ _ _ _ _
                 (run_when_negate _ rop (set_size r (Z.of_nat n)) c
                    (lookup_upd_eq _ _ _) Har)), upd_upd.
      cbn [set_size st_mp_size st_mp_alloc m_limbs]. rewrite Hsgn.
      fold (set_size r (sg * Z.of_nat n)).
      assert (Hlen : (length (mpn_of_Z n P) ≤ length (m_limbs (set_size r (sg * Z.of_nat n))))%nat)
        by (rewrite mpn_of_Z_length; cbn [set_size m_limbs]; lia).
      rewrite (run_bind_ret _ _ _ _ _
                 (run_store_limbs_0 _ rop (set_size r (sg * Z.of_nat n)) (mpn_of_Z n P)
                    (lookup_upd_eq _ _ _) Har Hlen)), upd_upd, run_mret.
      rewrite set_limbs_set_size.
      eexists 0, _. split; [reflexivity|]. split; [|done]. intros _.
      eexists. split; [reflexivity|].
      apply (mul_result_valid Hcfg r (mpn_of_Z n P) n sg P); try done.
      + apply (mpn_of_Z_range Hcfg).
      + rewrite mpn_of_Z_length. lia.
      + apply take_ge. by rewrite mpn_of_Z_length. }
  destruct (negb (rop =? op1)%positive && negb (rop =? op2)%positive) eqn:Edist;
    cbn [andb].
  - destruct (Z.leb_spec (n1 + n2) SSize) as [Hfit|Hbig].
    + (* the product is written in place *)
      assert (Hlen : (length (mpn_of_Z (Z.to_nat (n1 + n2)) P) ≤ length (m_limbs r))%nat)
        by lia.
      rewrite (run_bind_ret _ _ _ _ _ (run_store_limbs_0 σ rop r _ Hr Har Hlen)).
      remember (set_limbs r 0 (mpn_of_Z (Z.to_nat (n1 + n2)) P)) as X eqn:EX.
      assert (HaX : st_mp_alloc X = s_alloc) by (by subst X).
      rewrite (run_bind_ret _ _ _ _ _
                 (run_store_size _ rop X (Z.of_nat n) (lookup_upd_eq _ _ _) HaX)), upd_upd.
      rewrite (run_bind_ret _ _ _ _ _
                 (run_when_negate _ rop (set_size X (Z.of_nat n)) c
                    (lookup_upd_eq _ _ _) HaX)), upd_upd.
      rewrite run_mret. cbn [set_size st_mp_size st_mp_alloc m_limbs]. rewrite Hsgn.
      fold (set_size X (sg * Z.of_nat n)). subst X.
      eexists 0, _. split; [reflexivity|]. split; [|done]. intros _.
      eexists. split; [reflexivity|].
      apply (mul_result_valid Hcfg r (mpn_of_Z (Z.to_nat (n1 + n2)) P) n sg P);
        try done; [apply (mpn_of_Z_range Hcfg)|lia].
    + exact Htemp.
  - exact Htemp.
Qed.

End MulGeneric.

Section MulSmallFacts.
Context {cfg : build_config} (Hcfg : config_ok cfg).

Lemma have_dlimb_mul_no_nails : have_dlimb_mul = true → GMP_NAIL_BITS = 0.
Proof.
  unfold have_dlimb_mul. intros H.
  destruct (MPPP_UINT128 && (GMP_NUMB_BITS =? 64));
    [|destruct (GMP_NUMB_BITS =? 32); [|done]];
    apply andb_prop in H as [H _]; by apply Z.eqb_eq in H.
Qed.

Lemma static_mul_algo_cases :
  (static_mul_algo = 1 ∧ SSize = 1 ∧ GMP_NAIL_BITS = 0)
  ∨ (static_mul_algo = 2 ∧ SSize = 2 ∧ GMP_NAIL_BITS = 0)
  ∨ static_mul_algo = 0.
Proof.
  unfold static_mul_algo, s_size. destruct have_dlimb_mul eqn:E.
  - pose proof (have_dlimb_mul_no_nails E).
    destruct (Z.eqb_spec SSize 1), (Z.eqb_spec SSize 2); cbn; auto.
  - rewrite !andb_false_r. auto.
Qed.

(** The double-limb product: low and high limb of the exact product. *)
Lemma dlimb_mul_spec x y :
  0 ≤ x < 2 ^ GMP_LIMB_BITS → 0 ≤ y < 2 ^ GMP_LIMB_BITS →
  ∃ lo hi, dlimb_mul x y = (lo, hi)
    ∧ 0 ≤ lo < 2 ^ GMP_LIMB_BITS ∧ 0 ≤ hi < 2 ^ GMP_LIMB_BITS
    ∧ x * y = lo + 2 ^ GMP_LIMB_BITS * hi.
Proof.
  intros Hx Hy. pose proof (limb_bits_pos Hcfg) as Hw.
  assert (HW2 : 2 ^ (2 * GMP_LIMB_BITS) = 2 ^ GMP_LIMB_BITS * 2 ^ GMP_LIMB_BITS).
  { rewrite <- Z.pow_add_r by lia. f_equal. lia. }
  unfold dlimb_mul, limb_wrap. cbv zeta. rewrite HW2, Z.shiftr_div_pow2 by lia.
  remember (2 ^ GMP_LIMB_BITS) as W eqn:EW.
  assert (HW : 0 < W) by (subst W; apply Z.pow_pos_nonneg; lia).
  assert (Hxy : 0 ≤ x * y < W * W) by nia.
  rewrite (Z.mod_small (x * y) (W * W)) by done.
  assert (Hq : 0 ≤ x * y / W < W).
  { split; [apply Z.div_pos; lia|]. apply Z.div_lt_upper_bound; lia. }
  rewrite (Z.mod_small (x * y / W) W) by done.
  exists ((x * y) mod W), (x * y / W).
  split; [done|]. split; [apply Z.mod_pos_bound; lia|]. split; [done|].
  assert (HWnz : W ≠ 0) by lia.
  pose proof (Z.div_mod (x * y) W HWnz) as Hdm. lia.
Qed.

End MulSmallFacts.

Section MulOneLimb.
Context {cfg : build_config} (Hcfg : config_ok cfg).
Context (HS : SSize = 1) (HN : GMP_NAIL_BITS = 0).

Lemma run_static_mul_impl_1 σ rop op1 op2 r a b n1 n2 :
  objs σ !! rop = Some (m_st r) → objs σ !! op1 = Some (m_st a) →
  objs σ !! op2 = Some (m_st b) →
  static_int_valid r → static_int_valid a → static_int_valid b →
  ∃ hint σ', static_mul_impl_1 rop op1 op2 n1 n2
               (Z.sgn (st_mp_size a)) (Z.sgn (st_mp_size b)) σ = (Ret hint, σ')
    ∧ (hint = 0 →
       kernel_post σ σ' rop (mpz_value (get_mpz_view a) * mpz_value (get_mpz_view b)))
    ∧ (hint ≠ 0 →
       σ' = σ ∧ 0 < hint ≤ 2 * SSize
       ∧ 2 ^ (GMP_NUMB_BITS * SSize)
         ≤ Z.abs (mpz_value (get_mpz_view a) * mpz_value (get_mpz_view b))).
Proof.
  intros Hr H1 H2 Hvr Hva Hvb.
  destruct (static_valid_limb1 Hcfg HS HN r Hvr) as (r0 & Hlr & Har & _).
  destruct (static_valid_limb1 Hcfg HS HN a Hva) as (d1 & Hla & Haa & Hd1 & Hsa & Hza & Hvala).
  destruct (static_valid_limb1 Hcfg HS HN b Hvb) as (d2 & Hlb & Hab & Hd2 & Hsb & Hzb & Hvalb).
  assert (Hlenr : length (m_limbs r) = 1%nat) by (by rewrite Hlr).
  assert (Hlena : length (m_limbs a) = 1%nat) by (by rewrite Hla).
  assert (Hlenb : length (m_limbs b) = 1%nat) by (by rewrite Hlb).
  pose proof (numb_is_limb HN) as HB.
  unfold static_mul_impl_1.
  rewrite (run_bind_ret _ _ _ _ _ (run_load_limb σ op1 a 0 H1 Haa ltac:(lia))).
  rewrite (run_bind_ret _ _ _ _ _ (run_load_limb σ op2 b 0 H2 Hab ltac:(lia))).
  rewrite Hla, Hlb. change (limb_at [d1] 0) with d1. change (limb_at [d2] 0) with d2.
  destruct (dlimb_mul_spec Hcfg d1 d2 Hd1 Hd2) as (lo & hi & Hdm & Hlo & Hhi & Hmul).
  rewrite Hdm. destruct (Z.eqb_spec hi 0) as [Eh|Eh]; cbn [negb].
  - subst hi. rewrite Z.mul_0_r, Z.add_0_r in Hmul.
    remember (if Z.sgn (st_mp_size a) =? Z.sgn (st_mp_size b) then 1 else -1) as sg eqn:Esg.
    assert (Hsg : sg = 1 ∨ sg = -1) by (subst sg; destruct (_ =? _); auto).
    assert (Hsz : (if negb (Z.sgn (st_mp_size a) =? Z.sgn (st_mp_size b))
                   then - (if negb (lo =? 0) then 1 else 0)
                   else (if negb (lo =? 0) then 1 else 0))
                  = if lo =? 0 then 0 else sg).
    { subst sg. destruct (lo =? 0), (Z.sgn (st_mp_size a) =? Z.sgn (st_mp_size b)); done. }
    assert (Hval : mpz_value (get_mpz_view a) * mpz_value (get_mpz_view b) = sg * lo).
    { rewrite Hvala, Hvalb. destruct (Z.eq_dec lo 0) as [E0|E0].
      - rewrite E0 in *. assert (d1 = 0 ∨ d2 = 0) as [-> | ->] by nia; lia.
      - assert (d1 ≠ 0 ∧ d2 ≠ 0) as [Hn1 Hn2] by nia.
        assert (st_mp_size a ≠ 0) by tauto. assert (st_mp_size b ≠ 0) by tauto.
        subst sg lo.
        destruct (Z.sgn_spec (st_mp_size a)) as [[_ ->]|[[? _]|[_ ->]]]; [|lia|];
          destruct (Z.sgn_spec (st_mp_size b)) as [[_ ->]|[[? _]|[_ ->]]]; try lia;
          (match goal with |- context [Z.eqb ?x ?y] => destruct (Z.eqb_spec x y) end);
          lia. }
    destruct (static1_intro Hcfg sg lo HS) as [Hv' Hval']; [rewrite HB; lia|done|].
    rewrite (run_bind_ret _ _ _ _ _ (run_store_size σ rop r _ Hr Har)).
    rewrite (run_bind_ret _ _ _ _ _
               (run_when_negate _ rop (set_size r (if negb (lo =? 0) then 1 else 0)) _
                  (lookup_upd_eq _ _ _) Har)), upd_upd.
    cbn [set_size st_mp_size st_mp_alloc m_limbs]. rewrite Hsz.
    fold (set_size r (if lo =? 0 then 0 else sg)).
    assert (Hidx : 0 ≤ 0 < Z.of_nat (length (m_limbs (set_size r (if lo =? 0 then 0 else sg)))))
      by (cbn [set_size m_limbs]; lia).
    rewrite (run_bind_ret _ _ _ _ _
               (run_store_limb _ rop (set_size r (if lo =? 0 then 0 else sg)) 0 lo
                  (lookup_upd_eq _ _ _) Har Hidx)), upd_upd, run_mret.
    rewrite (written1 r r0 _ _ Hlr Har).
    eexists 0, _. split; [reflexivity|]. split; [|done]. intros _.
    eexists. split; [reflexivity|]. split; [exact Hv'|]. by rewrite Hval.
  - exists 2, σ. split; [done|]. split; [lia|]. intros _. split; [done|]. split; [lia|].
    rewrite Hvala, Hvalb, HS, HB, Z.mul_1_r.
    remember (2 ^ GMP_LIMB_BITS) as W eqn:EW.
    assert (HW : W * 1 ≤ W * hi) by (apply Z.mul_le_mono_nonneg_l; lia).
    assert (Hnz : d1 ≠ 0 ∧ d2 ≠ 0) by (clear -Hmul HW Hlo Hd1; nia).
    destruct Hnz as [Hn1 Hn2].
    assert (Hsa' : st_mp_size a ≠ 0) by tauto. assert (Hsb' : st_mp_size b ≠ 0) by tauto.
    replace (Z.abs (Z.sgn (st_mp_size a) * d1 * (Z.sgn (st_mp_size b) * d2))) with (d1 * d2).
    + clear -Hmul HW Hlo. lia.
    + rewrite !Z.abs_mul.
      replace (Z.abs (Z.sgn (st_mp_size a))) with 1 by (clear -Hsa'; lia).
      replace (Z.abs (Z.sgn (st_mp_size b))) with 1 by (clear -Hsb'; lia).
      rewrite (Z.abs_eq d1), (Z.abs_eq d2) by lia. ring.
Qed.

End MulOneLimb.

Ltac mneg :=
  lazymatch goal with
  | |- (when ?c (negate_size ?x) ≫= ?f) ?σ = _ =>
      let H := fresh "Hstep" in
      eassert (H : when c (negate_size x) σ = (Ret _, _))
        by (eapply run_when_negate; [lookup_tac | side_tac]);
      rewrite (run_bind_ret _ f σ _ _ H); clear H; cbv beta
  end.

Section MulTwoLimbs.
Context {cfg : build_config} (Hcfg : config_ok cfg).
Context (HS : SSize = 2) (HN : GMP_NAIL_BITS = 0).

(** A two-limb result written with its sign. *)
Lemma mul2_result (c : bool) lo hi n :
  0 ≤ lo < 2 ^ GMP_LIMB_BITS → 0 ≤ hi < 2 ^ GMP_LIMB_BITS →
  n = (if hi =? 0 then (if lo =? 0 then 0 else 1) else 2) →
  let sg := if c then -1 else 1 in
  let R := StaticInt s_alloc (if c then - n else n) [lo; hi] in
  static_int_valid R
  ∧ mpz_value (get_mpz_view R) = sg * (lo + 2 ^ GMP_LIMB_BITS * hi).
Proof.
  intros Hlo Hhi -> sg R.
  assert (Hsg : sg = 1 ∨ sg = -1) by (unfold sg; destruct c; auto).
  destruct (static2_intro Hcfg sg lo hi HS HN Hlo Hhi Hsg) as [Hv Hval].
  cbv zeta in Hv, Hval.
  replace R with (StaticInt s_alloc
                    (if hi =? 0 then if lo =? 0 then 0 else sg else sg + sg) [lo; hi]);
    [done|].
  unfold R, sg. f_equal. destruct c, (hi =? 0), (lo =? 0); reflexivity.
Qed.

Lemma run_static_mul_impl_2 σ rop op1 op2 r a b :
  objs σ !! rop = Some (m_st r) → objs σ !! op1 = Some (m_st a) →
  objs σ !! op2 = Some (m_st b) →
  static_int_valid r → static_int_valid a → static_int_valid b →
  ∃ hint σ', static_mul_impl_2 rop op1 op2 (Z.abs (st_mp_size a)) (Z.abs (st_mp_size b))
               (Z.sgn (st_mp_size a)) (Z.sgn (st_mp_size b)) σ = (Ret hint, σ')
    ∧ (hint = 0 →
       kernel_post σ σ' rop (mpz_value (get_mpz_view a) * mpz_value (get_mpz_view b)))
    ∧ (hint ≠ 0 →
       σ' = σ ∧ 0 < hint ≤ 2 * SSize
       ∧ 2 ^ (GMP_NUMB_BITS * SSize)
         ≤ Z.abs (mpz_value (get_mpz_view a) * mpz_value (get_mpz_view b))).
Proof.
  intros Hr H1 H2 Hvr Hva Hvb.
  destruct (static_valid_limbs2 Hcfg HS HN r Hvr) as (r0 & r1 & Hlr & Har & _).
  destruct (static_valid_limbs2 Hcfg HS HN a Hva)
    as (a0 & a1 & Hla & Haa & Ha0 & Ha1 & Hsa & Hza & Hoa & Hta & Hvala).
  destruct (static_valid_limbs2 Hcfg HS HN b Hvb)
    as (b0 & b1 & Hlb & Hab & Hb0 & Hb1 & Hsb & Hzb & Hob & Htb & Hvalb).
  assert (Hlenr : length (m_limbs r) = 2%nat) by (by rewrite Hlr).
  assert (Hlena : length (m_limbs a) = 2%nat) by (by rewrite Hla).
  assert (Hlenb : length (m_limbs b) = 2%nat) by (by rewrite Hlb).
  rewrite Hvala, Hvalb.
  assert (HWW : 2 ^ (GMP_NUMB_BITS * SSize) = 2 ^ GMP_LIMB_BITS * 2 ^ GMP_LIMB_BITS).
  { rewrite HS, (numb_is_limb HN), <- Z.pow_add_r
      by apply Z.lt_le_incl, (limb_bits_pos Hcfg).
    f_equal. clear; lia. }
  rewrite HWW. clear HWW.
  remember (2 ^ GMP_LIMB_BITS) as W eqn:EW.
  assert (HW : 0 < W) by (subst W; apply Z.pow_pos_nonneg; [lia|apply Z.lt_le_incl, (limb_bits_pos Hcfg)]).
  (* the sign of the product *)
  remember (negb (Z.sgn (st_mp_size a) =? Z.sgn (st_mp_size b))) as c eqn:Ec.
  assert (Hsign : st_mp_size a ≠ 0 → st_mp_size b ≠ 0 →
            Z.sgn (st_mp_size a) * Z.sgn (st_mp_size b) = if c then -1 else 1).
  { intros Hnza Hnzb. subst c.
    destruct (Z.sgn_spec (st_mp_size a)) as [[_ ->]|[[? _]|[_ ->]]]; [|lia|];
      destruct (Z.sgn_spec (st_mp_size b)) as [[_ ->]|[[? _]|[_ ->]]]; try lia;
      (match goal with |- context [Z.eqb ?x ?y] => destruct (Z.eqb_spec x y) end);
      cbn [negb]; lia. }
  remember (Z.sgn (st_mp_size a)) as sg1 eqn:Esg1.
  remember (Z.sgn (st_mp_size b)) as sg2 eqn:Esg2.
  remember (Z.abs (st_mp_size a)) as n1 eqn:En1.
  remember (Z.abs (st_mp_size b)) as n2 eqn:En2.
  assert (Hn1 : n1 = 0 ∨ n1 = 1 ∨ n1 = 2) by (clear -En1 Hsa; lia).
  assert (Hn2 : n2 = 0 ∨ n2 = 1 ∨ n2 = 2) by (clear -En2 Hsb; lia).
  assert (Hz1 : n1 = 0 → sg1 = 0) by (clear -En1 Esg1; lia).
  assert (Hz2 : n2 = 0 → sg2 = 0) by (clear -En2 Esg2; lia).
  assert (Hnz1 : n1 ≠ 0 → st_mp_size a ≠ 0) by (clear -En1; lia).
  assert (Hnz2 : n2 ≠ 0 → st_mp_size b ≠ 0) by (clear -En2; lia).
  assert (Hza' : n1 = 0 → a0 = 0 ∧ a1 = 0) by (intros E; apply Hza; clear -En1 E; lia).
  assert (Hzb' : n2 = 0 → b0 = 0 ∧ b1 = 0) by (intros E; apply Hzb; clear -En2 E; lia).
  clear Hza Hzb Hsa Hsb En1 En2 Hvala Hvalb.
  unfold static_mul_impl_2. rewrite <- !Ec.
  destruct ((n1 =? 0) || (n2 =? 0)) eqn:Ezero.
  { (* a zero operand *)
    eexists 0, _. split.
    { mstep. mstep. mstep. rewrite run_mret, !upd_upd, (written2 r r0 r1 _ _ _ Hlr Har).
      reflexivity. }
    split; [|done]. intros _. eexists. split; [reflexivity|].
    assert (H0W : 0 ≤ 0 < 2 ^ GMP_LIMB_BITS) by (rewrite <- EW; clear -HW; lia).
    destruct (mul2_result false 0 0 0 H0W H0W eq_refl) as [Hv Hval].
    cbv zeta in Hv, Hval. split; [exact Hv|]. rewrite Hval.
    apply orb_prop in Ezero as [E|E]; apply Z.eqb_eq in E.
    - rewrite (Hz1 E). clear; lia.
    - rewrite (Hz2 E). clear; lia. }
  apply orb_false_elim in Ezero as [E1 E2].
  apply Z.eqb_neq in E1, E2.
  specialize (Hsign (Hnz1 E1) (Hnz2 E2)).
  assert (Hdm : ∀ x y, 0 ≤ x < W → 0 ≤ y < W →
            ∃ lo hi, dlimb_mul x y = (lo, hi) ∧ 0 ≤ lo < W ∧ 0 ≤ hi < W
                     ∧ x * y = lo + W * hi).
  { intros x y Hx Hy. rewrite EW in Hx, Hy |- *. by apply (dlimb_mul_spec Hcfg). }
  assert (Hres : ∀ lo hi n, 0 ≤ lo < W → 0 ≤ hi < W →
            n = (if hi =? 0 then (if lo =? 0 then 0 else 1) else 2) →
            static_int_valid (StaticInt s_alloc (if c then - n else n) [lo; hi])
            ∧ mpz_value (get_mpz_view (StaticInt s_alloc (if c then - n else n) [lo; hi]))
              = (if c then -1 else 1) * (lo + W * hi)).
  { intros lo hi n Hlo Hhi Hn. rewrite EW in Hlo, Hhi |- *. by apply mul2_result. }
  destruct r as [ra rs rl]. cbn [m_limbs st_mp_alloc] in Hlr, Har, Hlenr. subst ra rl.
  destruct ((n1 =? 1) && (n2 =? 1)) eqn:E11.
  { (* one limb times one limb *)
    apply andb_prop in E11 as [E11a E11b]. apply Z.eqb_eq in E11a, E11b.
    destruct (Hoa E11a) as [Ha0nz ->]. destruct (Hob E11b) as [Hb0nz ->].
    destruct (Hdm a0 b0 Ha0 Hb0) as (lo & hi & Hd & Hlo & Hhi & Hmul).
    eexists 0, _. split.
    { mstep. mstep. rewrite Hla, Hlb.
      change (limb_at [a0; 0] 0) with a0. change (limb_at [b0; 0] 0) with b0.
      rewrite Hd. mstep. mstep. mstep. mstep.
      mneg. rewrite run_mret, !upd_upd. reflexivity. }
    split; [|done]. intros _. eexists. split; [reflexivity|].
    rewrite E11a, E11b.
    match goal with
    | |- static_int_valid ?X ∧ _ =>
        change X with (StaticInt s_alloc
                         (if c then - (1 + 1 - (if hi =? 0 then 1 else 0))
                          else 1 + 1 - (if hi =? 0 then 1 else 0)) [lo; hi])
    end.
    destruct (Hres lo hi (1 + 1 - (if hi =? 0 then 1 else 0)) Hlo Hhi) as [Hv Hval].
    { destruct (Z.eqb_spec hi 0) as [Eh|Eh]; [|done].
      destruct (Z.eqb_spec lo 0) as [El|El]; [|done].
      exfalso. clear -Hmul Eh El Ha0nz Hb0nz. subst. nia. }
    split; [exact Hv|]. rewrite Hval, <- Hsign, <- Hmul. ring. }
  assert (Hcore : ∀ A B C, 0 ≤ A < W → 0 ≤ B < W → 0 ≤ C < W → B ≠ 0 → C ≠ 0 →
            sg1 * (a0 + W * a1) * (sg2 * (b0 + W * b1))
            = (if c then -1 else 1) * (C * (A + W * B)) →
            ∃ hint σ',
              (let '(ca_lo, ca_hi) := dlimb_mul C A in
               let '(cb_lo, cb_hi) := dlimb_mul C B in
               let '(tmp1, cy) := limb_add_overflow cb_lo ca_hi in
               if 2 + (if negb (limb_wrap (cb_hi + cy) =? 0) then 1 else 0) =? 2 then
                 store_size rop (2 + (if negb (limb_wrap (cb_hi + cy) =? 0) then 1 else 0));;
                 when c (negate_size rop);;
                 store_limb rop 0 ca_lo;;
                 store_limb rop 1 tmp1;;
                 mret 0
               else mret 4) σ = (Ret hint, σ')
              ∧ (hint = 0 →
                 kernel_post σ σ' rop (sg1 * (a0 + W * a1) * (sg2 * (b0 + W * b1))))
              ∧ (hint ≠ 0 →
                 σ' = σ ∧ 0 < hint ≤ 2 * SSize
                 ∧ W * W ≤ Z.abs (sg1 * (a0 + W * a1) * (sg2 * (b0 + W * b1))))).
  { intros A B C HA HB HC HBnz HCnz Hprod.
    destruct (Hdm C A HC HA) as (ca_lo & ca_hi & Hd1 & Hcalo & Hcahi & Hm1).
    destruct (Hdm C B HC HB) as (cb_lo & cb_hi & Hd2 & Hcblo & Hcbhi & Hm2).
    rewrite Hd1, Hd2.
    assert (Hcl : 0 ≤ cb_lo < 2 ^ GMP_LIMB_BITS) by (by rewrite <- EW).
    assert (Hch : 0 ≤ ca_hi < 2 ^ GMP_LIMB_BITS) by (by rewrite <- EW).
    destruct (limb_add_overflow_spec cb_lo ca_hi Hcl Hch)
      as (tmp1 & cy & Hao & Htmp1 & Hcy & Hsum).
    rewrite Hao. rewrite <- EW in Htmp1, Hsum.
    assert (Hcbhi' : cb_hi + cy < W).
    { assert (HW2 : 2 ≤ W).
      { rewrite EW, <- (numb_is_limb HN). apply (base_ge_2 Hcfg). }
      assert (Hle : C * B ≤ (W - 1) * (W - 1))
        by (apply Z.mul_le_mono_nonneg; clear -HB HC; lia).
      destruct (Z.lt_ge_cases cb_hi (W - 1)) as [Hlt'|Hge'];
        [clear -Hlt' Hcy; lia|exfalso].
      assert (W * (W - 1) ≤ W * cb_hi)
        by (apply Z.mul_le_mono_nonneg_l; clear -HW Hge'; lia).
      clear -Hle H Hm2 Hcblo HW2. nia. }
    rewrite (limb_wrap_small (cb_hi + cy))
      by (rewrite <- EW; clear -Hcbhi Hcy Hcbhi'; lia).
    assert (Htotal : C * (A + W * B) = ca_lo + W * tmp1 + W * W * (cb_hi + cy)).
    { clear -Hm1 Hm2 Hsum. nia. }
    destruct (Z.eqb_spec (cb_hi + cy) 0) as [E0|E0]; cbn [negb].
    - change (2 + 0 =? 2) with true. cbv iota.
      eexists 0, _. split.
      { mstep. mneg. mstep. mstep. rewrite run_mret, !upd_upd. reflexivity. }
      split; [|done]. intros _. eexists. split; [reflexivity|].
      match goal with
      | |- static_int_valid ?X ∧ _ =>
          change X with (StaticInt s_alloc (if c then Z.opp 2 else 2) [ca_lo; tmp1])
      end.
      destruct (Hres ca_lo tmp1 2 Hcalo Htmp1) as [Hv Hval].
      { destruct (Z.eqb_spec tmp1 0) as [Et|Et]; [|done]. exfalso.
        rewrite E0, Et in Htotal.
        assert (Hwb : W * 1 ≤ W * B)
          by (apply Z.mul_le_mono_nonneg_l; clear -HW HB HBnz; lia).
        assert (Hcb : 1 * (A + W * B) ≤ C * (A + W * B))
          by (apply Z.mul_le_mono_nonneg_r; clear -Hwb HA HC HCnz HW; lia).
        clear -Htotal Hwb Hcb HA Hcalo. lia. }
      split; [exact Hv|]. rewrite Hval, Hprod, Htotal, E0. ring.
    - change (2 + 1 =? 2) with false. cbv iota.
      exists 4, σ. split; [done|]. split; [done|]. intros _. split; [done|].
      split; [rewrite HS; clear; lia|].
      rewrite Hprod, Htotal.
      assert (Hww : 0 < W * W) by (apply Z.mul_pos_pos; exact HW).
      assert (Hbig : W * W * 1 ≤ W * W * (cb_hi + cy))
        by (apply Z.mul_le_mono_nonneg_l; clear -Hww Hcbhi Hcy E0; lia).
      assert (Hlow : 0 ≤ W * tmp1) by (apply Z.mul_nonneg_nonneg; clear -HW Htmp1; lia).
      destruct c; clear -Hbig Hlow Hcalo; lia. }
  destruct (Z.eqb_spec n1 n2) as [E12|E12]; cbn [negb].
  { exists 4, σ. split; [done|]. split; [done|]. intros _. split; [done|].
    split; [rewrite HS; clear; lia|].
    assert (En1 : n1 = 2).
    { destruct Hn1 as [?|[En|?]]; [done| |done]. subst n2. subst n1.
      discriminate E11. }
    assert (En2 : n2 = 2) by (by rewrite <- E12).
    pose proof (Hta En1) as Ha1nz. pose proof (Htb En2) as Hb1nz.
    replace (sg1 * (a0 + W * a1) * (sg2 * (b0 + W * b1)))
      with (sg1 * sg2 * ((a0 + W * a1) * (b0 + W * b1))) by ring.
    rewrite Hsign.
    assert (Hx : W * 1 ≤ W * a1) by (apply Z.mul_le_mono_nonneg_l; clear -HW Ha1 Ha1nz; lia).
    assert (Hy : W * 1 ≤ W * b1) by (apply Z.mul_le_mono_nonneg_l; clear -HW Hb1 Hb1nz; lia).
    assert (Hxy : W * W ≤ (a0 + W * a1) * (b0 + W * b1))
      by (apply Z.mul_le_mono_nonneg; clear -HW Hx Hy Ha0 Hb0; lia).
    destruct c; clear -Hxy; lia. }
  destruct (Z.ltb_spec n1 n2) as [Hlt|Hge].
  - (* one limb times two limbs *)
    assert (En1 : n1 = 1) by (clear -Hn1 Hn2 E1 E2 Hlt; lia).
    assert (En2 : n2 = 2) by (clear -Hn1 Hn2 E1 E2 Hlt; lia).
    destruct (Hoa En1) as [Ha0nz Ea1]. pose proof (Htb En2) as Hb1nz.
    assert (Hload : (a2 ← load_limb op2 0; b2 ← load_limb op2 1; c0 ← load_limb op1 0;
                     mret (a2, b2, c0)) σ = (Ret (b0, b1, a0), σ)).
    { mstep. mstep. mstep. by rewrite run_mret, Hla, Hlb. }
    destruct (Hcore b0 b1 a0 Hb0 Hb1 Ha0 Hb1nz Ha0nz) as (hint & σ' & Hrun & Hpost).
    { rewrite <- Hsign, Ea1. ring. }
    exists hint, σ'. split; [|exact Hpost].
    by rewrite (run_bind_ret _ _ _ _ _ Hload).
  - (* two limbs times one limb *)
    assert (En1 : n1 = 2) by (clear -Hn1 Hn2 E1 E2 E12 Hge; lia).
    assert (En2 : n2 = 1) by (clear -Hn1 Hn2 E1 E2 E12 Hge; lia).
    destruct (Hob En2) as [Hb0nz Eb1]. pose proof (Hta En1) as Ha1nz.
    assert (Hload : (a2 ← load_limb op1 0; b2 ← load_limb op1 1; c0 ← load_limb op2 0;
                     mret (a2, b2, c0)) σ = (Ret (a0, a1, b0), σ)).
    { mstep. mstep. mstep. by rewrite run_mret, Hla, Hlb. }
    destruct (Hcore a0 a1 b0 Ha0 Ha1 Hb0 Ha1nz Hb0nz) as (hint & σ' & Hrun & Hpost).
    { rewrite <- Hsign, Eb1. ring. }
    exists hint, σ'. split; [|exact Hpost].
    by rewrite (run_bind_ret _ _ _ _ _ Hload).
Qed.

End MulTwoLimbs.

Section MulRun.
Context {cfg : build_config} (Hcfg : config_ok cfg).

Lemma allocatable_1023 n : 0 ≤ n ≤ 1023 → allocatable n.
Proof.
  intros Hn. pose proof (numb_bits_pos Hcfg) as Hnb.
  assert (Hle : GMP_NUMB_BITS ≤ 64) by (unfold GMP_NUMB_BITS; destruct Hcfg; lia).
  assert (65535 ≤ SIZE_MAX ∧ 65535 ≤ BITCNT_MAX) as [Hsm Hbm] by (destruct Hcfg; lia).
  assert (1023 ≤ SIZE_MAX / GMP_NUMB_BITS) by (apply Z.div_le_lower_bound; lia).
  split; [lia|]. split; [lia|nia].
Qed.

(** Promotion with a size hint the allocator accepts. *)
Lemma run_promote_alloc σ l s n :
  objs σ !! l = Some (m_st s) → static_int_valid s → cache_valid (cache σ) →
  allocatable n →
  ∃ d c', promote l n σ = (Ret tt, State (<[l := m_dy d]> (objs σ)) c')
    ∧ cache_valid c' ∧ mpz_valid d ∧ mp_alloc d ≠ s_alloc
    ∧ mpz_value d = mpz_value (get_mpz_view s).
Proof.
  intros Hl Hv Hc Hn. unfold promote.
  destruct (dtor_checks_inv _ (proj2 Hv)) as (Ha & _).
  rewrite (run_bind_ret _ _ _ _ _ (run_get_obj _ _ _ Hl)).
  rewrite (valid_is_static (m_st s) Hv). cbn [assert].
  rewrite run_bind, run_mret.
  rewrite (run_bind_ret _ _ _ _ _ (run_g_st _ _ _ Hl Ha)).
  destruct (static_facts Hcfg s Hv) as (_ & _ & _ & Hal).
  assert (∃ m c', (if n =? 0 then mpz_init_set_cache (get_mpz_view s)
                   else t ← mpz_init_cache n; mret (mpz_set t (get_mpz_view s))) σ
                  = (Ret (mpz_set m (get_mpz_view s)), State (objs σ) c') ∧ cache_valid c')
    as (m & c' & Hrun & Hc').
  { destruct (n =? 0).
    - apply (run_mpz_init_set_cache Hcfg); done.
    - destruct (run_mpz_init_cache_alloc Hcfg n σ Hc Hn) as (m & c' & Hrun & Hc').
      exists m, c'. split; [|done]. by rewrite (run_bind_ret _ _ _ _ _ Hrun). }
  rewrite (run_bind_ret _ _ _ _ _ Hrun).
  rewrite (run_bind_ret _ _ _ _ _ (run_destroy_static (State (objs σ) c') l s Hl Hv)).
  rewrite run_put_obj. unfold upd. cbn [objs cache].
  eexists _, _. split; [reflexivity|]. split; [done|].
  unfold mpz_set. split; [apply (mpz_put_valid Hcfg)|]. split; [apply mpz_put_alloc|].
  apply (mpz_put_value Hcfg).
Qed.

Lemma run_when_promote_alloc σ l u n :
  objs σ !! l = Some u → integer_valid u → cache_valid (cache σ) → allocatable n →
  ∃ d c', when (is_static u) (promote l n) σ
          = (Ret tt, State (<[l := m_dy d]> (objs σ)) c')
    ∧ cache_valid c' ∧ mpz_valid d ∧ mpz_value d = integer_value u.
Proof.
  intros Hl Hv Hc Hn. rewrite (valid_is_static u Hv). destruct u as [s|d]; cbn [when].
  - destruct (run_promote_alloc σ l s n Hl Hv Hc Hn) as (d & c' & Hrun & Hc' & Hvd & _ & Hval).
    exists d, c'. by rewrite Hrun.
  - exists d, (cache σ). rewrite run_mret, (insert_id _ _ _ Hl). by destruct σ.
Qed.

(** The backend path of a binary operation, for any accepted hint: the
    result is a dynamic integer. *)
Lemma run_arith_backend_alloc
    (op : mpz_struct_t → mpz_struct_t → mpz_struct_t → mpz_struct_t)
    (f : Z → Z → Z) σ rop op1 op2 ur u1 u2 n :
  (∀ d x y, op d x y = mpz_put d (f (mpz_value x) (mpz_value y))) →
  objs σ !! rop = Some ur → objs σ !! op1 = Some u1 → objs σ !! op2 = Some u2 →
  integer_valid ur → integer_valid u1 → integer_valid u2 →
  cache_valid (cache σ) → allocatable n →
  ∃ d' c', (when (is_static ur) (promote rop n);;
            d ← g_dy rop;
            v1 ← mpz_view op1;
            v2 ← mpz_view op2;
            put_obj rop (m_dy (op d v1 v2))) σ
           = (Ret tt, State (<[rop := m_dy d']> (objs σ)) c')
    ∧ cache_valid c' ∧ mpz_valid d'
    ∧ mpz_value d' = f (integer_value u1) (integer_value u2).
Proof.
  intros Hop Hr H1 H2 Hvr Hv1 Hv2 Hc Hn.
  destruct (run_when_promote_alloc σ rop ur n Hr Hvr Hc Hn)
    as (d & c1 & Hrun1 & Hc1 & Hvd & Hvald).
  rewrite (run_bind_ret _ _ _ _ _ Hrun1).
  set (σ1 := State (<[rop := m_dy d]> (objs σ)) c1).
  assert (Hr1 : objs σ1 !! rop = Some (m_dy d)) by apply lookup_insert_eq.
  assert (Hkeep : ∀ l u, objs σ !! l = Some u → integer_valid u →
            ∃ u', objs σ1 !! l = Some u' ∧ integer_valid u'
                  ∧ integer_value u' = integer_value u).
  { intros l u Hl Hv. destruct (decide (l = rop)) as [->|Hlr].
    - exists (m_dy d). split; [done|]. split; [done|]. cbn. congruence.
    - exists u. cbn. by rewrite lookup_insert_ne. }
  assert (Had : mp_alloc d ≠ s_alloc) by (destruct Hvd; unfold s_alloc; lia).
  rewrite (run_bind_ret _ _ _ _ _ (run_g_dy _ _ _ Hr1 Had)).
  destruct (Hkeep op1 u1 H1 Hv1) as (u1' & H1' & Hv1' & Hval1).
  destruct (Hkeep op2 u2 H2 Hv2) as (u2' & H2' & Hv2' & Hval2).
  destruct (run_mpz_view σ1 op1 u1' H1' Hv1') as (v1 & Hrunv1 & Hvv1).
  destruct (run_mpz_view σ1 op2 u2' H2' Hv2') as (v2 & Hrunv2 & Hvv2).
  rewrite (run_bind_ret _ _ _ _ _ Hrunv1), (run_bind_ret _ _ _ _ _ Hrunv2), run_put_obj.
  exists (op d v1 v2), c1.
  split; [unfold upd, σ1; cbn [objs cache]; by rewrite insert_insert_eq|].
  split; [done|]. rewrite Hop.
  split; [apply (mpz_put_valid Hcfg)|].
  rewrite (mpz_put_value Hcfg). congruence.
Qed.

(** A valid static integer is below [2 ^ (GMP_NUMB_BITS * SSize)] in
    magnitude. *)
Lemma static_value_bound s :
  static_int_valid s →
  Z.abs (mpz_value (get_mpz_view s)) < 2 ^ (GMP_NUMB_BITS * SSize).
Proof.
  intros Hv. destruct (static_magnitude Hcfg s Hv) as (-> & Hlt & _).
  destruct (pre_valid_of_valid s Hv) as (_ & _ & Hsz & _).
  assert (Hm : 0 ≤ Z.abs (st_mp_size s) ≤ SSize) by (clear -Hsz; unfold s_size in *; lia).
  pose proof (pow_base_mono Hcfg _ _ Hm) as Hmono.
  rewrite Z.abs_mul.
  assert (Hs : 0 ≤ Z.abs (Z.sgn (st_mp_size s)) ≤ 1) by (clear; lia).
  rewrite (Z.abs_eq (mpn_value _)) by apply Hlt.
  remember (mpn_value _) as m. remember (2 ^ (GMP_NUMB_BITS * Z.abs (st_mp_size s))) as p.
  clear -Hs Hlt Hmono. nia.
Qed.

(** The static path of [mul]: the product at [rop], or a size hint and
    an untouched store. *)
Lemma run_static_mul σ rop op1 op2 r a b :
  objs σ !! rop = Some (m_st r) → objs σ !! op1 = Some (m_st a) →
  objs σ !! op2 = Some (m_st b) →
  static_int_valid r → static_int_valid a → static_int_valid b →
  ∃ hint σ', static_mul rop op1 op2 σ = (Ret hint, σ')
    ∧ (hint = 0 →
       kernel_post σ σ' rop (mpz_value (get_mpz_view a) * mpz_value (get_mpz_view b)))
    ∧ (hint ≠ 0 →
       σ' = σ ∧ 0 < hint ≤ 2 * SSize
       ∧ 2 ^ (GMP_NUMB_BITS * SSize)
         ≤ Z.abs (mpz_value (get_mpz_view a) * mpz_value (get_mpz_view b))).
Proof.
  intros Hr H1 H2 Hvr Hva Hvb.
  destruct (pre_valid_of_valid a Hva) as (_ & Haa & _).
  destruct (pre_valid_of_valid b Hvb) as (_ & Hab & _).
  unfold static_mul.
  rewrite (run_bind_ret _ _ _ _ _ (run_load_size σ op1 a H1 Haa)).
  rewrite (run_bind_ret _ _ _ _ _ (run_load_size σ op2 b H2 Hab)).
  rewrite !asize_sign_spec. unfold static_mul_impl.
  destruct static_mul_algo_cases as [(E & HS & HN)|[(E & HS & HN)|E]]; rewrite E;
    cbn [Z.eqb Pos.eqb].
  - destruct (run_static_mul_impl_1 Hcfg HS HN σ rop op1 op2 r a b
                (Z.abs (st_mp_size a)) (Z.abs (st_mp_size b)) Hr H1 H2 Hvr Hva Hvb)
      as (hint & σ' & Hk & Hpost).
    exists hint, σ'. rewrite (run_bind_ret _ _ _ _ _ Hk). cbn [andb when].
    split; [by rewrite run_bind, run_mret|exact Hpost].
  - destruct (run_static_mul_impl_2 Hcfg HS HN σ rop op1 op2 r a b Hr H1 H2 Hvr Hva Hvb)
      as (hint & σ' & Hk & Hpost).
    exists hint, σ'. rewrite (run_bind_ret _ _ _ _ _ Hk). cbn [andb when].
    split; [by rewrite run_bind, run_mret|exact Hpost].
  - destruct (run_static_mul_impl_0 Hcfg σ rop op1 op2 r a b Hr H1 H2 Hvr Hva Hvb)
      as (hint & σ' & Hk & Hpost & Hfail).
    rewrite (run_bind_ret _ _ _ _ _ Hk). cbn [andb].
    destruct (Z.eqb_spec hint 0) as [E0|E0]; cbn [when].
    + destruct (Hpost E0) as (R & -> & Hpre).
      assert (HaR : st_mp_alloc R = s_alloc) by apply Hpre.
      rewrite (run_bind_ret _ _ _ _ _
                 (run_zero_unused_limbs_at _ rop R (lookup_upd_eq _ _ _) HaR)).
      rewrite run_mret, upd_upd.
      exists hint, (upd σ rop (m_st (zero_unused_limbs R))). split; [done|].
      split; [|done]. intros _.
      exists (zero_unused_limbs R). split; [done|].
      exact (pre_valid_zero_unused Hcfg R _ Hpre).
    + exists hint, σ'. split; [by rewrite run_bind, run_mret|]. split; [done|exact Hfail].
Qed.

(** [mul] as a whole: the product at [rop], stored statically exactly
    when the static path was taken and the product fits. *)
Lemma run_mul σ rop op1 op2 ur u1 u2 :
  objs σ !! rop = Some ur → objs σ !! op1 = Some u1 → objs σ !! op2 = Some u2 →
  integer_valid ur → integer_valid u1 → integer_valid u2 →
  cache_valid (cache σ) →
  ∃ ur' c', mul rop op1 op2 σ = (Ret tt, State (<[rop := ur']> (objs σ)) c')
    ∧ cache_valid c' ∧ integer_valid ur'
    ∧ integer_value ur' = integer_value u1 * integer_value u2
    ∧ (is_static ur' = true ↔
       is_static ur && is_static u1 && is_static u2 = true
       ∧ Z.abs (integer_value u1 * integer_value u2) < 2 ^ (GMP_NUMB_BITS * SSize)).
Proof.
  intros Hr H1 H2 Hvr Hv1 Hv2 Hc.
  assert (Hback : ∀ n, 0 ≤ n ≤ 2 * SSize →
            ¬ (is_static ur && is_static u1 && is_static u2 = true
               ∧ Z.abs (integer_value u1 * integer_value u2)
                 < 2 ^ (GMP_NUMB_BITS * SSize)) →
            ∃ ur' c', (when (is_static ur) (promote rop n);;
                       d ← g_dy rop;
                       v1 ← mpz_view op1;
                       v2 ← mpz_view op2;
                       put_obj rop (m_dy (mpz_mul d v1 v2))) σ
                      = (Ret tt, State (<[rop := ur']> (objs σ)) c')
              ∧ cache_valid c' ∧ integer_valid ur'
              ∧ integer_value ur' = integer_value u1 * integer_value u2
              ∧ (is_static ur' = true ↔
                 is_static ur && is_static u1 && is_static u2 = true
                 ∧ Z.abs (integer_value u1 * integer_value u2)
                   < 2 ^ (GMP_NUMB_BITS * SSize))).
  { intros n Hn Hnot.
    assert (Hal : allocatable n) by (apply allocatable_1023; destruct Hcfg; lia).
    destruct (run_arith_backend_alloc mpz_mul Z.mul σ rop op1 op2 ur u1 u2 n
                (λ _ _ _, eq_refl) Hr H1 H2 Hvr Hv1 Hv2 Hc Hal)
      as (d' & c' & Hrun & Hc' & Hvd & Hval).
    exists (m_dy d'), c'. split; [done|]. split; [done|]. split; [done|].
    split; [done|].
    destruct (dynamic_facts d' Hvd) as (_ & -> & _). split; [discriminate|done]. }
  unfold mul.
  rewrite (run_bind_ret _ _ _ _ _ (run_is_static_at σ rop ur Hr)).
  rewrite (run_bind_ret _ _ _ _ _ (run_is_static_at σ op1 u1 H1)).
  rewrite (run_bind_ret _ _ _ _ _ (run_is_static_at σ op2 u2 H2)).
  destruct (is_static ur && is_static u1 && is_static u2) eqn:Eall.
  - pose proof Eall as Eall'.
    apply andb_prop in Eall' as [Eall' E2]. apply andb_prop in Eall' as [Er E1].
    rewrite (valid_is_static ur Hvr) in Er. rewrite (valid_is_static u1 Hv1) in E1.
    rewrite (valid_is_static u2 Hv2) in E2.
    destruct ur as [r|]; [|discriminate]. destruct u1 as [a|]; [|discriminate].
    destruct u2 as [b|]; [|discriminate].
    destruct (run_static_mul σ rop op1 op2 r a b Hr H1 H2 Hvr Hv1 Hv2)
      as (hint & σ' & Hk & Hpost & Hfail).
    rewrite (run_bind_ret _ _ _ _ _ Hk). cbn [andb].
    destruct (Z.eqb_spec hint 0) as [E0|E0].
    + destruct (Hpost E0) as (R & -> & HvR & HvalR).
      exists (m_st R), (cache σ). rewrite run_mret. split; [done|].
      split; [done|]. split; [done|]. split; [done|].
      destruct (static_facts Hcfg R HvR) as (_ & -> & _).
      split; [|done]. intros _. split; [done|].
      cbn [integer_value]. rewrite <- HvalR. by apply static_value_bound.
    + destruct (Hfail E0) as (-> & Hh & Hbig). apply Hback; [lia|].
      cbn [integer_value]. intros [_ Hlt]. lia.
  - rewrite run_bind, run_mret. cbn [andb]. apply Hback; [destruct Hcfg; lia|].
    by intros [? _].
Qed.

End MulRun.

(** X16. [mul(rop, op1, op2)] returns and leaves at [rop] a valid integer
    whose value is the product of the values the operands had, whatever
    the storage classes of the three objects, whichever kernel the build
    selects and whichever of the objects are the same; every other
    object is left as it was. *)
Theorem mul_correct (cfg : build_config) (Hcfg : config_ok cfg)
    (σ : state) (rop op1 op2 : loc) (ur u1 u2 : integer_union) :
  objs σ !! rop = Some ur → objs σ !! op1 = Some u1 → objs σ !! op2 = Some u2 →
  integer_valid ur → integer_valid u1 → integer_valid u2 →
  cache_valid (cache σ) →
  ∃ σ', mul rop op1 op2 σ = (Ret tt, σ')
    ∧ arith_post σ σ' rop (integer_value u1 * integer_value u2).
Proof.
  intros Hr H1 H2 Hvr Hv1 Hv2 Hc.
  destruct (run_mul Hcfg σ rop op1 op2 ur u1 u2 Hr H1 H2 Hvr Hv1 Hv2 Hc)
    as (ur' & c' & Hrun & Hc' & Hv' & Hval & _).
  eexists. split; [exact Hrun|]. by exists ur'.
Qed.

Lemma mul_correct_witness :
  let cfg := config64 2 in
  let u1 := m_st (StaticInt (-1) 2 [5; 7]) in
  let u2 := m_st (StaticInt (-1) (-1) [3; 0]) in
  let σ := State (<[1%positive := u1]> {[2%positive := u2]}) mpz_cache_default in
  ∃ σ', mul 1%positive 1%positive 2%positive σ = (Ret tt, σ')
    ∧ arith_post σ σ' 1%positive (integer_value u1 * integer_value u2).
Proof.
  intros cfg u1 u2 σ.
  refine (mul_correct cfg (config64_ok 2 _) σ 1%positive 1%positive 2%positive u1 u1 u2
            _ _ _ _ _ _ _).
  - lia.
  - reflexivity.
  - reflexivity.
  - reflexivity.
  - split; [split; [reflexivity | repeat apply List.Forall_cons; try apply List.Forall_nil; simpl; lia] | reflexivity].
  - split; [split; [reflexivity | repeat apply List.Forall_cons; try apply List.Forall_nil; simpl; lia] | reflexivity].
  - split; [split; [reflexivity | repeat apply List.Forall_cons; try apply List.Forall_nil; simpl; lia] | reflexivity].
  - reflexivity.
Defined.

(** X17. [mul(rop, op1, op2)] leaves the result in static storage exactly
    when all three objects were static and the magnitude of the product
    is below [2 ^ (GMP_NUMB_BITS * SSize)]; in every other case [rop]
    ends with dynamic storage.  In particular a static [rop] is promoted
    only when an operand is dynamic or the product does not fit, and a
    dynamic [rop] is never demoted. *)
Theorem mul_storage (cfg : build_config) (Hcfg : config_ok cfg)
    (σ : state) (rop op1 op2 : loc) (ur u1 u2 : integer_union) :
  objs σ !! rop = Some ur → objs σ !! op1 = Some u1 → objs σ !! op2 = Some u2 →
  integer_valid ur → integer_valid u1 → integer_valid u2 →
  cache_valid (cache σ) →
  ∃ σ' ur', mul rop op1 op2 σ = (Ret tt, σ') ∧ objs σ' !! rop = Some ur'
    ∧ (is_static ur' = true ↔
       is_static ur && is_static u1 && is_static u2 = true
       ∧ Z.abs (integer_value u1 * integer_value u2) < 2 ^ (GMP_NUMB_BITS * SSize)).
Proof.
  intros Hr H1 H2 Hvr Hv1 Hv2 Hc.
  destruct (run_mul Hcfg σ rop op1 op2 ur u1 u2 Hr H1 H2 Hvr Hv1 Hv2 Hc)
    as (ur' & c' & Hrun & Hc' & Hv' & Hval & Hst).
  eexists _, ur'. split; [exact Hrun|]. cbn [objs].
  split; [apply lookup_insert_eq|exact Hst].
Qed.

Lemma mul_storage_witness :
  let cfg := config64 2 in
  let ur := m_st (StaticInt (-1) 0 [0; 0]) in
  let u1 := m_st (StaticInt (-1) 2 [0; 1]) in
  let u2 := m_st (StaticInt (-1) (-2) [0; 1]) in
  let σ := State (<[1%positive := ur]> (<[2%positive := u1]> {[3%positive := u2]}))
             mpz_cache_default in
  ∃ σ' ur', mul 1%positive 2%positive 3%positive σ = (Ret tt, σ')
    ∧ objs σ' !! 1%positive = Some ur'
    ∧ (is_static ur' = true ↔
       is_static ur && is_static u1 && is_static u2 = true
       ∧ Z.abs (integer_value u1 * integer_value u2) < 2 ^ (GMP_NUMB_BITS * SSize)).
Proof.
  intros cfg ur u1 u2 σ.
  refine (mul_storage cfg (config64_ok 2 _) σ 1%positive 2%positive 3%positive ur u1 u2
            _ _ _ _ _ _ _).
  - lia.
  - reflexivity.
  - reflexivity.
  - reflexivity.
  - split; [split; [reflexivity | repeat apply List.Forall_cons; try apply List.Forall_nil; simpl; lia] | reflexivity].
  - split; [split; [reflexivity | repeat apply List.Forall_cons; try apply List.Forall_nil; simpl; lia] | reflexivity].
  - split; [split; [reflexivity | repeat apply List.Forall_cons; try apply List.Forall_nil; simpl; lia] | reflexivity].
  - reflexivity.
Defined.

(** ** Construction from the integral types *)

Section IntegralFacts.
Context {cfg : build_config} {ct : c_types}.

Lemma int_cast_id t x :
  int_type_ok t → int_min t ≤ x ≤ int_max t → int_cast t x = x.
Proof.
  destruct t as [|w|w]; cbn [int_type_ok int_min int_max int_cast]; intros Hw Hx.
  - destruct (Z.eqb_spec x 0); lia.
  - assert (Hp : 2 ^ w = 2 * 2 ^ (w - 1)).
    { rewrite <- Z.pow_succ_r by lia. f_equal. lia. }
    rewrite Z.mod_small by lia. lia.
  - apply Z.mod_small. lia.
Qed.

Lemma int_range_mono_signed w w' :
  1 ≤ w ≤ w' → int_min (cpp_signed w') ≤ int_min (cpp_signed w)
               ∧ int_max (cpp_signed w) ≤ int_max (cpp_signed w').
Proof.
  intros Hw. cbn [int_min int_max].
  assert (2 ^ (w - 1) ≤ 2 ^ (w' - 1)) by (apply Z.pow_le_mono_r; lia). lia.
Qed.

Lemma int_range_mono_unsigned w w' :
  0 ≤ w ≤ w' → int_max (cpp_unsigned w) ≤ int_max (cpp_unsigned w').
Proof.
  intros Hw. cbn [int_max].
  assert (2 ^ w ≤ 2 ^ w') by (apply Z.pow_le_mono_r; lia). lia.
Qed.

(** Every supported type is within [long long] below and
    [unsigned long long] above. *)
Lemma int_range_llong t x :
  c_types_ok ct → int_type_ok t → int_min t ≤ x ≤ int_max t →
  - 2 ^ (LLONG_BITS - 1) ≤ x < 2 ^ LLONG_BITS.
Proof.
  intros [HL HLL] Hw Hx.
  assert (Hp : 2 ^ LLONG_BITS = 2 * 2 ^ (LLONG_BITS - 1)).
  { rewrite <- Z.pow_succ_r by lia. f_equal. lia. }
  assert (Hq : 0 < 2 ^ (LLONG_BITS - 1)) by (apply Z.pow_pos_nonneg; lia).
  destruct t as [|w|w]; cbn [int_type_ok int_min int_max] in *.
  - lia.
  - assert (2 ^ (w - 1) ≤ 2 ^ (LLONG_BITS - 1)) by (apply Z.pow_le_mono_r; lia). lia.
  - assert (2 ^ w ≤ 2 ^ LLONG_BITS) by (apply Z.pow_le_mono_r; lia). lia.
Qed.

Lemma land_ulmax n : 0 ≤ LONG_BITS → Z.land n (int_max cpp_ulong) = n mod 2 ^ LONG_BITS.
Proof.
  intros HL. cbn [int_max cpp_ulong].
  replace (2 ^ LONG_BITS - 1) with (Z.ones LONG_BITS) by (rewrite Z.ones_equiv; lia).
  by apply Z.land_ones.
Qed.

Lemma land_chunk32 n : Z.land n (2 ^ 32 - 1) = n mod 2 ^ 32.
Proof.
  replace (2 ^ 32 - 1) with (Z.ones 32) by reflexivity. by apply Z.land_ones.
Qed.

End IntegralFacts.

Section IntegralCtor.
Context {cfg : build_config} {ct : c_types} (Hcfg : config_ok cfg) (Hct : c_types_ok ct).

(** The static integer with one limb written by [attempt_1limb_ctor]. *)
Lemma one_limb_static sg x :
  sg = 1 ∨ sg = -1 → 0 < x < 2 ^ GMP_NUMB_BITS →
  let s := StaticInt s_alloc sg (<[0%nat := limb_wrap x]> (replicate (Z.to_nat SSize) 0)) in
  static_int_valid s ∧ mpz_value (get_mpz_view s) = sg * x.
Proof.
  intros Hsg Hx s. subst s.
  pose proof (SSize_range _ Hcfg) as HSS.
  pose proof (numb_le_limb Hcfg) as Hnl.
  assert (Hpw : 2 ^ GMP_NUMB_BITS ≤ 2 ^ GMP_LIMB_BITS).
  { apply Z.pow_le_mono_r; [lia|]. unfold GMP_NUMB_BITS in *. destruct Hcfg. lia. }
  rewrite limb_wrap_small by lia.
  destruct (Z.to_nat SSize) as [|k] eqn:Ek; [lia|].
  cbn [replicate]. change (<[0%nat := x]> (0 :: replicate k 0)) with (x :: replicate k 0).
  split; [split; [split|]|].
  - cbn [m_limbs length]. rewrite length_replicate. lia.
  - cbn [m_limbs]. constructor; [lia|]. apply Forall_replicate.
    assert (0 < 2 ^ GMP_LIMB_BITS) by lia. lia.
  - apply dtor_checks_intro; cbn [st_mp_alloc st_mp_size m_limbs].
    + reflexivity.
    + destruct Hsg as [-> | ->]; lia.
    + intros _. replace (Z.to_nat (Z.abs sg)) with 1%nat by (destruct Hsg as [-> | ->]; lia).
      cbn [drop]. by apply Forall_replicate.
    + intros _. replace (Z.abs sg - 1) with 0 by (destruct Hsg as [-> | ->]; lia).
      unfold limb_at. change (Z.to_nat 0) with 0%nat. cbn [nth].
      rewrite (land_mask_small Hcfg) by lia. lia.
  - unfold get_mpz_view. cbn [st_mp_size m_limbs].
    replace sg with (sg * Z.of_nat 1) at 1 by lia.
    rewrite (mpz_value_signed sg 1 _ _ Hsg). cbn [take mpn_value]. rewrite take_0.
    cbn [mpn_value]. rewrite (land_mask_small Hcfg) by lia. ring.
Qed.

End IntegralCtor.

Section IntegralCtorLoops.
Context {cfg : build_config} {ct : c_types} (Hcfg : config_ok cfg) (Hct : c_types_ok ct).

(** The loop over the [unsigned long] chunks adds what is left of [n],
    scaled by the shifter, to the output. *)
Lemma uint_ctor_loop_spec rounds : ∀ n sh r0 v0,
  0 ≤ n < 2 ^ Z.of_nat rounds →
  ∃ r', uint_ctor_loop rounds n sh (mpz_put r0 v0)
        = mpz_put r' (v0 + mpz_value sh * 2 ^ LONG_BITS * n).
Proof.
  destruct Hct as [HL HLL].
  assert (HpL : 2 ≤ 2 ^ LONG_BITS).
  { change 2 with (2 ^ 1) at 1. apply Z.pow_le_mono_r; lia. }
  induction rounds as [|rounds IH]; intros n sh r0 v0 Hn.
  - cbn [uint_ctor_loop]. exists r0. f_equal. change (2 ^ Z.of_nat 0) with 1 in Hn.
    replace n with 0 by lia. lia.
  - cbn [uint_ctor_loop]. destruct (Z.eqb_spec n 0) as [->|Hnz].
    + exists r0. f_equal. lia.
    + rewrite Nat2Z.inj_succ, Z.pow_succ_r in Hn by lia.
      rewrite (land_ulmax n) by lia.
      assert (Hc : 0 ≤ n mod 2 ^ LONG_BITS < 2 ^ LONG_BITS) by (apply Z.mod_pos_bound; lia).
      rewrite (int_cast_id cpp_ulong) by (cbn; lia).
      rewrite Z.shiftr_div_pow2 by lia.
      assert (Hn' : 0 ≤ n / 2 ^ LONG_BITS < 2 ^ Z.of_nat rounds).
      { split; [apply Z.div_pos; lia|]. apply Z.div_lt_upper_bound; [lia|].
        assert (0 < 2 ^ Z.of_nat rounds) by (apply Z.pow_pos_nonneg; lia). nia. }
      unfold mpz_addmul_ui at 1.
      destruct (IH (n / 2 ^ LONG_BITS) (mpz_mul_2exp sh sh LONG_BITS) (mpz_put r0 v0)
                  (mpz_value (mpz_put r0 v0)
                   + mpz_value (mpz_mul_2exp sh sh LONG_BITS) * (n mod 2 ^ LONG_BITS)) Hn')
        as (r' & ->).
      exists r'. f_equal. unfold mpz_mul_2exp. rewrite !(mpz_put_value Hcfg).
      assert (Hp0 : 2 ^ LONG_BITS ≠ 0) by (clear -HpL; lia).
      pose proof (Z.div_mod n (2 ^ LONG_BITS) Hp0) as Hdm.
      rewrite Hdm at 3. ring.
Qed.

(** The same for the loop over 30-bit chunks of a signed value. *)
Lemma int_ctor_loop_spec rounds : ∀ n sh r0 v0 tmp,
  Z.abs n < 2 ^ Z.of_nat rounds →
  ∃ r', int_ctor_loop rounds n sh (mpz_put r0 v0) tmp
        = mpz_put r' (v0 + mpz_value sh * 2 ^ 30 * n).
Proof.
  destruct Hct as [HL HLL].
  induction rounds as [|rounds IH]; intros n sh r0 v0 tmp Hn.
  - cbn [int_ctor_loop]. exists r0. f_equal. change (2 ^ Z.of_nat 0) with 1 in Hn.
    replace n with 0 by lia. lia.
  - cbn [int_ctor_loop]. destruct (Z.eqb_spec n 0) as [->|Hnz].
    + exists r0. f_equal. lia.
    + rewrite Nat2Z.inj_succ, Z.pow_succ_r in Hn by lia.
      assert (Hrem : Z.abs (Z.rem n (2 ^ 30)) < 2 ^ 30).
      { assert (Hp0 : 2 ^ 30 ≠ 0) by (clear; lia).
        pose proof (Z.rem_bound_abs n (2 ^ 30) Hp0). clear -H. lia. }
      assert (H31 : 2 ^ 31 ≤ 2 ^ (LONG_BITS - 1)) by (apply Z.pow_le_mono_r; lia).
      rewrite (int_cast_id cpp_long) by (cbn; lia).
      assert (Hn' : Z.abs (Z.quot n (2 ^ 30)) < 2 ^ Z.of_nat rounds).
      { rewrite <- Z.quot_abs by lia. rewrite (Z.abs_eq (2 ^ 30)) by lia.
        rewrite Z.quot_div_nonneg by lia.
        apply Z.div_lt_upper_bound; [lia|].
        assert (0 < 2 ^ Z.of_nat rounds) by (apply Z.pow_pos_nonneg; lia). lia. }
      unfold mpz_addmul at 1.
      destruct (IH (Z.quot n (2 ^ 30)) (mpz_mul_2exp sh sh 30) (mpz_put r0 v0)
                  (mpz_value (mpz_put r0 v0)
                   + mpz_value (mpz_mul_2exp sh sh 30)
                     * mpz_value (mpz_set_si tmp (Z.rem n (2 ^ 30))))
                  (mpz_set_si tmp (Z.rem n (2 ^ 30))) Hn')
        as (r' & ->).
      exists r'. f_equal. unfold mpz_mul_2exp, mpz_set_si. rewrite !(mpz_put_value Hcfg).
      pose proof (Z.quot_rem' n (2 ^ 30)) as Hdm.
      rewrite Hdm at 3. ring.
Qed.

End IntegralCtorLoops.

Section IntegralCtorRun.
Context {cfg : build_config} {ct : c_types} (Hcfg : config_ok cfg) (Hct : c_types_ok ct).

Lemma numb_max_eq : GMP_NUMB_MAX = 2 ^ GMP_NUMB_BITS - 1.
Proof. reflexivity. Qed.

Lemma default_static_value :
  mpz_value (get_mpz_view (StaticInt s_alloc 0 (replicate (Z.to_nat SSize) 0))) = 0.
Proof. reflexivity. Qed.

Lemma attempt_unsigned_spec n ok s :
  0 ≤ n →
  attempt_1limb_ctor_unsigned (StaticInt s_alloc 0 (replicate (Z.to_nat SSize) 0)) n = (ok, s) →
  (ok = true → static_int_valid s ∧ mpz_value (get_mpz_view s) = n)
  ∧ (ok = false → s = StaticInt s_alloc 0 (replicate (Z.to_nat SSize) 0)).
Proof.
  intros Hn. unfold attempt_1limb_ctor_unsigned. cbn [st_mp_alloc m_limbs].
  destruct (Z.eqb_spec n 0) as [->|Hnz].
  { intros [= <- <-]. split; [|done]. intros _.
    split; [apply (static_int_default_valid Hcfg)|reflexivity]. }
  rewrite numb_max_eq. destruct (Z.leb_spec n (2 ^ GMP_NUMB_BITS - 1)) as [Hle|Hgt].
  - intros [= <- <-]. split; [|done]. intros _.
    destruct (one_limb_static Hcfg 1 n (or_introl eq_refl) ltac:(lia)) as [Hv Hval].
    split; [exact Hv|]. rewrite Hval. lia.
  - intros [= <- <-]. by split.
Qed.

Lemma attempt_signed_spec w n ok s :
  1 ≤ w ≤ LLONG_BITS → int_min (cpp_signed w) ≤ n ≤ int_max (cpp_signed w) →
  attempt_1limb_ctor_signed w (StaticInt s_alloc 0 (replicate (Z.to_nat SSize) 0)) n = (ok, s) →
  (ok = true → static_int_valid s ∧ mpz_value (get_mpz_view s) = n)
  ∧ (ok = false → s = StaticInt s_alloc 0 (replicate (Z.to_nat SSize) 0)).
Proof.
  intros Hw Hn. pose proof Hct as [HL HLL].
  unfold attempt_1limb_ctor_signed. cbn [st_mp_alloc m_limbs].
  destruct (Z.eqb_spec n 0) as [->|Hnz].
  { intros [= <- <-]. split; [|done]. intros _.
    split; [apply (static_int_default_valid Hcfg)|reflexivity]. }
  assert (Hpw : 2 ^ w = 2 * 2 ^ (w - 1)).
  { rewrite <- Z.pow_succ_r by lia. f_equal. lia. }
  assert (Hll : int_cast cpp_llong n = n).
  { apply int_cast_id; [cbn; lia|].
    pose proof (int_range_mono_signed w LLONG_BITS Hw) as Hm. unfold cpp_llong.
    clear -Hm Hn. lia. }
  rewrite Hll, numb_max_eq. cbn [int_min int_max] in Hn.
  destruct (Z.gtb_spec n 0) as [Hpos|Hneg]; cbn [andb].
  - cbn [int_cast]. rewrite (Z.mod_small n) by lia.
    destruct (Z.leb_spec n (2 ^ GMP_NUMB_BITS - 1)) as [Hle|Hgt].
    + intros [= <- <-]. split; [|done]. intros _.
      destruct (one_limb_static Hcfg 1 n (or_introl eq_refl) ltac:(lia)) as [Hv Hval].
      split; [exact Hv|]. rewrite Hval. lia.
    + destruct (Z.ltb_spec n 0) as [?|_]; [lia|]. cbn [andb].
      intros [= <- <-]. by split.
  - destruct (Z.ltb_spec n 0) as [Hlt|?]; [|lia]. cbn [andb].
    destruct (Z.geb_spec n (-9223372036854775807)) as [Hge|Hlow]; cbn [andb].
    + assert (H63 : 2 ^ 63 ≤ 2 ^ LLONG_BITS) by (apply Z.pow_le_mono_r; lia).
      assert (Hu : int_cast cpp_ullong (- n) = - n).
      { cbn [int_cast cpp_ullong]. apply Z.mod_small.
        change (2 ^ 63) with 9223372036854775808 in H63. lia. }
      rewrite Hu.
      destruct (Z.leb_spec (- n) (2 ^ GMP_NUMB_BITS - 1)) as [Hle|Hgt].
      * intros [= <- <-]. split; [|done]. intros _.
        destruct (one_limb_static Hcfg (-1) (- n) (or_intror eq_refl) ltac:(lia))
          as [Hv Hval].
        split; [exact Hv|]. rewrite Hval. lia.
      * intros [= <- <-]. by split.
    + intros [= <- <-]. by split.
Qed.

Lemma static_int_from_uint_spec n :
  0 ≤ n ≤ int_max cpp_ulong →
  let r := static_int_from_uint n mpz_raii_default in
  (fail_flag r.2 = false ∧ static_int_valid r.1 ∧ mpz_value (get_mpz_view r.1) = n)
  ∨ (∃ rop, r = ctor_from_mpz (StaticInt s_alloc 0 (replicate (Z.to_nat SSize) 0))
                  (MpzRaii (mpz_put rop n) false)).
Proof.
  intros Hn r. subst r. unfold static_int_from_uint.
  destruct (attempt_1limb_ctor_unsigned _ n) as [ok s] eqn:Ea.
  destruct (attempt_unsigned_spec n ok s ltac:(lia) Ea) as [Hok Hfail].
  destruct ok.
  - left. cbn [fst snd]. split; [reflexivity|]. by apply Hok.
  - right. rewrite (Hfail eq_refl). exists mpz_init. unfold mpz_set_ui.
    rewrite (int_cast_id cpp_ulong) by (cbn; cbn in Hn; destruct Hct; lia). reflexivity.
Qed.

Lemma static_int_from_uint_wide_spec w n :
  1 ≤ w → 0 ≤ n < 2 ^ w →
  let r := static_int_from_uint_wide w n mpz_raii_default in
  (fail_flag r.2 = false ∧ static_int_valid r.1 ∧ mpz_value (get_mpz_view r.1) = n)
  ∨ (∃ rop, r = ctor_from_mpz (StaticInt s_alloc 0 (replicate (Z.to_nat SSize) 0))
                  (MpzRaii (mpz_put rop n) false)).
Proof.
  intros Hw Hn r. subst r. pose proof Hct as [HL HLL]. unfold static_int_from_uint_wide.
  destruct (attempt_1limb_ctor_unsigned _ n) as [ok s] eqn:Ea.
  destruct (attempt_unsigned_spec n ok s ltac:(lia) Ea) as [Hok Hfail].
  destruct ok.
  - left. cbn [fst snd]. split; [reflexivity|]. by apply Hok.
  - right. rewrite (Hfail eq_refl). cbv zeta. cbn [mpz_raii_default m_mpz fail_flag].
    assert (HpL : 0 < 2 ^ LONG_BITS) by (apply Z.pow_pos_nonneg; lia).
    destruct (Z.leb_spec n (int_max cpp_ulong)) as [Hle|Hgt].
    + exists mpz_init. unfold mpz_set_ui.
      rewrite (int_cast_id cpp_ulong) by (cbn; cbn in Hle; lia). reflexivity.
    + rewrite (land_ulmax n) by lia.
      assert (Hc : 0 ≤ n mod 2 ^ LONG_BITS < 2 ^ LONG_BITS) by (apply Z.mod_pos_bound; lia).
      rewrite (int_cast_id cpp_ulong) by (cbn; lia).
      rewrite Z.shiftr_div_pow2 by lia. unfold mpz_set_ui.
      assert (Hq : 0 ≤ n / 2 ^ LONG_BITS < 2 ^ Z.of_nat (Z.to_nat w)).
      { rewrite Z2Nat.id by lia. split; [apply Z.div_pos; lia|].
        apply Z.div_lt_upper_bound; [lia|]. nia. }
      destruct (uint_ctor_loop_spec Hcfg Hct (Z.to_nat w) (n / 2 ^ LONG_BITS)
                  (mpz_put mpz_init 1) mpz_init (n mod 2 ^ LONG_BITS) Hq) as (r' & ->).
      exists r'. do 3 f_equal. rewrite (mpz_put_value Hcfg).
      assert (Hp0 : 2 ^ LONG_BITS ≠ 0) by lia.
      pose proof (Z.div_mod n (2 ^ LONG_BITS) Hp0) as Hdm. rewrite Hdm at 3. ring.
Qed.

Lemma static_int_from_int_spec w n :
  1 ≤ w ≤ LLONG_BITS → int_min (cpp_signed w) ≤ n ≤ int_max (cpp_signed w) →
  int_min cpp_long ≤ n ≤ int_max cpp_long →
  let r := static_int_from_int w n mpz_raii_default in
  (fail_flag r.2 = false ∧ static_int_valid r.1 ∧ mpz_value (get_mpz_view r.1) = n)
  ∨ (∃ rop, r = ctor_from_mpz (StaticInt s_alloc 0 (replicate (Z.to_nat SSize) 0))
                  (MpzRaii (mpz_put rop n) false)).
Proof.
  intros Hw Hn Hl r. subst r. unfold static_int_from_int.
  destruct (attempt_1limb_ctor_signed w _ n) as [ok s] eqn:Ea.
  destruct (attempt_signed_spec w n ok s Hw Hn Ea) as [Hok Hfail].
  destruct ok.
  - left. cbn [fst snd]. split; [reflexivity|]. by apply Hok.
  - right. rewrite (Hfail eq_refl). exists mpz_init. unfold mpz_set_si.
    rewrite (int_cast_id cpp_long) by (cbn; cbn in Hl; destruct Hct; lia). reflexivity.
Qed.

Lemma static_int_from_int_wide_spec w n :
  1 ≤ w ≤ LLONG_BITS → int_min (cpp_signed w) ≤ n ≤ int_max (cpp_signed w) →
  let r := static_int_from_int_wide w n mpz_raii_default in
  (fail_flag r.2 = false ∧ static_int_valid r.1 ∧ mpz_value (get_mpz_view r.1) = n)
  ∨ (∃ rop, r = ctor_from_mpz (StaticInt s_alloc 0 (replicate (Z.to_nat SSize) 0))
                  (MpzRaii (mpz_put rop n) false)).
Proof.
  intros Hw Hn r. subst r. pose proof Hct as [HL HLL]. unfold static_int_from_int_wide.
  destruct (attempt_1limb_ctor_signed w _ n) as [ok s] eqn:Ea.
  destruct (attempt_signed_spec w n ok s Hw Hn Ea) as [Hok Hfail].
  destruct ok.
  - left. cbn [fst snd]. split; [reflexivity|]. by apply Hok.
  - right. rewrite (Hfail eq_refl). cbv zeta. cbn [mpz_raii_default m_mpz fail_flag].
    destruct ((n <=? int_max cpp_long) && (n >=? int_min cpp_long)) eqn:Efit.
    + apply andb_prop in Efit as [H1%Z.leb_le H2%Z.geb_le].
      exists mpz_init. unfold mpz_set_si.
      rewrite (int_cast_id cpp_long) by (cbn; cbn in H1, H2; lia). reflexivity.
    + assert (Hrem : Z.abs (Z.rem n (2 ^ 30)) < 2 ^ 30).
      { assert (Hp0 : 2 ^ 30 ≠ 0) by (clear; lia).
        pose proof (Z.rem_bound_abs n (2 ^ 30) Hp0) as H. clear -H. lia. }
      assert (H31 : 2 ^ 31 ≤ 2 ^ (LONG_BITS - 1)) by (apply Z.pow_le_mono_r; lia).
      rewrite (int_cast_id cpp_long) by (cbn; lia). unfold mpz_set_si, mpz_set_ui.
      assert (Hpw : 2 ^ w = 2 * 2 ^ (w - 1)).
      { rewrite <- Z.pow_succ_r by lia. f_equal. lia. }
      assert (Hq : Z.abs (Z.quot n (2 ^ 30)) < 2 ^ Z.of_nat (Z.to_nat w)).
      { rewrite Z2Nat.id by lia.
        rewrite <- Z.quot_abs by lia. rewrite (Z.abs_eq (2 ^ 30)) by lia.
        rewrite Z.quot_div_nonneg by lia.
        apply Z.div_lt_upper_bound; [lia|]. cbn [int_min int_max] in Hn.
        assert (0 < 2 ^ (w - 1)) by (apply Z.pow_pos_nonneg; lia). lia. }
      destruct (int_ctor_loop_spec Hcfg Hct (Z.to_nat w) (Z.quot n (2 ^ 30))
                  (mpz_put mpz_init 1) mpz_init (Z.rem n (2 ^ 30)) mpz_init Hq) as (r' & ->).
      exists r'. do 3 f_equal. rewrite (mpz_put_value Hcfg).
      pose proof (Z.quot_rem' n (2 ^ 30)) as Hdm. rewrite Hdm at 3. ring.
Qed.

(** Whichever constructor is selected, the value ends either in a valid
    static integer or in the scratch descriptor handed to
    [ctor_from_mpz]. *)
Lemma static_int_from_integral_spec t n :
  int_type_ok t → int_min t ≤ n ≤ int_max t →
  let r := static_int_from_integral t n mpz_raii_default in
  (fail_flag r.2 = false ∧ static_int_valid r.1 ∧ mpz_value (get_mpz_view r.1) = n)
  ∨ (∃ rop, r = ctor_from_mpz (StaticInt s_alloc 0 (replicate (Z.to_nat SSize) 0))
                  (MpzRaii (mpz_put rop n) false)).
Proof.
  intros Ht Hn. pose proof Hct as [HL HLL].
  assert (H32 : 2 ^ 32 ≤ 2 ^ LONG_BITS) by (apply Z.pow_le_mono_r; lia).
  destruct t as [|w|w]; cbn [int_type_ok] in Ht; unfold static_int_from_integral.
  - destruct (Z.gtb_spec (int_max cpp_bool) (int_max cpp_ulong)) as [Hgt|Hle].
    + cbn in Hgt. lia.
    + apply static_int_from_uint_spec. cbn in Hn, Hle |- *. lia.
  - destruct (Z.gtb_spec (int_max (cpp_signed w)) (int_max cpp_long)) as [Hgt|Hle];
      cbn [orb]; [by apply static_int_from_int_wide_spec|].
    destruct (Z.ltb_spec (int_min (cpp_signed w)) (int_min cpp_long)) as [Hlt|Hge];
      [by apply static_int_from_int_wide_spec|].
    apply static_int_from_int_spec; [done|done|lia].
  - destruct (Z.gtb_spec (int_max (cpp_unsigned w)) (int_max cpp_ulong)) as [Hgt|Hle].
    + apply static_int_from_uint_wide_spec; [lia|]. cbn in Hn. lia.
    + apply static_int_from_uint_spec. cbn [int_min] in Hn. lia.
Qed.

(** Values of the integral types need few limbs. *)
Lemma integral_allocatable t n :
  int_type_ok t → int_min t ≤ n ≤ int_max t → allocatable (Z.of_nat (nlimbs_of n)).
Proof.
  intros Ht Hn. pose proof Hct as [HL HLL].
  pose proof (int_range_llong t n Hct Ht Hn) as Hr.
  pose proof (numb_bits_pos Hcfg) as Hnb.
  apply (allocatable_1023 Hcfg). split; [lia|].
  assert (Hle : Z.of_nat (nlimbs_of n) ≤ LLONG_BITS).
  { apply (nlimbs_of_le Hcfg); [lia|].
    assert (Hp : 2 ^ LLONG_BITS = 2 * 2 ^ (LLONG_BITS - 1)).
    { rewrite <- Z.pow_succ_r by lia. f_equal. lia. }
    assert (Hm : 2 ^ LLONG_BITS ≤ 2 ^ (GMP_NUMB_BITS * LLONG_BITS))
      by (apply Z.pow_le_mono_r; [lia|nia]).
    lia. }
  lia.
Qed.

Lemma run_from_integral this t n σ :
  int_type_ok t → int_min t ≤ n ≤ int_max t → cache_valid (cache σ) →
  ∃ u c', integer_union_from_integral this t n σ
          = (Ret tt, State (<[this := u]> (objs σ)) c')
    ∧ cache_valid c' ∧ integer_valid u
    ∧ integer_value u = n
    ∧ (is_static u = true ↔ Z.abs n < 2 ^ (GMP_NUMB_BITS * SSize)).
Proof.
  intros Ht Hn Hc. pose proof (integral_allocatable t n Ht Hn) as Hal.
  pose proof (SSize_range _ Hcfg) as HSS.
  unfold integer_union_from_integral.
  cbn [negb mpz_raii_default fail_flag assert].
  rewrite run_bind, run_mret.
  pose proof (static_int_from_integral_spec t n Ht Hn) as Hspec. cbv zeta in Hspec.
  unfold mpz_raii_default in Hspec.
  destruct (static_int_from_integral t n _) as [s mpz'] eqn:Ector.
  cbn [fst snd] in Hspec.
  rewrite (run_bind_ret _ _ _ _ _ (run_put_obj σ this (m_st s))).
  assert (Hfit : fail_flag mpz' = false ∧ static_int_valid s ∧ mpz_value (get_mpz_view s) = n
                 ∨ (s = static_int_default ∧ fail_flag mpz' = true
                    ∧ (∃ rop, m_mpz mpz' = mpz_put rop n)
                    ∧ 2 ^ (GMP_NUMB_BITS * SSize) ≤ Z.abs n)).
  { destruct Hspec as [?|(rop & Heq)]; [by left|].
    destruct (ctor_from_mpz_put Hcfg rop n false) as [Hfit Hbig]. cbv zeta in Hfit, Hbig.
    rewrite <- Heq in Hfit, Hbig. cbn [fst snd] in Hfit, Hbig.
    destruct (Z.le_gt_cases (Z.of_nat (nlimbs_of n)) SSize) as [Hle|Hgt].
    - left. exact (Hfit Hle).
    - right. specialize (Hbig Hgt). injection Hbig as -> ->. cbn [fail_flag m_mpz].
      split; [done|]. split; [done|]. split; [by exists rop|].
      destruct (Z.le_gt_cases (2 ^ (GMP_NUMB_BITS * SSize)) (Z.abs n)) as [?|Hlt]; [done|].
      apply (nlimbs_of_le Hcfg) in Hlt; lia. }
  destruct Hfit as [(Hflag & Hvs & Hval)|(-> & Hflag & (rop & Hm) & Hbig)]; rewrite Hflag.
  - rewrite run_mret. exists (m_st s), (cache σ).
    split; [done|]. split; [done|]. split; [done|]. split; [done|].
    destruct (static_facts Hcfg s Hvs) as (_ & -> & _). split; [|done]. intros _.
    rewrite <- Hval. by apply (static_value_bound Hcfg).
  - rewrite (run_bind_ret _ _ _ _ _
               (run_destroy_static _ this static_int_default (lookup_upd_eq _ _ _)
                  (static_int_default_valid Hcfg))).
    rewrite Hm.
    assert (Hal' : allocatable (mpz_size (mpz_put rop n))) by (by rewrite mpz_put_size).
    destruct (run_mpz_init_set_cache Hcfg (mpz_put rop n)
                (upd σ this (m_st static_int_default)) Hc Hal') as (m & c' & Hrun & Hc').
    rewrite (run_bind_ret _ _ _ _ _ Hrun), run_put_obj.
    destruct (mpz_set_facts Hcfg m (mpz_put rop n)) as (Hvd & Hst & Hvald & _).
    exists (m_dy (mpz_set m (mpz_put rop n))), c'.
    split; [unfold upd; cbn [objs cache]; by rewrite insert_insert_eq|].
    split; [done|]. split; [done|].
    split; [cbn [integer_value]; by rewrite Hvald, (mpz_put_value Hcfg)|].
    rewrite Hst. split; [discriminate|lia].
Qed.

End IntegralCtorRun.

(** X18. Constructing an integer from a value [n] of a supported
    integral type ([bool], or a signed or unsigned type not wider than
    [long long]) returns and leaves at the address a valid integer of
    value [n], whichever of the one-limb shortcut, the direct backend
    call and the chunk loops is taken; the storage is static exactly
    when the magnitude of [n] is below [2 ^ (GMP_NUMB_BITS * SSize)]. *)
Theorem from_integral_value (cfg : build_config) (ct : c_types)
    (Hcfg : config_ok cfg) (Hct : c_types_ok ct)
    (σ : state) (this : loc) (t : int_type) (n : Z) :
  int_type_ok t → int_min t ≤ n ≤ int_max t → cache_valid (cache σ) →
  ∃ u c', integer_union_from_integral this t n σ
          = (Ret tt, State (<[this := u]> (objs σ)) c')
    ∧ cache_valid c' ∧ integer_valid u
    ∧ integer_value u = n
    ∧ (is_static u = true ↔ Z.abs n < 2 ^ (GMP_NUMB_BITS * SSize)).
Proof. intros Ht Hn Hc. by apply run_from_integral. Qed.

Lemma from_integral_value_witness :
  let cfg := config64 1 in
  let ct := llp64 in
  let σ := State ∅ mpz_cache_default in
  let n := - 2 ^ 63 in
  ∃ u c', integer_union_from_integral 1%positive (cpp_signed 64) n σ
          = (Ret tt, State (<[1%positive := u]> (objs σ)) c')
    ∧ cache_valid c' ∧ integer_valid u
    ∧ integer_value u = n
    ∧ (is_static u = true ↔ Z.abs n < 2 ^ (GMP_NUMB_BITS * SSize)).
Proof.
  intros cfg ct σ n.
  refine (from_integral_value cfg ct (config64_ok 1 _) _ σ 1%positive (cpp_signed 64) n _ _ _).
  - lia.
  - vm_compute. repeat split; discriminate.
  - vm_compute. split; discriminate.
  - vm_compute. split; discriminate.
  - reflexivity.
Defined.

(** ** Conversion to the integral types *)

Section ConversionFacts.
Context {cfg : build_config} {ct : c_types} (Hcfg : config_ok cfg) (Hct : c_types_ok ct).

Lemma mpz_put_sgn rop v : mpz_sgn (mpz_put rop v) = Z.sgn v.
Proof.
  unfold mpz_sgn, mpz_put. cbn [mp_size].
  destruct (Z.eq_dec v 0) as [->|Hnz]; [reflexivity|].
  destruct (nlimbs_of_spec Hcfg v Hnz) as (Hpos & _).
  rewrite Z.sgn_mul, Z.sgn_sgn, (Z.sgn_pos (Z.of_nat _)) by lia. lia.
Qed.

(** The low 32 bits that the loops take from the scratch descriptor. *)
Lemma chunk_of q :
  Z.land (int_cast cpp_ullong (mpz_get_ui q)) (2 ^ 32 - 1) = Z.abs (mpz_value q) mod 2 ^ 32.
Proof.
  destruct Hct as [HL HLL]. unfold mpz_get_ui. cbn [int_cast cpp_ullong].
  assert (HpL : 0 < 2 ^ LONG_BITS) by (apply Z.pow_pos_nonneg; lia).
  assert (Hle : 2 ^ LONG_BITS ≤ 2 ^ LLONG_BITS) by (apply Z.pow_le_mono_r; lia).
  pose proof (Z.mod_pos_bound (Z.abs (mpz_value q)) (2 ^ LONG_BITS) HpL) as Hb.
  rewrite (Z.mod_small (_ mod _)) by lia.
  rewrite land_chunk32. apply Z.mod_mod_divide.
  exists (2 ^ (LONG_BITS - 32)). rewrite <- Z.pow_add_r by lia. f_equal. lia.
Qed.

Lemma ullong_cast_id x : 0 ≤ x ≤ int_max cpp_ullong → int_cast cpp_ullong x = x.
Proof. intros Hx. apply int_cast_id; [destruct Hct; cbn; lia|cbn in *; lia]. Qed.

(** [a > M / m] is the overflow test for [a * m > M]. *)
Lemma div_test a m M : 0 < m → 0 ≤ M → (a > M / m ↔ a * m > M).
Proof.
  intros Hm HM. split; intros H.
  - destruct (Z.le_gt_cases (a * m) M) as [Hle|Hgt]; [|lia].
    assert (a ≤ M / m) by (apply Z.div_le_lower_bound; lia). lia.
  - destruct (Z.le_gt_cases a (M / m)) as [Hle|Hgt]; [|lia].
    pose proof (Z.mul_div_le M m Hm). nia.
Qed.

Lemma conversion_uint_loop_spec rounds : ∀ q r m σ,
  0 < mpz_value q < 2 ^ (32 * Z.of_nat rounds) →
  0 ≤ r < m → m ≤ int_max cpp_ullong →
  conversion_uint_loop rounds q r m σ
  = (if r + mpz_value q * m <=? int_max cpp_ullong
     then Ret (r + mpz_value q * m) else Throw overflow_error, σ).
Proof.
  pose proof Hct as [HL HLL].
  remember (int_max cpp_ullong) as M eqn:EM.
  assert (HM : 2 ^ 64 - 1 ≤ M).
  { subst M. cbn. assert (2 ^ 64 ≤ 2 ^ LLONG_BITS) by (apply Z.pow_le_mono_r; lia). lia. }
  induction rounds as [|rounds IH]; intros q r m σ HQ Hr Hm.
  { change (32 * Z.of_nat 0) with 0 in HQ. change (2 ^ 0) with 1 in HQ. lia. }
  cbn [conversion_uint_loop]. rewrite <- EM. rewrite chunk_of.
  remember (mpz_value q) as Q eqn:EQ.
  rewrite (Z.abs_eq Q) by lia.
  assert (Hp32 : 0 < 2 ^ 32) by (clear; lia).
  pose proof (Z.mod_pos_bound Q (2 ^ 32) Hp32) as Hc.
  pose proof (Z.div_mod Q (2 ^ 32) ltac:(clear; lia)) as Hdm.
  remember (Q mod 2 ^ 32) as c eqn:Ec. remember (Q / 2 ^ 32) as Q' eqn:EQ'.
  assert (HQ' : 0 ≤ Q' < 2 ^ (32 * Z.of_nat rounds)).
  { subst Q'. split; [apply Z.div_pos; lia|]. apply Z.div_lt_upper_bound; [lia|].
    rewrite <- Z.pow_add_r by lia.
    replace (32 + 32 * Z.of_nat rounds) with (32 * Z.of_nat (S rounds)) by lia. lia. }
  assert (Hcm : 0 ≤ c * m) by (apply Z.mul_nonneg_nonneg; lia).
  assert (HQm : c * m + 2 ^ 32 * Q' * m = Q * m) by (rewrite Hdm; ring).
  assert (HQ'm : 0 ≤ 2 ^ 32 * Q' * m).
  { apply Z.mul_nonneg_nonneg; [apply Z.mul_nonneg_nonneg|]; lia. }
  destruct (Z.gtb_spec c (M / m)) as [Hgt|Hle].
  { apply Z.lt_gt, (div_test c m M) in Hgt; [|lia|lia].
    destruct (Z.leb_spec (r + Q * m) M) as [Hin|_]; [|reflexivity].
    clear -Hin Hgt HQm HQ'm Hr. lia. }
  assert (Hcm' : c * m ≤ M).
  { destruct (Z.le_gt_cases (c * m) M) as [?|Hgt]; [done|].
    apply Z.lt_gt, (div_test c m M) in Hgt; [|lia|lia]. lia. }
  rewrite (ullong_cast_id (c * m)) by (rewrite <- EM; lia).
  destruct (Z.gtb_spec r (M - c * m)) as [Hgt|Hle2].
  { destruct (Z.leb_spec (r + Q * m) M) as [Hin|_]; [|reflexivity].
    clear -Hin Hgt HQm HQ'm Hr. lia. }
  rewrite (ullong_cast_id (r + c * m)) by (rewrite <- EM; lia).
  unfold mpz_tdiv_q_2exp. rewrite mpz_put_sgn, <- EQ.
  rewrite Z.quot_div_nonneg, <- EQ' by lia.
  destruct (Z.eqb_spec (Z.sgn Q') 0) as [Hz|Hnz].
  { assert (Q' = 0) by (clear -Hz HQ'; lia). subst Q'.
    replace (r + Q * m) with (r + c * m) by (clear -HQm H; nia).
    destruct (Z.leb_spec (r + c * m) M) as [_|?]; [reflexivity|lia]. }
  assert (HQ'pos : 0 < Q') by (clear -Hnz HQ'; lia).
  destruct (Z.gtb_spec m (M / 2 ^ 32)) as [Hgt|Hle3].
  { apply Z.lt_gt, (div_test m (2 ^ 32) M) in Hgt; [|lia|lia].
    destruct (Z.leb_spec (r + Q * m) M) as [Hin|_]; [|reflexivity].
    assert (2 ^ 32 * 1 * m ≤ 2 ^ 32 * Q' * m).
    { apply Z.mul_le_mono_nonneg_r; [lia|]. apply Z.mul_le_mono_nonneg_l; lia. }
    clear -Hin Hgt HQm H Hcm Hr. lia. }
  assert (Hm' : m * 2 ^ 32 ≤ M).
  { destruct (Z.le_gt_cases (m * 2 ^ 32) M) as [?|Hgt]; [done|].
    apply Z.lt_gt, (div_test m (2 ^ 32) M) in Hgt; [|lia|lia]. lia. }
  rewrite (ullong_cast_id (m * 2 ^ 32)) by (rewrite <- EM; lia).
  rewrite (IH (mpz_put q Q') (r + c * m) (m * 2 ^ 32) σ).
  - rewrite (mpz_put_value Hcfg).
    replace (r + c * m + Q' * (m * 2 ^ 32)) with (r + Q * m) by (rewrite <- HQm; ring).
    reflexivity.
  - rewrite (mpz_put_value Hcfg). lia.
  - split; [lia|]. assert (c * m ≤ (2 ^ 32 - 1) * m) by (apply Z.mul_le_mono_nonneg_r; lia).
    lia.
  - exact Hm'.
Qed.

End ConversionFacts.

Section ConversionSigned.
Context {cfg : build_config} {ct : c_types} (Hcfg : config_ok cfg) (Hct : c_types_ok ct).

Lemma run_llong_arith x σ :
  int_min cpp_llong ≤ x ≤ int_max cpp_llong → llong_arith x σ = (Ret x, σ).
Proof.
  intros Hx. unfold llong_arith.
  destruct (Z.leb_spec (int_min cpp_llong) x); [|lia].
  destruct (Z.leb_spec x (int_max cpp_llong)); [|lia]. reflexivity.
Qed.

Lemma llong_cast_id x : int_min cpp_llong ≤ x ≤ int_max cpp_llong → int_cast cpp_llong x = x.
Proof. intros Hx. apply int_cast_id; [destruct Hct; cbn; lia|done]. Qed.

Lemma llong_bounds : int_min cpp_llong = - (int_max cpp_llong + 1) ∧ 2 ^ 63 - 1 ≤ int_max cpp_llong.
Proof.
  destruct Hct as [HL HLL]. cbn [int_min int_max cpp_llong].
  assert (2 ^ 63 ≤ 2 ^ (LLONG_BITS - 1)) by (apply Z.pow_le_mono_r; lia). lia.
Qed.

Lemma conversion_int_loop_pos rounds : ∀ q r m σ,
  0 < mpz_value q < 2 ^ (32 * Z.of_nat rounds) →
  0 ≤ r < m → m ≤ int_max cpp_llong →
  conversion_int_loop rounds true q r m σ
  = (if r + mpz_value q * m <=? int_max cpp_llong
     then Ret (r + mpz_value q * m) else Throw overflow_error, σ).
Proof.
  pose proof Hct as [HL HLL]. destruct llong_bounds as [Emin HM].
  remember (int_max cpp_llong) as M eqn:EM.
  induction rounds as [|rounds IH]; intros q r m σ HQ Hr Hm.
  { change (32 * Z.of_nat 0) with 0 in HQ. change (2 ^ 0) with 1 in HQ. lia. }
  cbn [conversion_int_loop]. rewrite <- EM, Emin. rewrite (chunk_of Hct).
  remember (mpz_value q) as Q eqn:EQ.
  rewrite (Z.abs_eq Q) by lia.
  assert (Hp32 : 0 < 2 ^ 32) by (clear; lia).
  pose proof (Z.mod_pos_bound Q (2 ^ 32) Hp32) as Hc.
  pose proof (Z.div_mod Q (2 ^ 32) ltac:(clear; lia)) as Hdm.
  remember (Q mod 2 ^ 32) as c eqn:Ec. remember (Q / 2 ^ 32) as Q' eqn:EQ'.
  assert (HQ' : 0 ≤ Q' < 2 ^ (32 * Z.of_nat rounds)).
  { subst Q'. split; [apply Z.div_pos; lia|]. apply Z.div_lt_upper_bound; [lia|].
    rewrite <- Z.pow_add_r by lia.
    replace (32 + 32 * Z.of_nat rounds) with (32 * Z.of_nat (S rounds)) by lia. lia. }
  assert (Hcm : 0 ≤ c * m) by (apply Z.mul_nonneg_nonneg; lia).
  assert (HQm : c * m + 2 ^ 32 * Q' * m = Q * m) by (rewrite Hdm; ring).
  assert (HQ'm : 0 ≤ 2 ^ 32 * Q' * m).
  { apply Z.mul_nonneg_nonneg; [apply Z.mul_nonneg_nonneg|]; lia. }
  rewrite (llong_cast_id c) by (rewrite <- EM, Emin; lia).
  cbn [andb negb orb]. rewrite !orb_false_r.
  assert (Hcm' : negb (c =? 0) && (m >? Z.quot M c) = false → c * m ≤ M).
  { intros Hf. destruct (Z.eqb_spec c 0) as [->|Hcnz]; [lia|]. cbn [negb andb] in Hf.
    rewrite Z.quot_div_nonneg in Hf by lia.
    destruct (Z.le_gt_cases (c * m) M) as [?|Hgt]; [done|].
    rewrite Z.mul_comm in Hgt.
    apply Z.lt_gt, (div_test m c M) in Hgt; [|lia|lia]. lia. }
  destruct (negb (c =? 0) && (m >? Z.quot M c)) eqn:E1.
  { apply andb_prop in E1 as [Hcnz%negb_true_iff%Z.eqb_neq Hgt%Z.gtb_gt].
    rewrite Z.quot_div_nonneg in Hgt by lia.
    apply (div_test m c M) in Hgt; [|lia|lia].
    destruct (Z.leb_spec (r + Q * m) M) as [Hin|_]; [|reflexivity].
    clear -Hin Hgt HQm HQ'm Hr. lia. }
  specialize (Hcm' eq_refl).
  rewrite (run_bind_ret _ _ _ _ _ (run_llong_arith (c * m) σ ltac:(rewrite <- EM, Emin; lia))).
  rewrite (run_bind_ret _ _ _ _ _
             (run_bind_ret _ _ _ _ _ (run_llong_arith (M - c * m) σ
                                        ltac:(rewrite <- EM, Emin; lia)))).
  destruct (Z.gtb_spec r (M - c * m)) as [Hgt|Hle2].
  { destruct (Z.leb_spec (r + Q * m) M) as [Hin|_]; [|reflexivity].
    clear -Hin Hgt HQm HQ'm Hr. lia. }
  rewrite (run_bind_ret _ _ _ _ _ (run_llong_arith (r + c * m) σ
                                     ltac:(rewrite <- EM, Emin; lia))).
  unfold mpz_tdiv_q_2exp. rewrite (mpz_put_sgn Hcfg), <- EQ.
  rewrite Z.quot_div_nonneg, <- EQ' by lia.
  destruct (Z.eqb_spec (Z.sgn Q') 0) as [Hz|Hnz].
  { assert (Q' = 0) by (clear -Hz HQ'; lia). subst Q'.
    replace (r + Q * m) with (r + c * m) by (clear -HQm H; nia).
    destruct (Z.leb_spec (r + c * m) M) as [_|?]; [reflexivity|lia]. }
  assert (HQ'pos : 0 < Q') by (clear -Hnz HQ'; lia).
  rewrite (Z.quot_div_nonneg M) by lia.
  destruct (Z.gtb_spec m (M / 2 ^ 32)) as [Hgt|Hle3].
  { apply Z.lt_gt, (div_test m (2 ^ 32) M) in Hgt; [|lia|lia].
    destruct (Z.leb_spec (r + Q * m) M) as [Hin|_]; [|reflexivity].
    assert (2 ^ 32 * 1 * m ≤ 2 ^ 32 * Q' * m).
    { apply Z.mul_le_mono_nonneg_r; [lia|]. apply Z.mul_le_mono_nonneg_l; lia. }
    clear -Hin Hgt HQm H Hcm Hr. lia. }
  assert (Hm' : m * 2 ^ 32 ≤ M).
  { destruct (Z.le_gt_cases (m * 2 ^ 32) M) as [?|Hgt]; [done|].
    apply Z.lt_gt, (div_test m (2 ^ 32) M) in Hgt; [|lia|lia]. lia. }
  rewrite (run_bind_ret _ _ _ _ _ (run_llong_arith (m * 2 ^ 32) σ
                                     ltac:(rewrite <- EM, Emin; lia))).
  rewrite (IH (mpz_put q Q') (r + c * m) (m * 2 ^ 32) σ).
  - rewrite (mpz_put_value Hcfg).
    replace (r + c * m + Q' * (m * 2 ^ 32)) with (r + Q * m) by (rewrite <- HQm; ring).
    reflexivity.
  - rewrite (mpz_put_value Hcfg). lia.
  - split; [lia|]. assert (c * m ≤ (2 ^ 32 - 1) * m) by (apply Z.mul_le_mono_nonneg_r; lia).
    lia.
  - exact Hm'.
Qed.

(** [m < (- A) / c], with the truncating division, is the overflow test
    for [m * c < - A]. *)
Lemma quot_test m c A : 0 < c → 0 ≤ A → (m < Z.quot (- A) c ↔ m * c < - A).
Proof.
  intros Hc HA. rewrite Z.quot_opp_l by lia. rewrite Z.quot_div_nonneg by lia.
  pose proof (div_test (- m) c A Hc HA) as Ht.
  replace (- m * c) with (- (m * c)) in Ht by ring. lia.
Qed.

Lemma conversion_int_loop_neg rounds : ∀ q r m σ,
  0 < - mpz_value q < 2 ^ (32 * Z.of_nat rounds) →
  m < r ≤ 0 → int_min cpp_llong ≤ m →
  conversion_int_loop rounds false q r m σ
  = (if int_min cpp_llong <=? r + (- mpz_value q) * m
     then Ret (r + (- mpz_value q) * m) else Throw overflow_error, σ).
Proof.
  pose proof Hct as [HL HLL]. destruct llong_bounds as [Emin HM].
  remember (int_max cpp_llong) as M eqn:EM.
  induction rounds as [|rounds IH]; intros q r m σ HQ Hr Hm.
  { change (32 * Z.of_nat 0) with 0 in HQ. change (2 ^ 0) with 1 in HQ. lia. }
  cbn [conversion_int_loop]. rewrite <- EM, Emin. rewrite (chunk_of Hct).
  rewrite Emin in Hm.
  remember (- mpz_value q) as Q eqn:EQ.
  replace (Z.abs (mpz_value q)) with Q by lia.
  assert (Hp32 : 0 < 2 ^ 32) by (clear; lia).
  pose proof (Z.mod_pos_bound Q (2 ^ 32) Hp32) as Hc.
  pose proof (Z.div_mod Q (2 ^ 32) ltac:(clear; lia)) as Hdm.
  remember (Q mod 2 ^ 32) as c eqn:Ec. remember (Q / 2 ^ 32) as Q' eqn:EQ'.
  assert (HQ' : 0 ≤ Q' < 2 ^ (32 * Z.of_nat rounds)).
  { subst Q'. split; [apply Z.div_pos; lia|]. apply Z.div_lt_upper_bound; [lia|].
    rewrite <- Z.pow_add_r by lia.
    replace (32 + 32 * Z.of_nat rounds) with (32 * Z.of_nat (S rounds)) by lia. lia. }
  assert (Hcm : c * m ≤ 0) by (apply Z.mul_nonneg_nonpos; lia).
  assert (HQm : c * m + 2 ^ 32 * Q' * m = Q * m) by (rewrite Hdm; ring).
  assert (HQ'm : 2 ^ 32 * Q' * m ≤ 0).
  { apply Z.mul_nonneg_nonpos; [apply Z.mul_nonneg_nonneg|]; lia. }
  rewrite (llong_cast_id c) by (rewrite <- EM, Emin; lia).
  cbn [andb negb orb].
  assert (Hcm' : negb (c =? 0) && (m <? Z.quot (- (M + 1)) c) = false → - (M + 1) ≤ c * m).
  { intros Hf. destruct (Z.eqb_spec c 0) as [->|Hcnz]; [lia|]. cbn [negb andb] in Hf.
    destruct (Z.le_gt_cases (- (M + 1)) (c * m)) as [?|Hgt]; [done|].
    rewrite Z.mul_comm in Hgt.
    apply (quot_test m c (M + 1)) in Hgt; [|lia|lia]. lia. }
  destruct (negb (c =? 0) && (m <? Z.quot (- (M + 1)) c)) eqn:E1.
  { apply andb_prop in E1 as [Hcnz%negb_true_iff%Z.eqb_neq Hgt%Z.ltb_lt].
    apply (quot_test m c (M + 1)) in Hgt; [|lia|lia].
    destruct (Z.leb_spec (- (M + 1)) (r + Q * m)) as [Hin|_]; [|reflexivity].
    clear -Hin Hgt HQm HQ'm Hr. lia. }
  specialize (Hcm' eq_refl).
  rewrite (run_bind_ret _ _ _ _ _ (run_llong_arith (c * m) σ ltac:(rewrite <- EM, Emin; lia))).
  rewrite (run_bind_ret _ _ _ _ _
             (run_bind_ret _ _ _ _ _ (run_llong_arith (- (M + 1) - c * m) σ
                                        ltac:(rewrite <- EM, Emin; lia)))).
  destruct (Z.ltb_spec r (- (M + 1) - c * m)) as [Hgt|Hle2].
  { destruct (Z.leb_spec (- (M + 1)) (r + Q * m)) as [Hin|_]; [|reflexivity].
    clear -Hin Hgt HQm HQ'm Hr. lia. }
  rewrite (run_bind_ret _ _ _ _ _ (run_llong_arith (r + c * m) σ
                                     ltac:(rewrite <- EM, Emin; lia))).
  unfold mpz_tdiv_q_2exp. rewrite (mpz_put_sgn Hcfg).
  replace (mpz_value q) with (- Q) by lia.
  rewrite Z.quot_opp_l by lia. rewrite Z.quot_div_nonneg, <- EQ' by lia.
  destruct (Z.eqb_spec (Z.sgn (- Q')) 0) as [Hz|Hnz].
  { assert (Q' = 0) by (clear -Hz HQ'; lia). subst Q'.
    replace (r + Q * m) with (r + c * m) by (clear -HQm H; nia).
    destruct (Z.leb_spec (- (M + 1)) (r + c * m)) as [_|?]; [reflexivity|lia]. }
  assert (HQ'pos : 0 < Q') by (clear -Hnz HQ'; lia).
  destruct (Z.ltb_spec m (Z.quot (- (M + 1)) (2 ^ 32))) as [Hgt|Hle3].
  { apply (quot_test m (2 ^ 32) (M + 1)) in Hgt; [|lia|lia].
    destruct (Z.leb_spec (- (M + 1)) (r + Q * m)) as [Hin|_]; [|reflexivity].
    assert (2 ^ 32 * Q' * m ≤ 2 ^ 32 * 1 * m).
    { apply Z.mul_le_mono_nonpos_r; [lia|]. apply Z.mul_le_mono_nonneg_l; lia. }
    clear -Hin Hgt HQm H Hcm Hr. lia. }
  assert (Hm' : - (M + 1) ≤ m * 2 ^ 32).
  { destruct (Z.le_gt_cases (- (M + 1)) (m * 2 ^ 32)) as [?|Hgt]; [done|].
    apply (quot_test m (2 ^ 32) (M + 1)) in Hgt; [|lia|lia]. lia. }
  rewrite (run_bind_ret _ _ _ _ _ (run_llong_arith (m * 2 ^ 32) σ
                                     ltac:(rewrite <- EM, Emin; lia))).
  rewrite (IH (mpz_put q (- Q')) (r + c * m) (m * 2 ^ 32) σ).
  - rewrite (mpz_put_value Hcfg), Z.opp_involutive, Emin.
    replace (r + c * m + Q' * (m * 2 ^ 32)) with (r + Q * m) by (rewrite <- HQm; ring).
    reflexivity.
  - rewrite (mpz_put_value Hcfg). lia.
  - split; [|lia].
    assert ((2 ^ 32 - 1) * m ≤ c * m) by (apply Z.mul_le_mono_nonpos_r; lia).
    lia.
  - rewrite Emin. exact Hm'.
Qed.

End ConversionSigned.

Section ConversionRun.
Context {cfg : build_config} {ct : c_types} (Hcfg : config_ok cfg) (Hct : c_types_ok ct).

Lemma rounds_enough m :
  mpz_value m ≠ 0 → Z.abs (mpz_value m) < 2 ^ (32 * Z.of_nat (conversion_rounds m)).
Proof.
  intros Hnz. unfold conversion_rounds. remember (Z.abs (mpz_value m)) as a eqn:Ea.
  assert (Ha : 0 < a) by lia.
  pose proof (Z.log2_spec a Ha) as [_ Hlt]. pose proof (Z.log2_nonneg a) as Hl.
  rewrite Nat2Z.inj_succ, Z2Nat.id by lia.
  assert (2 ^ Z.succ (Z.log2 a) ≤ 2 ^ (32 * Z.succ (Z.log2 a)))
    by (apply Z.pow_le_mono_r; lia).
  lia.
Qed.

Lemma static_one_limb_value s :
  static_int_valid s → Z.abs (st_mp_size s) = 1 →
  mpz_value (get_mpz_view s)
  = Z.sgn (st_mp_size s) * Z.land (limb_at (m_limbs s) 0) GMP_NUMB_MASK.
Proof.
  intros Hv H1. destruct (static_magnitude Hcfg s Hv) as (-> & _).
  rewrite H1. destruct Hv as [[Hlen _] _]. pose proof (SSize_range _ Hcfg) as HSS.
  destruct (m_limbs s) as [|x rest]; [cbn in Hlen; lia|].
  change (Z.to_nat 1) with 1%nat. cbn [take]. rewrite take_0. cbn [mpn_value].
  unfold limb_at. change (Z.to_nat 0) with 0%nat. cbn [nth]. f_equal. lia.
Qed.

Lemma static_zero_value s :
  static_int_valid s → st_mp_size s = 0 → mpz_value (get_mpz_view s) = 0.
Proof.
  intros Hv H0. pose proof (static_value_sgn Hcfg s Hv) as Hs. rewrite H0 in Hs.
  change (Z.sgn 0) with 0 in Hs. lia.
Qed.

Lemma unsigned_max_pos w : 1 ≤ w → 1 ≤ int_max (cpp_unsigned w).
Proof.
  intros Hw. cbn. assert (2 ^ 1 ≤ 2 ^ w) by (apply Z.pow_le_mono_r; lia). lia.
Qed.

Lemma signed_range_zero w : 1 ≤ w → int_min (cpp_signed w) ≤ 0 ≤ int_max (cpp_signed w).
Proof.
  intros Hw. cbn. assert (0 < 2 ^ (w - 1)) by (apply Z.pow_pos_nonneg; lia). lia.
Qed.

Lemma conversion_impl_uint_dynamic_spec w m σ :
  1 ≤ w ≤ LLONG_BITS → Z.sgn (mpz_value m) = Z.sgn (mp_size m) →
  conversion_impl_uint_dynamic (cpp_unsigned w) m σ
  = (if (int_min (cpp_unsigned w) <=? mpz_value m)
        && (mpz_value m <=? int_max (cpp_unsigned w))
     then Ret (mpz_value m) else Throw overflow_error, σ).
Proof.
  intros Hw Hsgn. pose proof Hct as [HL HLL].
  assert (Hw0 : 0 ≤ w ≤ LLONG_BITS) by lia.
  pose proof (int_range_mono_unsigned w LLONG_BITS Hw0) as Hmono.
  unfold conversion_impl_uint_dynamic, mpz_sgn. rewrite <- Hsgn.
  remember (mpz_value m) as v eqn:Ev. cbn [int_min].
  destruct (Z.ltb_spec (Z.sgn v) 0) as [Hneg|Hpos].
  { destruct (Z.leb_spec 0 v); [lia|reflexivity]. }
  destruct (Z.leb_spec 0 v) as [_|?]; [|lia]. cbn [andb].
  unfold mpz_fits_ulong_p, cpp_ulong. rewrite <- Ev. cbn [int_min].
  destruct (Z.leb_spec 0 v) as [_|?]; [|lia]. cbn [andb].
  assert (HpL : 0 < 2 ^ LONG_BITS) by (apply Z.pow_pos_nonneg; lia).
  destruct (Z.leb_spec v (int_max (cpp_unsigned LONG_BITS))) as [Hfit|Hbig].
  - unfold mpz_get_ui. rewrite <- Ev, Z.abs_eq by lia.
    cbn [int_max] in Hfit. rewrite Z.mod_small by lia.
    destruct (Z.leb_spec v (int_max (cpp_unsigned w))) as [Hle|Hgt]; [|reflexivity].
    rewrite (int_cast_id (cpp_unsigned w)) by (cbn [int_type_ok int_min]; lia).
    reflexivity.
  - assert (Hvnz : mpz_value m ≠ 0) by (cbn [int_max] in Hbig; lia).
    pose proof (rounds_enough m Hvnz) as Hr. rewrite <- Ev, Z.abs_eq in Hr by lia.
    rewrite run_bind. unfold mpz_set.
    rewrite (conversion_uint_loop_spec Hcfg Hct);
      [|rewrite (mpz_put_value Hcfg), <- Ev; cbn [int_max] in Hbig; lia|lia
       |cbn; assert (2 ^ 64 ≤ 2 ^ LLONG_BITS) by (apply Z.pow_le_mono_r; lia); lia].
    rewrite (mpz_put_value Hcfg), <- Ev, Z.add_0_l, Z.mul_1_r.
    destruct (Z.leb_spec v (int_max cpp_ullong)) as [Hin|Hout].
    + destruct (Z.gtb_spec v (int_max (cpp_unsigned w))) as [Hgt|Hle].
      * destruct (Z.leb_spec v (int_max (cpp_unsigned w))); [lia|reflexivity].
      * destruct (Z.leb_spec v (int_max (cpp_unsigned w))); [|lia].
        rewrite (int_cast_id (cpp_unsigned w)) by (cbn [int_type_ok int_min]; lia).
        reflexivity.
    + destruct (Z.leb_spec v (int_max (cpp_unsigned w))) as [Hle|_]; [|reflexivity].
      unfold cpp_ullong in Hout. lia.
Qed.

Lemma conversion_impl_uint_static_spec w s σ :
  1 ≤ w ≤ LLONG_BITS → static_int_valid s →
  conversion_impl_uint_static (cpp_unsigned w) s σ
  = (if (int_min (cpp_unsigned w) <=? mpz_value (get_mpz_view s))
        && (mpz_value (get_mpz_view s) <=? int_max (cpp_unsigned w))
     then Ret (mpz_value (get_mpz_view s)) else Throw overflow_error, σ).
Proof.
  intros Hw Hv. assert (Hw1 : 1 ≤ w) by lia. pose proof (unsigned_max_pos w Hw1) as Hmax.
  pose proof (static_value_sgn Hcfg s Hv) as Hsgn.
  unfold conversion_impl_uint_static.
  destruct (Z.eqb_spec (st_mp_size s) 0) as [E0|E0].
  { rewrite (static_zero_value s Hv E0). cbn [int_min].
    destruct (Z.leb_spec 0 (int_max (cpp_unsigned w))); [|lia]. cbn [Z.leb andb].
    rewrite (int_cast_id (cpp_unsigned w)) by (cbn [int_type_ok int_min]; lia).
    reflexivity. }
  destruct (Z.eqb_spec (st_mp_size s) 1) as [E1|E1].
  { rewrite (static_one_limb_value s Hv) by (rewrite E1; reflexivity).
    rewrite E1. change (Z.sgn 1) with 1. rewrite Z.mul_1_l.
    pose proof (land_mask_range Hcfg (limb_at (m_limbs s) 0)) as Hl.
    remember (Z.land (limb_at (m_limbs s) 0) GMP_NUMB_MASK) as l eqn:El. cbn [int_min].
    destruct (Z.leb_spec 0 l) as [_|?]; [|lia]. cbn [andb].
    destruct (Z.gtb_spec l (int_max (cpp_unsigned w))) as [Hgt|Hle].
    - destruct (Z.leb_spec l (int_max (cpp_unsigned w))); [lia|reflexivity].
    - destruct (Z.leb_spec l (int_max (cpp_unsigned w))); [|lia].
      rewrite (int_cast_id (cpp_unsigned w)) by (cbn [int_type_ok int_min]; lia).
      reflexivity. }
  destruct (Z.ltb_spec (st_mp_size s) 0) as [Hneg|Hpos].
  { cbn [int_min]. destruct (Z.leb_spec 0 (mpz_value (get_mpz_view s))); [lia|reflexivity]. }
  by apply conversion_impl_uint_dynamic_spec.
Qed.

Lemma conversion_impl_int_dynamic_spec w m σ :
  1 ≤ w ≤ LLONG_BITS →
  conversion_impl_int_dynamic (cpp_signed w) m σ
  = (if (int_min (cpp_signed w) <=? mpz_value m)
        && (mpz_value m <=? int_max (cpp_signed w))
     then Ret (mpz_value m) else Throw overflow_error, σ).
Proof.
  intros Hw. pose proof Hct as [HL HLL].
  pose proof (int_range_mono_signed w LLONG_BITS Hw) as [Hmono1 Hmono2].
  destruct (llong_bounds Hct) as [Emin HM].
  unfold conversion_impl_int_dynamic, mpz_get_si, mpz_fits_slong_p.
  remember (mpz_value m) as v eqn:Ev.
  destruct ((int_min cpp_long <=? v) && (v <=? int_max cpp_long)) eqn:Efit.
  { rewrite Z.geb_leb.
    destruct ((int_min (cpp_signed w) <=? v) && (v <=? int_max (cpp_signed w))) eqn:Ein;
      [|reflexivity].
    apply andb_prop in Ein as [H1%Z.leb_le H2%Z.leb_le].
    rewrite (int_cast_id (cpp_signed w)) by (cbn [int_type_ok]; lia). reflexivity. }
  assert (Hvnz : mpz_value m ≠ 0).
  { intros Hz. rewrite <- Ev in Hz. rewrite Hz in Efit.
    assert (HL1 : 1 ≤ LONG_BITS) by lia. pose proof (signed_range_zero LONG_BITS HL1) as Hr0. unfold cpp_long in Efit.
    rewrite (proj2 (Z.leb_le _ _) (proj1 Hr0)), (proj2 (Z.leb_le _ _) (proj2 Hr0)) in Efit.
    discriminate. }
  pose proof (rounds_enough m Hvnz) as Hr. rewrite <- Ev in Hr, Hvnz.
  unfold mpz_set. rewrite (mpz_put_sgn Hcfg), <- Ev. rewrite run_bind.
  destruct (Z.gtb_spec (Z.sgn v) 0) as [Hpos|Hneg].
  - rewrite (conversion_int_loop_pos Hcfg Hct);
      [|rewrite (mpz_put_value Hcfg); lia|lia|lia].
    rewrite (mpz_put_value Hcfg), Z.add_0_l, Z.mul_1_r.
    destruct (Z.leb_spec v (int_max cpp_llong)) as [Hin|Hout].
    + destruct (Z.leb_spec (int_min (cpp_signed w)) v) as [?|?];
      destruct (Z.leb_spec v (int_max (cpp_signed w))) as [?|?];
      destruct (Z.gtb_spec v (int_max (cpp_signed w))) as [?|?];
      destruct (Z.ltb_spec v (int_min (cpp_signed w))) as [?|?];
        cbn [andb orb]; try lia; try reflexivity.
      rewrite (int_cast_id (cpp_signed w)) by (cbn [int_type_ok]; lia). reflexivity.
    + destruct (Z.leb_spec v (int_max (cpp_signed w))) as [?|_];
        [unfold cpp_llong in Hout; lia|].
      by rewrite andb_false_r.
  - rewrite (conversion_int_loop_neg Hcfg Hct);
      [|rewrite (mpz_put_value Hcfg); lia|lia|lia].
    rewrite (mpz_put_value Hcfg), Z.add_0_l.
    replace (- v * -1) with v by lia.
    destruct (Z.leb_spec (int_min cpp_llong) v) as [Hin|Hout].
    + destruct (Z.leb_spec (int_min (cpp_signed w)) v) as [?|?];
      destruct (Z.leb_spec v (int_max (cpp_signed w))) as [?|?];
      destruct (Z.gtb_spec v (int_max (cpp_signed w))) as [?|?];
      destruct (Z.ltb_spec v (int_min (cpp_signed w))) as [?|?];
        cbn [andb orb]; try lia; try reflexivity.
      rewrite (int_cast_id (cpp_signed w)) by (cbn [int_type_ok]; lia). reflexivity.
    + destruct (Z.leb_spec (int_min (cpp_signed w)) v) as [?|_];
        [unfold cpp_llong in Hout; lia|].
      reflexivity.
Qed.

Lemma conversion_impl_int_static_spec w s σ :
  1 ≤ w ≤ LLONG_BITS → static_int_valid s →
  conversion_impl_int_static (cpp_signed w) s σ
  = (if (int_min (cpp_signed w) <=? mpz_value (get_mpz_view s))
        && (mpz_value (get_mpz_view s) <=? int_max (cpp_signed w))
     then Ret (mpz_value (get_mpz_view s)) else Throw overflow_error, σ).
Proof.
  intros Hw Hv. assert (Hw1 : 1 ≤ w) by lia. pose proof (signed_range_zero w Hw1) as Hr0.
  destruct (llong_bounds Hct) as [Emin HM].
  unfold conversion_impl_int_static. cbv zeta.
  destruct (Z.eqb_spec (st_mp_size s) 0) as [E0|E0].
  { rewrite (static_zero_value s Hv E0).
    destruct (Z.leb_spec (int_min (cpp_signed w)) 0); [|lia].
    destruct (Z.leb_spec 0 (int_max (cpp_signed w))); [|lia]. cbn [andb].
    rewrite (int_cast_id (cpp_signed w)) by (cbn [int_type_ok]; lia). reflexivity. }
  pose proof (land_mask_range Hcfg (limb_at (m_limbs s) 0)) as Hl.
  destruct (Z.eqb_spec (st_mp_size s) 1) as [E1|E1].
  { rewrite (static_one_limb_value s Hv) by (rewrite E1; reflexivity).
    rewrite E1. change (Z.sgn 1) with 1. rewrite Z.mul_1_l.
    remember (Z.land (limb_at (m_limbs s) 0) GMP_NUMB_MASK) as l eqn:El.
    destruct (Z.leb_spec (int_min (cpp_signed w)) l) as [_|?]; [|lia]. cbn [andb].
    destruct (Z.gtb_spec l (int_max (cpp_signed w))) as [Hgt|Hle].
    - destruct (Z.leb_spec l (int_max (cpp_signed w))); [lia|reflexivity].
    - destruct (Z.leb_spec l (int_max (cpp_signed w))); [|lia].
      rewrite (int_cast_id (cpp_signed w)) by (cbn [int_type_ok]; lia).
      reflexivity. }
  destruct ((st_mp_size s =? -1)
            && (Z.land (limb_at (m_limbs s) 0) GMP_NUMB_MASK <=? 9223372036854775807))
    eqn:Em1.
  { apply andb_prop in Em1 as [Es%Z.eqb_eq Hsmall%Z.leb_le].
    rewrite (static_one_limb_value s Hv) by (rewrite Es; reflexivity).
    rewrite Es. change (Z.sgn (-1)) with (-1).
    remember (Z.land (limb_at (m_limbs s) 0) GMP_NUMB_MASK) as l eqn:El.
    change (2 ^ 63) with 9223372036854775808 in HM.
    rewrite (llong_cast_id Hct l) by lia.
    replace (-1 * l) with (- l) by lia.
    destruct (Z.leb_spec (- l) (int_max (cpp_signed w))) as [_|?]; [|lia].
    rewrite andb_true_r.
    destruct (Z.ltb_spec (- l) (int_min (cpp_signed w))) as [Hlt|Hge].
    - destruct (Z.leb_spec (int_min (cpp_signed w)) (- l)); [lia|reflexivity].
    - destruct (Z.leb_spec (int_min (cpp_signed w)) (- l)); [|lia].
      rewrite (int_cast_id (cpp_signed w)) by (cbn [int_type_ok]; lia). reflexivity. }
  by apply conversion_impl_int_dynamic_spec.
Qed.

(** The conversion operator on a valid integer: the value when the
    target type can hold it, [overflow_error] otherwise; the truth value
    for [bool]. *)
Lemma run_operator_integral t l u σ :
  int_type_ok t → objs σ !! l = Some u → integer_valid u →
  operator_integral t l σ
  = (match t with
     | cpp_bool => Ret (if integer_value u =? 0 then 0 else 1)
     | _ => if (int_min t <=? integer_value u) && (integer_value u <=? int_max t)
            then Ret (integer_value u) else Throw overflow_error
     end, σ).
Proof.
  intros Ht Hl Hv. unfold operator_integral.
  rewrite (run_bind_ret _ _ _ _ _ (run_is_static_at σ l u Hl)).
  rewrite (valid_is_static u Hv). destruct u as [s|d]; cbn [integer_valid integer_value] in *.
  - destruct (static_facts Hcfg s Hv) as (Ha & _).
    rewrite (run_bind_ret _ _ _ _ _ (run_g_st _ _ _ Hl Ha)).
    destruct t as [|w|w]; cbn [int_type_ok] in Ht.
    + rewrite run_mret. unfold conversion_impl_bool_static. do 2 f_equal.
      pose proof (static_value_sgn Hcfg s Hv) as Hs.
      destruct (Z.eqb_spec (st_mp_size s) 0) as [E|E];
        destruct (Z.eqb_spec (mpz_value (get_mpz_view s)) 0) as [E'|E'];
        try reflexivity; exfalso; lia.
    + by apply conversion_impl_int_static_spec.
    + by apply conversion_impl_uint_static_spec.
  - destruct (dynamic_facts d Hv) as (Ha & _).
    rewrite (run_bind_ret _ _ _ _ _ (run_g_dy _ _ _ Hl Ha)).
    destruct t as [|w|w]; cbn [int_type_ok] in Ht.
    + rewrite run_mret. unfold conversion_impl_bool_dynamic, mpz_sgn. do 2 f_equal.
      pose proof (mpz_value_sgn Hcfg d Hv) as Hs.
      destruct (Z.eqb_spec (Z.sgn (mp_size d)) 0) as [E|E];
        destruct (Z.eqb_spec (mpz_value d) 0) as [E'|E'];
        try reflexivity; exfalso; lia.
    + by apply conversion_impl_int_dynamic_spec.
    + apply conversion_impl_uint_dynamic_spec; [done|]. by apply (mpz_value_sgn Hcfg).
Qed.

End ConversionRun.

(** X19. Converting a valid integer to a signed or unsigned integral
    type not wider than [long long] returns its value when the type can
    hold it and throws [overflow_error] otherwise, whatever the storage
    class and whichever of the one-limb shortcuts, the direct backend
    calls and the 32-bit chunk loops is taken; the object is not
    modified and the arithmetic in [long long] never overflows. *)
Theorem to_integral_spec (cfg : build_config) (ct : c_types)
    (Hcfg : config_ok cfg) (Hct : c_types_ok ct)
    (σ : state) (l : loc) (u : integer_union) (t : int_type) :
  int_type_ok t → t ≠ cpp_bool →
  objs σ !! l = Some u → integer_valid u →
  operator_integral t l σ
  = (if (int_min t <=? integer_value u) && (integer_value u <=? int_max t)
     then Ret (integer_value u) else Throw overflow_error, σ).
Proof.
  intros Ht Hb Hl Hv. rewrite (run_operator_integral Hcfg Hct t l u σ Ht Hl Hv).
  by destruct t.
Qed.

Lemma to_integral_spec_witness :
  let cfg := config64 2 in
  let ct := llp64 in
  let u := m_st (StaticInt (-1) (-2) [0; 9223372036854775808]) in
  let σ := State {[1%positive := u]} mpz_cache_default in
  let t := cpp_signed 64 in
  operator_integral t 1%positive σ
  = (if (int_min t <=? integer_value u) && (integer_value u <=? int_max t)
     then Ret (integer_value u) else Throw overflow_error, σ).
Proof.
  intros cfg ct u σ t.
  refine (to_integral_spec cfg ct (config64_ok 2 _) _ σ 1%positive u t _ _ _ _).
  - lia.
  - vm_compute. repeat split; discriminate.
  - vm_compute. split; discriminate.
  - discriminate.
  - reflexivity.
  - split; [split; [reflexivity | repeat apply List.Forall_cons; try apply List.Forall_nil; simpl; lia] | reflexivity].
Defined.

(** X20. A value of a supported integral type survives the round trip
    through an integer: constructing an integer from [n] and converting
    it back to the same type returns [n] ([true] and [false] for
    [bool]), for every value of the type and both storage classes. *)
Theorem integral_round_trip (cfg : build_config) (ct : c_types)
    (Hcfg : config_ok cfg) (Hct : c_types_ok ct)
    (σ : state) (this : loc) (t : int_type) (n : Z) :
  int_type_ok t → int_min t ≤ n ≤ int_max t → cache_valid (cache σ) →
  ∃ σ', integer_union_from_integral this t n σ = (Ret tt, σ')
    ∧ operator_integral t this σ' = (Ret n, σ').
Proof.
  intros Ht Hn Hc.
  destruct (run_from_integral Hcfg Hct this t n σ Ht Hn Hc)
    as (u & c' & Hrun & Hc' & Hv & Hval & _).
  eexists. split; [exact Hrun|].
  rewrite (run_operator_integral Hcfg Hct t this u _ Ht (lookup_insert_eq _ _ _) Hv).
  rewrite Hval. f_equal.
  destruct t as [|w|w]; cbn [int_min int_max] in Hn |- *.
  - destruct (Z.eqb_spec n 0); f_equal; lia.
  - destruct (Z.leb_spec (- 2 ^ (w - 1)) n); [|lia].
    destruct (Z.leb_spec n (2 ^ (w - 1) - 1)); [reflexivity|lia].
  - destruct (Z.leb_spec 0 n); [|lia].
    destruct (Z.leb_spec n (2 ^ w - 1)); [reflexivity|lia].
Qed.

Lemma integral_round_trip_witness :
  let cfg := config64 1 in
  let ct := llp64 in
  let σ := State ∅ mpz_cache_default in
  let n := 2 ^ 64 - 1 in
  ∃ σ', integer_union_from_integral 1%positive (cpp_unsigned 64) n σ = (Ret tt, σ')
    ∧ operator_integral (cpp_unsigned 64) 1%positive σ' = (Ret n, σ').
Proof.
  intros cfg ct σ n.
  refine (integral_round_trip cfg ct (config64_ok 1 _) _ σ 1%positive (cpp_unsigned 64) n
            _ _ _).
  - lia.
  - vm_compute. repeat split; discriminate.
  - vm_compute. split; discriminate.
  - vm_compute. split; discriminate.
  - reflexivity.
Defined.

(** ** Addition of operands of opposite signs *)

Section AddOpposite.
Context {cfg : build_config} (Hcfg : config_ok cfg).

(** The one-limb and the two-limb kernel have no failure exit when the
    signs differ. *)
Lemma static_add_impl_1_opposite rop op1 op2 asize1 asize2 sign1 sign2 :
  sign1 ≠ sign2 →
  never_false (static_add_impl_1 rop op1 op2 asize1 asize2 sign1 sign2).
Proof.
  intros Hs. unfold static_add_impl_1.
  destruct (Z.eqb_spec sign1 sign2) as [?|_]; [done|]. solve_never_false.
Qed.

Lemma static_add_impl_2_opposite rop op1 op2 asize1 asize2 sign1 sign2 :
  sign1 ≠ sign2 →
  never_false (static_add_impl_2 rop op1 op2 asize1 asize2 sign1 sign2).
Proof.
  intros Hs. unfold static_add_impl_2.
  destruct (Z.eqb_spec sign1 sign2) as [?|_]; [done|]. solve_never_false.
Qed.

(** The pre-check of the generic kernel, evaluated. *)
Lemma run_top_bit_set_exact σ op A :
  objs σ !! op = Some (m_st A) → static_int_valid A → st_mp_size A ≠ 0 →
  top_bit_set op (Z.abs (st_mp_size A)) σ = (Ret (full_top_bit A), σ).
Proof.
  intros Ho Hv Hnz.
  destruct (pre_valid_of_valid A Hv) as (Ht & Ha & Hs & _).
  assert (Hl : Z.of_nat (length (m_limbs A)) = SSize) by apply Ht.
  unfold top_bit_set, full_top_bit.
  destruct (Z.eqb_spec (Z.abs (st_mp_size A)) SSize) as [Heq|Hne]; [|reflexivity].
  assert (Hidx : 0 ≤ Z.abs (st_mp_size A) - 1 < Z.of_nat (length (m_limbs A))) by lia.
  by rewrite (run_bind_ret _ _ _ _ _ (run_load_limb σ op A _ Ho Ha Hidx)).
Qed.

(** The verdict of the generic kernel on two nonzero operands is the
    pre-check and nothing else. *)
Lemma static_add_impl_0_verdict σ σ' rop op1 op2 a b ok :
  objs σ !! op1 = Some (m_st a) → objs σ !! op2 = Some (m_st b) →
  static_int_valid a → static_int_valid b →
  st_mp_size a ≠ 0 → st_mp_size b ≠ 0 →
  static_add_impl_0 rop op1 op2 (Z.abs (st_mp_size a)) (Z.abs (st_mp_size b))
    (Z.sgn (st_mp_size a)) (Z.sgn (st_mp_size b)) σ = (Ret ok, σ') →
  ok = negb (full_top_bit a || full_top_bit b).
Proof.
  intros H1 H2 Hva Hvb Hnza Hnzb.
  destruct (pre_valid_of_valid a Hva) as (_ & Haa & _).
  destruct (pre_valid_of_valid b Hvb) as (_ & Hab & _).
  unfold static_add_impl_0.
  rewrite (run_bind_ret _ _ _ _ _ (run_load_size σ op1 a H1 Haa)).
  rewrite (run_bind_ret _ _ _ _ _ (run_load_size σ op2 b H2 Hab)).
  destruct (Z.eqb_spec (Z.sgn (st_mp_size b)) 0) as [?|_]; [lia|].
  destruct (Z.eqb_spec (Z.sgn (st_mp_size a)) 0) as [?|_]; [lia|].
  rewrite (run_bind_ret _ _ _ _ _ (run_top_bit_set_exact σ op1 a H1 Hva Hnza)).
  rewrite (run_bind_ret _ _ _ _ _ (run_top_bit_set_exact σ op2 b H2 Hvb Hnzb)).
  destruct (full_top_bit a || full_top_bit b).
  - intros [= <- _]. reflexivity.
  - rewrite run_bind.
    match goal with |- (let (_, _) := ?m σ in _) = _ → _ =>
      destruct (m σ) as [[[]|e| |] σ1] end; intros Hrun; try discriminate Hrun.
    by injection Hrun as <- _.
Qed.

(** The verdict of the static path of [add] on operands of opposite
    signs. *)
Lemma static_addsub_opposite_verdict σ σ' rop op1 op2 a b ok :
  objs σ !! op1 = Some (m_st a) → objs σ !! op2 = Some (m_st b) →
  static_int_valid a → static_int_valid b →
  st_mp_size a * st_mp_size b < 0 →
  static_addsub true rop op1 op2 σ = (Ret ok, σ') →
  ok = negb ((static_add_algo =? 0) && (full_top_bit a || full_top_bit b)).
Proof.
  intros H1 H2 Hva Hvb Hopp.
  destruct (pre_valid_of_valid a Hva) as (_ & Haa & _).
  destruct (pre_valid_of_valid b Hvb) as (_ & Hab & _).
  assert (Hnza : st_mp_size a ≠ 0) by (clear -Hopp; nia).
  assert (Hnzb : st_mp_size b ≠ 0) by (clear -Hopp; nia).
  assert (Hsg : Z.sgn (st_mp_size a) ≠ Z.sgn (st_mp_size b)).
  { clear -Hopp. intros E.
    destruct (Z.sgn_spec (st_mp_size a)) as [[? Ea]|[[? Ea]|[? Ea]]];
      destruct (Z.sgn_spec (st_mp_size b)) as [[? Eb]|[[? Eb]|[? Eb]]];
      rewrite Ea, Eb in E; try discriminate E; nia. }
  unfold static_addsub.
  rewrite (run_bind_ret _ _ _ _ _ (run_load_size σ op1 a H1 Haa)).
  rewrite (run_bind_ret _ _ _ _ _ (run_load_size σ op2 b H2 Hab)).
  rewrite !asize_sign_spec. rewrite run_bind.
  destruct (static_add_impl rop op1 op2 _ _ _ _ σ) as [[k|e| |] σ1] eqn:Hk;
    try (intros Hrun; discriminate Hrun).
  rewrite run_bind.
  destruct (when _ _ σ1) as [[[]|e| |] σ2]; intros Hrun; try discriminate Hrun.
  injection Hrun as <- _.
  unfold static_add_impl in Hk.
  destruct (static_add_algo_cases (cfg := cfg)) as [(E & _)|[(E & _)|E]]; rewrite E in Hk |- *.
  - change (1 =? 1) with true in Hk. change (1 =? 0) with false. cbv iota in Hk.
    destruct k; [reflexivity|].
    by destruct (static_add_impl_1_opposite _ _ _ _ _ _ _ Hsg _ _ Hk).
  - change (2 =? 1) with false in Hk. change (2 =? 2) with true in Hk.
    change (2 =? 0) with false. cbv iota in Hk.
    destruct k; [reflexivity|].
    by destruct (static_add_impl_2_opposite _ _ _ _ _ _ _ Hsg _ _ Hk).
  - change (0 =? 1) with false in Hk. change (0 =? 2) with false in Hk.
    change (0 =? 0) with true. cbv iota in Hk. cbn [andb].
    by apply (static_add_impl_0_verdict σ σ1 rop op1 op2 a b).
Qed.

(** [add] on static operands of opposite signs: the sum, in static
    storage unless the generic kernel gave up on its pre-check. *)
Lemma run_add_opposite σ rop op1 op2 r a b :
  objs σ !! rop = Some (m_st r) → objs σ !! op1 = Some (m_st a) →
  objs σ !! op2 = Some (m_st b) →
  static_int_valid r → static_int_valid a → static_int_valid b →
  cache_valid (cache σ) →
  st_mp_size a * st_mp_size b < 0 →
  ∃ σ' u, add rop op1 op2 σ = (Ret tt, σ')
    ∧ objs σ' = <[rop := u]> (objs σ) ∧ cache_valid (cache σ')
    ∧ integer_valid u
    ∧ integer_value u = integer_value (m_st a) + integer_value (m_st b)
    ∧ (is_static u = true
       ↔ static_add_algo ≠ 0 ∨ full_top_bit a || full_top_bit b = false)
    ∧ (is_static u = true → σ' = upd σ rop u).
Proof.
  intros Hr H1 H2 Hvr Hva Hvb Hc Hopp.
  destruct (run_static_addsub Hcfg σ true rop op1 op2 r a b Hr H1 H2 Hvr Hva Hvb
              (or_introl eq_refl)) as (ok & σ1 & Hk & Hpost & Hfail).
  pose proof (static_addsub_opposite_verdict σ σ1 rop op1 op2 a b ok
                H1 H2 Hva Hvb Hopp Hk) as Hok.
  assert (Hiff : ok = true
                 ↔ static_add_algo ≠ 0 ∨ full_top_bit a || full_top_bit b = false).
  { rewrite Hok. destruct (Z.eqb_spec static_add_algo 0) as [E|E]; cbn [andb negb].
    - destruct (full_top_bit a || full_top_bit b); cbn [negb]; split; auto.
      intros [?|?]; [done|discriminate].
    - split; auto. }
  unfold add.
  rewrite (run_bind_ret _ _ _ _ _ (run_is_static_at σ rop _ Hr)).
  rewrite (run_bind_ret _ _ _ _ _ (run_is_static_at σ op1 _ H1)).
  rewrite (run_bind_ret _ _ _ _ _ (run_is_static_at σ op2 _ H2)).
  rewrite (valid_is_static (m_st r) Hvr), (valid_is_static (m_st a) Hva),
    (valid_is_static (m_st b) Hvb). cbn [andb].
  rewrite (run_bind_ret _ _ _ _ _ Hk). destruct ok.
  - destruct (Hpost eq_refl) as (R & -> & HvR & HvalR).
    exists (upd σ rop (m_st R)), (m_st R). rewrite run_mret.
    split; [done|]. split; [done|]. split; [done|]. split; [done|].
    split; [done|]. rewrite (valid_is_static (m_st R) HvR). split; [|done].
    split; [intros _; by apply Hiff|done].
  - rewrite (Hfail eq_refl).
    assert (Hal : allocatable (SSize + 1))
      by (apply (allocatable_1023 Hcfg); destruct Hcfg; lia).
    destruct (run_arith_backend_alloc Hcfg mpz_add Z.add σ rop op1 op2
                (m_st r) (m_st a) (m_st b) (SSize + 1) (λ _ _ _, eq_refl)
                Hr H1 H2 Hvr Hva Hvb Hc Hal) as (d' & c' & Hrun & Hc' & Hvd & Hvald).
    rewrite (valid_is_static (m_st r) Hvr) in Hrun.
    exists (State (<[rop := m_dy d']> (objs σ)) c'), (m_dy d').
    split; [exact Hrun|]. split; [done|]. split; [done|]. split; [done|].
    split; [exact Hvald|].
    destruct (dynamic_facts d' Hvd) as (_ & -> & _).
    split; [|discriminate]. split; [discriminate|].
    intros Hs. apply Hiff in Hs. discriminate Hs.
Qed.

End AddOpposite.

(** C5 (as stated, refuted). On a build that uses the generic addition
    kernel (here [SSize == 3], 64-bit limbs) two static operands of
    opposite signs that both fill the three limbs make the static
    kernel fail although the sum fits: with [a = 2^191 + 1] and
    [b = -2^191] the kernel returns [false], [add] promotes [r], and the
    sum [1] ends in dynamic storage. *)
Lemma add_generic_full_opposite_fails :
  let cfg := config64 3 in
  let r := m_st (StaticInt (-1) 0 [0; 0; 0]) in
  let a := m_st (StaticInt (-1) 3 [1; 0; 2 ^ 63]) in
  let b := m_st (StaticInt (-1) (-3) [0; 0; 2 ^ 63]) in
  let σ := State (<[1%positive := r]> (<[2%positive := a]> {[3%positive := b]}))
                 mpz_cache_default in
  is_static a = true ∧ is_static b = true
  ∧ size_word a = SSize ∧ size_word b = - SSize
  ∧ integer_value a + integer_value b = 1
  ∧ static_addsub true 1%positive 2%positive 3%positive σ = (Ret false, σ)
  ∧ (∃ σ' u, add 1%positive 2%positive 3%positive σ = (Ret tt, σ')
             ∧ objs σ' !! 1%positive = Some u
             ∧ is_static u = false ∧ integer_value u = 1)
  ∧ ¬ (∃ σ' u, add 1%positive 2%positive 3%positive σ = (Ret tt, σ')
               ∧ objs σ' !! 1%positive = Some u ∧ is_static u = true).
Proof.
  intros cfg r a b σ.
  split; [reflexivity|]. split; [reflexivity|]. split; [reflexivity|].
  split; [reflexivity|]. split; [reflexivity|].
  split; [vm_compute; reflexivity|].
  split.
  - eexists _, _. split; [vm_compute; reflexivity|].
    split; [vm_compute; reflexivity|]. split; reflexivity.
  - intros (σ' & u & Hrun & Hu & Hst).
    vm_compute in Hrun. injection Hrun as <-. vm_compute in Hu. injection Hu as <-.
    discriminate Hst.
Qed.

(** C5 (amended). Let [a] and [b] be static integers of opposite signs,
    for instance two that both fill the buffer.  [add(r, a, b)] on a
    static [r] returns and leaves at [r] a valid integer that denotes
    the sum, and nothing else changes.  With the one-limb and the
    two-limb kernel ([SSize] 1 or 2 and no nail bits) the static kernel
    never fails on them and the result is in static storage.  The
    generic kernel gives up, before it looks at the signs, exactly when
    an operand fills the buffer with the top bit of its top limb set;
    [add] then promotes [r] and the sum ends in dynamic storage, and
    otherwise it stays static.  The destination may be one of the
    operands.  On a 64-bit build with [SSize == 2], [add(r, a, b)] with
    [a = 2^127 - 1] and [b = -2^127] leaves [r] static with size [-1]
    and limbs [1, 0], that is [r == -1]. *)
Theorem add_opposite_signs :
  (∀ (cfg : build_config) (σ : state) (rop op1 op2 : loc) (r a b : static_int),
     config_ok cfg →
     objs σ !! rop = Some (m_st r) →
     objs σ !! op1 = Some (m_st a) →
     objs σ !! op2 = Some (m_st b) →
     static_int_valid r → static_int_valid a → static_int_valid b →
     cache_valid (cache σ) →
     st_mp_size a * st_mp_size b < 0 →
     ∃ σ' u, add rop op1 op2 σ = (Ret tt, σ')
       ∧ objs σ' = <[rop := u]> (objs σ) ∧ cache_valid (cache σ')
       ∧ integer_valid u
       ∧ integer_value u = integer_value (m_st a) + integer_value (m_st b)
       ∧ (is_static u = true
          ↔ static_add_algo ≠ 0 ∨ full_top_bit a || full_top_bit b = false)
       ∧ (is_static u = true → σ' = upd σ rop u))
  ∧ let cfg := config64 2 in
    let r := m_st (StaticInt (-1) 0 [0; 0]) in
    let a := m_st (StaticInt (-1) 2 [2 ^ 64 - 1; 2 ^ 63 - 1]) in
    let b := m_st (StaticInt (-1) (-2) [0; 2 ^ 63]) in
    let r' := m_st (StaticInt (-1) (-1) [1; 0]) in
    let σ := State (<[1%positive := r]> (<[2%positive := a]> {[3%positive := b]}))
                   mpz_cache_default in
    integer_value a = 2 ^ 127 - 1
    ∧ integer_value b = - 2 ^ 127
    ∧ static_addsub true 1%positive 2%positive 3%positive σ
      = (Ret true, upd σ 1%positive r')
    ∧ add 1%positive 2%positive 3%positive σ = (Ret tt, upd σ 1%positive r')
    ∧ is_static r' = true
    ∧ integer_value r' = -1.
Proof.
  split.
  - intros cfg σ rop op1 op2 r a b Hcfg Hr H1 H2 Hvr Hva Hvb Hc Hopp.
    by apply (run_add_opposite Hcfg σ rop op1 op2 r a b).
  - intros cfg r a b r' σ.
    split; [reflexivity|]. split; [reflexivity|].
    split; [vm_compute; reflexivity|]. split; [vm_compute; reflexivity|].
    split; reflexivity.
Qed.

Lemma add_opposite_signs_witness :
  let cfg := config64 3 in
  let r := StaticInt (-1) 0 [0; 0; 0] in
  let a := StaticInt (-1) 3 [1; 0; 2 ^ 63] in
  let b := StaticInt (-1) (-3) [0; 0; 2 ^ 63] in
  let σ := State (<[1%positive := m_st r]> (<[2%positive := m_st a]> {[3%positive := m_st b]}))
                 mpz_cache_default in
  ∃ σ' u, add 1%positive 2%positive 3%positive σ = (Ret tt, σ')
    ∧ objs σ' = <[1%positive := u]> (objs σ) ∧ cache_valid (cache σ')
    ∧ integer_valid u
    ∧ integer_value u = integer_value (m_st a) + integer_value (m_st b)
    ∧ (is_static u = true
       ↔ static_add_algo ≠ 0 ∨ full_top_bit a || full_top_bit b = false)
    ∧ (is_static u = true → σ' = upd σ 1%positive u).
Proof.
  intros cfg r a b σ.
  refine (proj1 add_opposite_signs cfg σ 1%positive 2%positive 3%positive r a b
            (config64_ok 3 _) _ _ _ _ _ _ _ _).
  - lia.
  - reflexivity.
  - reflexivity.
  - reflexivity.
  - split; [split; [reflexivity | repeat apply List.Forall_cons; try apply List.Forall_nil; simpl; lia] | reflexivity].
  - split; [split; [reflexivity | repeat apply List.Forall_cons; try apply List.Forall_nil; simpl; lia] | reflexivity].
  - split; [split; [reflexivity | repeat apply List.Forall_cons; try apply List.Forall_nil; simpl; lia] | reflexivity].
  - reflexivity.
  - reflexivity.
Defined.
